(** * Hold and booking engine of the ticket-booking backend

    A shallow embedding of [packages/shared/src/index.ts],
    [packages/backend/src/config.ts],
    [packages/backend/src/services/holdService.ts],
    [packages/backend/src/services/bookingService.ts], the routes
    [packages/backend/src/routes/holds.ts] and
    [packages/backend/src/routes/bookings.ts], and the ticket store,
    selector and countdown of the frontend.

    Modelling conventions.
    - The SQLite tables are lists of rows in insertion order: [INSERT]
      appends, [DELETE] filters, [UPDATE] maps, [.get] is the first match
      and [.all] is the list of matches.  That is the order in which
      SQLite answers the queries on [holds], [bookings] and
      [booking_items], which it searches by an equality on an indexed
      column or not by an index at all.  [getInventory] is answered from
      the index of the primary key of [ticket_inventory], in the order of
      the key.
    - JavaScript numbers that hold quantities, prices and epoch
      milliseconds are integers ([Z]).  The routes do not check that a
      requested quantity is an integer: what is proved below is proved of
      requests and calls with integer quantities.
    - A timestamp column holds the instant it denotes, in epoch
      milliseconds, and [new Date()] and SQLite's [datetime('now')] read
      the same instant [now], which every operation receives as an
      argument.  JavaScript compares [Date]s as instants.  SQLite compares
      timestamps as texts: a column written by [toISOString()] reads
      [YYYY-MM-DDTHH:MM:SS.sssZ] and [datetime('now')] reads
      [YYYY-MM-DD HH:MM:SS], both in UTC, and the section on timestamps
      below keeps of a text what decides such a comparison.  Years have
      four digits, so that the date texts are ordered as the days are.
    - The [FOREIGN KEY] of [holds] and [bookings] on [concerts(id)] is not
      modelled: in the code an [INSERT] for a concert that is not in
      [concerts] throws.  A concert that has an inventory row is in
      [concerts].  For another concert [createOrUpdateHolds] writes a row
      only when a selection asks for a negative quantity, and
      [processBooking] only when no selection asks for anything; the
      routes make neither call.
    - [uuidv4()] is a counter kept in the state: the only property of the
      generator that is used is that it never returns the same value twice.
    - [Math.random()] is an argument of [processBooking].
    - [withTransaction] runs its body; with that exception none of the
      bodies below throws, so every transaction commits.  *)

From Stdlib Require Import ZArith List String Ascii Bool Lia QArith Sorted.
Import ListNotations.
Open Scope Z_scope.

(* ------------------------------------------------------------------ *)
(** ** Shared types ([packages/shared/src/index.ts]) *)

Inductive TicketTier : Type := VIP | FRONT_ROW | GA.

Definition tier_eqb (a b : TicketTier) : bool :=
  match a, b with
  | VIP, VIP | FRONT_ROW, FRONT_ROW | GA, GA => true
  | _, _ => false
  end.

Module TicketTierInfo.
Record t : Type := mk { tier : TicketTier; name : string; price : Z }.
End TicketTierInfo.

Definition TICKET_TIERS (tier : TicketTier) : TicketTierInfo.t :=
  match tier with
  | VIP => TicketTierInfo.mk VIP "VIP" 10000
  | FRONT_ROW => TicketTierInfo.mk FRONT_ROW "Front Row" 5000
  | GA => TicketTierInfo.mk GA "General Admission" 1000
  end.

Module LIMITS.
Definition MAX_TICKETS_PER_TIER : Z := 10.
Definition MAX_TICKETS_PER_ORDER : Z := 20.
Definition PAYMENT_FAILURE_RATE : Q := (15 # 100)%Q.
End LIMITS.

(** [packages/backend/src/config.ts] *)
Module HOLD_CONFIG.
Definition holdDurationMs : Z := 10 * 60 * 1000.
Definition inactivityTimeoutMs : Z := 3 * 60 * 1000.
Definition gracePeriodMs : Z := 60 * 1000.
Definition hardCapMs : Z := 15 * 60 * 1000.
End HOLD_CONFIG.

Module TicketSelection.
Record t : Type := mk { tier : TicketTier; quantity : Z }.
End TicketSelection.

Inductive BookingStatus : Type := PENDING | CONFIRMED | FAILED | CANCELLED.

Module BookingItem.
Record t : Type := mk
  { tier : TicketTier; quantity : Z; pricePerTicket : Z; subtotal : Z }.
End BookingItem.

(** Values of [uuidv4()]. *)
Definition Uuid : Type := nat.

Module Booking.
Record t : Type := mk
  { id : Uuid; sessionId : string; concertId : string;
    items : list BookingItem.t; totalAmount : Z; status : BookingStatus;
    createdAt : Z; confirmedAt : option Z }.
End Booking.

(* ------------------------------------------------------------------ *)
(** ** Rows of the tables ([db/database.ts], the [...Row] interfaces) *)

Module InventoryRow.
Record t : Type := mk
  { concert_id : string; tier : TicketTier;
    total_quantity : Z; sold_quantity : Z }.
End InventoryRow.

Module HoldRow.
Record t : Type := mk
  { id : Uuid; session_id : string; concert_id : string;
    tier : TicketTier; quantity : Z;
    created_at : Z; expires_at : Z; last_activity_at : Z }.
End HoldRow.

(** [Hold] has the fields of [HoldRow] under camel-case names, and
    [rowToHold] copies them one by one. *)
Definition Hold : Type := HoldRow.t.
Definition rowToHold (row : HoldRow.t) : Hold := row.

Module BookingRow.
Record t : Type := mk
  { id : Uuid; session_id : string; concert_id : string;
    total_amount : Z; status : BookingStatus;
    created_at : Z; confirmed_at : option Z }.
End BookingRow.

Module BookingItemRow.
Record t : Type := mk
  { id : nat; booking_id : Uuid; tier : TicketTier; quantity : Z;
    price_per_ticket : Z; subtotal : Z }.
End BookingItemRow.

(** The database, and the state of the uuid generator next to it. *)
Record World : Type := mkWorld
  { ticket_inventory : list InventoryRow.t;
    holds : list HoldRow.t;
    bookings : list BookingRow.t;
    booking_items : list BookingItemRow.t;
    uuid_state : nat }.

Definition set_holds (w : World) (hs : list HoldRow.t) : World :=
  mkWorld (ticket_inventory w) hs (bookings w) (booking_items w) (uuid_state w).

Definition set_ticket_inventory (w : World) (inv : list InventoryRow.t) : World :=
  mkWorld inv (holds w) (bookings w) (booking_items w) (uuid_state w).

Definition set_bookings (w : World) (bs : list BookingRow.t) : World :=
  mkWorld (ticket_inventory w) (holds w) bs (booking_items w) (uuid_state w).

Definition set_booking_items (w : World) (bis : list BookingItemRow.t) : World :=
  mkWorld (ticket_inventory w) (holds w) (bookings w) bis (uuid_state w).

(** [uuidv4()] *)
Definition uuidv4 (w : World) : Uuid * World :=
  (uuid_state w,
   mkWorld (ticket_inventory w) (holds w) (bookings w) (booking_items w)
           (S (uuid_state w))).

(** Texts of the [message] fields; the interpolated values are the
    arguments. *)
Inductive Message : Type :=
| MaxPerTierAllowed (limit : Z)
| MaxPerOrderAllowed (limit : Z)
| SomeNoLongerAvailable
| NoActiveHoldsFound
| InactivityDetected
| NoHoldFoundFor (tierName : string)
| HoldIsOnlyFor (tierName : string) (held requested : Z)
| InvalidTicketTier (tier : TicketTier)
| OnlyAvailable (available : Z) (tierName : string) (requested : Z)
| PaymentDeclined
| PaymentSuccessful.

(* ------------------------------------------------------------------ *)
(** ** SQL predicates *)

(** *** Timestamps as SQLite compares them

    A timestamp text, as far as a comparison of two of them goes: the ten
    characters of the UTC date, as the number of the day; the character
    that follows the date; and the time of day, in milliseconds since
    midnight. *)
Module Timestamp.
Record t : Type := mk { date : Z; separator : ascii; time : Z }.
End Timestamp.

Definition MS_PER_DAY : Z := 24 * 60 * 60 * 1000.

(** The UTC day of an instant, counted from the epoch. *)
Definition utc_date (ms : Z) : Z := ms / MS_PER_DAY.

(** [new Date(ms).toISOString()]: [YYYY-MM-DDTHH:MM:SS.sssZ] *)
Definition toISOString (ms : Z) : Timestamp.t :=
  Timestamp.mk (utc_date ms) "T" (ms mod MS_PER_DAY).

(** [datetime('now')]: [YYYY-MM-DD HH:MM:SS], without the milliseconds. *)
Definition datetime_now (now : Z) : Timestamp.t :=
  Timestamp.mk (utc_date now) " " (now mod MS_PER_DAY / 1000 * 1000).

(** [a < b] on two texts: by the date, then by the character after the
    date, then by the time of day. *)
Definition text_ltb (a b : Timestamp.t) : bool :=
  (Timestamp.date a <? Timestamp.date b)
  || ((Timestamp.date a =? Timestamp.date b)
      && ((nat_of_ascii (Timestamp.separator a)
           <? nat_of_ascii (Timestamp.separator b))%nat
          || (Ascii.eqb (Timestamp.separator a) (Timestamp.separator b)
              && (Timestamp.time a <? Timestamp.time b)))).

(** [expires_at > datetime('now')], where [expires_at] was written by
    [toISOString()]. *)
Definition not_expired (now : Z) (h : HoldRow.t) : bool :=
  text_ltb (datetime_now now) (toISOString (HoldRow.expires_at h)).

(** [session_id = ? AND concert_id = ?] *)
Definition of_session_concert (sessionId concertId : string) (h : HoldRow.t) : bool :=
  String.eqb (HoldRow.session_id h) sessionId
  && String.eqb (HoldRow.concert_id h) concertId.

(** [session_id = ? AND concert_id = ? AND tier = ?] *)
Definition of_session_concert_tier
  (sessionId concertId : string) (tier : TicketTier) (h : HoldRow.t) : bool :=
  of_session_concert sessionId concertId h && tier_eqb (HoldRow.tier h) tier.

(** [concert_id = ? AND tier = ?] on [holds] *)
Definition of_concert_tier (concertId : string) (tier : TicketTier) (h : HoldRow.t) : bool :=
  String.eqb (HoldRow.concert_id h) concertId && tier_eqb (HoldRow.tier h) tier.

(** [concert_id = ? AND tier = ?] on [ticket_inventory] *)
Definition inv_of_concert_tier
  (concertId : string) (tier : TicketTier) (r : InventoryRow.t) : bool :=
  String.eqb (InventoryRow.concert_id r) concertId
  && tier_eqb (InventoryRow.tier r) tier.

(** [SUM(quantity)] over a list of hold rows, [COALESCE]d to 0. *)
Definition sum_quantity (hs : list HoldRow.t) : Z :=
  fold_right (fun h acc => HoldRow.quantity h + acc) 0 hs.

(** [SELECT total_quantity, sold_quantity FROM ticket_inventory
     WHERE concert_id = ? AND tier = ?] with [.get] *)
Definition select_inventory (w : World) (concertId : string) (tier : TicketTier)
  : option InventoryRow.t :=
  find (inv_of_concert_tier concertId tier) (ticket_inventory w).

(** [SELECT COALESCE(SUM(quantity), 0) FROM holds
     WHERE concert_id = ? AND tier = ? AND expires_at > datetime('now')] *)
Definition heldQuantity (now : Z) (w : World) (concertId : string) (tier : TicketTier) : Z :=
  sum_quantity
    (filter (fun h => of_concert_tier concertId tier h && not_expired now h) (holds w)).

(* ------------------------------------------------------------------ *)
(** ** holdService.ts *)

Definition getAvailableQuantity
  (now : Z) (w : World) (concertId : string) (tier : TicketTier) : Z :=
  match select_inventory w concertId tier with
  | None => 0
  | Some inventory =>
      InventoryRow.total_quantity inventory
      - InventoryRow.sold_quantity inventory
      - heldQuantity now w concertId tier
  end.

Definition getHoldsForSession (now : Z) (w : World) (sessionId : string) : list Hold :=
  map rowToHold
    (filter (fun h => String.eqb (HoldRow.session_id h) sessionId && not_expired now h)
            (holds w)).

Definition getHoldsForConcert
  (now : Z) (w : World) (sessionId concertId : string) : list Hold :=
  map rowToHold
    (filter (fun h => of_session_concert sessionId concertId h && not_expired now h)
            (holds w)).

Module HoldsResult.
Record t : Type := mk
  { success : bool; holds : list Hold; message : option Message;
    unavailable : option (list TicketSelection.t) }.
End HoldsResult.

(** Accumulators of the loop of [createOrUpdateHolds]. *)
Record HoldsLoop : Type := mkHoldsLoop
  { lp_world : World;
    lp_unavailable : list TicketSelection.t;
    lp_holdResults : list Hold }.

(** One iteration of [for (const selection of selections)] inside the
    transaction of [createOrUpdateHolds]. *)
Definition holds_iteration
  (now expiresAt : Z) (sessionId concertId : string)
  (acc : HoldsLoop) (selection : TicketSelection.t) : HoldsLoop :=
  let w := lp_world acc in
  let tier := TicketSelection.tier selection in
  if TicketSelection.quantity selection =? 0 then
    mkHoldsLoop
      (set_holds w
         (filter (fun h => negb (of_session_concert_tier sessionId concertId tier h))
                 (holds w)))
      (lp_unavailable acc) (lp_holdResults acc)
  else
    let existingHold :=
      find (of_session_concert_tier sessionId concertId tier) (holds w) in
    let currentlyHeld :=
      match existingHold with Some h => HoldRow.quantity h | None => 0 end in
    let additionalNeeded := TicketSelection.quantity selection - currentlyHeld in
    if (additionalNeeded >? 0)
       && (additionalNeeded >? getAvailableQuantity now w concertId tier)
    then
      mkHoldsLoop w
        (lp_unavailable acc
         ++ [TicketSelection.mk tier (TicketSelection.quantity selection)])
        (lp_holdResults acc)
    else
      match existingHold with
      | Some existing =>
          let updated (h : HoldRow.t) :=
            HoldRow.mk (HoldRow.id h) (HoldRow.session_id h) (HoldRow.concert_id h)
                       (HoldRow.tier h) (TicketSelection.quantity selection)
                       (HoldRow.created_at h) expiresAt now in
          mkHoldsLoop
            (set_holds w
               (map (fun h => if Nat.eqb (HoldRow.id h) (HoldRow.id existing)
                              then updated h else h)
                    (holds w)))
            (lp_unavailable acc)
            (lp_holdResults acc
             ++ [HoldRow.mk (HoldRow.id existing) sessionId concertId tier
                            (TicketSelection.quantity selection)
                            (HoldRow.created_at existing) expiresAt now])
      | None =>
          let (holdId, w1) := uuidv4 w in
          let row :=
            HoldRow.mk holdId sessionId concertId tier
                       (TicketSelection.quantity selection) now expiresAt now in
          mkHoldsLoop (set_holds w1 (holds w1 ++ [row]))
                      (lp_unavailable acc) (lp_holdResults acc ++ [row])
      end.

Definition createOrUpdateHolds
  (now : Z) (sessionId concertId : string) (selections : list TicketSelection.t)
  (w : World) : HoldsResult.t * World :=
  if existsb (fun selection =>
                TicketSelection.quantity selection >? LIMITS.MAX_TICKETS_PER_TIER)
             selections
  then
    (HoldsResult.mk false []
       (Some (MaxPerTierAllowed LIMITS.MAX_TICKETS_PER_TIER)) None, w)
  else
    let totalQuantity :=
      fold_left (fun sum s => sum + TicketSelection.quantity s) selections 0 in
    if totalQuantity >? LIMITS.MAX_TICKETS_PER_ORDER then
      (HoldsResult.mk false []
         (Some (MaxPerOrderAllowed LIMITS.MAX_TICKETS_PER_ORDER)) None, w)
    else
      let expiresAt := now + HOLD_CONFIG.holdDurationMs in
      let final :=
        fold_left (holds_iteration now expiresAt sessionId concertId)
                  selections (mkHoldsLoop w [] []) in
      match lp_unavailable final with
      | _ :: _ =>
          (HoldsResult.mk false (lp_holdResults final)
             (Some SomeNoLongerAvailable) (Some (lp_unavailable final)),
           lp_world final)
      | [] =>
          (HoldsResult.mk true (lp_holdResults final) None None, lp_world final)
      end.

Module HeartbeatResult.
Record t : Type := mk
  { success : bool; holds : list Hold; expiresAt : option Z;
    message : option Message }.
End HeartbeatResult.

(** [holds.reduce((oldest, h) => new Date(h.created_at) <
    new Date(oldest.created_at) ? h : oldest)] on a non-empty array whose
    first element is [first]. *)
Definition oldest_hold (first : HoldRow.t) (rest : list HoldRow.t) : HoldRow.t :=
  fold_left
    (fun oldest h =>
       if HoldRow.created_at h <? HoldRow.created_at oldest then h else oldest)
    rest first.

(** [UPDATE holds SET expires_at = ?, last_activity_at = ?
     WHERE session_id = ? AND concert_id = ?] *)
Definition update_expiry
  (sessionId concertId : string) (newExpiresAt now : Z) (hs : list HoldRow.t)
  : list HoldRow.t :=
  map (fun h =>
         if of_session_concert sessionId concertId h
         then HoldRow.mk (HoldRow.id h) (HoldRow.session_id h) (HoldRow.concert_id h)
                         (HoldRow.tier h) (HoldRow.quantity h)
                         (HoldRow.created_at h) newExpiresAt now
         else h)
      hs.

Definition processHeartbeat
  (now : Z) (sessionId concertId : string) (lastActivityAt : Z)
  (isTabVisible : bool) (w : World) : HeartbeatResult.t * World :=
  let holds0 :=
    filter (fun h => of_session_concert sessionId concertId h && not_expired now h)
           (holds w) in
  match holds0 with
  | [] => (HeartbeatResult.mk false [] None (Some NoActiveHoldsFound), w)
  | first :: rest =>
      let extend (newExpiresAt0 : Z) :=
        let oldestHold := oldest_hold first rest in
        let hardCapEnd := HoldRow.created_at oldestHold + HOLD_CONFIG.hardCapMs in
        let newExpiresAt :=
          if newExpiresAt0 >? hardCapEnd then hardCapEnd else newExpiresAt0 in
        let w' :=
          set_holds w (update_expiry sessionId concertId newExpiresAt now (holds w)) in
        let updatedHolds :=
          filter (of_session_concert sessionId concertId) (holds w') in
        (HeartbeatResult.mk true (map rowToHold updatedHolds) (Some newExpiresAt) None,
         w') in
      if negb isTabVisible then
        extend (now + HOLD_CONFIG.gracePeriodMs)
      else
        let timeSinceActivity := now - lastActivityAt in
        if timeSinceActivity >? HOLD_CONFIG.inactivityTimeoutMs then
          (HeartbeatResult.mk true (map rowToHold holds0)
             (Some (HoldRow.expires_at first)) (Some InactivityDetected), w)
        else
          extend (now + HOLD_CONFIG.holdDurationMs)
  end.

Definition releaseHolds (sessionId concertId : string) (w : World) : World :=
  set_holds w
    (filter (fun h => negb (of_session_concert sessionId concertId h)) (holds w)).

Definition releaseAllHolds (sessionId : string) (w : World) : World :=
  set_holds w
    (filter (fun h => negb (String.eqb (HoldRow.session_id h) sessionId)) (holds w)).

(** [expires_at <= datetime('now')] *)
Definition expired (now : Z) (h : HoldRow.t) : bool :=
  negb (text_ltb (datetime_now now) (toISOString (HoldRow.expires_at h))).

(** [DELETE FROM holds WHERE expires_at <= datetime('now')]; the result is
    [result.changes], the number of rows deleted. *)
Definition cleanupExpiredHolds (now : Z) (w : World) : Z * World :=
  (Z.of_nat (List.length (filter (expired now) (holds w))),
   set_holds w (filter (fun h => negb (expired now h)) (holds w))).

(* ------------------------------------------------------------------ *)
(** ** bookingService.ts *)

(** [Math.random() > LIMITS.PAYMENT_FAILURE_RATE]; [random] is the value
    drawn. *)
Definition simulatePayment (random : Q) : bool :=
  negb (Qle_bool random LIMITS.PAYMENT_FAILURE_RATE).

Module BookingResult.
Record t : Type := mk
  { success : bool; booking : option Booking.t; message : Message;
    retryAllowed : option bool }.
End BookingResult.

(** [new Map(holds.map((h) => [h.tier, h]))]: a later entry replaces an
    earlier one with the same key. *)
Definition Map_set (m : TicketTier -> option Hold) (tier : TicketTier) (h : Hold)
  : TicketTier -> option Hold :=
  fun key => if tier_eqb key tier then Some h else m key.

Definition holdsByTier (hs : list Hold) : TicketTier -> option Hold :=
  fold_left (fun m h => Map_set m (HoldRow.tier h) h) hs (fun _ => None).

(** First loop of [processBooking]: the first selection without a
    sufficient hold ends the call. *)
Fixpoint verify_holds
  (byTier : TicketTier -> option Hold) (selections : list TicketSelection.t)
  : option Message :=
  match selections with
  | [] => None
  | selection :: rest =>
      if TicketSelection.quantity selection =? 0 then verify_holds byTier rest
      else
        match byTier (TicketSelection.tier selection) with
        | None =>
            Some (NoHoldFoundFor
                    (TicketTierInfo.name (TICKET_TIERS (TicketSelection.tier selection))))
        | Some hold =>
            if HoldRow.quantity hold <? TicketSelection.quantity selection then
              Some (HoldIsOnlyFor
                      (TicketTierInfo.name (TICKET_TIERS (TicketSelection.tier selection)))
                      (HoldRow.quantity hold) (TicketSelection.quantity selection))
            else verify_holds byTier rest
        end
  end.

(** Second loop of [processBooking]: the inventory double-check. *)
Fixpoint verify_inventory
  (w : World) (concertId : string) (selections : list TicketSelection.t)
  : option Message :=
  match selections with
  | [] => None
  | selection :: rest =>
      if TicketSelection.quantity selection =? 0 then verify_inventory w concertId rest
      else
        match select_inventory w concertId (TicketSelection.tier selection) with
        | None => Some (InvalidTicketTier (TicketSelection.tier selection))
        | Some inventory =>
            let available :=
              InventoryRow.total_quantity inventory
              - InventoryRow.sold_quantity inventory in
            if available <? TicketSelection.quantity selection then
              Some (OnlyAvailable available
                      (TicketTierInfo.name (TICKET_TIERS (TicketSelection.tier selection)))
                      (TicketSelection.quantity selection))
            else verify_inventory w concertId rest
        end
  end.

(** Third loop: [totalAmount] and [bookingItems]. *)
Definition prepare_items (selections : list TicketSelection.t)
  : Z * list BookingItem.t :=
  fold_left
    (fun (acc : Z * list BookingItem.t) selection =>
       if TicketSelection.quantity selection =? 0 then acc
       else
         let tierInfo := TICKET_TIERS (TicketSelection.tier selection) in
         let subtotal :=
           TicketTierInfo.price tierInfo * TicketSelection.quantity selection in
         (fst acc + subtotal,
          snd acc
          ++ [BookingItem.mk (TicketSelection.tier selection)
                             (TicketSelection.quantity selection)
                             (TicketTierInfo.price tierInfo) subtotal]))
    selections (0, []).

(** [insertItem.run(...)]: [booking_items.id] is [AUTOINCREMENT] and no row
    of that table is ever deleted. *)
Definition insertItem (bookingId : Uuid) (item : BookingItem.t) (w : World) : World :=
  set_booking_items w
    (booking_items w
     ++ [BookingItemRow.mk (S (List.length (booking_items w))) bookingId
           (BookingItem.tier item) (BookingItem.quantity item)
           (BookingItem.pricePerTicket item) (BookingItem.subtotal item)]).

(** [UPDATE ticket_inventory SET sold_quantity = sold_quantity + ?
     WHERE concert_id = ? AND tier = ?] *)
Definition updateInventory
  (quantity : Z) (concertId : string) (tier : TicketTier) (w : World) : World :=
  set_ticket_inventory w
    (map (fun r =>
            if inv_of_concert_tier concertId tier r
            then InventoryRow.mk (InventoryRow.concert_id r) (InventoryRow.tier r)
                                 (InventoryRow.total_quantity r)
                                 (InventoryRow.sold_quantity r + quantity)
            else r)
         (ticket_inventory w)).

(** Fourth loop: [for (const item of bookingItems)]. *)
Definition record_items
  (bookingId : Uuid) (concertId : string) (bookingItems : list BookingItem.t)
  (w : World) : World :=
  fold_left
    (fun w item =>
       updateInventory (BookingItem.quantity item) concertId (BookingItem.tier item)
         (insertItem bookingId item w))
    bookingItems w.

Definition processBooking
  (now : Z) (random : Q) (sessionId concertId : string)
  (selections : list TicketSelection.t) (w : World) : BookingResult.t * World :=
  let holds := getHoldsForConcert now w sessionId concertId in
  match verify_holds (holdsByTier holds) selections with
  | Some msg => (BookingResult.mk false None msg (Some false), w)
  | None =>
      match verify_inventory w concertId selections with
      | Some msg => (BookingResult.mk false None msg (Some false), w)
      | None =>
          let paymentSuccess := simulatePayment random in
          if negb paymentSuccess then
            (BookingResult.mk false None PaymentDeclined (Some true), w)
          else
            let (bookingId, w1) := uuidv4 w in
            let (totalAmount, bookingItems) := prepare_items selections in
            let w2 :=
              set_bookings w1
                (bookings w1
                 ++ [BookingRow.mk bookingId sessionId concertId totalAmount
                                   CONFIRMED now (Some now)]) in
            let w3 := record_items bookingId concertId bookingItems w2 in
            let w4 := releaseHolds sessionId concertId w3 in
            let booking :=
              Booking.mk bookingId sessionId concertId bookingItems totalAmount
                         CONFIRMED now (Some now) in
            (BookingResult.mk true (Some booking) PaymentSuccessful None, w4)
      end
  end.

(* ------------------------------------------------------------------ *)
(** ** db/seed.ts and the exposed operations as a transition system *)

Module SeedConcert.
Record t : Type := mk { id : string; inventory : TicketTier -> Z }.
End SeedConcert.

(** [seed()]: the tables are emptied, then every concert gets one inventory
    row per tier, in the order of [Object.entries], with nothing sold. *)
Definition seed (concerts : list SeedConcert.t) : World :=
  mkWorld
    (flat_map
       (fun concert =>
          map (fun tier =>
                 InventoryRow.mk (SeedConcert.id concert) tier
                                 (SeedConcert.inventory concert tier) 0)
              [VIP; FRONT_ROW; GA])
       concerts)
    [] [] [] 0.

(** A call of one of the exposed operations. *)
Inductive Call : Type :=
| CreateOrUpdateHolds (sessionId concertId : string) (selections : list TicketSelection.t)
| ProcessHeartbeat (sessionId concertId : string) (lastActivityAt : Z) (isTabVisible : bool)
| ReleaseHolds (sessionId concertId : string)
| ReleaseAllHolds (sessionId : string)
| CleanupExpiredHolds
| ProcessBooking (random : Q) (sessionId concertId : string)
                 (selections : list TicketSelection.t).

(** The state after [call] is made at instant [now]. *)
Definition exec (now : Z) (call : Call) (w : World) : World :=
  match call with
  | CreateOrUpdateHolds s c sels => snd (createOrUpdateHolds now s c sels w)
  | ProcessHeartbeat s c last visible => snd (processHeartbeat now s c last visible w)
  | ReleaseHolds s c => releaseHolds s c w
  | ReleaseAllHolds s => releaseAllHolds s w
  | CleanupExpiredHolds => snd (cleanupExpiredHolds now w)
  | ProcessBooking random s c sels => snd (processBooking now random s c sels w)
  end.

(** A history: calls with the instants at which they are made. *)
Definition run (history : list (Z * Call)) (w : World) : World :=
  fold_left (fun w ev => exec (fst ev) (snd ev) w) history w.

(** Time only advances along a history that starts at [t0]. *)
Fixpoint chronological (t0 : Z) (history : list (Z * Call)) : Prop :=
  match history with
  | [] => True
  | (t, _) :: rest => t0 <= t /\ chronological t rest
  end.

(** [soldQuantity] of a (concert, tier), when it has an inventory row. *)
Definition soldQuantity (w : World) (concertId : string) (tier : TicketTier) : option Z :=
  option_map InventoryRow.sold_quantity (select_inventory w concertId tier).

Definition totalQuantity (w : World) (concertId : string) (tier : TicketTier) : option Z :=
  option_map InventoryRow.total_quantity (select_inventory w concertId tier).

(** The inventory invariant at instant [now], for the rows of the
    inventory table. *)
Definition inventory_invariant (now : Z) (w : World) : Prop :=
  forall r, In r (ticket_inventory w) ->
    0 <= InventoryRow.sold_quantity r <= InventoryRow.total_quantity r
    /\ InventoryRow.sold_quantity r
       + heldQuantity now w (InventoryRow.concert_id r) (InventoryRow.tier r)
       <= InventoryRow.total_quantity r.

(* ------------------------------------------------------------------ *)
(** ** Specification-side notions *)

(** The sum of the requested quantities of a selections list. *)
Definition requested_total (selections : list TicketSelection.t) : Z :=
  fold_right (fun s acc => TicketSelection.quantity s + acc) 0 selections.

(** What a selections list buys of one tier. *)
Definition purchased_quantity (selections : list TicketSelection.t) (tier : TicketTier) : Z :=
  fold_right
    (fun s acc =>
       if tier_eqb (TicketSelection.tier s) tier
       then TicketSelection.quantity s + acc else acc)
    0 selections.

(** The selections that ask for something. *)
Definition nonzero (selections : list TicketSelection.t) : list TicketSelection.t :=
  filter (fun s => negb (TicketSelection.quantity s =? 0)) selections.

(** The booking item of a selection, at the configured price. *)
Definition item_of (s : TicketSelection.t) : BookingItem.t :=
  BookingItem.mk (TicketSelection.tier s) (TicketSelection.quantity s)
    (TicketTierInfo.price (TICKET_TIERS (TicketSelection.tier s)))
    (TicketTierInfo.price (TICKET_TIERS (TicketSelection.tier s))
     * TicketSelection.quantity s).

Definition sum_subtotals (items : list BookingItem.t) : Z :=
  fold_right (fun i acc => BookingItem.subtotal i + acc) 0 items.

(** A hold row without the two timestamps that a refresh rewrites. *)
Definition erase_refreshed (h : HoldRow.t) : Uuid * string * string * TicketTier * Z * Z :=
  (HoldRow.id h, HoldRow.session_id h, HoldRow.concert_id h, HoldRow.tier h,
   HoldRow.quantity h, HoldRow.created_at h).

(** Well-formed hold table: [id] is a key (it is the primary key, drawn
    from the uuid generator), and a session has at most one row per
    concert and tier. *)
Record holds_wf (w : World) : Prop := mk_holds_wf
  { wf_ids_fresh : forall h, In h (holds w) -> (HoldRow.id h < uuid_state w)%nat;
    wf_ids_unique : NoDup (map HoldRow.id (holds w));
    wf_one_per_tier :
      forall h1 h2, In h1 (holds w) -> In h2 (holds w) ->
        HoldRow.session_id h1 = HoldRow.session_id h2 ->
        HoldRow.concert_id h1 = HoldRow.concert_id h2 ->
        HoldRow.tier h1 = HoldRow.tier h2 -> h1 = h2 }.

(** The rows that [booking_items] receives for the items of one booking,
    when the table already holds [n] rows. *)
Fixpoint item_rows (n : nat) (bookingId : Uuid) (items : list BookingItem.t)
  : list BookingItemRow.t :=
  match items with
  | [] => []
  | item :: rest =>
      BookingItemRow.mk (S n) bookingId (BookingItem.tier item)
        (BookingItem.quantity item) (BookingItem.pricePerTicket item)
        (BookingItem.subtotal item)
      :: item_rows (S n) bookingId rest
  end.

(** What a list of booking items sells of one tier. *)
Definition items_quantity (items : list BookingItem.t) (tier : TicketTier) : Z :=
  fold_right
    (fun i acc =>
       if tier_eqb (BookingItem.tier i) tier then BookingItem.quantity i + acc else acc)
    0 items.

(** [h] is a hold of the session for that concert and tier that the
    queries read as not expired. *)
Definition matching_hold
  (now : Z) (w : World) (sessionId concertId : string) (tier : TicketTier)
  (h : HoldRow.t) : Prop :=
  In h (holds w)
  /\ HoldRow.session_id h = sessionId /\ HoldRow.concert_id h = concertId
  /\ HoldRow.tier h = tier /\ not_expired now h = true.

(** The selection asks for something and has no matching hold that reads
    as not expired, or its matching hold is for less. *)
Definition hold_check_fails
  (now : Z) (w : World) (sessionId concertId : string)
  (selection : TicketSelection.t) : Prop :=
  TicketSelection.quantity selection <> 0
  /\ ((forall h, ~ matching_hold now w sessionId concertId
                     (TicketSelection.tier selection) h)
      \/ (exists h, matching_hold now w sessionId concertId
                      (TicketSelection.tier selection) h
                    /\ HoldRow.quantity h < TicketSelection.quantity selection)).

(** The selection asks for something and the inventory table has no row for
    its tier, or the row has less than the selection left unsold. *)
Definition inventory_check_fails
  (w : World) (concertId : string) (selection : TicketSelection.t) : Prop :=
  TicketSelection.quantity selection <> 0
  /\ (select_inventory w concertId (TicketSelection.tier selection) = None
      \/ (exists inventory,
             select_inventory w concertId (TicketSelection.tier selection)
             = Some inventory
             /\ InventoryRow.total_quantity inventory
                - InventoryRow.sold_quantity inventory
                < TicketSelection.quantity selection)).

(** The inventory row [r] after [quantity] more of its tier are sold. *)
Definition sell (quantity : Z) (r : InventoryRow.t) : InventoryRow.t :=
  InventoryRow.mk (InventoryRow.concert_id r) (InventoryRow.tier r)
                  (InventoryRow.total_quantity r)
                  (InventoryRow.sold_quantity r + quantity).

(** The rows of one tier, in table order. *)
Definition tier_slice (tier : TicketTier) (hs : list HoldRow.t) : list HoldRow.t :=
  filter (fun h => tier_eqb (HoldRow.tier h) tier) hs.

(** What the session already holds of a tier of the concert: the quantity
    of its row, expired or not, and 0 without a row. *)
Definition currently_held
  (w : World) (sessionId concertId : string) (tier : TicketTier) : Z :=
  match find (of_session_concert_tier sessionId concertId tier) (holds w) with
  | Some h => HoldRow.quantity h
  | None => 0
  end.

(** The selection asks for more than the session holds, and for more than
    is available on top of that. *)
Definition rejected
  (now : Z) (w : World) (sessionId concertId : string)
  (selection : TicketSelection.t) : Prop :=
  TicketSelection.quantity selection <> 0
  /\ 0 < TicketSelection.quantity selection
          - currently_held w sessionId concertId (TicketSelection.tier selection)
  /\ getAvailableQuantity now w concertId (TicketSelection.tier selection)
     < TicketSelection.quantity selection
       - currently_held w sessionId concertId (TicketSelection.tier selection).

(** The selection asks for something, and either for no more than the
    session holds or for an increase that fits the availability. *)
Definition granted
  (now : Z) (w : World) (sessionId concertId : string)
  (selection : TicketSelection.t) : Prop :=
  TicketSelection.quantity selection <> 0
  /\ (TicketSelection.quantity selection
      - currently_held w sessionId concertId (TicketSelection.tier selection) <= 0
      \/ TicketSelection.quantity selection
         - currently_held w sessionId concertId (TicketSelection.tier selection)
         <= getAvailableQuantity now w concertId (TicketSelection.tier selection)).

(** The [unavailable] field, absent or not, as a list. *)
Definition unavailable_list (r : HoldsResult.t) : list TicketSelection.t :=
  match HoldsResult.unavailable r with Some l => l | None => [] end.

(** What the loop of [createOrUpdateHolds] has done when it has taken the
    hold table from [w] to [w'] for selections of distinct tiers, appending
    [un] to [unavailable] and [hr] to [holdResults]. *)
Definition loop_outcome
  (now expiresAt : Z) (sessionId concertId : string)
  (selections : list TicketSelection.t) (w w' : World)
  (un : list TicketSelection.t) (hr : list Hold) : Prop :=
  ticket_inventory w' = ticket_inventory w
  /\ bookings w' = bookings w
  /\ booking_items w' = booking_items w
  /\ (forall tier, ~ In tier (map TicketSelection.tier selections) ->
        tier_slice tier (holds w') = tier_slice tier (holds w))
  /\ filter (fun h => negb (of_session_concert sessionId concertId h)) (holds w')
     = filter (fun h => negb (of_session_concert sessionId concertId h)) (holds w)
  /\ (forall x, In x un <-> In x selections /\ rejected now w sessionId concertId x)
  /\ (forall h, In h hr ->
        In h (holds w')
        /\ HoldRow.session_id h = sessionId /\ HoldRow.concert_id h = concertId
        /\ exists s, In s selections /\ granted now w sessionId concertId s
                     /\ HoldRow.tier h = TicketSelection.tier s
                     /\ HoldRow.quantity h = TicketSelection.quantity s)
  /\ (forall s, In s selections -> TicketSelection.quantity s = 0 ->
        forall h, In h (holds w') ->
          of_session_concert_tier sessionId concertId (TicketSelection.tier s) h = false)
  /\ (forall s, In s selections -> granted now w sessionId concertId s ->
        exists h, In h (holds w') /\ In h hr
                  /\ HoldRow.session_id h = sessionId
                  /\ HoldRow.concert_id h = concertId
                  /\ HoldRow.tier h = TicketSelection.tier s
                  /\ HoldRow.quantity h = TicketSelection.quantity s
                  /\ HoldRow.expires_at h = expiresAt
                  /\ HoldRow.last_activity_at h = now)
  /\ (forall s, In s selections -> rejected now w sessionId concertId s ->
        tier_slice (TicketSelection.tier s) (holds w')
        = tier_slice (TicketSelection.tier s) (holds w)).

(** Nothing is left for [createOrUpdateHolds] to decide about the
    selection: quantity 0 and no row to delete, or a row that already has
    the selected quantity, or a rejection. *)
Definition settled
  (now : Z) (w : World) (sessionId concertId : string)
  (selection : TicketSelection.t) : Prop :=
  (TicketSelection.quantity selection = 0
   /\ forall h, In h (holds w) ->
        of_session_concert_tier sessionId concertId
          (TicketSelection.tier selection) h = false)
  \/ (TicketSelection.quantity selection <> 0
      /\ exists e,
           find (of_session_concert_tier sessionId concertId
                   (TicketSelection.tier selection)) (holds w) = Some e
           /\ HoldRow.quantity e = TicketSelection.quantity selection)
  \/ rejected now w sessionId concertId selection.

(* ------------------------------------------------------------------ *)
(** ** Reads of holdService.ts and bookingService.ts *)

Module TicketInventory.
Record t : Type := mk
  { concertId : string; tier : TicketTier; totalQuantity : Z;
    availableQuantity : Z; soldQuantity : Z; heldQuantity : Z }.
End TicketInventory.

(** [getInventory]: one entry per inventory row of the concert, with the
    held quantity of the row's tier queried for each row.  The rows are
    those of [SELECT ... FROM ticket_inventory WHERE concert_id = ?], which
    SQLite answers from the index of [PRIMARY KEY (concert_id, tier)]: in
    the order of the tier texts, [FRONT_ROW], [GA], [VIP]. *)
Definition getInventory (now : Z) (w : World) (concertId : string)
  : list TicketInventory.t :=
  map (fun row =>
         let held := heldQuantity now w concertId (InventoryRow.tier row) in
         TicketInventory.mk (InventoryRow.concert_id row) (InventoryRow.tier row)
           (InventoryRow.total_quantity row)
           (InventoryRow.total_quantity row - InventoryRow.sold_quantity row - held)
           (InventoryRow.sold_quantity row) held)
      (flat_map
         (fun tier => filter (inv_of_concert_tier concertId tier) (ticket_inventory w))
         [FRONT_ROW; GA; VIP]).

(** [getExpiringHolds]: [warningTime] is [Date.now() + warningThresholdMs],
    and the query is [session_id = ? AND expires_at > datetime('now') AND
    expires_at <= ?] with [warningTime.toISOString()] for the second
    parameter. *)
Definition getExpiringHolds
  (now : Z) (w : World) (sessionId : string) (warningThresholdMs : Z) : list Hold :=
  let warningTime := now + warningThresholdMs in
  map rowToHold
    (filter (fun h => String.eqb (HoldRow.session_id h) sessionId
                      && not_expired now h
                      && negb (text_ltb (toISOString warningTime)
                                        (toISOString (HoldRow.expires_at h))))
            (holds w)).

Definition rowToBooking (row : BookingRow.t) (items : list BookingItemRow.t) : Booking.t :=
  Booking.mk (BookingRow.id row) (BookingRow.session_id row) (BookingRow.concert_id row)
    (map (fun item =>
            BookingItem.mk (BookingItemRow.tier item) (BookingItemRow.quantity item)
                           (BookingItemRow.price_per_ticket item)
                           (BookingItemRow.subtotal item))
         items)
    (BookingRow.total_amount row) (BookingRow.status row)
    (BookingRow.created_at row) (BookingRow.confirmed_at row).

Definition getBookingById (w : World) (bookingId : Uuid) : option Booking.t :=
  match find (fun b => Nat.eqb (BookingRow.id b) bookingId) (bookings w) with
  | None => None
  | Some row =>
      Some (rowToBooking row
              (filter (fun i => Nat.eqb (BookingItemRow.booking_id i) bookingId)
                      (booking_items w)))
  end.

(* ------------------------------------------------------------------ *)
(** ** Further specification-side notions *)

(** [PRIMARY KEY (concert_id, tier)] of [ticket_inventory]. *)
Definition inventory_wf (w : World) : Prop :=
  NoDup (map (fun r => (InventoryRow.concert_id r, InventoryRow.tier r))
             (ticket_inventory w)).

(** The ids of the bookings, and the booking ids of the items, have been
    drawn from the uuid generator. *)
Definition bookings_wf (w : World) : Prop :=
  (forall b, In b (bookings w) -> (BookingRow.id b < uuid_state w)%nat)
  /\ (forall i, In i (booking_items w) -> (BookingItemRow.booking_id i < uuid_state w)%nat).

(** No selection asks for a negative quantity (the routes refuse such a
    body), and the selections of a booking name distinct tiers (the payment
    route takes them from the session's holds). *)
Definition well_formed_call (call : Call) : Prop :=
  match call with
  | CreateOrUpdateHolds _ _ selections =>
      forall s, In s selections -> 0 <= TicketSelection.quantity s
  | ProcessBooking _ _ _ selections =>
      (forall s, In s selections -> 0 <= TicketSelection.quantity s)
      /\ NoDup (map TicketSelection.tier selections)
  | _ => True
  end.

(** Every hold is for more than nothing and for at most the per-tier
    cap. *)
Definition quantities_bounded (w : World) : Prop :=
  forall h, In h (holds w) ->
    0 < HoldRow.quantity h <= LIMITS.MAX_TICKETS_PER_TIER.

(** No row of the hold table is one that a sweep at [now] deletes. *)
Definition swept (now : Z) (w : World) : Prop :=
  forall h, In h (holds w) -> not_expired now h = true.

(** No more is sold than exists, row by row. *)
Definition sold_within_total (w : World) : Prop :=
  forall r, In r (ticket_inventory w) ->
    0 <= InventoryRow.sold_quantity r <= InventoryRow.total_quantity r.

(** A history in which the sweeper runs right before every call. *)
Definition run_swept (history : list (Z * Call)) (w : World) : World :=
  fold_left
    (fun w ev => exec (fst ev) (snd ev) (snd (cleanupExpiredHolds (fst ev) w)))
    history w.

(** The instant of the last call of a history that starts at [t0]. *)
Definition last_instant (t0 : Z) (history : list (Z * Call)) : Z :=
  fold_left (fun _ ev => fst ev) history t0.

(** The session comes to [createOrUpdateHolds] or [processHeartbeat]
    without a row for the concert that the queries read as expired. *)
Definition caller_fresh (now : Z) (call : Call) (w : World) : Prop :=
  match call with
  | CreateOrUpdateHolds sessionId concertId _
  | ProcessHeartbeat sessionId concertId _ _ =>
      forall h, In h (holds w) ->
        HoldRow.session_id h = sessionId -> HoldRow.concert_id h = concertId ->
        not_expired now h = true
  | _ => True
  end.

(** The quantity under the holds of a concert and tier whose [expires_at]
    is after [now]: what the availability computation is specified to
    count. *)
Definition unexpired_quantity
  (now : Z) (w : World) (concertId : string) (tier : TicketTier) : Z :=
  sum_quantity
    (filter (fun h => of_concert_tier concertId tier h && (now <? HoldRow.expires_at h))
            (holds w)).

(** Every hold is for a (concert, tier) that has an inventory row. *)
Definition holds_have_inventory (w : World) : Prop :=
  forall h, In h (holds w) ->
    select_inventory w (HoldRow.concert_id h) (HoldRow.tier h) <> None.

(** The states in which the accounting is right at [now]. *)
Record sound (now : Z) (w : World) : Prop := mk_sound
  { sound_holds : holds_wf w;
    sound_inventory : inventory_wf w;
    sound_quantities : quantities_bounded w;
    sound_rows : holds_have_inventory w;
    sound_invariant : inventory_invariant now w }.

(* ------------------------------------------------------------------ *)
(** ** routes/holds.ts and routes/bookings.ts

    A request body comes decoded: [concertId] is [None] when the field is
    absent or not a string, and [selections] is a list of selections with a
    tier and an integer quantity.  [req.sessionId] is the [sessionId]
    argument. *)

(** Texts of the error bodies. *)
Inductive RouteError : Type :=
| ConcertIdIsRequired
| InvalidSelectionsFormat
| NoTicketsSelected
| NoActiveHoldsSessionExpired
| BookingNotFound
| NotYourBooking.

(** [res.status(status).json(body)]; [res.json(body)] answers 200. *)
Module Response.
Record t (A : Type) : Type := mk { status : Z; body : A }.
Arguments mk {A} status body.
Arguments status {A} t.
Arguments body {A} t.
End Response.

(** [validateSelections]: on decoded selections the array, object, tier
    and [typeof] checks pass, and the sign check remains. *)
Definition validateSelections (selections : list TicketSelection.t) : bool :=
  forallb (fun selection => negb (TicketSelection.quantity selection <? 0)) selections.

(** [POST /api/holds] *)
Definition postHolds
  (now : Z) (sessionId : string) (concertId : option string)
  (selections : list TicketSelection.t) (w : World)
  : Response.t (RouteError + HoldsResult.t) * World :=
  match concertId with
  | None => (Response.mk 400 (inl ConcertIdIsRequired), w)
  | Some concertId =>
      if String.eqb concertId EmptyString then
        (Response.mk 400 (inl ConcertIdIsRequired), w)
      else if negb (validateSelections selections) then
        (Response.mk 400 (inl InvalidSelectionsFormat), w)
      else
        let result := createOrUpdateHolds now sessionId concertId selections w in
        if HoldsResult.success (fst result)
        then (Response.mk 200 (inr (fst result)), snd result)
        else (Response.mk 409 (inr (fst result)), snd result)
  end.

(** [POST /api/holds/:concertId/heartbeat]: [lastActivityAt] defaults to
    [new Date()] and [isTabVisible] to [true]. *)
Definition postHeartbeat
  (now : Z) (sessionId concertId : string) (lastActivityAt : option Z)
  (isTabVisible : option bool) (w : World) : Response.t HeartbeatResult.t * World :=
  let lastActivityAt := match lastActivityAt with Some t => t | None => now end in
  let result :=
    processHeartbeat now sessionId concertId lastActivityAt
      (match isTabVisible with Some visible => visible | None => true end) w in
  (Response.mk 200 (fst result), snd result).

(** [DELETE /api/holds/:concertId] *)
Definition deleteHolds (sessionId concertId : string) (w : World)
  : Response.t bool * World :=
  (Response.mk 200 true, releaseHolds sessionId concertId w).

Module CheckoutResponse.
Record t : Type := mk
  { success : bool; checkoutSessionId : option Z; holds : list Hold;
    expiresAt : option Z; message : option Message;
    unavailable : option (list TicketSelection.t) }.
End CheckoutResponse.

(** [holds.reduce((min, h) => new Date(h.expiresAt) <
    new Date(min.expiresAt) ? h : min)] on a non-empty array. *)
Definition earliest_expiry (first : Hold) (rest : list Hold) : Hold :=
  fold_left
    (fun min h => if HoldRow.expires_at h <? HoldRow.expires_at min then h else min)
    rest first.

(** [POST /api/bookings/checkout]; [checkoutSessionId] is the instant that
    the text [checkout-${Date.now()}] carries, and the empty texts of the
    failure body are [None]. *)
Definition postCheckout
  (now : Z) (sessionId : string) (concertId : option string)
  (selections : list TicketSelection.t) (w : World)
  : Response.t (RouteError + CheckoutResponse.t) * World :=
  match concertId with
  | None => (Response.mk 400 (inl ConcertIdIsRequired), w)
  | Some concertId =>
      if String.eqb concertId EmptyString then
        (Response.mk 400 (inl ConcertIdIsRequired), w)
      else if negb (validateSelections selections) then
        (Response.mk 400 (inl InvalidSelectionsFormat), w)
      else
        let filteredSelections :=
          filter (fun s => TicketSelection.quantity s >? 0) selections in
        match filteredSelections with
        | [] => (Response.mk 400 (inl NoTicketsSelected), w)
        | _ :: _ =>
            let result :=
              createOrUpdateHolds now sessionId concertId filteredSelections w in
            if HoldsResult.success (fst result) then
              let expiresAt :=
                match HoldsResult.holds (fst result) with
                | first :: rest => HoldRow.expires_at (earliest_expiry first rest)
                | [] => now + HOLD_CONFIG.holdDurationMs
                end in
              (Response.mk 200
                 (inr (CheckoutResponse.mk true (Some now)
                         (HoldsResult.holds (fst result)) (Some expiresAt) None None)),
               snd result)
            else
              (Response.mk 409
                 (inr (CheckoutResponse.mk false None
                         (HoldsResult.holds (fst result)) None
                         (HoldsResult.message (fst result))
                         (HoldsResult.unavailable (fst result)))),
               snd result)
        end
  end.

(** [POST /api/bookings/payment]: the selections are read off the
    session's holds.  The body of the 400 answer for a session without
    holds is [{success: false, message, retryAllowed: false}]. *)
Definition postPayment
  (now : Z) (random : Q) (sessionId : string) (concertId : option string) (w : World)
  : Response.t (RouteError + BookingResult.t) * World :=
  match concertId with
  | None => (Response.mk 400 (inl ConcertIdIsRequired), w)
  | Some concertId =>
      if String.eqb concertId EmptyString then
        (Response.mk 400 (inl ConcertIdIsRequired), w)
      else
        let holds := getHoldsForConcert now w sessionId concertId in
        match holds with
        | [] => (Response.mk 400 (inl NoActiveHoldsSessionExpired), w)
        | _ :: _ =>
            let selections :=
              map (fun h => TicketSelection.mk (HoldRow.tier h) (HoldRow.quantity h))
                  holds in
            let result := processBooking now random sessionId concertId selections w in
            if BookingResult.success (fst result) then
              (Response.mk 200 (inr (fst result)), snd result)
            else
              let status :=
                match BookingResult.retryAllowed (fst result) with
                | Some true => 402
                | _ => 409
                end in
              (Response.mk status (inr (fst result)), snd result)
        end
  end.

(** [GET /api/bookings/:id] *)
Definition getBooking (sessionId : string) (id : Uuid) (w : World)
  : Response.t (RouteError + Booking.t) :=
  match getBookingById w id with
  | None => Response.mk 404 (inl BookingNotFound)
  | Some booking =>
      if negb (String.eqb (Booking.sessionId booking) sessionId)
      then Response.mk 403 (inl NotYourBooking)
      else Response.mk 200 (inr booking)
  end.

(** [ORDER BY created_at DESC] of [getBookingsForSession]: an insertion
    sort; rows of equal [created_at] stay in table order, and nothing below
    depends on the order of such rows. *)
Fixpoint insert_by_created_at (row : BookingRow.t) (sorted : list BookingRow.t)
  : list BookingRow.t :=
  match sorted with
  | [] => [row]
  | x :: rest =>
      if BookingRow.created_at x <=? BookingRow.created_at row
      then row :: x :: rest
      else x :: insert_by_created_at row rest
  end.

Definition order_by_created_at_desc (rows : list BookingRow.t) : list BookingRow.t :=
  fold_right insert_by_created_at [] rows.

Definition getBookingsForSession (w : World) (sessionId : string) : list Booking.t :=
  map (fun row =>
         rowToBooking row
           (filter (fun i => Nat.eqb (BookingItemRow.booking_id i) (BookingRow.id row))
                   (booking_items w)))
      (order_by_created_at_desc
         (filter (fun b => String.eqb (BookingRow.session_id b) sessionId) (bookings w))).

(** The requests that write, and the server as a transition system: the
    requests of the sessions and the ticks of the cleanup job of
    [holdCleanupJob.ts]. *)
Inductive Request : Type :=
| PostHolds (concertId : option string) (selections : list TicketSelection.t)
| PostHeartbeat (concertId : string) (lastActivityAt : option Z)
                (isTabVisible : option bool)
| DeleteHolds (concertId : string)
| PostCheckout (concertId : option string) (selections : list TicketSelection.t)
| PostPayment (random : Q) (concertId : option string).

Definition handle (now : Z) (sessionId : string) (request : Request) (w : World) : World :=
  match request with
  | PostHolds concertId selections =>
      snd (postHolds now sessionId concertId selections w)
  | PostHeartbeat concertId lastActivityAt isTabVisible =>
      snd (postHeartbeat now sessionId concertId lastActivityAt isTabVisible w)
  | DeleteHolds concertId => snd (deleteHolds sessionId concertId w)
  | PostCheckout concertId selections =>
      snd (postCheckout now sessionId concertId selections w)
  | PostPayment random concertId => snd (postPayment now random sessionId concertId w)
  end.

Inductive Event : Type :=
| Http (sessionId : string) (request : Request)
| CleanupTick.

Definition step (now : Z) (event : Event) (w : World) : World :=
  match event with
  | Http sessionId request => handle now sessionId request w
  | CleanupTick => snd (cleanupExpiredHolds now w)
  end.

Definition serve (history : list (Z * Event)) (w : World) : World :=
  fold_left (fun w ev => step (fst ev) (snd ev) w) history w.

(* ------------------------------------------------------------------ *)
(** ** The ticket store and the selector of the frontend
       ([hooks/useTicketStore.tsx], [components/TicketSelector.tsx])

    A [Record<TicketTier, number>] is a function of the tier, and
    [Object.entries] lists it in the order of [EMPTY_SELECTIONS], from
    which every record of the store is made with [setQuantity].  The
    [Map] of the store is a function of the concert id. *)

Definition TIER_PRICES (tier : TicketTier) : Z :=
  match tier with VIP => 10000 | FRONT_ROW => 5000 | GA => 1000 end.

Definition EMPTY_SELECTIONS : TicketTier -> Z := fun _ => 0.

Definition Object_entries (selections : TicketTier -> Z) : list (TicketTier * Z) :=
  map (fun tier => (tier, selections tier)) [VIP; FRONT_ROW; GA].

Definition calculateTotal (selections : TicketTier -> Z) : Z :=
  fold_left (fun sum entry => sum + TIER_PRICES (fst entry) * snd entry)
            (Object_entries selections) 0.

Module ConcertSelections.
Record t : Type := mk { selections : TicketTier -> Z; total : Z }.
End ConcertSelections.

Definition TicketStore : Type := string -> option ConcertSelections.t.

(** [new Map()] *)
Definition empty_store : TicketStore := fun _ => None.

Definition getSelections (store : TicketStore) (concertId : string) : TicketTier -> Z :=
  match store concertId with
  | Some current => ConcertSelections.selections current
  | None => EMPTY_SELECTIONS
  end.

Definition getTotal (store : TicketStore) (concertId : string) : Z :=
  match store concertId with
  | Some current => ConcertSelections.total current
  | None => 0
  end.

Definition getSelectionsArray (store : TicketStore) (concertId : string)
  : list TicketSelection.t :=
  map (fun entry => TicketSelection.mk (fst entry) (snd entry))
      (filter (fun entry => snd entry >? 0)
              (Object_entries (getSelections store concertId))).

Definition setQuantity
  (store : TicketStore) (concertId : string) (tier : TicketTier) (quantity : Z)
  : TicketStore :=
  let current :=
    match store concertId with
    | Some current => current
    | None => ConcertSelections.mk EMPTY_SELECTIONS 0
    end in
  let newSelections :=
    fun t => if tier_eqb t tier then quantity
             else ConcertSelections.selections current t in
  fun c =>
    if String.eqb c concertId
    then Some (ConcertSelections.mk newSelections (calculateTotal newSelections))
    else store c.

Definition clearSelections (store : TicketStore) (concertId : string) : TicketStore :=
  fun c => if String.eqb c concertId then None else store c.

(** [inventory.reduce((acc, inv) => ({ ...acc, [inv.tier]: inv }), {})],
    read at [tier]: the last entry of that tier. *)
Definition inventoryByTier (inventory : list TicketInventory.t) (tier : TicketTier)
  : option TicketInventory.t :=
  fold_left
    (fun acc inv => if tier_eqb (TicketInventory.tier inv) tier then Some inv else acc)
    inventory None.

(** [handleQuantityChange] of the selector, on the store. *)
Definition handleQuantityChange
  (inventory : list TicketInventory.t) (concertId : string)
  (store : TicketStore) (tier : TicketTier) (delta : Z) : TicketStore :=
  let quantities := getSelections store concertId in
  let maxAvailable :=
    match inventoryByTier inventory tier with
    | Some inv => TicketInventory.availableQuantity inv
    | None => 0
    end in
  let currentQty := quantities tier in
  let newQty :=
    Z.max 0 (Z.min (currentQty + delta)
                   (Z.min maxAvailable LIMITS.MAX_TICKETS_PER_TIER)) in
  let totalWithNew :=
    fold_left (fun sum entry =>
                 sum + (if tier_eqb (fst entry) tier then newQty else snd entry))
              (Object_entries quantities) 0 in
  if totalWithNew >? LIMITS.MAX_TICKETS_PER_ORDER then store
  else setQuantity store concertId tier newQty.

(** What the pages do to the store: the selector's buttons, and
    [clearSelections] after a booking.  Each action sees the store that the
    one before it has left: React renders again between two click events. *)
Inductive StoreAction : Type :=
| QuantityChange (inventory : list TicketInventory.t) (concertId : string)
                 (tier : TicketTier) (delta : Z)
| ClearSelections (concertId : string).

Definition act (store : TicketStore) (action : StoreAction) : TicketStore :=
  match action with
  | QuantityChange inventory concertId tier delta =>
      handleQuantityChange inventory concertId store tier delta
  | ClearSelections concertId => clearSelections store concertId
  end.

(** The countdown of [CheckoutPage.tsx] and [CountdownTimer.tsx]. *)
Definition updateCountdown (expiresAt now : Z) : Z :=
  Z.max 0 ((expiresAt - now) / 1000).

Definition minutes (secondsRemaining : Z) : Z := secondsRemaining / 60.

Definition seconds (secondsRemaining : Z) : Z := Z.rem secondsRemaining 60.

(** The card fields of [CheckoutPage.tsx].  A text is the list of its
    characters. *)

(** [\d] *)
Definition is_digit (c : ascii) : bool :=
  ((48 <=? nat_of_ascii c) && (nat_of_ascii c <=? 57))%nat.

(** [\s], among the characters below 256: tab, line feed, vertical tab,
    form feed, carriage return, space and no-break space. *)
Definition is_space (c : ascii) : bool :=
  let n := nat_of_ascii c in
  ((9 <=? n) && (n <=? 13) || Nat.eqb n 32 || Nat.eqb n 160)%nat.

(** [digits.replace(/(\d{4})(?=\d)/g, '$1 ')]: at each position, four
    digits followed by a digit are copied with a space after them and the
    search goes on behind the four; otherwise one character is copied. *)
Fixpoint group_by_four (text : list ascii) : list ascii :=
  match text with
  | [] => []
  | a :: tl =>
      match tl with
      | b :: c :: d :: ((e :: _) as rest) =>
          if is_digit a && is_digit b && is_digit c && is_digit d && is_digit e
          then a :: b :: c :: d :: " "%char :: group_by_four rest
          else a :: group_by_four tl
      | _ => a :: group_by_four tl
      end
  end.

Definition formatCardNumber (value : list ascii) : list ascii :=
  let digits := firstn 16 (filter is_digit value) in
  group_by_four digits.

Definition formatExpiryDate (value : list ascii) : list ascii :=
  let digits := firstn 4 (filter is_digit value) in
  if (2 <=? List.length digits)%nat
  then firstn 2 digits ++ "/"%char :: skipn 2 digits
  else digits.

(** The two conditions of [isFormValid] on the card number and the expiry
    date. *)
Definition card_number_complete (cardNumber : list ascii) : bool :=
  Nat.eqb (List.length (filter (fun c => negb (is_space c)) cardNumber)) 16.

Definition expiry_date_complete (expiryDate : list ascii) : bool :=
  Nat.eqb (List.length expiryDate) 5.

(* ------------------------------------------------------------------ *)
(** ** Concrete states *)

Module Scenario.

(** The first entry of [SEED_CONCERTS], under a fixed id. *)
Definition concert : SeedConcert.t :=
  SeedConcert.mk "good-luck"
    (fun tier => match tier with VIP => 2 | FRONT_ROW => 3 | GA => 5 end).

Definition seeded : World := seed [concert].

(** The seeded tables after [n] ids have been drawn. *)
Definition seeded_after (n : nat) : World :=
  mkWorld (ticket_inventory seeded) [] [] [] n.

Definition sel (tier : TicketTier) (quantity : Z) : TicketSelection.t :=
  TicketSelection.mk tier quantity.

(** Session A has entered checkout with two VIP tickets at instant 0. *)
Definition a_holds_vip : World :=
  run [(0, CreateOrUpdateHolds "A" "good-luck" [sel VIP 2])] seeded.

(** A has entered checkout with two VIP tickets at instant 0 and, five
    minutes later, with one GA ticket. *)
Definition a_holds_vip_and_ga : World :=
  run [ (0, CreateOrUpdateHolds "A" "good-luck" [sel VIP 2]);
        (300000, CreateOrUpdateHolds "A" "good-luck" [sel GA 1]) ] seeded.

(** The first UTC midnight after the epoch. *)
Definition midnight : Z := MS_PER_DAY.

(** A enters checkout for two VIP tickets a quarter of an hour before
    midnight UTC and, ten minutes later, for one GA ticket.  The VIP hold
    expires five minutes before midnight.  At midnight, when the date of
    that expiry has passed and before the next sweep, B enters checkout for
    the two VIP tickets; then A's page sends a heartbeat. *)
Definition revival : list (Z * Call) :=
  [ (midnight - 900000, CreateOrUpdateHolds "A" "good-luck" [sel VIP 2]);
    (midnight - 300000, CreateOrUpdateHolds "A" "good-luck" [sel GA 1]);
    (midnight, CreateOrUpdateHolds "B" "good-luck" [sel VIP 2]);
    (midnight + 1, ProcessHeartbeat "A" "good-luck" midnight true) ].

(** The same without A's heartbeat. *)
Definition before_revival : World :=
  run (firstn 3 revival) seeded.

(** A's VIP hold expires before midnight and is not swept, B takes the two
    VIP tickets at midnight, and A enters checkout again with the same
    selection. *)
Definition recheckout : list (Z * Call) :=
  [ (midnight - 900000, CreateOrUpdateHolds "A" "good-luck" [sel VIP 2]);
    (midnight, CreateOrUpdateHolds "B" "good-luck" [sel VIP 2]);
    (midnight + 1, CreateOrUpdateHolds "A" "good-luck" [sel VIP 2]) ].

(** A enters checkout at 0 and again, with the same selection, at 500000:
    the second call refreshes the row, which now expires at 1100000, more
    than [hardCapMs] after its creation. *)
Definition refreshed : World :=
  run [ (0, CreateOrUpdateHolds "A" "good-luck" [sel VIP 2]);
        (500000, CreateOrUpdateHolds "A" "good-luck" [sel VIP 2]) ] seeded.

(** B holds the two VIP tickets since instant 0. *)
Definition b_holds_vip : World :=
  run [(0, CreateOrUpdateHolds "B" "good-luck" [sel VIP 2])] seeded.

(** A request that is granted for VIP, asks for more GA tickets than exist,
    and drops FRONT_ROW. *)
Definition mixed_request : list TicketSelection.t :=
  [sel VIP 2; sel GA 6; sel FRONT_ROW 0].

(** A enters checkout with two VIP tickets and pays. *)
Definition purchase : list (Z * Call) :=
  [ (0, CreateOrUpdateHolds "A" "good-luck" [sel VIP 2]);
    (1000, ProcessBooking (1 # 2) "A" "good-luck" [sel VIP 2]) ].

(** The same through the routes, with a tick of the cleanup job between
    checkout and payment. *)
Definition purchase_requests : list (Z * Event) :=
  [ (0, Http "A" (PostCheckout (Some "good-luck"%string) [sel VIP 2; sel GA 0]));
    (500, CleanupTick);
    (1000, Http "A" (PostPayment (1 # 2) (Some "good-luck"%string))) ].

(** The inventory of the seeded concert as the selector receives it. *)
Definition shown_inventory : list TicketInventory.t :=
  getInventory 0 seeded "good-luck".

(** Three presses of + on VIP, of which the inventory allows two, and one
    on GA. *)
Definition presses : list StoreAction :=
  [ QuantityChange shown_inventory "good-luck" VIP 1;
    QuantityChange shown_inventory "good-luck" VIP 1;
    QuantityChange shown_inventory "good-luck" VIP 1;
    QuantityChange shown_inventory "good-luck" GA 1 ].

(** A enters checkout with two VIP tickets and one GA ticket, then enters
    checkout again with GA deselected, and pays. *)
Definition deselection : list (Z * Event) :=
  [ (0, Http "A" (PostCheckout (Some "good-luck"%string) [sel VIP 2; sel GA 1]));
    (1000, Http "A" (PostCheckout (Some "good-luck"%string) [sel VIP 2; sel GA 0]));
    (2000, Http "A" (PostPayment (1 # 2) (Some "good-luck"%string))) ].

End Scenario.

(* ------------------------------------------------------------------ *)
(** ** Basic facts *)

Lemma tier_eqb_eq (a b : TicketTier) : tier_eqb a b = true <-> a = b.
Proof. destruct a, b; simpl; split; intros H; try reflexivity; discriminate H. Qed.

Lemma tier_eqb_refl (a : TicketTier) : tier_eqb a a = true.
Proof. destruct a; reflexivity. Qed.

Lemma tier_eqb_neq (a b : TicketTier) : tier_eqb a b = false <-> a <> b.
Proof.
  split.
  - intros H E. subst b. rewrite tier_eqb_refl in H. discriminate H.
  - intros H. destruct (tier_eqb a b) eqn:E; [|reflexivity].
    apply tier_eqb_eq in E. contradiction.
Qed.

Lemma tier_eqb_sym (a b : TicketTier) : tier_eqb a b = tier_eqb b a.
Proof. destruct a, b; reflexivity. Qed.

Lemma of_session_concert_spec sessionId concertId h :
  of_session_concert sessionId concertId h = true <->
  HoldRow.session_id h = sessionId /\ HoldRow.concert_id h = concertId.
Proof.
  unfold of_session_concert.
  rewrite andb_true_iff, !String.eqb_eq. reflexivity.
Qed.

Lemma of_session_concert_tier_spec sessionId concertId tier h :
  of_session_concert_tier sessionId concertId tier h = true <->
  HoldRow.session_id h = sessionId /\ HoldRow.concert_id h = concertId
  /\ HoldRow.tier h = tier.
Proof.
  unfold of_session_concert_tier.
  rewrite andb_true_iff, of_session_concert_spec, tier_eqb_eq. tauto.
Qed.

(** On the same UTC date the ['T'] of the column is greater than the
    [' '] of [datetime('now')]: a hold reads as not expired until its date
    of expiry has passed. *)
Lemma not_expired_utc_date now h :
  not_expired now h = (utc_date now <=? utc_date (HoldRow.expires_at h)).
Proof.
  unfold not_expired, text_ltb, datetime_now, toISOString.
  cbn [Timestamp.date Timestamp.separator Timestamp.time].
  change (nat_of_ascii " " <? nat_of_ascii "T")%nat with true.
  rewrite orb_true_l, andb_true_r.
  destruct (Z.ltb_spec (utc_date now) (utc_date (HoldRow.expires_at h)));
    destruct (Z.eqb_spec (utc_date now) (utc_date (HoldRow.expires_at h)));
    destruct (Z.leb_spec (utc_date now) (utc_date (HoldRow.expires_at h)));
    simpl; try reflexivity; lia.
Qed.

Lemma not_expired_spec now h :
  not_expired now h = true <-> utc_date now <= utc_date (HoldRow.expires_at h).
Proof. rewrite not_expired_utc_date. apply Z.leb_le. Qed.

Lemma utc_date_mono (a b : Z) : a <= b -> utc_date a <= utc_date b.
Proof. intros H. unfold utc_date. apply Z.div_le_mono; [reflexivity|exact H]. Qed.

(** A hold whose expiry is still ahead reads as not expired. *)
Lemma not_expired_ahead now h :
  now <= HoldRow.expires_at h -> not_expired now h = true.
Proof. intros H. apply not_expired_spec, utc_date_mono, H. Qed.

(** Two texts of [toISOString()] compare as their instants do. *)
Lemma text_ltb_toISOString (a b : Z) :
  text_ltb (toISOString a) (toISOString b) = (a <? b).
Proof.
  unfold text_ltb, toISOString, utc_date.
  cbn [Timestamp.date Timestamp.separator Timestamp.time].
  change (nat_of_ascii "T" <? nat_of_ascii "T")%nat with false.
  change (Ascii.eqb "T" "T") with true.
  rewrite orb_false_l, andb_true_l.
  assert (Hd : 0 < MS_PER_DAY) by reflexivity.
  pose proof (Z.div_mod a MS_PER_DAY ltac:(lia)) as Ha.
  pose proof (Z.div_mod b MS_PER_DAY ltac:(lia)) as Hb.
  pose proof (Z.mod_pos_bound a MS_PER_DAY Hd) as Ba.
  pose proof (Z.mod_pos_bound b MS_PER_DAY Hd) as Bb.
  destruct (Z.ltb_spec (a / MS_PER_DAY) (b / MS_PER_DAY));
    destruct (Z.eqb_spec (a / MS_PER_DAY) (b / MS_PER_DAY));
    destruct (Z.ltb_spec (a mod MS_PER_DAY) (b mod MS_PER_DAY));
    destruct (Z.ltb_spec a b); simpl; try reflexivity; exfalso; nia.
Qed.

Lemma fold_left_requested (selections : list TicketSelection.t) (a : Z) :
  fold_left (fun sum s => sum + TicketSelection.quantity s) selections a
  = a + requested_total selections.
Proof.
  revert a. induction selections as [|s rest IH]; intros a; simpl.
  - lia.
  - rewrite IH. lia.
Qed.

Lemma sum_quantity_app (l1 l2 : list HoldRow.t) :
  sum_quantity (l1 ++ l2) = sum_quantity l1 + sum_quantity l2.
Proof.
  induction l1 as [|h l1 IH]; simpl; [reflexivity|].
  rewrite IH. lia.
Qed.

Lemma filter_filter_sub {A : Type} (p q : A -> bool) (l : list A) :
  (forall x, p x = true -> q x = true) ->
  filter p (filter q l) = filter p l.
Proof.
  intros Hpq. induction l as [|x l IH]; simpl; [reflexivity|].
  destruct (q x) eqn:Eq; simpl.
  - destruct (p x); [f_equal|]; exact IH.
  - destruct (p x) eqn:Ep; [|exact IH].
    apply Hpq in Ep. congruence.
Qed.

Lemma filter_length_split {A : Type} (p : A -> bool) (l : list A) :
  List.length l
  = (List.length (filter p l) + List.length (filter (fun x => negb (p x)) l))%nat.
Proof.
  induction l as [|x l IH]; simpl; [reflexivity|].
  destruct (p x); simpl; lia.
Qed.

Lemma find_map_preserved {A : Type} (p : A -> bool) (f : A -> A) (l : list A) :
  (forall x, p (f x) = p x) ->
  find p (map f l) = option_map f (find p l).
Proof.
  intros Hp. induction l as [|x l IH]; simpl; [reflexivity|].
  rewrite Hp. destruct (p x); [reflexivity|exact IH].
Qed.

(* ------------------------------------------------------------------ *)
(** ** Cap validation of [createOrUpdateHolds] *)

(** C7.  When a selection asks for more than [MAX_TICKETS_PER_TIER], or the
    selections together ask for more than [MAX_TICKETS_PER_ORDER],
    [createOrUpdateHolds] answers [success = false] with no holds, and the
    state it leaves is the state it found: tables and uuid generator alike. *)
Theorem createOrUpdateHolds_over_cap_no_mutation :
  forall (now : Z) (sessionId concertId : string)
         (selections : list TicketSelection.t) (w : World),
    (exists selection, In selection selections
                       /\ LIMITS.MAX_TICKETS_PER_TIER < TicketSelection.quantity selection)
    \/ LIMITS.MAX_TICKETS_PER_ORDER < requested_total selections ->
    HoldsResult.success (fst (createOrUpdateHolds now sessionId concertId selections w)) = false
    /\ HoldsResult.holds (fst (createOrUpdateHolds now sessionId concertId selections w)) = []
    /\ HoldsResult.unavailable (fst (createOrUpdateHolds now sessionId concertId selections w)) = None
    /\ snd (createOrUpdateHolds now sessionId concertId selections w) = w.
Proof.
  intros now sessionId concertId selections w Hcap.
  unfold createOrUpdateHolds.
  destruct (existsb _ selections) eqn:Etier.
  - simpl. auto.
  - destruct Hcap as [[selection [Hin Hq]] | Htotal].
    + assert (Ex : existsb
                (fun selection =>
                   TicketSelection.quantity selection >? LIMITS.MAX_TICKETS_PER_TIER)
                selections = true).
      { apply existsb_exists. exists selection. split; [exact Hin|].
        apply Z.gtb_lt. exact Hq. }
      rewrite Ex in Etier. discriminate Etier.
    + rewrite fold_left_requested.
      replace (0 + requested_total selections >? LIMITS.MAX_TICKETS_PER_ORDER)
        with true by (symmetry; apply Z.gtb_lt; lia).
      simpl. auto.
Qed.

Lemma createOrUpdateHolds_over_cap_witness :
  LIMITS.MAX_TICKETS_PER_ORDER
  < requested_total [Scenario.sel VIP 8; Scenario.sel FRONT_ROW 8; Scenario.sel GA 8]
  /\ snd (createOrUpdateHolds 1000 "B" "good-luck"
            [Scenario.sel VIP 8; Scenario.sel FRONT_ROW 8; Scenario.sel GA 8]
            Scenario.a_holds_vip)
     = Scenario.a_holds_vip.
Proof.
  split.
  - vm_compute. reflexivity.
  - apply (createOrUpdateHolds_over_cap_no_mutation 1000 "B" "good-luck"
             [Scenario.sel VIP 8; Scenario.sel FRONT_ROW 8; Scenario.sel GA 8]
             Scenario.a_holds_vip).
    right. vm_compute. reflexivity.
Defined.

(* ------------------------------------------------------------------ *)
(** ** Expiry: availability and the sweep *)

Lemma heldQuantity_only_not_expired now w concertId tier :
  heldQuantity now (set_holds w (filter (not_expired now) (holds w))) concertId tier
  = heldQuantity now w concertId tier.
Proof.
  unfold heldQuantity. simpl.
  rewrite filter_filter_sub; [reflexivity|].
  intros h H. apply andb_true_iff in H. tauto.
Qed.

Lemma expired_negb now h :
  negb (expired now h) = not_expired now h.
Proof. unfold expired, not_expired. apply negb_involutive. Qed.

Lemma cleanup_holds now w :
  holds (snd (cleanupExpiredHolds now w)) = filter (not_expired now) (holds w).
Proof.
  simpl. apply filter_ext. intros h. apply expired_negb.
Qed.

Lemma expired_utc_date now h :
  expired now h = (utc_date (HoldRow.expires_at h) <? utc_date now).
Proof.
  rewrite <- (negb_involutive (expired now h)), expired_negb, not_expired_utc_date.
  destruct (Z.leb_spec (utc_date now) (utc_date (HoldRow.expires_at h)));
    destruct (Z.ltb_spec (utc_date (HoldRow.expires_at h)) (utc_date now));
    simpl; try reflexivity; lia.
Qed.

(** What the availability query and the sweep do: a hold is counted, and
    kept by the sweep, as long as the UTC date of its expiry is not before
    the UTC date of [now].  The sweep deletes the other holds, returns how
    many they are, keeps the rest in their order and unmodified, and
    touches no other table. *)
Lemma expiry_by_utc_date :
  forall (now : Z) (w : World) (concertId : string) (tier : TicketTier)
         (inventory : InventoryRow.t),
    select_inventory w concertId tier = Some inventory ->
    getAvailableQuantity now w concertId tier
    = InventoryRow.total_quantity inventory - InventoryRow.sold_quantity inventory
      - sum_quantity
          (filter (fun h => String.eqb (HoldRow.concert_id h) concertId
                            && tier_eqb (HoldRow.tier h) tier
                            && (utc_date now <=? utc_date (HoldRow.expires_at h)))
                  (holds w))
    /\ (forall h, In h (holds (snd (cleanupExpiredHolds now w)))
                  <-> In h (holds w)
                      /\ utc_date now <= utc_date (HoldRow.expires_at h))
    /\ holds (snd (cleanupExpiredHolds now w)) = filter (not_expired now) (holds w)
    /\ fst (cleanupExpiredHolds now w)
       = Z.of_nat
           (List.length
              (filter (fun h => utc_date (HoldRow.expires_at h) <? utc_date now)
                      (holds w)))
    /\ Z.of_nat (List.length (holds w))
       = fst (cleanupExpiredHolds now w)
         + Z.of_nat (List.length (holds (snd (cleanupExpiredHolds now w))))
    /\ getAvailableQuantity now (snd (cleanupExpiredHolds now w)) concertId tier
       = getAvailableQuantity now w concertId tier
    /\ ticket_inventory (snd (cleanupExpiredHolds now w)) = ticket_inventory w
    /\ bookings (snd (cleanupExpiredHolds now w)) = bookings w
    /\ booking_items (snd (cleanupExpiredHolds now w)) = booking_items w.
Proof.
  intros now w concertId tier inventory Hinv.
  split; [|split; [|split; [|split; [|split; [|split]]]]].
  - unfold getAvailableQuantity, heldQuantity, of_concert_tier. rewrite Hinv.
    do 2 f_equal. apply filter_ext. intros h.
    rewrite not_expired_utc_date. reflexivity.
  - intros h. rewrite cleanup_holds, filter_In, not_expired_spec. reflexivity.
  - apply cleanup_holds.
  - simpl. do 2 f_equal. apply filter_ext. intros h. apply expired_utc_date.
  - simpl. rewrite (filter_length_split (expired now) (holds w)) at 1. lia.
  - unfold getAvailableQuantity.
    change (select_inventory (snd (cleanupExpiredHolds now w)) concertId tier)
      with (select_inventory w concertId tier).
    rewrite Hinv. f_equal.
    rewrite <- (heldQuantity_only_not_expired now w concertId tier).
    unfold heldQuantity. rewrite cleanup_holds. reflexivity.
  - auto.
Qed.

(** C6, on the code.  A has entered checkout with two VIP tickets at
    instant 0, midnight UTC, and its hold expires at 600000, ten minutes
    later.  From then on no hold has an [expires_at] strictly after [now]:
    the availability of VIP should be 2 - 0 - 0 = 2, and a sweep should
    delete the hold and return 1.  At 600000, at 700000 and until the last
    millisecond of that day the availability query still counts the hold
    and answers 0, and the sweep deletes nothing and returns 0.  Only when
    the UTC date has changed is the hold left out and swept.  Both queries
    compare the text that [toISOString()] wrote with the text of
    [datetime('now')], and on the date of the expiry the first is the
    greater one at every instant. *)
Theorem expired_hold_counted_and_kept :
  Scenario.a_holds_vip
  = mkWorld [InventoryRow.mk "good-luck" VIP 2 0;
             InventoryRow.mk "good-luck" FRONT_ROW 3 0;
             InventoryRow.mk "good-luck" GA 5 0]
            [HoldRow.mk 0%nat "A" "good-luck" VIP 2 0 600000 0] [] [] 1%nat
  /\ getAvailableQuantity 600000 Scenario.a_holds_vip "good-luck" VIP = 0
  /\ getAvailableQuantity 700000 Scenario.a_holds_vip "good-luck" VIP = 0
  /\ getAvailableQuantity 86399999 Scenario.a_holds_vip "good-luck" VIP = 0
  /\ cleanupExpiredHolds 600000 Scenario.a_holds_vip = (0, Scenario.a_holds_vip)
  /\ cleanupExpiredHolds 700000 Scenario.a_holds_vip = (0, Scenario.a_holds_vip)
  /\ cleanupExpiredHolds 86399999 Scenario.a_holds_vip = (0, Scenario.a_holds_vip)
  /\ getAvailableQuantity 86400000 Scenario.a_holds_vip "good-luck" VIP = 2
  /\ cleanupExpiredHolds 86400000 Scenario.a_holds_vip = (1, Scenario.seeded_after 1).
Proof. repeat split; vm_compute; reflexivity. Qed.

(* ------------------------------------------------------------------ *)
(** ** [processBooking]: the loops *)

Lemma prepare_items_acc (selections : list TicketSelection.t)
      (total : Z) (items : list BookingItem.t) :
  fold_left
    (fun (acc : Z * list BookingItem.t) selection =>
       if TicketSelection.quantity selection =? 0 then acc
       else
         let tierInfo := TICKET_TIERS (TicketSelection.tier selection) in
         let subtotal :=
           TicketTierInfo.price tierInfo * TicketSelection.quantity selection in
         (fst acc + subtotal,
          snd acc
          ++ [BookingItem.mk (TicketSelection.tier selection)
                             (TicketSelection.quantity selection)
                             (TicketTierInfo.price tierInfo) subtotal]))
    selections (total, items)
  = (total + sum_subtotals (map item_of (nonzero selections)),
     items ++ map item_of (nonzero selections)).
Proof.
  revert total items.
  induction selections as [|s rest IH]; intros total items; simpl.
  - rewrite app_nil_r. f_equal. lia.
  - destruct (TicketSelection.quantity s =? 0) eqn:E; simpl.
    + apply IH.
    + rewrite IH. simpl. unfold item_of at 2 4. simpl.
      rewrite <- app_assoc. simpl. f_equal. lia.
Qed.

Lemma prepare_items_spec (selections : list TicketSelection.t) :
  prepare_items selections
  = (sum_subtotals (map item_of (nonzero selections)),
     map item_of (nonzero selections)).
Proof. unfold prepare_items. rewrite prepare_items_acc. reflexivity. Qed.

Lemma record_items_frame bookingId concertId items w :
  holds (record_items bookingId concertId items w) = holds w
  /\ bookings (record_items bookingId concertId items w) = bookings w
  /\ uuid_state (record_items bookingId concertId items w) = uuid_state w.
Proof.
  unfold record_items. revert w.
  induction items as [|i rest IH]; intros w; simpl; [auto|].
  destruct (IH (updateInventory (BookingItem.quantity i) concertId (BookingItem.tier i)
                  (insertItem bookingId i w))) as [H1 [H2 H3]].
  rewrite H1, H2, H3. auto.
Qed.

Lemma record_items_booking_items bookingId concertId items w :
  booking_items (record_items bookingId concertId items w)
  = booking_items w ++ item_rows (List.length (booking_items w)) bookingId items.
Proof.
  unfold record_items. revert w.
  induction items as [|i rest IH]; intros w; simpl.
  - rewrite app_nil_r. reflexivity.
  - rewrite IH. simpl. rewrite <- app_assoc. simpl.
    rewrite length_app. simpl. rewrite Nat.add_1_r. reflexivity.
Qed.

Lemma record_items_inventory bookingId concertId items w :
  ticket_inventory (record_items bookingId concertId items w)
  = map (fun r =>
           if String.eqb (InventoryRow.concert_id r) concertId
           then sell (items_quantity items (InventoryRow.tier r)) r
           else r)
        (ticket_inventory w).
Proof.
  unfold record_items. revert w.
  induction items as [|i rest IH]; intros w; simpl.
  - rewrite <- (map_id (ticket_inventory w)) at 1.
    apply map_ext. intros r. destruct (String.eqb _ _); [|reflexivity].
    unfold sell. rewrite Z.add_0_r. destruct r; reflexivity.
  - rewrite IH. simpl. rewrite map_map. apply map_ext. intros r.
    unfold inv_of_concert_tier.
    destruct (String.eqb (InventoryRow.concert_id r) concertId) eqn:Ec; simpl.
    + rewrite (tier_eqb_sym (BookingItem.tier i)).
      destruct (tier_eqb (InventoryRow.tier r) (BookingItem.tier i)); simpl.
      * rewrite Ec. unfold sell. simpl. f_equal. lia.
      * rewrite Ec. reflexivity.
    + rewrite Ec. reflexivity.
Qed.

Lemma items_quantity_of_selections (selections : list TicketSelection.t) tier :
  items_quantity (map item_of (nonzero selections)) tier
  = purchased_quantity selections tier.
Proof.
  induction selections as [|s rest IH]; simpl; [reflexivity|].
  destruct (TicketSelection.quantity s =? 0) eqn:E; simpl.
  - rewrite IH. apply Z.eqb_eq in E. rewrite E.
    destruct (tier_eqb _ _); lia.
  - rewrite IH. reflexivity.
Qed.

Lemma verify_holds_all_zero byTier (selections : list TicketSelection.t) :
  Forall (fun s => TicketSelection.quantity s = 0) selections ->
  verify_holds byTier selections = None.
Proof.
  induction 1 as [|s rest Hs _ IH]; simpl; [reflexivity|].
  rewrite Hs. simpl. exact IH.
Qed.

Lemma verify_inventory_all_zero w concertId (selections : list TicketSelection.t) :
  Forall (fun s => TicketSelection.quantity s = 0) selections ->
  verify_inventory w concertId selections = None.
Proof.
  induction 1 as [|s rest Hs _ IH]; simpl; [reflexivity|].
  rewrite Hs. simpl. exact IH.
Qed.

Lemma nonzero_all_zero (selections : list TicketSelection.t) :
  Forall (fun s => TicketSelection.quantity s = 0) selections ->
  nonzero selections = [].
Proof.
  induction 1 as [|s rest Hs _ IH]; simpl; [reflexivity|].
  rewrite Hs. simpl. exact IH.
Qed.

(** C10.  With no selection, or only selections of quantity 0,
    [processBooking] looks at neither holds nor inventory: in every state
    its outcome is decided by the payment alone.  When the payment goes
    through it adds one CONFIRMED booking of amount 0 with no items, leaves
    the inventory and the booking items as they were, and deletes every hold
    of the session for the concert; when it is declined nothing changes. *)
Theorem processBooking_nothing_selected :
  forall (now : Z) (random : Q) (sessionId concertId : string)
         (selections : list TicketSelection.t) (w : World),
    Forall (fun s => TicketSelection.quantity s = 0) selections ->
    processBooking now random sessionId concertId selections w
    = if simulatePayment random then
        (BookingResult.mk true
           (Some (Booking.mk (uuid_state w) sessionId concertId [] 0
                             CONFIRMED now (Some now)))
           PaymentSuccessful None,
         mkWorld (ticket_inventory w)
                 (filter (fun h => negb (of_session_concert sessionId concertId h))
                         (holds w))
                 (bookings w
                  ++ [BookingRow.mk (uuid_state w) sessionId concertId 0
                                    CONFIRMED now (Some now)])
                 (booking_items w)
                 (S (uuid_state w)))
      else (BookingResult.mk false None PaymentDeclined (Some true), w).
Proof.
  intros now random sessionId concertId selections w Hzero.
  unfold processBooking.
  rewrite (verify_holds_all_zero _ _ Hzero), (verify_inventory_all_zero _ _ _ Hzero).
  destruct (simulatePayment random); simpl; [|reflexivity].
  rewrite prepare_items_spec, (nonzero_all_zero _ Hzero). simpl.
  reflexivity.
Qed.

Lemma processBooking_nothing_selected_witness :
  Forall (fun s => TicketSelection.quantity s = 0) [Scenario.sel VIP 0]
  /\ holds (snd (processBooking 1000 (1 # 2) "A" "good-luck" [Scenario.sel VIP 0]
                   Scenario.a_holds_vip)) = []
  /\ List.length (bookings (snd (processBooking 1000 (1 # 2) "A" "good-luck"
                                   [Scenario.sel VIP 0] Scenario.a_holds_vip))) = 1%nat.
Proof.
  assert (Hz : Forall (fun s => TicketSelection.quantity s = 0) [Scenario.sel VIP 0]).
  { constructor; [reflexivity|constructor]. }
  split; [exact Hz|].
  rewrite (processBooking_nothing_selected 1000 (1 # 2) "A" "good-luck"
             [Scenario.sel VIP 0] Scenario.a_holds_vip Hz).
  split; vm_compute; reflexivity.
Defined.

Lemma select_inventory_after_sales w concertId items c t (w' : World) :
  ticket_inventory w'
  = map (fun r =>
           if String.eqb (InventoryRow.concert_id r) concertId
           then sell (items_quantity items (InventoryRow.tier r)) r
           else r)
        (ticket_inventory w) ->
  select_inventory w' c t
  = option_map
      (fun r => if String.eqb c concertId then sell (items_quantity items t) r else r)
      (select_inventory w c t).
Proof.
  intros Hinv. unfold select_inventory. rewrite Hinv.
  rewrite find_map_preserved.
  - destruct (find (inv_of_concert_tier c t) (ticket_inventory w)) as [r|] eqn:Ef;
      simpl; [|reflexivity].
    apply find_some in Ef. destruct Ef as [_ Ef].
    unfold inv_of_concert_tier in Ef. apply andb_true_iff in Ef.
    destruct Ef as [Ec Et]. apply String.eqb_eq in Ec. apply tier_eqb_eq in Et.
    rewrite Ec, Et. reflexivity.
  - intros r. unfold inv_of_concert_tier.
    destruct (String.eqb (InventoryRow.concert_id r) concertId); reflexivity.
Qed.

Lemma verify_inventory_passes w concertId (selections : list TicketSelection.t) :
  verify_inventory w concertId selections = None ->
  forall s, In s selections -> ~ inventory_check_fails w concertId s.
Proof.
  induction selections as [|s0 rest IH]; simpl; intros Hv s Hin; [contradiction|].
  destruct (TicketSelection.quantity s0 =? 0) eqn:E0.
  - destruct Hin as [<-|Hin]; [|exact (IH Hv s Hin)].
    intros [Hq _]. apply Z.eqb_eq in E0. contradiction.
  - destruct (select_inventory w concertId (TicketSelection.tier s0)) as [inv|] eqn:Ei;
      [|discriminate Hv].
    destruct (_ <? _) eqn:El; [discriminate Hv|].
    destruct Hin as [<-|Hin]; [|exact (IH Hv s Hin)].
    intros [_ [Hnone | [inv' [Hs Hlt]]]].
    + rewrite Ei in Hnone. discriminate Hnone.
    + rewrite Ei in Hs. injection Hs as <-. apply Z.ltb_ge in El. lia.
Qed.

Lemma verify_inventory_fails w concertId (selections : list TicketSelection.t) msg :
  verify_inventory w concertId selections = Some msg ->
  exists s, In s selections /\ inventory_check_fails w concertId s.
Proof.
  induction selections as [|s0 rest IH]; simpl; intros Hv; [discriminate Hv|].
  destruct (TicketSelection.quantity s0 =? 0) eqn:E0.
  - destruct (IH Hv) as [s [Hin Hf]]. exists s. auto.
  - apply Z.eqb_neq in E0.
    destruct (select_inventory w concertId (TicketSelection.tier s0)) as [inv|] eqn:Ei.
    + destruct (_ <? _) eqn:El.
      * exists s0. split; [auto|]. split; [exact E0|]. right. exists inv.
        split; [exact Ei|]. apply Z.ltb_lt in El. exact El.
      * destruct (IH Hv) as [s [Hin Hf]]. exists s. auto.
    + exists s0. split; [auto|]. split; [exact E0|]. left. exact Ei.
Qed.

(** C2.  A call of [processBooking] that answers [success = true] appends
    exactly one booking row, CONFIRMED, and one booking item per selection
    of non-zero quantity, in the order of the selections; each item carries
    the configured price of its tier and the subtotal price times quantity,
    and the booking's amount is the sum of the subtotals.  Every purchased
    tier has an inventory row; the sold quantity of each row of the concert
    grows by exactly what the selections buy of its tier, every other row and
    every total is as before, and the holds table loses exactly the rows of
    the session for the concert. *)
Theorem processBooking_success :
  forall (now : Z) (random : Q) (sessionId concertId : string)
         (selections : list TicketSelection.t) (w : World),
    BookingResult.success
      (fst (processBooking now random sessionId concertId selections w)) = true ->
    let w' := snd (processBooking now random sessionId concertId selections w) in
    let items := map item_of (nonzero selections) in
    BookingResult.booking
      (fst (processBooking now random sessionId concertId selections w))
    = Some (Booking.mk (uuid_state w) sessionId concertId items
                       (sum_subtotals items) CONFIRMED now (Some now))
    /\ bookings w'
       = bookings w
         ++ [BookingRow.mk (uuid_state w) sessionId concertId (sum_subtotals items)
                           CONFIRMED now (Some now)]
    /\ booking_items w'
       = booking_items w
         ++ item_rows (List.length (booking_items w)) (uuid_state w) items
    /\ List.length items = List.length (nonzero selections)
    /\ (forall i, In i items ->
          BookingItem.pricePerTicket i = TicketTierInfo.price (TICKET_TIERS (BookingItem.tier i))
          /\ BookingItem.subtotal i
             = TicketTierInfo.price (TICKET_TIERS (BookingItem.tier i))
               * BookingItem.quantity i)
    /\ (forall s, In s (nonzero selections) ->
          exists sold, soldQuantity w concertId (TicketSelection.tier s) = Some sold)
    /\ (forall tier,
          soldQuantity w' concertId tier
          = option_map (fun sold => sold + purchased_quantity selections tier)
                       (soldQuantity w concertId tier))
    /\ (forall c tier, c <> concertId -> soldQuantity w' c tier = soldQuantity w c tier)
    /\ (forall c tier, totalQuantity w' c tier = totalQuantity w c tier)
    /\ holds w'
       = filter (fun h => negb (of_session_concert sessionId concertId h)) (holds w).
Proof.
  intros now random sessionId concertId selections w.
  unfold processBooking.
  destruct (verify_holds _ selections) as [msg|] eqn:Eh; [simpl; discriminate|].
  destruct (verify_inventory w concertId selections) as [msg|] eqn:Ei;
    [simpl; discriminate|].
  destruct (simulatePayment random); simpl; [|discriminate].
  rewrite prepare_items_spec. simpl. intros _.
  set (items := map item_of (nonzero selections)).
  set (w2 := set_bookings _ _).
  destruct (record_items_frame (uuid_state w) concertId items w2) as [Fh [Fb _]].
  pose proof (record_items_inventory (uuid_state w) concertId items w2) as Finv.
  pose proof (record_items_booking_items (uuid_state w) concertId items w2) as Fbi.
  assert (Hsel : forall c t,
    select_inventory
      (releaseHolds sessionId concertId (record_items (uuid_state w) concertId items w2))
      c t
    = option_map
        (fun r => if String.eqb c concertId then sell (items_quantity items t) r else r)
        (select_inventory w c t)).
  { intros c t.
    apply (select_inventory_after_sales w concertId items c t). exact Finv. }
  split; [reflexivity|].
  split; [rewrite Fb; reflexivity|].
  split; [rewrite Fbi; reflexivity|].
  split; [unfold items; apply length_map|].
  split.
  { intros i Hi. unfold items in Hi. apply in_map_iff in Hi.
    destruct Hi as [s [<- _]]. simpl. auto. }
  split.
  { intros s Hs. unfold nonzero in Hs. apply filter_In in Hs. destruct Hs as [Hin Hq].
    pose proof (verify_inventory_passes _ _ _ Ei s Hin) as Hok.
    unfold soldQuantity.
    destruct (select_inventory w concertId (TicketSelection.tier s)) as [inv|] eqn:Es.
    - simpl. eauto.
    - exfalso. apply Hok. split; [|left; exact Es].
      intros Hz. rewrite Hz in Hq. discriminate Hq. }
  split.
  { intros tier. unfold soldQuantity. rewrite Hsel, String.eqb_refl.
    destruct (select_inventory w concertId tier); simpl; [|reflexivity].
    unfold items. rewrite items_quantity_of_selections. reflexivity. }
  split.
  { intros c tier Hc. unfold soldQuantity. rewrite Hsel.
    apply String.eqb_neq in Hc. rewrite Hc.
    destruct (select_inventory w c tier); reflexivity. }
  split.
  { intros c tier. unfold totalQuantity. rewrite Hsel.
    destruct (select_inventory w c tier); simpl; [|reflexivity].
    destruct (String.eqb c concertId); reflexivity. }
  simpl. rewrite Fh. reflexivity.
Qed.

Lemma processBooking_success_witness :
  BookingResult.success
    (fst (processBooking 1000 (1 # 2) "A" "good-luck" [Scenario.sel VIP 2]
            Scenario.a_holds_vip)) = true
  /\ soldQuantity
       (snd (processBooking 1000 (1 # 2) "A" "good-luck" [Scenario.sel VIP 2]
               Scenario.a_holds_vip)) "good-luck" VIP = Some 2.
Proof.
  assert (Hs : BookingResult.success
                 (fst (processBooking 1000 (1 # 2) "A" "good-luck" [Scenario.sel VIP 2]
                         Scenario.a_holds_vip)) = true) by (vm_compute; reflexivity).
  split; [exact Hs|].
  pose proof (processBooking_success 1000 (1 # 2) "A" "good-luck" [Scenario.sel VIP 2]
                Scenario.a_holds_vip Hs) as H.
  cbv zeta in H.
  destruct H as [_ [_ [_ [_ [_ [_ [Hsold _]]]]]]].
  rewrite Hsold. vm_compute. reflexivity.
Defined.

(* ------------------------------------------------------------------ *)
(** ** [processBooking]: the failure cases *)

Lemma map_rowToHold (hs : list HoldRow.t) : map rowToHold hs = hs.
Proof. unfold rowToHold. apply map_id. Qed.

Lemma getHoldsForConcert_In now w sessionId concertId h :
  In h (getHoldsForConcert now w sessionId concertId)
  <-> In h (holds w)
      /\ HoldRow.session_id h = sessionId /\ HoldRow.concert_id h = concertId
      /\ not_expired now h = true.
Proof.
  unfold getHoldsForConcert.
  rewrite map_rowToHold, filter_In, andb_true_iff, of_session_concert_spec.
  tauto.
Qed.

Lemma holdsByTier_no_entry (hs : list Hold) (m : TicketTier -> option Hold) tier :
  (forall h, In h hs -> HoldRow.tier h <> tier) ->
  fold_left (fun m h => Map_set m (HoldRow.tier h) h) hs m tier = m tier.
Proof.
  revert m. induction hs as [|h0 hs IH]; intros m Hno; simpl; [reflexivity|].
  rewrite IH.
  - assert (E : tier_eqb tier (HoldRow.tier h0) = false).
    { apply tier_eqb_neq. intros E. apply (Hno h0); [left; reflexivity|].
      symmetry. exact E. }
    unfold Map_set. rewrite E. reflexivity.
  - intros h Hin. apply Hno. right. exact Hin.
Qed.

Lemma holdsByTier_entry (hs : list Hold) (m : TicketTier -> option Hold) tier h :
  In h hs -> HoldRow.tier h = tier ->
  exists h', In h' hs /\ HoldRow.tier h' = tier
             /\ fold_left (fun m h => Map_set m (HoldRow.tier h) h) hs m tier
                = Some h'.
Proof.
  revert m h. induction hs as [|h0 hs IH]; intros m h Hin Ht; [contradiction|].
  simpl.
  destruct (existsb (fun x => tier_eqb (HoldRow.tier x) tier) hs) eqn:Ex.
  - apply existsb_exists in Ex. destruct Ex as [x [Hx Hxt]].
    apply tier_eqb_eq in Hxt.
    destruct (IH (Map_set m (HoldRow.tier h0) h0) x Hx) as [h' [Hin' [Ht' Hf]]].
    + exact Hxt.
    + exists h'. split; [right; exact Hin'|]. split; [exact Ht'|exact Hf].
  - assert (Hno : forall x, In x hs -> HoldRow.tier x <> tier).
    { intros x Hx E.
      assert (existsb (fun x => tier_eqb (HoldRow.tier x) tier) hs = true).
      { apply existsb_exists. exists x. split; [exact Hx|]. apply tier_eqb_eq. exact E. }
      congruence. }
    rewrite holdsByTier_no_entry by exact Hno.
    destruct Hin as [<-|Hin].
    + exists h0. split; [left; reflexivity|]. split; [exact Ht|].
      unfold Map_set. rewrite <- Ht, tier_eqb_refl. reflexivity.
    + exfalso. exact (Hno h Hin Ht).
Qed.

Lemma holdsByTier_Some now w sessionId concertId tier h :
  holds_wf w ->
  (holdsByTier (getHoldsForConcert now w sessionId concertId) tier = Some h
   <-> matching_hold now w sessionId concertId tier h).
Proof.
  intros Hwf. unfold matching_hold. split.
  - intros Hm.
    destruct (existsb (fun x => tier_eqb (HoldRow.tier x) tier)
                      (getHoldsForConcert now w sessionId concertId)) eqn:Ex.
    + apply existsb_exists in Ex. destruct Ex as [x [Hx Hxt]].
      apply tier_eqb_eq in Hxt.
      destruct (holdsByTier_entry _ (fun _ => None) tier x Hx Hxt) as [h' [Hin' [Ht' Hf]]].
      unfold holdsByTier in Hm. rewrite Hf in Hm. injection Hm as <-.
      apply getHoldsForConcert_In in Hin'. tauto.
    + unfold holdsByTier in Hm. rewrite holdsByTier_no_entry in Hm; [discriminate Hm|].
      intros x Hx E.
      assert (existsb (fun x => tier_eqb (HoldRow.tier x) tier)
                      (getHoldsForConcert now w sessionId concertId) = true).
      { apply existsb_exists. exists x. split; [exact Hx|]. apply tier_eqb_eq. exact E. }
      congruence.
  - intros [Hin [Hs [Hc [Ht Hexp]]]].
    assert (Hact : In h (getHoldsForConcert now w sessionId concertId)).
    { apply getHoldsForConcert_In. tauto. }
    destruct (holdsByTier_entry _ (fun _ => None) tier h Hact Ht) as [h' [Hin' [Ht' Hf]]].
    unfold holdsByTier. rewrite Hf. f_equal.
    apply getHoldsForConcert_In in Hin'. destruct Hin' as [Hin' [Hs' [Hc' _]]].
    apply (wf_one_per_tier w Hwf); [exact Hin' | exact Hin | congruence ..].
Qed.

Lemma holdsByTier_None now w sessionId concertId tier :
  holds_wf w ->
  (holdsByTier (getHoldsForConcert now w sessionId concertId) tier = None
   <-> forall h, ~ matching_hold now w sessionId concertId tier h).
Proof.
  intros Hwf. split.
  - intros Hn h Hm. apply (holdsByTier_Some now w sessionId concertId tier h Hwf) in Hm.
    congruence.
  - intros Hno.
    destruct (holdsByTier (getHoldsForConcert now w sessionId concertId) tier)
      as [h|] eqn:E; [|reflexivity].
    apply (holdsByTier_Some now w sessionId concertId tier h Hwf) in E.
    exfalso. exact (Hno h E).
Qed.

Lemma verify_holds_passes now w sessionId concertId (selections : list TicketSelection.t) :
  holds_wf w ->
  verify_holds (holdsByTier (getHoldsForConcert now w sessionId concertId)) selections
  = None ->
  forall s, In s selections -> ~ hold_check_fails now w sessionId concertId s.
Proof.
  intros Hwf.
  induction selections as [|s0 rest IH]; simpl; intros Hv s Hin; [contradiction|].
  destruct (TicketSelection.quantity s0 =? 0) eqn:E0.
  - destruct Hin as [<-|Hin]; [|exact (IH Hv s Hin)].
    intros [Hq _]. apply Z.eqb_eq in E0. contradiction.
  - destruct (holdsByTier _ (TicketSelection.tier s0)) as [hold|] eqn:Eh;
      [|discriminate Hv].
    destruct (_ <? _) eqn:El; [discriminate Hv|].
    destruct Hin as [<-|Hin]; [|exact (IH Hv s Hin)].
    apply Z.ltb_ge in El.
    intros [_ [Hnone | [h [Hm Hlt]]]].
    + apply (holdsByTier_Some _ _ _ _ _ _ Hwf) in Eh. exact (Hnone hold Eh).
    + apply (holdsByTier_Some _ _ _ _ _ _ Hwf) in Hm.
      rewrite Eh in Hm. injection Hm as <-. lia.
Qed.

Lemma verify_holds_fails now w sessionId concertId (selections : list TicketSelection.t) msg :
  holds_wf w ->
  verify_holds (holdsByTier (getHoldsForConcert now w sessionId concertId)) selections
  = Some msg ->
  exists s, In s selections /\ hold_check_fails now w sessionId concertId s.
Proof.
  intros Hwf.
  induction selections as [|s0 rest IH]; simpl; intros Hv; [discriminate Hv|].
  destruct (TicketSelection.quantity s0 =? 0) eqn:E0.
  - destruct (IH Hv) as [s [Hin Hf]]. exists s. auto.
  - apply Z.eqb_neq in E0.
    destruct (holdsByTier _ (TicketSelection.tier s0)) as [hold|] eqn:Eh.
    + destruct (_ <? _) eqn:El.
      * exists s0. split; [auto|]. split; [exact E0|]. right. exists hold.
        split; [apply (holdsByTier_Some _ _ _ _ _ _ Hwf); exact Eh|].
        apply Z.ltb_lt in El. exact El.
      * destruct (IH Hv) as [s [Hin Hf]]. exists s. auto.
    + exists s0. split; [auto|]. split; [exact E0|]. left.
      apply (holdsByTier_None _ _ _ _ _ Hwf). exact Eh.
Qed.

(** The failures of [processBooking], in a state whose hold table is well
    formed.  It answers failure with [retryAllowed = false] exactly when
    some selection of non-zero quantity has no matching hold of the session
    that the query reads as not expired, or a matching hold for less than
    the selection, or fails the inventory check (no inventory row, or total
    minus sold below the selection); it answers failure with
    [retryAllowed = true] exactly when all selections pass both checks and
    the payment is declined; and every failure returns no booking and
    leaves the whole state (holds, inventory, bookings, booking items) as
    it was. *)
Lemma processBooking_failure_cases :
  forall (now : Z) (random : Q) (sessionId concertId : string)
         (selections : list TicketSelection.t) (w : World),
    holds_wf w ->
    let r := fst (processBooking now random sessionId concertId selections w) in
    let w' := snd (processBooking now random sessionId concertId selections w) in
    (BookingResult.success r = false /\ BookingResult.retryAllowed r = Some false
     <-> exists s, In s selections
                   /\ (hold_check_fails now w sessionId concertId s
                       \/ inventory_check_fails w concertId s))
    /\ (BookingResult.success r = false /\ BookingResult.retryAllowed r = Some true
        <-> (forall s, In s selections ->
               ~ hold_check_fails now w sessionId concertId s
               /\ ~ inventory_check_fails w concertId s)
            /\ simulatePayment random = false)
    /\ (BookingResult.success r = false -> BookingResult.booking r = None /\ w' = w).
Proof.
  intros now random sessionId concertId selections w Hwf.
  unfold processBooking.
  destruct (verify_holds _ selections) as [msg|] eqn:Eh.
  - destruct (verify_holds_fails _ _ _ _ _ _ Hwf Eh) as [s [Hin Hf]].
    simpl. split; [|split].
    + split; [intros _; exists s; auto | auto].
    + split; [intros [_ H]; discriminate H|].
      intros [Hall _]. exfalso. exact (proj1 (Hall s Hin) Hf).
    + auto.
  - pose proof (verify_holds_passes _ _ _ _ _ Hwf Eh) as Hhold.
    destruct (verify_inventory w concertId selections) as [msg|] eqn:Ei.
    + destruct (verify_inventory_fails _ _ _ _ Ei) as [s [Hin Hf]].
      simpl. split; [|split].
      * split; [intros _; exists s; auto | auto].
      * split; [intros [_ H]; discriminate H|].
        intros [Hall _]. exfalso. exact (proj2 (Hall s Hin) Hf).
      * auto.
    + pose proof (verify_inventory_passes _ _ _ Ei) as Hinv.
      assert (Hnone : ~ exists s, In s selections
                        /\ (hold_check_fails now w sessionId concertId s
                            \/ inventory_check_fails w concertId s)).
      { intros [s [Hin [Hf|Hf]]]; [exact (Hhold s Hin Hf) | exact (Hinv s Hin Hf)]. }
      destruct (simulatePayment random) eqn:Ep; simpl.
      * rewrite prepare_items_spec. simpl. split; [|split].
        -- split; [intros [H _]; discriminate H | intros H; contradiction].
        -- split; [intros [H _]; discriminate H | intros [_ H]; discriminate H].
        -- intros H; discriminate H.
      * split; [|split].
        -- split; [intros [_ H]; discriminate H | intros H; contradiction].
        -- split; [intros _ | auto].
           split; [|reflexivity]. intros s Hin. split; [exact (Hhold s Hin)|exact (Hinv s Hin)].
        -- auto.
Qed.

(* ------------------------------------------------------------------ *)
(** ** Well-formedness of the hold table is an invariant *)

Lemma holds_wf_ext w w' :
  holds w' = holds w -> (uuid_state w <= uuid_state w')%nat ->
  holds_wf w -> holds_wf w'.
Proof.
  intros Hh Hu [Hfresh Huniq Hone]. constructor; rewrite Hh.
  - intros h Hin. specialize (Hfresh h Hin). lia.
  - exact Huniq.
  - exact Hone.
Qed.

Lemma hold_ids_unique_filter (p : HoldRow.t -> bool) (hs : list HoldRow.t) :
  NoDup (map HoldRow.id hs) -> NoDup (map HoldRow.id (filter p hs)).
Proof.
  intros Hnd. induction hs as [|h hs IH]; simpl; [constructor|].
  simpl in Hnd. apply NoDup_cons_iff in Hnd. destruct Hnd as [Hnotin Hnd].
  destruct (p h); simpl; [|exact (IH Hnd)].
  apply NoDup_cons_iff. split; [|exact (IH Hnd)].
  intros Hin. apply Hnotin. apply in_map_iff in Hin.
  destruct Hin as [z [Hz Hin]]. apply filter_In in Hin.
  apply in_map_iff. exists z. tauto.
Qed.

Lemma holds_wf_filter w (p : HoldRow.t -> bool) :
  holds_wf w -> holds_wf (set_holds w (filter p (holds w))).
Proof.
  intros [Hfresh Huniq Hone]. constructor; simpl.
  - intros h Hin. apply filter_In in Hin. apply Hfresh. tauto.
  - apply hold_ids_unique_filter. exact Huniq.
  - intros h1 h2 H1 H2. apply filter_In in H1. apply filter_In in H2.
    apply Hone; tauto.
Qed.

Lemma holds_wf_map w (f : HoldRow.t -> HoldRow.t) :
  (forall h, HoldRow.id (f h) = HoldRow.id h
             /\ HoldRow.session_id (f h) = HoldRow.session_id h
             /\ HoldRow.concert_id (f h) = HoldRow.concert_id h
             /\ HoldRow.tier (f h) = HoldRow.tier h) ->
  holds_wf w -> holds_wf (set_holds w (map f (holds w))).
Proof.
  intros Hf [Hfresh Huniq Hone]. constructor; simpl.
  - intros h Hin. apply in_map_iff in Hin. destruct Hin as [a [<- Hin]].
    destruct (Hf a) as [-> _]. exact (Hfresh a Hin).
  - rewrite map_map.
    rewrite (map_ext (fun x => HoldRow.id (f x)) HoldRow.id); [exact Huniq|].
    intros a. apply Hf.
  - intros h1 h2 H1 H2. apply in_map_iff in H1. apply in_map_iff in H2.
    destruct H1 as [a [<- Ha]]. destruct H2 as [b [<- Hb]].
    destruct (Hf a) as [_ [-> [-> ->]]]. destruct (Hf b) as [_ [-> [-> ->]]].
    intros Es Ec Et. f_equal. apply Hone; assumption.
Qed.

Lemma holds_wf_insert w (row : HoldRow.t) :
  holds_wf w ->
  HoldRow.id row = uuid_state w ->
  find (of_session_concert_tier (HoldRow.session_id row) (HoldRow.concert_id row)
                                (HoldRow.tier row))
       (holds w) = None ->
  holds_wf (set_holds (snd (uuidv4 w)) (holds w ++ [row])).
Proof.
  intros [Hfresh Huniq Hone] Hid Hnone. constructor; simpl.
  - intros h Hin. apply in_app_or in Hin. destruct Hin as [Hin|[<-|[]]].
    + specialize (Hfresh h Hin). lia.
    + lia.
  - rewrite map_app. simpl. apply NoDup_app.
    + exact Huniq.
    + repeat constructor; simpl; tauto.
    + intros x Hx [<-|[]]. apply in_map_iff in Hx. destruct Hx as [h [Hh Hin]].
      specialize (Hfresh h Hin). lia.
  - assert (Hnew : forall h, In h (holds w) ->
              HoldRow.session_id h = HoldRow.session_id row ->
              HoldRow.concert_id h = HoldRow.concert_id row ->
              HoldRow.tier h = HoldRow.tier row -> False).
    { intros h Hin Es Ec Et.
      pose proof (find_none _ _ Hnone h Hin) as Hf.
      assert (of_session_concert_tier (HoldRow.session_id row) (HoldRow.concert_id row)
                (HoldRow.tier row) h = true)
        by (apply of_session_concert_tier_spec; tauto).
      congruence. }
    intros h1 h2 H1 H2 Es Ec Et.
    apply in_app_or in H1. apply in_app_or in H2.
    destruct H1 as [H1|[<-|[]]], H2 as [H2|[<-|[]]].
    + apply Hone; assumption.
    + exfalso. exact (Hnew h1 H1 Es Ec Et).
    + exfalso. apply (Hnew h2 H2); congruence.
    + reflexivity.
Qed.

Lemma NoDup_map_eq {A B : Type} (f : A -> B) (l : list A) (x y : A) :
  NoDup (map f l) -> In x l -> In y l -> f x = f y -> x = y.
Proof.
  induction l as [|a l IH]; simpl; intros Hnd Hx Hy Hf; [contradiction|].
  inversion Hnd as [|b l' Hnotin Hnd']; subst.
  destruct Hx as [<-|Hx], Hy as [<-|Hy].
  - reflexivity.
  - exfalso. apply Hnotin. rewrite Hf. apply in_map. exact Hy.
  - exfalso. apply Hnotin. rewrite <- Hf. apply in_map. exact Hx.
  - exact (IH Hnd' Hx Hy Hf).
Qed.

(** The row that [createOrUpdateHolds] writes over an existing row. *)
Lemma refreshed_key (q expiresAt now : Z) (h : HoldRow.t) :
  let h' := HoldRow.mk (HoldRow.id h) (HoldRow.session_id h) (HoldRow.concert_id h)
                       (HoldRow.tier h) q (HoldRow.created_at h) expiresAt now in
  HoldRow.id h' = HoldRow.id h
  /\ HoldRow.session_id h' = HoldRow.session_id h
  /\ HoldRow.concert_id h' = HoldRow.concert_id h
  /\ HoldRow.tier h' = HoldRow.tier h.
Proof. simpl. auto. Qed.

Lemma holds_iteration_wf now expiresAt sessionId concertId acc selection :
  holds_wf (lp_world acc) ->
  holds_wf (lp_world (holds_iteration now expiresAt sessionId concertId acc selection)).
Proof.
  intros Hwf. unfold holds_iteration.
  destruct (TicketSelection.quantity selection =? 0).
  - simpl. apply holds_wf_filter. exact Hwf.
  - destruct (find _ (holds (lp_world acc))) as [existing|] eqn:Ef.
    + destruct (_ && _); simpl; [exact Hwf|].
      apply (holds_wf_map (lp_world acc)
               (fun h => if Nat.eqb (HoldRow.id h) (HoldRow.id existing)
                         then HoldRow.mk (HoldRow.id h) (HoldRow.session_id h)
                                (HoldRow.concert_id h) (HoldRow.tier h)
                                (TicketSelection.quantity selection)
                                (HoldRow.created_at h) expiresAt now
                         else h)); [|exact Hwf].
      intros h. destruct (Nat.eqb _ _); simpl; auto.
    + destruct (_ && _); simpl; [exact Hwf|].
      apply (holds_wf_insert (lp_world acc)
               (HoldRow.mk (uuid_state (lp_world acc)) sessionId concertId
                  (TicketSelection.tier selection) (TicketSelection.quantity selection)
                  now expiresAt now)); [exact Hwf|reflexivity|exact Ef].
Qed.

Lemma holds_loop_wf now expiresAt sessionId concertId selections acc :
  holds_wf (lp_world acc) ->
  holds_wf (lp_world (fold_left (holds_iteration now expiresAt sessionId concertId)
                                selections acc)).
Proof.
  revert acc. induction selections as [|s rest IH]; intros acc Hwf; simpl; [exact Hwf|].
  apply IH. apply holds_iteration_wf. exact Hwf.
Qed.

Lemma createOrUpdateHolds_wf now sessionId concertId selections w :
  holds_wf w -> holds_wf (snd (createOrUpdateHolds now sessionId concertId selections w)).
Proof.
  intros Hwf. unfold createOrUpdateHolds.
  destruct (existsb _ selections); [exact Hwf|].
  destruct (_ >? _); [exact Hwf|].
  pose proof (holds_loop_wf now (now + HOLD_CONFIG.holdDurationMs) sessionId concertId
                selections (mkHoldsLoop w [] []) Hwf) as H.
  destruct (lp_unavailable _); exact H.
Qed.

Lemma processHeartbeat_wf now sessionId concertId lastActivityAt isTabVisible w :
  holds_wf w ->
  holds_wf (snd (processHeartbeat now sessionId concertId lastActivityAt isTabVisible w)).
Proof.
  intros Hwf. unfold processHeartbeat.
  destruct (filter _ (holds w)) as [|first rest]; [exact Hwf|].
  assert (Hext : forall e, holds_wf (set_holds w (update_expiry sessionId concertId e now (holds w)))).
  { intros e. unfold update_expiry.
    apply (holds_wf_map w); [|exact Hwf].
    intros h. destruct (of_session_concert _ _ h); simpl; auto. }
  destruct (negb isTabVisible); simpl; [apply Hext|].
  destruct (_ >? _); simpl; [exact Hwf|apply Hext].
Qed.

Lemma processBooking_wf now random sessionId concertId selections w :
  holds_wf w ->
  holds_wf (snd (processBooking now random sessionId concertId selections w)).
Proof.
  intros Hwf. unfold processBooking.
  destruct (verify_holds _ selections); [exact Hwf|].
  destruct (verify_inventory _ _ selections); [exact Hwf|].
  destruct (simulatePayment random); simpl; [|exact Hwf].
  rewrite prepare_items_spec. simpl.
  set (items := map item_of (nonzero selections)).
  set (w2 := set_bookings _ _).
  destruct (record_items_frame (uuid_state w) concertId items w2) as [Fh [_ Fu]].
  unfold releaseHolds.
  apply holds_wf_filter.
  apply (holds_wf_ext w); [exact Fh | rewrite Fu; simpl; lia | exact Hwf].
Qed.

Lemma exec_wf now call w : holds_wf w -> holds_wf (exec now call w).
Proof.
  intros Hwf. destruct call; simpl.
  - apply createOrUpdateHolds_wf. exact Hwf.
  - apply processHeartbeat_wf. exact Hwf.
  - apply holds_wf_filter. exact Hwf.
  - apply holds_wf_filter. exact Hwf.
  - apply holds_wf_filter. exact Hwf.
  - apply processBooking_wf. exact Hwf.
Qed.

Lemma seed_wf concerts : holds_wf (seed concerts).
Proof.
  constructor; simpl.
  - intros h [].
  - constructor.
  - intros h1 h2 [].
Qed.

(** Every state that a history of calls reaches from a seeded database has
    a well-formed hold table. *)
Lemma reachable_wf concerts history : holds_wf (run history (seed concerts)).
Proof.
  unfold run. generalize (seed_wf concerts). generalize (seed concerts).
  induction history as [|[t call] rest IH]; intros w Hwf; simpl; [exact Hwf|].
  apply IH. apply exec_wf. exact Hwf.
Qed.

(** C3, on the code.  A's hold of two VIP tickets, made at instant 0, has
    expired at 600000.  At 700000 the session has no hold whose
    [expires_at] is after [now]: [processBooking] for the two tickets
    should answer failure with [retryAllowed = false] and change nothing.
    It answers success instead, sells the two tickets, records a confirmed
    booking and deletes the hold.  [getHoldsForConcert] compares the text
    that [toISOString()] wrote with the text of [datetime('now')]; on the
    date of the expiry the hold is read as not expired at every instant,
    and the booking is refused only once the UTC date has changed. *)
Theorem processBooking_books_expired_hold :
  holds Scenario.a_holds_vip = [HoldRow.mk 0%nat "A" "good-luck" VIP 2 0 600000 0]
  /\ getHoldsForConcert 700000 Scenario.a_holds_vip "A" "good-luck"
     = [HoldRow.mk 0%nat "A" "good-luck" VIP 2 0 600000 0]
  /\ processBooking 700000 (1 # 2) "A" "good-luck" [Scenario.sel VIP 2]
       Scenario.a_holds_vip
     = (BookingResult.mk true
          (Some (Booking.mk 1%nat "A" "good-luck" [BookingItem.mk VIP 2 10000 20000]
                            20000 CONFIRMED 700000 (Some 700000)))
          PaymentSuccessful None,
        mkWorld [InventoryRow.mk "good-luck" VIP 2 2;
                 InventoryRow.mk "good-luck" FRONT_ROW 3 0;
                 InventoryRow.mk "good-luck" GA 5 0]
                []
                [BookingRow.mk 1%nat "A" "good-luck" 20000 CONFIRMED 700000 (Some 700000)]
                [BookingItemRow.mk 1%nat 1%nat VIP 2 10000 20000]
                2%nat)
  /\ processBooking 86400000 (1 # 2) "A" "good-luck" [Scenario.sel VIP 2]
       Scenario.a_holds_vip
     = (BookingResult.mk false None (NoHoldFoundFor "VIP") (Some false),
        Scenario.a_holds_vip).
Proof. repeat split; vm_compute; reflexivity. Qed.

(* ------------------------------------------------------------------ *)
(** ** [processHeartbeat] *)

Lemma oldest_hold_spec (first : HoldRow.t) (rest : list HoldRow.t) :
  In (oldest_hold first rest) (first :: rest)
  /\ forall h, In h (first :: rest) ->
       HoldRow.created_at (oldest_hold first rest) <= HoldRow.created_at h.
Proof.
  unfold oldest_hold. revert first.
  induction rest as [|h0 rest IH]; intros first; simpl.
  - split; [left; reflexivity|]. intros h [<-|[]]. lia.
  - destruct (HoldRow.created_at h0 <? HoldRow.created_at first) eqn:E.
    + apply Z.ltb_lt in E. destruct (IH h0) as [Hin Hmin]. split.
      * simpl in Hin. tauto.
      * intros h [<-|[<-|Hh]].
        -- specialize (Hmin h0 (or_introl eq_refl)). lia.
        -- exact (Hmin h0 (or_introl eq_refl)).
        -- apply Hmin. right. exact Hh.
    + apply Z.ltb_ge in E. destruct (IH first) as [Hin Hmin]. split.
      * simpl in Hin. simpl. tauto.
      * intros h [<-|[<-|Hh]].
        -- exact (Hmin first (or_introl eq_refl)).
        -- specialize (Hmin first (or_introl eq_refl)). lia.
        -- apply Hmin. right. exact Hh.
Qed.

Lemma gtb_false (a b : Z) : a <= b -> (a >? b) = false.
Proof. intros H. destruct (Z.gtb_spec a b); [lia|reflexivity]. Qed.

Lemma gtb_true (a b : Z) : b < a -> (a >? b) = true.
Proof. intros H. destruct (Z.gtb_spec a b); [reflexivity|lia]. Qed.

Lemma clamp_min (e cap : Z) : (if e >? cap then cap else e) = Z.min e cap.
Proof. destruct (Z.gtb_spec e cap); lia. Qed.

Lemma update_expiry_rows sessionId concertId e now (hs : list HoldRow.t) h :
  In h (update_expiry sessionId concertId e now hs) ->
  of_session_concert sessionId concertId h = true ->
  HoldRow.expires_at h = e /\ HoldRow.last_activity_at h = now.
Proof.
  unfold update_expiry. intros Hin Hsc. apply in_map_iff in Hin.
  destruct Hin as [a [Ha _]].
  destruct (of_session_concert sessionId concertId a) eqn:E.
  - subst h. simpl. auto.
  - subst h. congruence.
Qed.

(** The outcome of [processHeartbeat] on a state where its query returns a
    hold of the session for the concert. *)
Lemma processHeartbeat_cases now sessionId concertId lastActivityAt isTabVisible w first rest :
  filter (fun h => of_session_concert sessionId concertId h && not_expired now h) (holds w)
  = first :: rest ->
  let cap := HoldRow.created_at (oldest_hold first rest) + HOLD_CONFIG.hardCapMs in
  processHeartbeat now sessionId concertId lastActivityAt isTabVisible w
  = if negb isTabVisible then
      let e := Z.min (now + HOLD_CONFIG.gracePeriodMs) cap in
      (HeartbeatResult.mk true
         (filter (of_session_concert sessionId concertId)
                 (update_expiry sessionId concertId e now (holds w)))
         (Some e) None,
       set_holds w (update_expiry sessionId concertId e now (holds w)))
    else if now - lastActivityAt >? HOLD_CONFIG.inactivityTimeoutMs then
      (HeartbeatResult.mk true (first :: rest) (Some (HoldRow.expires_at first))
                          (Some InactivityDetected), w)
    else
      let e := Z.min (now + HOLD_CONFIG.holdDurationMs) cap in
      (HeartbeatResult.mk true
         (filter (of_session_concert sessionId concertId)
                 (update_expiry sessionId concertId e now (holds w)))
         (Some e) None,
       set_holds w (update_expiry sessionId concertId e now (holds w))).
Proof.
  intros Hact cap. unfold processHeartbeat. rewrite Hact.
  rewrite !clamp_min, !map_rowToHold. reflexivity.
Qed.

(** C5, as the code has it.  Let the query of the heartbeat return at least
    one hold of the session for the concert, and let [cap] be the
    [created_at] of the oldest of the holds it returns plus the hard cap.
    The query returns the session's holds for the concert whose
    [expires_at] reads as greater than [datetime('now')]: all of them,
    except those whose date of expiry has passed.  With the tab hidden the
    heartbeat sets the expiry to [min (now + gracePeriod) cap]; with the tab
    visible and [now - lastActivityAt <= inactivityTimeout] it sets it to
    [min (now + holdDuration) cap]; so the expiry set by an extending
    heartbeat never exceeds [cap], every row of the session for the concert
    gets it, and as long as [now + holdDuration <= cap] it is
    [now + holdDuration], strictly later for a later heartbeat.  With the
    tab visible and a stale activity stamp nothing changes. *)
Theorem processHeartbeat_expiry :
  forall (now : Z) (sessionId concertId : string) (lastActivityAt : Z)
         (isTabVisible : bool) (w : World) (first : HoldRow.t) (rest : list HoldRow.t),
    filter (fun h => of_session_concert sessionId concertId h && not_expired now h)
           (holds w) = first :: rest ->
    let cap := HoldRow.created_at (oldest_hold first rest) + HOLD_CONFIG.hardCapMs in
    let r := fst (processHeartbeat now sessionId concertId lastActivityAt isTabVisible w) in
    let w' := snd (processHeartbeat now sessionId concertId lastActivityAt isTabVisible w) in
    (forall h, In h (holds w) -> HoldRow.session_id h = sessionId ->
               HoldRow.concert_id h = concertId ->
               utc_date now <= utc_date (HoldRow.expires_at h) ->
               cap <= HoldRow.created_at h + HOLD_CONFIG.hardCapMs)
    /\ (exists h, In h (holds w) /\ HoldRow.session_id h = sessionId
                  /\ HoldRow.concert_id h = concertId
                  /\ utc_date now <= utc_date (HoldRow.expires_at h)
                  /\ cap = HoldRow.created_at h + HOLD_CONFIG.hardCapMs)
    /\ (isTabVisible = false ->
        HeartbeatResult.expiresAt r = Some (Z.min (now + HOLD_CONFIG.gracePeriodMs) cap))
    /\ (isTabVisible = true ->
        now - lastActivityAt <= HOLD_CONFIG.inactivityTimeoutMs ->
        HeartbeatResult.expiresAt r = Some (Z.min (now + HOLD_CONFIG.holdDurationMs) cap))
    /\ (isTabVisible = true ->
        HOLD_CONFIG.inactivityTimeoutMs < now - lastActivityAt ->
        HeartbeatResult.expiresAt r = Some (HoldRow.expires_at first) /\ w' = w)
    /\ (isTabVisible = false
        \/ now - lastActivityAt <= HOLD_CONFIG.inactivityTimeoutMs ->
        exists e, HeartbeatResult.expiresAt r = Some e /\ e <= cap
                  /\ forall h, In h (holds w') ->
                       HoldRow.session_id h = sessionId ->
                       HoldRow.concert_id h = concertId ->
                       HoldRow.expires_at h = e)
    /\ (isTabVisible = true ->
        now - lastActivityAt <= HOLD_CONFIG.inactivityTimeoutMs ->
        now + HOLD_CONFIG.holdDurationMs <= cap ->
        HeartbeatResult.expiresAt r = Some (now + HOLD_CONFIG.holdDurationMs)
        /\ forall (now2 lastActivityAt2 : Z) (w2 : World)
                  (first2 : HoldRow.t) (rest2 : list HoldRow.t),
             filter (fun h => of_session_concert sessionId concertId h
                              && not_expired now2 h)
                    (holds w2) = first2 :: rest2 ->
             now < now2 ->
             now2 - lastActivityAt2 <= HOLD_CONFIG.inactivityTimeoutMs ->
             now2 + HOLD_CONFIG.holdDurationMs
             <= HoldRow.created_at (oldest_hold first2 rest2) + HOLD_CONFIG.hardCapMs ->
             exists e2,
               HeartbeatResult.expiresAt
                 (fst (processHeartbeat now2 sessionId concertId lastActivityAt2 true w2))
               = Some e2
               /\ now + HOLD_CONFIG.holdDurationMs < e2).
Proof.
  intros now sessionId concertId lastActivityAt isTabVisible w first rest Hact cap r w'.
  pose proof (processHeartbeat_cases now sessionId concertId lastActivityAt
                isTabVisible w first rest Hact) as Hc.
  cbv zeta in Hc. fold cap in Hc.
  destruct (oldest_hold_spec first rest) as [Holdest Hmin].
  assert (Hrows : forall e h,
            In h (update_expiry sessionId concertId e now (holds w)) ->
            HoldRow.session_id h = sessionId -> HoldRow.concert_id h = concertId ->
            HoldRow.expires_at h = e).
  { intros e h Hin Hs Hco.
    apply (update_expiry_rows sessionId concertId e now (holds w) h Hin).
    apply of_session_concert_spec. auto. }
  split; [|split; [|split; [|split; [|split; [|split]]]]].
  - intros h Hin Hs Hco Hexp.
    assert (Hh : In h (first :: rest)).
    { rewrite <- Hact. apply filter_In. split; [exact Hin|].
      apply andb_true_iff. split.
      - apply of_session_concert_spec. auto.
      - apply not_expired_spec. exact Hexp. }
    specialize (Hmin h Hh). unfold cap. lia.
  - exists (oldest_hold first rest).
    rewrite <- Hact in Holdest. apply filter_In in Holdest.
    destruct Holdest as [Hin Hp]. apply andb_true_iff in Hp.
    destruct Hp as [Hsc Hne]. apply of_session_concert_spec in Hsc.
    apply not_expired_spec in Hne. unfold cap. tauto.
  - intros ->. unfold r. rewrite Hc. reflexivity.
  - intros -> Hfresh. unfold r. rewrite Hc. simpl.
    rewrite (gtb_false _ _ Hfresh).
    reflexivity.
  - intros -> Hstale. unfold r, w'. rewrite Hc. simpl.
    rewrite (gtb_true _ _ Hstale).
    simpl. auto.
  - intros Hext. unfold r, w'. rewrite Hc.
    destruct isTabVisible; simpl.
    + destruct Hext as [Hv|Hfresh]; [discriminate Hv|].
      rewrite (gtb_false _ _ Hfresh).
      simpl. eexists. split; [reflexivity|]. split; [lia|]. apply Hrows.
    + eexists. split; [reflexivity|]. split; [lia|]. apply Hrows.
  - intros -> Hfresh Hroom. split.
    + unfold r. rewrite Hc. simpl.
      rewrite (gtb_false _ _ Hfresh).
      simpl. f_equal. lia.
    + intros now2 lastActivityAt2 w2 first2 rest2 Hact2 Hlater Hfresh2 Hroom2.
      rewrite (processHeartbeat_cases now2 sessionId concertId lastActivityAt2
                 true w2 first2 rest2 Hact2).
      simpl.
      rewrite (gtb_false _ _ Hfresh2).
      simpl. eexists. split; [reflexivity|]. lia.
Qed.

Lemma processHeartbeat_expiry_witness :
  filter (fun h => of_session_concert "A" "good-luck" h && not_expired 30000 h)
         (holds Scenario.a_holds_vip)
  = [HoldRow.mk 0%nat "A" "good-luck" VIP 2 0 600000 0]
  /\ HeartbeatResult.expiresAt
       (fst (processHeartbeat 30000 "A" "good-luck" 29000 true Scenario.a_holds_vip))
     = Some 630000.
Proof.
  assert (Hact : filter (fun h => of_session_concert "A" "good-luck" h
                                  && not_expired 30000 h)
                        (holds Scenario.a_holds_vip)
                 = [HoldRow.mk 0%nat "A" "good-luck" VIP 2 0 600000 0])
    by (vm_compute; reflexivity).
  split; [exact Hact|].
  pose proof (processHeartbeat_expiry 30000 "A" "good-luck" 29000 true
                Scenario.a_holds_vip _ _ Hact) as H.
  cbv zeta in H. destruct H as [_ [_ [_ [Hactive _]]]].
  rewrite Hactive.
  - vm_compute. reflexivity.
  - reflexivity.
  - vm_compute. discriminate.
Defined.

(** C5 as stated fails on three counts.  A's hold was created at instant
    0, so its hard cap ends at 900000: an active, visible heartbeat at
    400000 sets the expiry to 900000 and not to [now + holdDuration] =
    1000000.  In the state where A's second checkout has refreshed the row
    to expire at 1100000, a visible heartbeat with a stale activity stamp
    returns that expiry, which is beyond the hard cap of the session's only
    hold.  And the cap is not taken from the oldest of all the holds of
    the session: A's VIP hold was created a quarter of an hour before
    midnight and its GA hold five minutes before midnight; one millisecond
    after midnight the query of the heartbeat no longer returns the VIP
    hold, whose date of expiry has passed, the cap is taken from the GA
    hold, and the expiry that the heartbeat sets, ten minutes after
    midnight, is beyond the hard cap of the VIP hold, which ended at
    midnight. *)
Lemma processHeartbeat_full_duration_counterexample :
  ~ (forall (now : Z) (sessionId concertId : string) (lastActivityAt : Z) (w : World),
       (exists h, In h (holds w) /\ HoldRow.session_id h = sessionId
                  /\ HoldRow.concert_id h = concertId
                  /\ now < HoldRow.expires_at h) ->
       now - lastActivityAt <= HOLD_CONFIG.inactivityTimeoutMs ->
       HeartbeatResult.expiresAt
         (fst (processHeartbeat now sessionId concertId lastActivityAt true w))
       = Some (now + HOLD_CONFIG.holdDurationMs))
  /\ ~ (forall (now : Z) (sessionId concertId : string) (lastActivityAt : Z)
               (isTabVisible : bool) (w : World) (e : Z),
          (exists h, In h (holds w) /\ HoldRow.session_id h = sessionId
                     /\ HoldRow.concert_id h = concertId
                     /\ now < HoldRow.expires_at h) ->
          HeartbeatResult.expiresAt
            (fst (processHeartbeat now sessionId concertId lastActivityAt
                    isTabVisible w)) = Some e ->
          exists h, In h (holds w) /\ HoldRow.session_id h = sessionId
                    /\ HoldRow.concert_id h = concertId
                    /\ now < HoldRow.expires_at h
                    /\ e <= HoldRow.created_at h + HOLD_CONFIG.hardCapMs)
  /\ ~ (forall (now : Z) (sessionId concertId : string) (lastActivityAt : Z)
               (w : World) (e : Z),
          (exists h, In h (holds w) /\ HoldRow.session_id h = sessionId
                     /\ HoldRow.concert_id h = concertId
                     /\ now < HoldRow.expires_at h) ->
          now - lastActivityAt <= HOLD_CONFIG.inactivityTimeoutMs ->
          HeartbeatResult.expiresAt
            (fst (processHeartbeat now sessionId concertId lastActivityAt true w))
          = Some e ->
          forall h, In h (holds w) -> HoldRow.session_id h = sessionId ->
                    HoldRow.concert_id h = concertId ->
                    e <= HoldRow.created_at h + HOLD_CONFIG.hardCapMs).
Proof.
  split; [|split].
  - intros H.
    specialize (H 400000 "A"%string "good-luck"%string 399000 Scenario.a_holds_vip).
    assert (Hm : exists h, In h (holds Scenario.a_holds_vip)
                           /\ HoldRow.session_id h = "A"%string
                           /\ HoldRow.concert_id h = "good-luck"%string
                           /\ 400000 < HoldRow.expires_at h).
    { exists (HoldRow.mk 0%nat "A" "good-luck" VIP 2 0 600000 0).
      simpl. repeat split; auto. }
    specialize (H Hm).
    assert (Hf : 400000 - 399000 <= HOLD_CONFIG.inactivityTimeoutMs)
      by (vm_compute; discriminate).
    specialize (H Hf). vm_compute in H. discriminate H.
  - intros H.
    specialize (H 500001 "A"%string "good-luck"%string 0 true Scenario.refreshed
                  1100000).
    assert (Hholds : holds Scenario.refreshed
                     = [HoldRow.mk 0%nat "A" "good-luck" VIP 2 0 1100000 500000])
      by (vm_compute; reflexivity).
    assert (Hm : exists h, In h (holds Scenario.refreshed)
                           /\ HoldRow.session_id h = "A"%string
                           /\ HoldRow.concert_id h = "good-luck"%string
                           /\ 500001 < HoldRow.expires_at h).
    { exists (HoldRow.mk 0%nat "A" "good-luck" VIP 2 0 1100000 500000).
      rewrite Hholds. simpl. repeat split; auto. }
    assert (He : HeartbeatResult.expiresAt
                   (fst (processHeartbeat 500001 "A" "good-luck" 0 true
                           Scenario.refreshed)) = Some 1100000)
      by (vm_compute; reflexivity).
    destruct (H Hm He) as [h [Hin [_ [_ [_ Hle]]]]].
    rewrite Hholds in Hin. destruct Hin as [<-|[]].
    vm_compute in Hle. apply Hle. reflexivity.
  - intros H.
    specialize (H 86400001 "A"%string "good-luck"%string 86400000
                  Scenario.before_revival 87000000).
    assert (Hholds : holds Scenario.before_revival
                     = [HoldRow.mk 0%nat "A" "good-luck" VIP 2 85500000 86100000 85500000;
                        HoldRow.mk 1%nat "A" "good-luck" GA 1 86100000 86700000 86100000;
                        HoldRow.mk 2%nat "B" "good-luck" VIP 2 86400000 87000000 86400000])
      by (vm_compute; reflexivity).
    assert (Hm : exists h, In h (holds Scenario.before_revival)
                           /\ HoldRow.session_id h = "A"%string
                           /\ HoldRow.concert_id h = "good-luck"%string
                           /\ 86400001 < HoldRow.expires_at h).
    { exists (HoldRow.mk 1%nat "A" "good-luck" GA 1 86100000 86700000 86100000).
      rewrite Hholds. simpl. repeat split; auto. }
    assert (Hf : 86400001 - 86400000 <= HOLD_CONFIG.inactivityTimeoutMs)
      by (vm_compute; discriminate).
    assert (He : HeartbeatResult.expiresAt
                   (fst (processHeartbeat 86400001 "A" "good-luck" 86400000 true
                           Scenario.before_revival)) = Some 87000000)
      by (vm_compute; reflexivity).
    specialize (H Hm Hf He
                  (HoldRow.mk 0%nat "A" "good-luck" VIP 2 85500000 86100000 85500000)).
    rewrite Hholds in H.
    specialize (H (or_introl eq_refl) eq_refl eq_refl).
    vm_compute in H. apply H. reflexivity.
Qed.

Lemma processHeartbeat_not_increasing_example :
  let w1 := snd (processHeartbeat 400000 "A" "good-luck" 399000 true
                   Scenario.a_holds_vip) in
  HeartbeatResult.expiresAt
    (fst (processHeartbeat 400000 "A" "good-luck" 399000 true Scenario.a_holds_vip))
  = Some 900000
  /\ HeartbeatResult.expiresAt
       (fst (processHeartbeat 430000 "A" "good-luck" 429000 true w1))
     = Some 900000.
Proof. vm_compute. split; reflexivity. Qed.


Lemma sum_quantity_filter_cons (p : HoldRow.t -> bool) h (hs : list HoldRow.t) :
  sum_quantity (filter p (h :: hs))
  = (if p h then HoldRow.quantity h else 0) + sum_quantity (filter p hs).
Proof. simpl. destruct (p h); simpl; lia. Qed.





(* ------------------------------------------------------------------ *)
(** ** The inventory invariant along histories *)

(** C1, on the code.  From the seeded database, a chronological history of
    ordinary calls reaches a state that breaks the invariant.  A enters
    checkout for two VIP tickets a quarter of an hour before midnight UTC
    and for one GA ticket ten minutes later.  The VIP hold expires five
    minutes before midnight; at midnight, when the date of that expiry has
    passed and before the next sweep, the availability query no longer
    counts it and B is granted the two VIP tickets.  A's next heartbeat,
    one millisecond later, finds the GA hold and rewrites the expiry of all
    of A's rows, the expired VIP row included.  Two VIP tickets exist, none
    is sold, and four are held by holds that all expire ten minutes after
    midnight.  The invariant held just before that heartbeat. *)
Theorem inventory_invariant_broken_by_heartbeat :
  Scenario.revival
  = [ (85500000, CreateOrUpdateHolds "A" "good-luck" [Scenario.sel VIP 2]);
      (86100000, CreateOrUpdateHolds "A" "good-luck" [Scenario.sel GA 1]);
      (86400000, CreateOrUpdateHolds "B" "good-luck" [Scenario.sel VIP 2]);
      (86400001, ProcessHeartbeat "A" "good-luck" 86400000 true) ]
  /\ chronological 0 Scenario.revival
  /\ inventory_invariant 86400001 Scenario.before_revival
  /\ holds Scenario.before_revival
     = [HoldRow.mk 0%nat "A" "good-luck" VIP 2 85500000 86100000 85500000;
        HoldRow.mk 1%nat "A" "good-luck" GA 1 86100000 86700000 86100000;
        HoldRow.mk 2%nat "B" "good-luck" VIP 2 86400000 87000000 86400000]
  /\ holds (run Scenario.revival Scenario.seeded)
     = [HoldRow.mk 0%nat "A" "good-luck" VIP 2 85500000 87000000 86400001;
        HoldRow.mk 1%nat "A" "good-luck" GA 1 86100000 87000000 86400001;
        HoldRow.mk 2%nat "B" "good-luck" VIP 2 86400000 87000000 86400000]
  /\ totalQuantity (run Scenario.revival Scenario.seeded) "good-luck" VIP = Some 2
  /\ soldQuantity (run Scenario.revival Scenario.seeded) "good-luck" VIP = Some 0
  /\ heldQuantity 86400001 (run Scenario.revival Scenario.seeded) "good-luck" VIP = 4
  /\ ~ inventory_invariant 86400001 (run Scenario.revival Scenario.seeded).
Proof.
  split; [vm_compute; reflexivity|].
  split.
  { vm_compute. repeat split; discriminate. }
  split.
  { intros r Hr.
    assert (Hrows : ticket_inventory Scenario.before_revival
                    = [InventoryRow.mk "good-luck" VIP 2 0;
                       InventoryRow.mk "good-luck" FRONT_ROW 3 0;
                       InventoryRow.mk "good-luck" GA 5 0])
      by (vm_compute; reflexivity).
    rewrite Hrows in Hr.
    destruct Hr as [<-|[<-|[<-|[]]]]; simpl InventoryRow.concert_id;
      simpl InventoryRow.tier; simpl InventoryRow.sold_quantity;
      simpl InventoryRow.total_quantity.
    - replace (heldQuantity 86400001 Scenario.before_revival "good-luck" VIP) with 2
        by (vm_compute; reflexivity). lia.
    - replace (heldQuantity 86400001 Scenario.before_revival "good-luck" FRONT_ROW) with 0
        by (vm_compute; reflexivity). lia.
    - replace (heldQuantity 86400001 Scenario.before_revival "good-luck" GA) with 1
        by (vm_compute; reflexivity). lia. }
  assert (Hheld : heldQuantity 86400001 (run Scenario.revival Scenario.seeded)
                               "good-luck" VIP = 4)
    by (vm_compute; reflexivity).
  split; [vm_compute; reflexivity|].
  split; [vm_compute; reflexivity|].
  split; [vm_compute; reflexivity|].
  split; [vm_compute; reflexivity|].
  split; [exact Hheld|].
  intros Hinv.
  assert (Hin : In (InventoryRow.mk "good-luck" VIP 2 0)
                   (ticket_inventory (run Scenario.revival Scenario.seeded)))
    by (vm_compute; auto).
  destruct (Hinv _ Hin) as [_ Hle].
  simpl InventoryRow.concert_id in Hle. simpl InventoryRow.tier in Hle.
  rewrite Hheld in Hle. simpl in Hle. lia.
Qed.

(** The same breach without a heartbeat: A enters checkout again with the
    selection of its expired, unswept hold; the quantity is unchanged, no
    availability is computed, and the row is refreshed next to B's hold. *)
Lemma inventory_invariant_broken_by_recheckout :
  chronological 0 Scenario.recheckout
  /\ heldQuantity 86400001 (run Scenario.recheckout Scenario.seeded) "good-luck" VIP = 4
  /\ ~ inventory_invariant 86400001 (run Scenario.recheckout Scenario.seeded).
Proof.
  split.
  { vm_compute. repeat split; discriminate. }
  assert (Hheld : heldQuantity 86400001 (run Scenario.recheckout Scenario.seeded)
                               "good-luck" VIP = 4)
    by (vm_compute; reflexivity).
  split; [exact Hheld|].
  intros Hinv.
  assert (Hin : In (InventoryRow.mk "good-luck" VIP 2 0)
                   (ticket_inventory (run Scenario.recheckout Scenario.seeded)))
    by (vm_compute; auto).
  destruct (Hinv _ Hin) as [_ Hle].
  simpl InventoryRow.concert_id in Hle. simpl InventoryRow.tier in Hle.
  rewrite Hheld in Hle. simpl in Hle. lia.
Qed.

(* ------------------------------------------------------------------ *)
(** ** The loop of [createOrUpdateHolds] *)

Lemma find_filter_sub {A : Type} (p q : A -> bool) (l : list A) :
  (forall x, p x = true -> q x = true) ->
  find p (filter q l) = find p l.
Proof.
  intros Hpq. induction l as [|x l IH]; simpl; [reflexivity|].
  destruct (q x) eqn:Eq; simpl.
  - destruct (p x); [reflexivity|exact IH].
  - destruct (p x) eqn:Ep; [|exact IH].
    apply Hpq in Ep. congruence.
Qed.

Lemma tier_slice_In tier (hs : list HoldRow.t) h :
  In h (tier_slice tier hs) <-> In h hs /\ HoldRow.tier h = tier.
Proof. unfold tier_slice. rewrite filter_In, tier_eqb_eq. reflexivity. Qed.

Lemma currently_held_slice w1 w2 sessionId concertId tier :
  tier_slice tier (holds w1) = tier_slice tier (holds w2) ->
  currently_held w1 sessionId concertId tier = currently_held w2 sessionId concertId tier.
Proof.
  intros Hs. unfold currently_held.
  rewrite <- (find_filter_sub (of_session_concert_tier sessionId concertId tier)
                (fun h => tier_eqb (HoldRow.tier h) tier) (holds w1)).
  - rewrite <- (find_filter_sub (of_session_concert_tier sessionId concertId tier)
                  (fun h => tier_eqb (HoldRow.tier h) tier) (holds w2)).
    + fold (tier_slice tier (holds w1)). fold (tier_slice tier (holds w2)).
      rewrite Hs. reflexivity.
    + intros h H. apply andb_true_iff in H. tauto.
  - intros h H. apply andb_true_iff in H. tauto.
Qed.

Lemma heldQuantity_slice now w1 w2 concertId tier :
  tier_slice tier (holds w1) = tier_slice tier (holds w2) ->
  heldQuantity now w1 concertId tier = heldQuantity now w2 concertId tier.
Proof.
  intros Hs. unfold heldQuantity.
  rewrite <- (filter_filter_sub
                (fun h => of_concert_tier concertId tier h && not_expired now h)
                (fun h => tier_eqb (HoldRow.tier h) tier) (holds w1)).
  - rewrite <- (filter_filter_sub
                  (fun h => of_concert_tier concertId tier h && not_expired now h)
                  (fun h => tier_eqb (HoldRow.tier h) tier) (holds w2)).
    + fold (tier_slice tier (holds w1)). fold (tier_slice tier (holds w2)).
      rewrite Hs. reflexivity.
    + intros h H. unfold of_concert_tier in H. rewrite !andb_true_iff in H. tauto.
  - intros h H. unfold of_concert_tier in H. rewrite !andb_true_iff in H. tauto.
Qed.

Lemma getAvailableQuantity_slice now w1 w2 concertId tier :
  ticket_inventory w1 = ticket_inventory w2 ->
  tier_slice tier (holds w1) = tier_slice tier (holds w2) ->
  getAvailableQuantity now w1 concertId tier = getAvailableQuantity now w2 concertId tier.
Proof.
  intros Hi Hs. unfold getAvailableQuantity, select_inventory.
  rewrite Hi, (heldQuantity_slice now w1 w2 concertId tier Hs). reflexivity.
Qed.

Lemma rejected_slice now w1 w2 sessionId concertId selection :
  ticket_inventory w1 = ticket_inventory w2 ->
  tier_slice (TicketSelection.tier selection) (holds w1)
  = tier_slice (TicketSelection.tier selection) (holds w2) ->
  rejected now w1 sessionId concertId selection ->
  rejected now w2 sessionId concertId selection.
Proof.
  intros Hi Hs. unfold rejected.
  rewrite (currently_held_slice w1 w2 _ _ _ Hs),
    (getAvailableQuantity_slice now w1 w2 _ _ Hi Hs).
  tauto.
Qed.

Lemma granted_slice now w1 w2 sessionId concertId selection :
  ticket_inventory w1 = ticket_inventory w2 ->
  tier_slice (TicketSelection.tier selection) (holds w1)
  = tier_slice (TicketSelection.tier selection) (holds w2) ->
  granted now w1 sessionId concertId selection ->
  granted now w2 sessionId concertId selection.
Proof.
  intros Hi Hs. unfold granted.
  rewrite (currently_held_slice w1 w2 _ _ _ Hs),
    (getAvailableQuantity_slice now w1 w2 _ _ Hi Hs).
  tauto.
Qed.

Lemma outcome_cases now w sessionId concertId selection :
  TicketSelection.quantity selection = 0
  \/ rejected now w sessionId concertId selection
  \/ granted now w sessionId concertId selection.
Proof.
  unfold rejected, granted.
  destruct (Z.eq_dec (TicketSelection.quantity selection) 0) as [E|E]; [tauto|].
  right.
  destruct (Z_lt_le_dec 0 (TicketSelection.quantity selection
     - currently_held w sessionId concertId (TicketSelection.tier selection)));
  destruct (Z_lt_le_dec
     (getAvailableQuantity now w concertId (TicketSelection.tier selection))
     (TicketSelection.quantity selection
      - currently_held w sessionId concertId (TicketSelection.tier selection)));
    [left|right|right|right]; repeat split; auto.
Qed.

Lemma rejected_not_granted now w sessionId concertId selection :
  rejected now w sessionId concertId selection ->
  ~ granted now w sessionId concertId selection.
Proof. unfold rejected, granted. lia. Qed.

Lemma rejected_test now w sessionId concertId selection :
  TicketSelection.quantity selection <> 0 ->
  ((TicketSelection.quantity selection
    - currently_held w sessionId concertId (TicketSelection.tier selection) >? 0)
   && (TicketSelection.quantity selection
       - currently_held w sessionId concertId (TicketSelection.tier selection)
       >? getAvailableQuantity now w concertId (TicketSelection.tier selection))
   = true)
  <-> rejected now w sessionId concertId selection.
Proof.
  intros Hq. unfold rejected. rewrite andb_true_iff, !Z.gtb_lt. tauto.
Qed.

Lemma filter_map_fixed {A : Type} (p : A -> bool) (g : A -> A) (l : list A) :
  (forall x, In x l -> p (g x) = p x /\ (p x = true -> g x = x)) ->
  filter p (map g l) = filter p l.
Proof.
  induction l as [|x l IH]; intros Hg; simpl; [reflexivity|].
  destruct (Hg x (or_introl eq_refl)) as [Hp Hfix].
  rewrite Hp. destruct (p x) eqn:Ep.
  - rewrite (Hfix eq_refl). f_equal. apply IH. intros y Hy. apply Hg. right. exact Hy.
  - apply IH. intros y Hy. apply Hg. right. exact Hy.
Qed.

Section HoldsLoop.

Variables (now expiresAt : Z) (sessionId concertId : string).

Local Abbreviation iter := (holds_iteration now expiresAt sessionId concertId).
Local Abbreviation untouched tier :=
  (fun h => negb (of_session_concert_tier sessionId concertId tier h)).

(** What one iteration does, by the outcome for its selection. *)
Lemma holds_iteration_spec (acc : HoldsLoop) (selection : TicketSelection.t) :
  holds_wf (lp_world acc) ->
  let w := lp_world acc in
  let w1 := lp_world (iter acc selection) in
  let tier := TicketSelection.tier selection in
  ticket_inventory w1 = ticket_inventory w
  /\ bookings w1 = bookings w
  /\ booking_items w1 = booking_items w
  /\ filter (untouched tier) (holds w1) = filter (untouched tier) (holds w)
  /\ ((TicketSelection.quantity selection = 0
       /\ lp_unavailable (iter acc selection) = lp_unavailable acc
       /\ lp_holdResults (iter acc selection) = lp_holdResults acc
       /\ uuid_state w1 = uuid_state w
       /\ holds w1 = filter (untouched tier) (holds w))
      \/ (rejected now w sessionId concertId selection
          /\ w1 = w
          /\ lp_unavailable (iter acc selection) = lp_unavailable acc ++ [selection]
          /\ lp_holdResults (iter acc selection) = lp_holdResults acc)
      \/ (granted now w sessionId concertId selection
          /\ lp_unavailable (iter acc selection) = lp_unavailable acc
          /\ (forall e,
                find (of_session_concert_tier sessionId concertId tier) (holds w) = Some e ->
                uuid_state w1 = uuid_state w
                /\ (HoldRow.quantity e = TicketSelection.quantity selection ->
                    map erase_refreshed (holds w1) = map erase_refreshed (holds w)))
          /\ exists h,
               lp_holdResults (iter acc selection) = lp_holdResults acc ++ [h]
               /\ In h (holds w1)
               /\ HoldRow.session_id h = sessionId
               /\ HoldRow.concert_id h = concertId
               /\ HoldRow.tier h = tier
               /\ HoldRow.quantity h = TicketSelection.quantity selection
               /\ HoldRow.expires_at h = expiresAt
               /\ HoldRow.last_activity_at h = now)).
Proof.
  intros Hwf w w1 tier. subst w1. unfold holds_iteration. fold w. fold tier.
  destruct (TicketSelection.quantity selection =? 0) eqn:E0.
  { apply Z.eqb_eq in E0. simpl.
    repeat (split; [reflexivity|]).
    split.
    - apply filter_filter_sub. auto.
    - left. auto. }
  apply Z.eqb_neq in E0.
  assert (Hcur : currently_held w sessionId concertId tier
                 = match find (of_session_concert_tier sessionId concertId tier) (holds w)
                   with Some h => HoldRow.quantity h | None => 0 end) by reflexivity.
  pose proof (rejected_test now w sessionId concertId selection E0) as Htest.
  fold tier in Htest. rewrite Hcur in Htest.
  destruct (find (of_session_concert_tier sessionId concertId tier) (holds w))
    as [existing|] eqn:Ef.
  - destruct (_ && _) eqn:Et.
    + simpl. repeat (split; [reflexivity|]). right. left.
      split; [apply Htest; reflexivity|]. split; [reflexivity|].
      split; [|reflexivity]. destruct selection; reflexivity.
    + simpl. repeat (split; [reflexivity|]).
      destruct (find_some _ _ Ef) as [Hin Hkey].
      split.
      * apply filter_map_fixed. intros h Hh.
        destruct (Nat.eqb (HoldRow.id h) (HoldRow.id existing)) eqn:Eid.
        -- apply Nat.eqb_eq in Eid.
           assert (h = existing)
             by (apply (NoDup_map_eq HoldRow.id (holds w)); auto; apply Hwf).
           subst h. split.
           ++ unfold of_session_concert_tier, of_session_concert. reflexivity.
           ++ rewrite Hkey. discriminate.
        -- auto.
      * right. right. split.
        -- destruct (outcome_cases now w sessionId concertId selection) as [H|[H|H]].
           ++ contradiction.
           ++ apply (proj2 Htest) in H. congruence.
           ++ exact H.
        -- split; [reflexivity|].
           split.
           { intros e He. injection He as <-. split; [reflexivity|].
             intros Hq. rewrite map_map. apply map_ext_in. intros h Hh.
             destruct (Nat.eqb (HoldRow.id h) (HoldRow.id existing)) eqn:Eid;
               [|reflexivity].
             apply Nat.eqb_eq in Eid.
             assert (h = existing)
               by (apply (NoDup_map_eq HoldRow.id (holds w)); auto; apply Hwf).
             subst h. unfold erase_refreshed. simpl. rewrite Hq. reflexivity. }
           apply of_session_concert_tier_spec in Hkey. destruct Hkey as [Hs [Hc Ht]].
           eexists. split; [reflexivity|]. simpl.
           split; [|auto 10].
           apply in_map_iff. exists existing. rewrite Nat.eqb_refl.
           rewrite Hs, Hc, Ht. split; [reflexivity|exact Hin].
  - destruct (_ && _) eqn:Et.
    + simpl. repeat (split; [reflexivity|]). right. left.
      split; [apply Htest; reflexivity|]. split; [reflexivity|].
      split; [|reflexivity]. destruct selection; reflexivity.
    + simpl. repeat (split; [reflexivity|]).
      split.
      * rewrite filter_app. simpl.
        unfold of_session_concert_tier at 2. unfold of_session_concert. simpl.
        rewrite !String.eqb_refl, tier_eqb_refl. simpl. apply app_nil_r.
      * right. right. split.
        -- destruct (outcome_cases now w sessionId concertId selection) as [H|[H|H]].
           ++ contradiction.
           ++ apply (proj2 Htest) in H. congruence.
           ++ exact H.
        -- split; [reflexivity|].
           split; [intros e He; discriminate He|].
           eexists. split; [reflexivity|]. simpl.
           split; [apply in_or_app; right; left; reflexivity|auto 10].
Qed.


Lemma holds_iteration_other_tier (acc : HoldsLoop) (selection : TicketSelection.t) tier :
  holds_wf (lp_world acc) ->
  tier <> TicketSelection.tier selection ->
  tier_slice tier (holds (lp_world (iter acc selection)))
  = tier_slice tier (holds (lp_world acc)).
Proof.
  intros Hwf Hneq.
  destruct (holds_iteration_spec acc selection Hwf) as [_ [_ [_ [Hfr _]]]].
  unfold tier_slice.
  rewrite <- (filter_filter_sub (fun h => tier_eqb (HoldRow.tier h) tier)
                (untouched (TicketSelection.tier selection))
                (holds (lp_world (iter acc selection)))).
  - rewrite Hfr. apply filter_filter_sub.
    intros h Ht. apply tier_eqb_eq in Ht.
    unfold of_session_concert_tier.
    replace (tier_eqb (HoldRow.tier h) (TicketSelection.tier selection)) with false.
    + rewrite andb_false_r. reflexivity.
    + symmetry. apply tier_eqb_neq. congruence.
  - intros h Ht. apply tier_eqb_eq in Ht.
    unfold of_session_concert_tier.
    replace (tier_eqb (HoldRow.tier h) (TicketSelection.tier selection)) with false.
    + rewrite andb_false_r. reflexivity.
    + symmetry. apply tier_eqb_neq. congruence.
Qed.

Lemma holds_iteration_other_session (acc : HoldsLoop) (selection : TicketSelection.t) :
  holds_wf (lp_world acc) ->
  filter (fun h => negb (of_session_concert sessionId concertId h))
         (holds (lp_world (iter acc selection)))
  = filter (fun h => negb (of_session_concert sessionId concertId h))
           (holds (lp_world acc)).
Proof.
  intros Hwf.
  destruct (holds_iteration_spec acc selection Hwf) as [_ [_ [_ [Hfr _]]]].
  rewrite <- (filter_filter_sub (fun h => negb (of_session_concert sessionId concertId h))
                (untouched (TicketSelection.tier selection))
                (holds (lp_world (iter acc selection)))).
  - rewrite Hfr. apply filter_filter_sub.
    intros h Hn. unfold of_session_concert_tier.
    apply negb_true_iff in Hn. rewrite Hn. reflexivity.
  - intros h Hn. unfold of_session_concert_tier.
    apply negb_true_iff in Hn. rewrite Hn. reflexivity.
Qed.

Lemma holds_loop_spec (selections : list TicketSelection.t) :
  forall acc,
    holds_wf (lp_world acc) ->
    NoDup (map TicketSelection.tier selections) ->
    exists un hr,
      lp_unavailable (fold_left iter selections acc) = lp_unavailable acc ++ un
      /\ lp_holdResults (fold_left iter selections acc) = lp_holdResults acc ++ hr
      /\ loop_outcome now expiresAt sessionId concertId selections
           (lp_world acc) (lp_world (fold_left iter selections acc)) un hr.
Proof.
  induction selections as [|s0 rest IH]; intros acc Hwf Hnd.
  { exists [], []. simpl. rewrite !app_nil_r.
    split; [reflexivity|]. split; [reflexivity|].
    unfold loop_outcome. repeat (split; [reflexivity|]).
    split; [intros x; simpl; tauto|].
    repeat split; intros; contradiction. }
  simpl map in Hnd. apply NoDup_cons_iff in Hnd. destruct Hnd as [Hnotin Hnd].
  simpl fold_left.
  set (acc1 := iter acc s0).
  assert (Hwf1 : holds_wf (lp_world acc1)) by (apply holds_iteration_wf; exact Hwf).
  destruct (IH acc1 Hwf1 Hnd) as [un [hr [Hun [Hhr Hpost]]]].
  set (final := fold_left iter rest acc1) in *.
  destruct Hpost as [Pi [Pb [Pbi [Pslice [Pother [Pun [Phr [Pzero [Pgr Prej]]]]]]]]].
  destruct (holds_iteration_spec acc s0 Hwf)
    as [Hi1 [Hb1 [Hbi1 [_ Hcase]]]].
  fold acc1 in Hi1, Hb1, Hbi1, Hcase.
  assert (Hslice1 : forall tier, tier <> TicketSelection.tier s0 ->
            tier_slice tier (holds (lp_world acc1)) = tier_slice tier (holds (lp_world acc))).
  { intros tier Hneq. apply holds_iteration_other_tier; assumption. }
  assert (Htier : forall s, In s rest -> TicketSelection.tier s <> TicketSelection.tier s0).
  { intros s Hs E. apply Hnotin. rewrite <- E. apply in_map. exact Hs. }
  assert (Hslice0 : tier_slice (TicketSelection.tier s0) (holds (lp_world final))
                    = tier_slice (TicketSelection.tier s0) (holds (lp_world acc1))).
  { apply Pslice. exact Hnotin. }
  assert (Hrej_to : forall s, In s rest ->
            rejected now (lp_world acc1) sessionId concertId s ->
            rejected now (lp_world acc) sessionId concertId s).
  { intros s Hs. apply rejected_slice; [exact Hi1|]. apply Hslice1, Htier, Hs. }
  assert (Hrej_from : forall s, In s rest ->
            rejected now (lp_world acc) sessionId concertId s ->
            rejected now (lp_world acc1) sessionId concertId s).
  { intros s Hs. apply rejected_slice; [symmetry; exact Hi1|].
    symmetry. apply Hslice1, Htier, Hs. }
  assert (Hgr_to : forall s, In s rest ->
            granted now (lp_world acc1) sessionId concertId s ->
            granted now (lp_world acc) sessionId concertId s).
  { intros s Hs. apply granted_slice; [exact Hi1|]. apply Hslice1, Htier, Hs. }
  assert (Hgr_from : forall s, In s rest ->
            granted now (lp_world acc) sessionId concertId s ->
            granted now (lp_world acc1) sessionId concertId s).
  { intros s Hs. apply granted_slice; [symmetry; exact Hi1|].
    symmetry. apply Hslice1, Htier, Hs. }
  (* the part of the outcome that does not depend on the case of [s0] *)
  assert (Hframe :
    ticket_inventory (lp_world final) = ticket_inventory (lp_world acc)
    /\ bookings (lp_world final) = bookings (lp_world acc)
    /\ booking_items (lp_world final) = booking_items (lp_world acc)
    /\ (forall tier, ~ In tier (map TicketSelection.tier (s0 :: rest)) ->
          tier_slice tier (holds (lp_world final))
          = tier_slice tier (holds (lp_world acc)))
    /\ filter (fun h => negb (of_session_concert sessionId concertId h))
              (holds (lp_world final))
       = filter (fun h => negb (of_session_concert sessionId concertId h))
                (holds (lp_world acc))).
  { split; [congruence|]. split; [congruence|]. split; [congruence|]. split.
    - intros tier Hn. simpl in Hn. rewrite Pslice by tauto.
      apply Hslice1. intros E. apply Hn. left. symmetry. exact E.
    - rewrite Pother. apply holds_iteration_other_session. exact Hwf. }
  (* the outcome of the selections of [rest], seen from the initial state *)
  assert (Qhr : forall h, In h hr ->
            In h (holds (lp_world final))
            /\ HoldRow.session_id h = sessionId /\ HoldRow.concert_id h = concertId
            /\ exists s, In s (s0 :: rest)
                         /\ granted now (lp_world acc) sessionId concertId s
                         /\ HoldRow.tier h = TicketSelection.tier s
                         /\ HoldRow.quantity h = TicketSelection.quantity s).
  { intros h Hh. destruct (Phr h Hh) as [H1 [H2 [H3 [s [Hs [Hg [Ht Hq]]]]]]].
    split; [exact H1|]. split; [exact H2|]. split; [exact H3|].
    exists s. split; [right; exact Hs|]. split; [apply Hgr_to; assumption|]. auto. }
  assert (Qgr : forall s, In s rest -> granted now (lp_world acc) sessionId concertId s ->
            forall extra,
            exists h, In h (holds (lp_world final)) /\ In h (extra ++ hr)
                      /\ HoldRow.session_id h = sessionId
                      /\ HoldRow.concert_id h = concertId
                      /\ HoldRow.tier h = TicketSelection.tier s
                      /\ HoldRow.quantity h = TicketSelection.quantity s
                      /\ HoldRow.expires_at h = expiresAt
                      /\ HoldRow.last_activity_at h = now).
  { intros s Hs Hg extra.
    destruct (Pgr s Hs (Hgr_from s Hs Hg)) as [h [H1 [H2 H3]]].
    exists h. split; [exact H1|]. split; [apply in_or_app; right; exact H2|exact H3]. }
  assert (Qrej : forall s, In s rest -> rejected now (lp_world acc) sessionId concertId s ->
            tier_slice (TicketSelection.tier s) (holds (lp_world final))
            = tier_slice (TicketSelection.tier s) (holds (lp_world acc))).
  { intros s Hs Hr. rewrite (Prej s Hs (Hrej_from s Hs Hr)).
    apply Hslice1, Htier, Hs. }
  assert (Qun : forall x, In x un <->
            In x rest /\ rejected now (lp_world acc) sessionId concertId x).
  { intros x. rewrite Pun. split; intros [Hx Hr]; (split; [exact Hx|]).
    - apply Hrej_to; assumption.
    - apply Hrej_from; assumption. }
  destruct Hframe as [Fi [Fb [Fbi [Fslice Fother]]]].
  destruct Hcase as [[Hq0 [Hu1 [Hr1 [_ Hdel]]]]
                    | [[Hrej0 [Hw1 [Hu1 Hr1]]]
                      | [Hgr0 [Hu1 [_ [h0 [Hr1 [Hin0 [Hs0 [Hc0 [Ht0 [Hqty0 [He0 Hl0]]]]]]]]]]]]].
  - (* quantity 0: the rows of the session for the tier are deleted *)
    exists un, hr.
    split; [rewrite Hun, Hu1; reflexivity|].
    split; [rewrite Hhr, Hr1; reflexivity|].
    unfold loop_outcome.
    split; [exact Fi|]. split; [exact Fb|]. split; [exact Fbi|].
    split; [exact Fslice|]. split; [exact Fother|].
    split.
    { intros x. rewrite Qun. simpl. split; [tauto|].
      intros [[<-|Hx] Hr]; [|tauto].
      exfalso. destruct Hr as [Hne _]. contradiction. }
    split; [exact Qhr|].
    split.
    { intros s [<-|Hs] Hz h Hh; [|exact (Pzero s Hs Hz h Hh)].
      destruct (of_session_concert_tier sessionId concertId (TicketSelection.tier s0) h)
        eqn:Ek; [|reflexivity].
      exfalso.
      assert (Hsl : In h (tier_slice (TicketSelection.tier s0) (holds (lp_world final)))).
      { apply tier_slice_In. split; [exact Hh|].
        apply of_session_concert_tier_spec in Ek. tauto. }
      rewrite Hslice0 in Hsl. apply tier_slice_In in Hsl. destruct Hsl as [Hsl _].
      fold acc1 in Hdel. rewrite Hdel in Hsl. apply filter_In in Hsl.
      destruct Hsl as [_ Hsl]. rewrite Ek in Hsl. discriminate Hsl. }
    split.
    { intros s [<-|Hs] Hg; [|exact (Qgr s Hs Hg [])].
      exfalso. destruct Hg as [Hne _]. contradiction. }
    { intros s [<-|Hs] Hr; [|exact (Qrej s Hs Hr)].
      exfalso. destruct Hr as [Hne _]. contradiction. }
  - (* rejected: nothing changes for the tier *)
    exists (s0 :: un), hr.
    split; [rewrite Hun, Hu1, <- app_assoc; reflexivity|].
    split; [rewrite Hhr, Hr1; reflexivity|].
    unfold loop_outcome.
    split; [exact Fi|]. split; [exact Fb|]. split; [exact Fbi|].
    split; [exact Fslice|]. split; [exact Fother|].
    split.
    { intros x. simpl. rewrite Qun. split.
      - intros [<-|[Hx Hr]]; [split; [left; reflexivity|exact Hrej0]|tauto].
      - intros [[<-|Hx] Hr]; [left; reflexivity|right; tauto]. }
    split; [exact Qhr|].
    split.
    { intros s [<-|Hs] Hz h Hh; [|exact (Pzero s Hs Hz h Hh)].
      exfalso. destruct Hrej0 as [Hne _]. contradiction. }
    split.
    { intros s [<-|Hs] Hg; [|exact (Qgr s Hs Hg [])].
      exfalso. exact (rejected_not_granted _ _ _ _ _ Hrej0 Hg). }
    { intros s [<-|Hs] Hr; [|exact (Qrej s Hs Hr)].
      rewrite Hslice0. fold acc1 in Hw1. rewrite Hw1. reflexivity. }
  - (* granted: the row is written and reported *)
    assert (Hfin0 : In h0 (holds (lp_world final))).
    { assert (Hsl : In h0 (tier_slice (TicketSelection.tier s0) (holds (lp_world acc1)))).
      { apply tier_slice_In. split; [exact Hin0|exact Ht0]. }
      rewrite <- Hslice0 in Hsl. apply tier_slice_In in Hsl. tauto. }
    exists un, (h0 :: hr).
    split; [rewrite Hun, Hu1; reflexivity|].
    split; [rewrite Hhr, Hr1, <- app_assoc; reflexivity|].
    unfold loop_outcome.
    split; [exact Fi|]. split; [exact Fb|]. split; [exact Fbi|].
    split; [exact Fslice|]. split; [exact Fother|].
    split.
    { intros x. rewrite Qun. simpl. split; [tauto|].
      intros [[<-|Hx] Hr]; [|tauto].
      exfalso. exact (rejected_not_granted _ _ _ _ _ Hr Hgr0). }
    split.
    { intros h [<-|Hh]; [|exact (Qhr h Hh)].
      split; [exact Hfin0|]. split; [exact Hs0|]. split; [exact Hc0|].
      exists s0. split; [left; reflexivity|]. auto. }
    split.
    { intros s [<-|Hs] Hz h Hh; [|exact (Pzero s Hs Hz h Hh)].
      exfalso. destruct Hgr0 as [Hne _]. contradiction. }
    split.
    { intros s [<-|Hs] Hg; [|exact (Qgr s Hs Hg [h0])].
      exists h0. split; [exact Hfin0|]. split; [left; reflexivity|]. auto 10. }
    { intros s [<-|Hs] Hr; [|exact (Qrej s Hs Hr)].
      exfalso. exact (rejected_not_granted _ _ _ _ _ Hr Hgr0). }
Qed.

End HoldsLoop.

Lemma createOrUpdateHolds_loop now sessionId concertId selections w :
  (forall s, In s selections -> TicketSelection.quantity s <= LIMITS.MAX_TICKETS_PER_TIER) ->
  requested_total selections <= LIMITS.MAX_TICKETS_PER_ORDER ->
  let final :=
    fold_left (holds_iteration now (now + HOLD_CONFIG.holdDurationMs) sessionId concertId)
              selections (mkHoldsLoop w [] []) in
  let r := fst (createOrUpdateHolds now sessionId concertId selections w) in
  snd (createOrUpdateHolds now sessionId concertId selections w) = lp_world final
  /\ HoldsResult.holds r = lp_holdResults final
  /\ unavailable_list r = lp_unavailable final
  /\ (HoldsResult.success r = true <-> lp_unavailable final = [])
  /\ (HoldsResult.success r = false ->
      HoldsResult.unavailable r = Some (lp_unavailable final)).
Proof.
  intros Htier Htotal final r. subst r. unfold createOrUpdateHolds.
  assert (E1 : existsb (fun selection =>
                 TicketSelection.quantity selection >? LIMITS.MAX_TICKETS_PER_TIER)
                 selections = false).
  { destruct (existsb _ selections) eqn:E; [|reflexivity].
    apply existsb_exists in E. destruct E as [s [Hs Hq]].
    apply Z.gtb_lt in Hq. specialize (Htier s Hs). lia. }
  rewrite E1, fold_left_requested.
  rewrite (gtb_false (0 + requested_total selections) LIMITS.MAX_TICKETS_PER_ORDER)
    by lia.
  fold final. unfold unavailable_list.
  destruct (lp_unavailable final) as [|x un] eqn:Eu; simpl.
  - repeat split; auto; discriminate.
  - repeat split; auto; discriminate.
Qed.

(** C4.  Let the hold table be well formed, the selections name distinct
    tiers and pass the cap validation.  Every selection is in exactly one of
    three cases, decided on the state before the call.  Quantity 0: no row
    of the session for that concert and tier is left.  Granted (the increase
    over what the session holds is not positive, or fits the availability):
    the session has a row for the tier with the selected quantity, expiring
    at [now + holdDuration], and that row is in [holds].  Rejected (the
    increase is positive and exceeds the availability): the rows of that
    tier are as before, the selection is in [unavailable] and no hold of
    that tier is in [holds].  [unavailable] lists exactly the rejected
    selections, [success] is false exactly when there is one, and the
    changes made for the other selections are in the state that the call
    leaves.  Rows of other sessions or concerts, rows of tiers that are not
    selected, inventory and bookings are as before. *)
Theorem createOrUpdateHolds_partial_application :
  forall (now : Z) (sessionId concertId : string)
         (selections : list TicketSelection.t) (w : World),
    holds_wf w ->
    NoDup (map TicketSelection.tier selections) ->
    (forall s, In s selections ->
       TicketSelection.quantity s <= LIMITS.MAX_TICKETS_PER_TIER) ->
    requested_total selections <= LIMITS.MAX_TICKETS_PER_ORDER ->
    let r := fst (createOrUpdateHolds now sessionId concertId selections w) in
    let w' := snd (createOrUpdateHolds now sessionId concertId selections w) in
    (forall s, In s selections ->
       (TicketSelection.quantity s = 0
        \/ granted now w sessionId concertId s
        \/ rejected now w sessionId concertId s)
       /\ (TicketSelection.quantity s = 0 ->
           (forall h, In h (holds w') ->
              ~ (HoldRow.session_id h = sessionId /\ HoldRow.concert_id h = concertId
                 /\ HoldRow.tier h = TicketSelection.tier s))
           /\ ~ In s (unavailable_list r))
       /\ (granted now w sessionId concertId s ->
           (exists h, In h (holds w') /\ In h (HoldsResult.holds r)
                      /\ HoldRow.session_id h = sessionId
                      /\ HoldRow.concert_id h = concertId
                      /\ HoldRow.tier h = TicketSelection.tier s
                      /\ HoldRow.quantity h = TicketSelection.quantity s
                      /\ HoldRow.expires_at h = now + HOLD_CONFIG.holdDurationMs
                      /\ HoldRow.last_activity_at h = now)
           /\ ~ In s (unavailable_list r))
       /\ (rejected now w sessionId concertId s ->
           In s (unavailable_list r)
           /\ tier_slice (TicketSelection.tier s) (holds w')
              = tier_slice (TicketSelection.tier s) (holds w)
           /\ forall h, In h (HoldsResult.holds r) ->
                HoldRow.tier h <> TicketSelection.tier s))
    /\ (forall x, In x (unavailable_list r)
                  <-> In x selections /\ rejected now w sessionId concertId x)
    /\ (forall h, In h (HoldsResult.holds r) ->
          In h (holds w')
          /\ exists s, In s selections /\ granted now w sessionId concertId s
                       /\ HoldRow.tier h = TicketSelection.tier s
                       /\ HoldRow.quantity h = TicketSelection.quantity s)
    /\ (HoldsResult.success r = false
        <-> exists x, In x selections /\ rejected now w sessionId concertId x)
    /\ (HoldsResult.success r = false ->
        HoldsResult.unavailable r = Some (unavailable_list r))
    /\ filter (fun h => negb (of_session_concert sessionId concertId h)) (holds w')
       = filter (fun h => negb (of_session_concert sessionId concertId h)) (holds w)
    /\ (forall tier, ~ In tier (map TicketSelection.tier selections) ->
          tier_slice tier (holds w') = tier_slice tier (holds w))
    /\ ticket_inventory w' = ticket_inventory w
    /\ bookings w' = bookings w
    /\ booking_items w' = booking_items w.
Proof.
  intros now sessionId concertId selections w Hwf Hnd Htier Htotal r w'.
  destruct (createOrUpdateHolds_loop now sessionId concertId selections w Htier Htotal)
    as [Hw' [Hholds [Hunav [Hsucc Hsome]]]].
  fold r in Hholds, Hunav, Hsucc, Hsome. fold w' in Hw'.
  destruct (holds_loop_spec now (now + HOLD_CONFIG.holdDurationMs) sessionId concertId
              selections (mkHoldsLoop w [] []) Hwf Hnd)
    as [un [hr [Hun [Hhr Hpost]]]].
  simpl lp_unavailable in Hun. simpl lp_holdResults in Hhr. simpl lp_world in Hpost.
  simpl app in Hun, Hhr.
  rewrite <- Hw' in Hpost. rewrite Hun in Hunav, Hsucc, Hsome. rewrite Hhr in Hholds.
  rewrite <- Hunav in Hpost, Hsucc, Hsome. rewrite <- Hholds in Hpost.
  clear Hun Hhr Hunav Hholds Hw' un hr.
  destruct Hpost as [Pi [Pb [Pbi [Pslice [Pother [Pun [Phr [Pzero [Pgr Prej]]]]]]]]].
  split.
  { intros s Hs. split; [|split; [|split]].
    - destruct (outcome_cases now w sessionId concertId s) as [H|[H|H]]; auto.
    - intros Hz. split.
      + intros h Hh Hk. apply of_session_concert_tier_spec in Hk.
        rewrite (Pzero s Hs Hz h Hh) in Hk. discriminate Hk.
      + intros Hu. apply Pun in Hu. destruct Hu as [_ [Hne _]]. contradiction.
    - intros Hg. split; [exact (Pgr s Hs Hg)|].
      intros Hu. apply Pun in Hu. destruct Hu as [_ Hr].
      exact (rejected_not_granted _ _ _ _ _ Hr Hg).
    - intros Hr. split; [apply Pun; auto|]. split; [exact (Prej s Hs Hr)|].
      intros h Hh Ht.
      destruct (Phr h Hh) as [_ [_ [_ [s' [Hs' [Hg' [Ht' _]]]]]]].
      assert (s' = s).
      { apply (NoDup_map_eq TicketSelection.tier selections); auto. congruence. }
      subst s'. exact (rejected_not_granted _ _ _ _ _ Hr Hg'). }
  split; [exact Pun|].
  split.
  { intros h Hh. destruct (Phr h Hh) as [H1 [_ [_ H2]]]. auto. }
  split.
  { split.
    - intros Hf. destruct (unavailable_list r) as [|x l] eqn:E.
      + assert (HoldsResult.success r = true) by (apply Hsucc; reflexivity). congruence.
      + exists x. apply Pun. left. reflexivity.
    - intros [x Hx]. apply Pun in Hx.
      apply not_true_is_false. intros E.
      apply Hsucc in E. rewrite E in Hx. contradiction. }
  split; [exact Hsome|].
  split; [exact Pother|]. split; [exact Pslice|]. auto.
Qed.

Lemma createOrUpdateHolds_partial_application_witness :
  holds_wf Scenario.seeded
  /\ NoDup (map TicketSelection.tier Scenario.mixed_request)
  /\ requested_total Scenario.mixed_request <= LIMITS.MAX_TICKETS_PER_ORDER
  /\ rejected 0 Scenario.seeded "A" "good-luck" (Scenario.sel GA 6)
  /\ In (Scenario.sel GA 6)
        (unavailable_list
           (fst (createOrUpdateHolds 0 "A" "good-luck" Scenario.mixed_request
                   Scenario.seeded)))
  /\ HoldsResult.success
       (fst (createOrUpdateHolds 0 "A" "good-luck" Scenario.mixed_request
               Scenario.seeded)) = false.
Proof.
  assert (Hwf : holds_wf Scenario.seeded) by apply seed_wf.
  assert (Hnd : NoDup (map TicketSelection.tier Scenario.mixed_request)).
  { simpl. repeat constructor; simpl; intuition discriminate. }
  assert (Htier : forall s, In s Scenario.mixed_request ->
            TicketSelection.quantity s <= LIMITS.MAX_TICKETS_PER_TIER).
  { intros s [<-|[<-|[<-|[]]]]; vm_compute; discriminate. }
  assert (Htotal : requested_total Scenario.mixed_request <= LIMITS.MAX_TICKETS_PER_ORDER)
    by (vm_compute; discriminate).
  assert (Hrej : rejected 0 Scenario.seeded "A" "good-luck" (Scenario.sel GA 6)).
  { unfold rejected. vm_compute. repeat split; discriminate. }
  assert (Hin : In (Scenario.sel GA 6) Scenario.mixed_request)
    by (simpl; auto).
  pose proof (createOrUpdateHolds_partial_application 0 "A" "good-luck"
                Scenario.mixed_request Scenario.seeded Hwf Hnd Htier Htotal) as H.
  cbv zeta in H. destruct H as [Hsel [_ [_ [Hfail _]]]].
  split; [exact Hwf|]. split; [exact Hnd|]. split; [exact Htotal|].
  split; [exact Hrej|]. split.
  - destruct (Hsel _ Hin) as [_ [_ [_ Hr]]]. apply Hr. exact Hrej.
  - apply Hfail. exists (Scenario.sel GA 6). auto.
Defined.

(* ------------------------------------------------------------------ *)
(** ** Calling [createOrUpdateHolds] again *)

Lemma find_unique_row w sessionId concertId tier h :
  holds_wf w -> In h (holds w) ->
  of_session_concert_tier sessionId concertId tier h = true ->
  find (of_session_concert_tier sessionId concertId tier) (holds w) = Some h.
Proof.
  intros Hwf Hin Hk.
  destruct (find (of_session_concert_tier sessionId concertId tier) (holds w))
    as [e|] eqn:Ef.
  - destruct (find_some _ _ Ef) as [He Hke]. f_equal.
    apply of_session_concert_tier_spec in Hk. apply of_session_concert_tier_spec in Hke.
    apply (wf_one_per_tier w Hwf); [exact He|exact Hin|..]; intuition congruence.
  - pose proof (find_none _ _ Ef h Hin). congruence.
Qed.

Lemma filter_all {A : Type} (p : A -> bool) (l : list A) :
  (forall x, In x l -> p x = true) -> filter p l = l.
Proof.
  induction l as [|x l IH]; intros Hp; simpl; [reflexivity|].
  rewrite (Hp x (or_introl eq_refl)). f_equal. apply IH.
  intros y Hy. apply Hp. right. exact Hy.
Qed.

Lemma settled_slice now w1 w2 sessionId concertId selection :
  ticket_inventory w1 = ticket_inventory w2 ->
  tier_slice (TicketSelection.tier selection) (holds w1)
  = tier_slice (TicketSelection.tier selection) (holds w2) ->
  settled now w1 sessionId concertId selection ->
  settled now w2 sessionId concertId selection.
Proof.
  intros Hi Hs [[Hz Hno] | [[Hne [e [Hf Hq]]] | Hr]].
  - left. split; [exact Hz|]. intros h Hh.
    destruct (of_session_concert_tier sessionId concertId
                (TicketSelection.tier selection) h) eqn:Ek; [|reflexivity].
    assert (Hsl : In h (tier_slice (TicketSelection.tier selection) (holds w2))).
    { apply tier_slice_In. split; [exact Hh|].
      apply of_session_concert_tier_spec in Ek. tauto. }
    rewrite <- Hs in Hsl. apply tier_slice_In in Hsl.
    rewrite (Hno h (proj1 Hsl)) in Ek. discriminate Ek.
  - right. left. split; [exact Hne|]. exists e. split; [|exact Hq].
    rewrite <- Hf.
    rewrite <- (find_filter_sub
                  (of_session_concert_tier sessionId concertId
                     (TicketSelection.tier selection))
                  (fun h => tier_eqb (HoldRow.tier h) (TicketSelection.tier selection))
                  (holds w2)).
    + rewrite <- (find_filter_sub
                    (of_session_concert_tier sessionId concertId
                       (TicketSelection.tier selection))
                    (fun h => tier_eqb (HoldRow.tier h) (TicketSelection.tier selection))
                    (holds w1)).
      * fold (tier_slice (TicketSelection.tier selection) (holds w1)).
        fold (tier_slice (TicketSelection.tier selection) (holds w2)).
        rewrite Hs. reflexivity.
      * intros h H. apply andb_true_iff in H. tauto.
    + intros h H. apply andb_true_iff in H. tauto.
  - right. right. exact (rejected_slice now w1 w2 _ _ _ Hi Hs Hr).
Qed.

Lemma held_quantity_not_rejected now w sessionId concertId selection e :
  find (of_session_concert_tier sessionId concertId (TicketSelection.tier selection))
       (holds w) = Some e ->
  HoldRow.quantity e = TicketSelection.quantity selection ->
  currently_held w sessionId concertId (TicketSelection.tier selection)
  = TicketSelection.quantity selection
  /\ ~ rejected now w sessionId concertId selection.
Proof.
  intros Hf Hq.
  assert (Hc : currently_held w sessionId concertId (TicketSelection.tier selection)
               = TicketSelection.quantity selection).
  { unfold currently_held. rewrite Hf. exact Hq. }
  split; [exact Hc|]. unfold rejected. rewrite Hc. lia.
Qed.

Section SecondCall.

Variables (now expiresAt : Z) (sessionId concertId : string).

Local Abbreviation iter := (holds_iteration now expiresAt sessionId concertId).

Lemma holds_iteration_settled (acc : HoldsLoop) (selection : TicketSelection.t) :
  holds_wf (lp_world acc) ->
  settled now (lp_world acc) sessionId concertId selection ->
  map erase_refreshed (holds (lp_world (iter acc selection)))
  = map erase_refreshed (holds (lp_world acc))
  /\ uuid_state (lp_world (iter acc selection)) = uuid_state (lp_world acc).
Proof.
  intros Hwf Hset.
  destruct (holds_iteration_spec now expiresAt sessionId concertId acc selection Hwf)
    as [_ [_ [_ [_ Hcase]]]].
  destruct Hcase as [[Hq0 [_ [_ [Hu Hdel]]]]
                    | [[Hrej [Hw1 _]] | [Hgr [_ [Hex _]]]]].
  - split; [|exact Hu]. rewrite Hdel.
    destruct Hset as [[_ Hno] | [[Hne _] | [Hne _]]]; try contradiction.
    rewrite filter_all; [reflexivity|].
    intros h Hh. rewrite (Hno h Hh). reflexivity.
  - rewrite Hw1. auto.
  - destruct Hset as [[Hz _] | [[_ [e [Hf Hq]]] | Hr]].
    + destruct Hgr as [Hne _]. contradiction.
    + destruct (Hex e Hf) as [Hu Hmap]. split; [exact (Hmap Hq)|exact Hu].
    + exfalso. exact (rejected_not_granted _ _ _ _ _ Hr Hgr).
Qed.

Lemma holds_loop_settled (selections : list TicketSelection.t) :
  forall acc,
    holds_wf (lp_world acc) ->
    NoDup (map TicketSelection.tier selections) ->
    (forall s, In s selections -> settled now (lp_world acc) sessionId concertId s) ->
    map erase_refreshed (holds (lp_world (fold_left iter selections acc)))
    = map erase_refreshed (holds (lp_world acc))
    /\ uuid_state (lp_world (fold_left iter selections acc)) = uuid_state (lp_world acc).
Proof.
  induction selections as [|s0 rest IH]; intros acc Hwf Hnd Hset; [simpl; auto|].
  simpl map in Hnd. apply NoDup_cons_iff in Hnd. destruct Hnd as [Hnotin Hnd].
  simpl fold_left.
  destruct (holds_iteration_settled acc s0 Hwf (Hset s0 (or_introl eq_refl)))
    as [Hmap1 Hu1].
  destruct (holds_iteration_spec now expiresAt sessionId concertId acc s0 Hwf)
    as [Hi1 _].
  destruct (IH (iter acc s0)) as [Hmap Hu].
  - apply holds_iteration_wf. exact Hwf.
  - exact Hnd.
  - intros s Hs.
    apply (settled_slice now (lp_world acc)); [symmetry; exact Hi1| |].
    + symmetry. apply holds_iteration_other_tier; [exact Hwf|].
      intros E. apply Hnotin. rewrite <- E. apply in_map. exact Hs.
    + apply Hset. right. exact Hs.
  - split; congruence.
Qed.

End SecondCall.

Lemma createOrUpdateHolds_validation (selections : list TicketSelection.t) :
  ((forall s, In s selections ->
      TicketSelection.quantity s <= LIMITS.MAX_TICKETS_PER_TIER)
   /\ requested_total selections <= LIMITS.MAX_TICKETS_PER_ORDER)
  \/ (forall now sessionId concertId w,
        snd (createOrUpdateHolds now sessionId concertId selections w) = w
        /\ HoldsResult.holds
             (fst (createOrUpdateHolds now sessionId concertId selections w)) = []
        /\ unavailable_list
             (fst (createOrUpdateHolds now sessionId concertId selections w)) = []
        /\ HoldsResult.success
             (fst (createOrUpdateHolds now sessionId concertId selections w)) = false).
Proof.
  destruct (existsb (fun selection =>
              TicketSelection.quantity selection >? LIMITS.MAX_TICKETS_PER_TIER)
              selections) eqn:E1.
  { right. intros now sessionId concertId w. unfold createOrUpdateHolds.
    rewrite E1. simpl. auto. }
  destruct (requested_total selections >? LIMITS.MAX_TICKETS_PER_ORDER) eqn:E2.
  { right. intros now sessionId concertId w. unfold createOrUpdateHolds.
    rewrite E1, fold_left_requested. simpl (0 + _). rewrite E2. simpl. auto. }
  left. split.
  - intros s Hs.
    destruct (Z_le_gt_dec (TicketSelection.quantity s) LIMITS.MAX_TICKETS_PER_TIER)
      as [H|H]; [exact H|].
    assert (existsb (fun selection =>
              TicketSelection.quantity selection >? LIMITS.MAX_TICKETS_PER_TIER)
              selections = true).
    { apply existsb_exists. exists s. split; [exact Hs|]. apply Z.gtb_lt. lia. }
    congruence.
  - destruct (Z.gtb_spec (requested_total selections) LIMITS.MAX_TICKETS_PER_ORDER);
      [discriminate E2|assumption].
Qed.

Lemma heldQuantity_no_expiry now1 now2 w concertId tier :
  (forall h, In h (holds w) -> not_expired now2 h = not_expired now1 h) ->
  heldQuantity now2 w concertId tier = heldQuantity now1 w concertId tier.
Proof.
  intros Hsame. unfold heldQuantity. f_equal. apply filter_ext_in.
  intros h Hh. rewrite (Hsame h Hh). reflexivity.
Qed.

Lemma first_call_settles now1 now2 expiresAt sessionId concertId selections w w1 un hr :
  holds_wf w1 ->
  loop_outcome now1 expiresAt sessionId concertId selections w w1 un hr ->
  un = [] \/ (forall h, In h (holds w) -> not_expired now2 h = not_expired now1 h) ->
  forall s, In s selections ->
    settled now2 w1 sessionId concertId s
    /\ (rejected now2 w1 sessionId concertId s <-> rejected now1 w sessionId concertId s).
Proof.
  intros Hwf1 Hpost Hprem s Hs.
  destruct Hpost as [Pi [_ [_ [_ [_ [Pun [_ [Pzero [Pgr Prej]]]]]]]]].
  destruct (outcome_cases now1 w sessionId concertId s) as [Hz | [Hr | Hg]].
  - split.
    + left. split; [exact Hz|]. exact (Pzero s Hs Hz).
    + unfold rejected. tauto.
  - assert (Hr2 : rejected now2 w1 sessionId concertId s).
    { destruct Hprem as [Hnil | Hsame].
      - exfalso. assert (Hin : In s un) by (apply Pun; auto).
        rewrite Hnil in Hin. contradiction.
      - pose proof (Prej s Hs Hr) as Hslice.
        unfold rejected in *.
        rewrite (currently_held_slice w1 w _ _ _ Hslice).
        rewrite (getAvailableQuantity_slice now2 w1 w _ _ Pi Hslice).
        unfold getAvailableQuantity in *.
        rewrite (heldQuantity_no_expiry now1 now2 w _ _ Hsame). exact Hr. }
    split; [right; right; exact Hr2|tauto].
  - destruct (Pgr s Hs Hg) as [h [Hin [_ [Hs' [Hc' [Ht' [Hq' _]]]]]]].
    assert (Hf : find (of_session_concert_tier sessionId concertId
                         (TicketSelection.tier s)) (holds w1) = Some h).
    { apply find_unique_row; [exact Hwf1|exact Hin|].
      apply of_session_concert_tier_spec. auto. }
    destruct (held_quantity_not_rejected now2 w1 sessionId concertId s h Hf Hq')
      as [_ Hnot].
    split.
    + right. left. split; [apply Hg|]. exists h. auto.
    + split; [intros H; contradiction|].
      intros H. exfalso. exact (rejected_not_granted _ _ _ _ _ H Hg).
Qed.

(** C8, as the code has it.  Let the hold table be well formed and the
    selections name distinct tiers; call [createOrUpdateHolds] at [now1] and
    again, with the same arguments, at [now2].  Every hold that the first
    call returned has the selected quantity, so that the second call finds
    an increase of 0 for its tier, computes no availability for it and
    cannot reject it.  If the first call was a success, or if the queries
    read no hold of the table as expired at one of [now1] and [now2] and as
    not expired at the other, the second
    call creates and deletes no row and changes no quantity: the hold table
    after it differs from the hold table before it in [expires_at] and
    [last_activity_at] only, the other tables and the uuid generator are
    untouched, and its [unavailable] and [success] are those of the first
    call. *)
Theorem createOrUpdateHolds_idempotent :
  forall (now1 now2 : Z) (sessionId concertId : string)
         (selections : list TicketSelection.t) (w : World),
    holds_wf w ->
    NoDup (map TicketSelection.tier selections) ->
    let r1 := fst (createOrUpdateHolds now1 sessionId concertId selections w) in
    let w1 := snd (createOrUpdateHolds now1 sessionId concertId selections w) in
    let r2 := fst (createOrUpdateHolds now2 sessionId concertId selections w1) in
    let w2 := snd (createOrUpdateHolds now2 sessionId concertId selections w1) in
    (forall h, In h (HoldsResult.holds r1) ->
       currently_held w1 sessionId concertId (HoldRow.tier h) = HoldRow.quantity h
       /\ forall x, In x (unavailable_list r2) -> TicketSelection.tier x <> HoldRow.tier h)
    /\ (HoldsResult.success r1 = true
        \/ (forall h, In h (holds w) -> not_expired now2 h = not_expired now1 h) ->
        map erase_refreshed (holds w2) = map erase_refreshed (holds w1)
        /\ uuid_state w2 = uuid_state w1
        /\ ticket_inventory w2 = ticket_inventory w1
        /\ bookings w2 = bookings w1
        /\ booking_items w2 = booking_items w1
        /\ (forall x, In x (unavailable_list r2) <-> In x (unavailable_list r1))
        /\ HoldsResult.success r2 = HoldsResult.success r1).
Proof.
  intros now1 now2 sessionId concertId selections w Hwf Hnd r1 w1 r2 w2.
  destruct (createOrUpdateHolds_validation selections) as [[Htier Htotal] | Hcap].
  2:{ destruct (Hcap now1 sessionId concertId w) as [Hw1 [Hh1 [Hu1 Hs1]]].
      fold w1 in Hw1. fold r1 in Hh1, Hu1, Hs1.
      destruct (Hcap now2 sessionId concertId w1) as [Hw2 [Hh2 [Hu2 Hs2]]].
      fold w2 in Hw2. fold r2 in Hh2, Hu2, Hs2.
      split.
      - intros h Hh. rewrite Hh1 in Hh. contradiction.
      - intros _. rewrite Hw2, Hu1, Hu2, Hs1, Hs2. repeat split; auto. }
  assert (Hwf1 : holds_wf w1) by (apply createOrUpdateHolds_wf; exact Hwf).
  destruct (createOrUpdateHolds_loop now1 sessionId concertId selections w Htier Htotal)
    as [Hw1 [Hh1 [Hu1 [Hs1 _]]]].
  fold r1 in Hh1, Hu1, Hs1. fold w1 in Hw1.
  destruct (createOrUpdateHolds_loop now2 sessionId concertId selections w1 Htier Htotal)
    as [Hw2 [Hh2 [Hu2 [Hs2 _]]]].
  fold r2 in Hh2, Hu2, Hs2. fold w2 in Hw2.
  destruct (holds_loop_spec now1 (now1 + HOLD_CONFIG.holdDurationMs) sessionId concertId
              selections (mkHoldsLoop w [] []) Hwf Hnd)
    as [un1 [hr1 [Hun1 [Hhr1 Hpost1]]]].
  destruct (holds_loop_spec now2 (now2 + HOLD_CONFIG.holdDurationMs) sessionId concertId
              selections (mkHoldsLoop w1 [] []) Hwf1 Hnd)
    as [un2 [hr2 [Hun2 [Hhr2 Hpost2]]]].
  simpl lp_unavailable in Hun1, Hun2. simpl lp_holdResults in Hhr1, Hhr2.
  simpl lp_world in Hpost1, Hpost2. simpl app in Hun1, Hun2, Hhr1, Hhr2.
  rewrite <- Hw1 in Hpost1. rewrite <- Hw2 in Hpost2.
  rewrite Hun1 in Hu1, Hs1. rewrite Hun2 in Hu2, Hs2. rewrite Hhr1 in Hh1.
  clear Hun1 Hun2 Hhr1 Hhr2 Hh2.
  pose proof Hpost1 as [_ [_ [_ [_ [_ [Pun1 [Phr1 _]]]]]]].
  pose proof Hpost2 as [Pi2 [Pb2 [Pbi2 [_ [_ [Pun2 _]]]]]].
  split.
  - intros h Hh. rewrite Hh1 in Hh.
    destruct (Phr1 h Hh) as [Hin [Hs [Hc [s [Hsel [_ [Ht Hq]]]]]]].
    assert (Hf : find (of_session_concert_tier sessionId concertId
                         (TicketSelection.tier s)) (holds w1) = Some h).
    { apply find_unique_row; [exact Hwf1|exact Hin|].
      apply of_session_concert_tier_spec. auto. }
    destruct (held_quantity_not_rejected now2 w1 sessionId concertId s h Hf Hq)
      as [Hheld Hnot].
    split; [rewrite Ht, Hq; exact Hheld|].
    intros x Hx Etier. rewrite Hu2 in Hx. apply Pun2 in Hx. destruct Hx as [Hx Hr].
    assert (x = s).
    { apply (NoDup_map_eq TicketSelection.tier selections); auto. congruence. }
    subst x. contradiction.
  - intros Hprem.
    assert (Hprem' : un1 = []
                     \/ (forall h, In h (holds w) ->
                           not_expired now2 h = not_expired now1 h)).
    { destruct Hprem as [Hok | Hsame]; [left; apply Hs1; exact Hok | right; exact Hsame]. }
    pose proof (first_call_settles now1 now2 _ sessionId concertId selections
                  w w1 un1 hr1 Hwf1 Hpost1 Hprem') as Hset.
    destruct (holds_loop_settled now2 (now2 + HOLD_CONFIG.holdDurationMs)
                sessionId concertId selections (mkHoldsLoop w1 [] []) Hwf1 Hnd)
      as [Hmap Hu].
    { intros s Hs. exact (proj1 (Hset s Hs)). }
    simpl lp_world in Hmap, Hu. rewrite <- Hw2 in Hmap, Hu.
    assert (Hsame_un : forall x, In x un2 <-> In x un1).
    { intros x. rewrite Pun1, Pun2. split; intros [Hx Hr]; (split; [exact Hx|]);
        apply (Hset x Hx); exact Hr. }
    split; [exact Hmap|]. split; [exact Hu|].
    split; [exact Pi2|]. split; [exact Pb2|]. split; [exact Pbi2|].
    split; [rewrite Hu1, Hu2; exact Hsame_un|].
    assert (Hiff : HoldsResult.success r2 = true <-> HoldsResult.success r1 = true).
    { rewrite Hs1, Hs2. split; intros E.
      - destruct un1 as [|x l]; [reflexivity|].
        assert (In x un2) by (apply Hsame_un; left; reflexivity).
        rewrite E in H. contradiction.
      - destruct un2 as [|x l]; [reflexivity|].
        assert (In x un1) by (apply Hsame_un; left; reflexivity).
        rewrite E in H. contradiction. }
    apply eq_true_iff_eq. exact Hiff.
Qed.

Lemma createOrUpdateHolds_idempotent_witness :
  holds_wf Scenario.seeded
  /\ NoDup (map TicketSelection.tier [Scenario.sel VIP 2; Scenario.sel GA 1])
  /\ HoldsResult.success
       (fst (createOrUpdateHolds 0 "A" "good-luck"
               [Scenario.sel VIP 2; Scenario.sel GA 1] Scenario.seeded)) = true
  /\ map erase_refreshed
       (holds (snd (createOrUpdateHolds 1000 "A" "good-luck"
                      [Scenario.sel VIP 2; Scenario.sel GA 1]
                      (snd (createOrUpdateHolds 0 "A" "good-luck"
                              [Scenario.sel VIP 2; Scenario.sel GA 1]
                              Scenario.seeded)))))
     = map erase_refreshed
         (holds (snd (createOrUpdateHolds 0 "A" "good-luck"
                        [Scenario.sel VIP 2; Scenario.sel GA 1] Scenario.seeded))).
Proof.
  assert (Hwf : holds_wf Scenario.seeded) by apply seed_wf.
  assert (Hnd : NoDup (map TicketSelection.tier [Scenario.sel VIP 2; Scenario.sel GA 1])).
  { simpl. repeat constructor; simpl; intuition discriminate. }
  assert (Hok : HoldsResult.success
                  (fst (createOrUpdateHolds 0 "A" "good-luck"
                          [Scenario.sel VIP 2; Scenario.sel GA 1] Scenario.seeded))
                = true) by (vm_compute; reflexivity).
  split; [exact Hwf|]. split; [exact Hnd|]. split; [exact Hok|].
  pose proof (createOrUpdateHolds_idempotent 0 1000 "A" "good-luck"
                [Scenario.sel VIP 2; Scenario.sel GA 1] Scenario.seeded Hwf Hnd) as H.
  cbv zeta in H. destruct H as [_ H].
  destruct (H (or_introl Hok)) as [Hmap _]. exact Hmap.
Defined.

(** C8 as stated fails: B has entered checkout with the two VIP tickets at
    instant 0, and the availability query counts its hold until the end of
    that UTC day.  A asks for one VIP ticket in the last millisecond of the
    day and is rejected; A asks again one millisecond later, at midnight,
    when the date of the expiry of B's hold has passed, and is granted.
    The hold table after the second call has a row that the table after the
    first call has not. *)
Lemma createOrUpdateHolds_idempotent_counterexample :
  ~ (forall (now1 now2 : Z) (sessionId concertId : string)
            (selections : list TicketSelection.t) (w : World),
       now1 <= now2 ->
       holds_wf w ->
       NoDup (map TicketSelection.tier selections) ->
       map erase_refreshed
         (holds (snd (createOrUpdateHolds now2 sessionId concertId selections
                        (snd (createOrUpdateHolds now1 sessionId concertId
                                selections w)))))
       = map erase_refreshed
           (holds (snd (createOrUpdateHolds now1 sessionId concertId selections w)))).
Proof.
  intros H.
  specialize (H 86399999 86400000 "A"%string "good-luck"%string [Scenario.sel VIP 1]
                Scenario.b_holds_vip).
  assert (Ht : 86399999 <= 86400000) by lia.
  assert (Hwf : holds_wf Scenario.b_holds_vip) by apply reachable_wf.
  assert (Hnd : NoDup (map TicketSelection.tier [Scenario.sel VIP 1])).
  { simpl. repeat constructor. simpl. tauto. }
  specialize (H Ht Hwf Hnd). vm_compute in H. discriminate H.
Qed.

(* ------------------------------------------------------------------ *)
(** ** The reads: [getInventory], [getHoldsForSession],
       [getHoldsForConcert], [getExpiringHolds] *)

Lemma select_inventory_unique w (r : InventoryRow.t) :
  inventory_wf w -> In r (ticket_inventory w) ->
  select_inventory w (InventoryRow.concert_id r) (InventoryRow.tier r) = Some r.
Proof.
  unfold inventory_wf, select_inventory.
  induction (ticket_inventory w) as [|x l IH]; intros Hnd Hin; [destruct Hin|].
  simpl in Hnd. inversion Hnd as [|? ? Hx Hl]; subst.
  simpl. unfold inv_of_concert_tier at 1.
  destruct (String.eqb (InventoryRow.concert_id x) (InventoryRow.concert_id r)
            && tier_eqb (InventoryRow.tier x) (InventoryRow.tier r)) eqn:E.
  - apply andb_true_iff in E. destruct E as [Ec Et].
    apply String.eqb_eq in Ec. apply tier_eqb_eq in Et.
    destruct Hin as [->|Hin]; [reflexivity|].
    exfalso. apply Hx. rewrite Ec, Et.
    apply (in_map (fun r => (InventoryRow.concert_id r, InventoryRow.tier r))) in Hin.
    exact Hin.
  - destruct Hin as [->|Hin].
    + rewrite String.eqb_refl, tier_eqb_refl in E. discriminate E.
    + apply IH; assumption.
Qed.

Lemma filter_inventory_key w concertId tier :
  inventory_wf w ->
  filter (inv_of_concert_tier concertId tier) (ticket_inventory w)
  = match select_inventory w concertId tier with Some r => [r] | None => [] end.
Proof.
  unfold inventory_wf, select_inventory.
  induction (ticket_inventory w) as [|x l IH]; intros Hnd; [reflexivity|].
  simpl in Hnd. inversion Hnd as [|? ? Hx Hl]; subst. simpl.
  destruct (inv_of_concert_tier concertId tier x) eqn:E; [|apply IH; exact Hl].
  f_equal.
  destruct (filter (inv_of_concert_tier concertId tier) l) as [|y rest] eqn:F;
    [reflexivity|].
  exfalso. apply Hx.
  assert (Hy : In y (filter (inv_of_concert_tier concertId tier) l))
    by (rewrite F; left; reflexivity).
  apply filter_In in Hy. destruct Hy as [Hy Ey].
  unfold inv_of_concert_tier in E, Ey.
  apply andb_true_iff in E. apply andb_true_iff in Ey.
  destruct E as [Ec Et], Ey as [Ecy Ety].
  apply String.eqb_eq in Ec, Ecy. apply tier_eqb_eq in Et, Ety.
  apply in_map_iff. exists y. split; [|exact Hy].
  rewrite Ec, Et, Ecy, Ety. reflexivity.
Qed.

Lemma inventory_rows_of_concert w concertId (r : InventoryRow.t) :
  In r (flat_map
          (fun tier => filter (inv_of_concert_tier concertId tier) (ticket_inventory w))
          [FRONT_ROW; GA; VIP])
  <-> In r (ticket_inventory w) /\ InventoryRow.concert_id r = concertId.
Proof.
  rewrite in_flat_map. split.
  - intros [tier [_ Hr]]. apply filter_In in Hr. destruct Hr as [Hr Hk].
    unfold inv_of_concert_tier in Hk. apply andb_true_iff in Hk.
    destruct Hk as [Hc _]. apply String.eqb_eq in Hc. auto.
  - intros [Hr Hc]. exists (InventoryRow.tier r). split.
    + destruct (InventoryRow.tier r); simpl; auto.
    + apply filter_In. split; [exact Hr|].
      unfold inv_of_concert_tier. rewrite Hc, String.eqb_refl, tier_eqb_refl.
      reflexivity.
Qed.

(** X1.  Every entry that [getInventory] returns for a concert belongs to
    that concert and accounts for its row: available + sold + held = total,
    where held is the quantity under the holds of the entry's tier that the
    query counts, those whose date of expiry is not before the UTC date of
    [now].  There is an entry for a tier exactly when the inventory table
    has a row for it; the entries come in the order of the primary key,
    FRONT_ROW, GA, VIP, one per tier; and, the key of the table being
    unique, the available quantity of the entry is what
    [getAvailableQuantity] answers for the tier. *)
Theorem getInventory_accounts :
  forall (now : Z) (w : World) (concertId : string),
    inventory_wf w ->
    (forall e, In e (getInventory now w concertId) ->
       TicketInventory.concertId e = concertId
       /\ TicketInventory.availableQuantity e + TicketInventory.soldQuantity e
          + TicketInventory.heldQuantity e = TicketInventory.totalQuantity e
       /\ TicketInventory.heldQuantity e
          = sum_quantity
              (filter (fun h => String.eqb (HoldRow.concert_id h) concertId
                                && tier_eqb (HoldRow.tier h) (TicketInventory.tier e)
                                && (utc_date now <=? utc_date (HoldRow.expires_at h)))
                      (holds w))
       /\ TicketInventory.availableQuantity e
          = getAvailableQuantity now w concertId (TicketInventory.tier e)
       /\ totalQuantity w concertId (TicketInventory.tier e)
          = Some (TicketInventory.totalQuantity e)
       /\ soldQuantity w concertId (TicketInventory.tier e)
          = Some (TicketInventory.soldQuantity e))
    /\ (forall tier,
          select_inventory w concertId tier <> None <->
          exists e, In e (getInventory now w concertId)
                    /\ TicketInventory.tier e = tier)
    /\ map TicketInventory.tier (getInventory now w concertId)
       = filter (fun tier => match select_inventory w concertId tier with
                             | Some _ => true
                             | None => false
                             end)
                [FRONT_ROW; GA; VIP]
    /\ NoDup (map TicketInventory.tier (getInventory now w concertId)).
Proof.
  intros now w concertId Hwf.
  assert (Horder :
    map TicketInventory.tier (getInventory now w concertId)
    = filter (fun tier => match select_inventory w concertId tier with
                          | Some _ => true
                          | None => false
                          end)
             [FRONT_ROW; GA; VIP]).
  { unfold getInventory. rewrite map_map. cbn [TicketInventory.tier].
    cbn [flat_map filter]. rewrite !(filter_inventory_key w concertId _ Hwf).
    assert (Ht : forall tier r, select_inventory w concertId tier = Some r ->
                   InventoryRow.tier r = tier).
    { intros tier r E. unfold select_inventory in E. apply find_some in E.
      destruct E as [_ Hk]. unfold inv_of_concert_tier in Hk.
      apply andb_true_iff in Hk. destruct Hk as [_ Hk].
      apply tier_eqb_eq. exact Hk. }
    destruct (select_inventory w concertId FRONT_ROW) as [r1|] eqn:E1;
      destruct (select_inventory w concertId GA) as [r2|] eqn:E2;
      destruct (select_inventory w concertId VIP) as [r3|] eqn:E3;
      cbn [app map];
      rewrite ?(Ht _ _ E1), ?(Ht _ _ E2), ?(Ht _ _ E3); reflexivity. }
  split; [|split; [|split]].
  - intros e He. unfold getInventory in He.
    apply in_map_iff in He. destruct He as [r [<- Hr]].
    apply inventory_rows_of_concert in Hr. destruct Hr as [Hr Hc]. simpl.
    pose proof (select_inventory_unique w r Hwf Hr) as Hsel. rewrite Hc in Hsel.
    unfold getAvailableQuantity, totalQuantity, soldQuantity. rewrite Hsel. simpl.
    split; [exact Hc|]. split; [lia|]. split; [|auto].
    unfold heldQuantity, of_concert_tier. f_equal. apply filter_ext. intros h.
    rewrite not_expired_utc_date. reflexivity.
  - intros tier. split.
    + intros Hsel. destruct (select_inventory w concertId tier) as [r|] eqn:E;
        [|contradiction].
      unfold select_inventory in E. apply find_some in E. destruct E as [Hr Hk].
      unfold inv_of_concert_tier in Hk. apply andb_true_iff in Hk.
      destruct Hk as [Hc Ht]. apply tier_eqb_eq in Ht. apply String.eqb_eq in Hc.
      eexists. split.
      * unfold getInventory. apply in_map. apply inventory_rows_of_concert.
        split; [exact Hr|exact Hc].
      * simpl. exact Ht.
    + intros [e [He Ht]]. unfold getInventory in He.
      apply in_map_iff in He. destruct He as [r [<- Hr]].
      apply inventory_rows_of_concert in Hr. destruct Hr as [Hr Hc].
      simpl in Ht. subst tier.
      pose proof (select_inventory_unique w r Hwf Hr) as Hsel. rewrite Hc in Hsel.
      rewrite Hsel. discriminate.
  - exact Horder.
  - rewrite Horder. apply NoDup_filter.
    repeat constructor; simpl; intuition discriminate.
Qed.

Lemma getInventory_accounts_witness :
  inventory_wf Scenario.a_holds_vip
  /\ map TicketInventory.tier (getInventory 1000 Scenario.a_holds_vip "good-luck")
     = [FRONT_ROW; GA; VIP]
  /\ map TicketInventory.availableQuantity (getInventory 1000 Scenario.a_holds_vip "good-luck")
     = [3; 5; 0]
  /\ map TicketInventory.availableQuantity
       (getInventory 700000 Scenario.a_holds_vip "good-luck")
     = [3; 5; 0].
Proof.
  assert (Hwf : inventory_wf Scenario.a_holds_vip).
  { unfold inventory_wf. vm_compute.
    repeat constructor; simpl; intuition discriminate. }
  split; [exact Hwf|]. split; [|split; reflexivity].
  rewrite (proj1 (proj2 (proj2 (getInventory_accounts 1000 Scenario.a_holds_vip
                                  "good-luck" Hwf)))).
  reflexivity.
Defined.

(* ------------------------------------------------------------------ *)
(** ** The sweep *)

Lemma filter_ext_holds (p q : HoldRow.t -> bool) (hs : list HoldRow.t) :
  (forall h, In h hs -> p h = q h) -> filter p hs = filter q hs.
Proof.
  induction hs as [|h hs IH]; intros H; simpl; [reflexivity|].
  rewrite (H h (or_introl eq_refl)).
  rewrite IH; [reflexivity|]. intros x Hx. apply H. right. exact Hx.
Qed.

Lemma not_expired_mono now now' h :
  now <= now' -> not_expired now' h = true -> not_expired now h = true.
Proof.
  intros Hle H. apply not_expired_spec in H. apply not_expired_spec.
  apply (Z.le_trans _ (utc_date now')); [apply utc_date_mono; exact Hle|exact H].
Qed.

(** The rows that a read at [now'] selects by a condition that includes
    [expires_at > now'] are the same after a sweep at an earlier [now]. *)
Lemma filter_after_sweep now now' (p : HoldRow.t -> bool) (w : World) :
  now <= now' ->
  filter (fun h => p h && not_expired now' h) (holds (snd (cleanupExpiredHolds now w)))
  = filter (fun h => p h && not_expired now' h) (holds w).
Proof.
  intros Hle. rewrite cleanup_holds. apply filter_filter_sub.
  intros h Hh. apply andb_true_iff in Hh. destruct Hh as [_ Hh].
  apply (not_expired_mono now now'); assumption.
Qed.

Lemma heldQuantity_after_sweep now now' w concertId tier :
  now <= now' ->
  heldQuantity now' (snd (cleanupExpiredHolds now w)) concertId tier
  = heldQuantity now' w concertId tier.
Proof.
  intros Hle. unfold heldQuantity.
  rewrite (filter_after_sweep now now' (of_concert_tier concertId tier) w Hle).
  reflexivity.
Qed.

Lemma getHoldsForConcert_after_sweep now now' w sessionId concertId :
  now <= now' ->
  getHoldsForConcert now' (snd (cleanupExpiredHolds now w)) sessionId concertId
  = getHoldsForConcert now' w sessionId concertId.
Proof.
  intros Hle. unfold getHoldsForConcert.
  rewrite (filter_after_sweep now now' (of_session_concert sessionId concertId) w Hle).
  reflexivity.
Qed.

Lemma verify_inventory_ext w1 w2 concertId (selections : list TicketSelection.t) :
  ticket_inventory w1 = ticket_inventory w2 ->
  verify_inventory w1 concertId selections = verify_inventory w2 concertId selections.
Proof.
  intros Hinv. induction selections as [|s rest IH]; simpl; [reflexivity|].
  unfold select_inventory. rewrite Hinv, IH. reflexivity.
Qed.

(** X2.  Sweeps compose: after a sweep at [now1], a sweep at a later [now2]
    leaves the state that a single sweep at [now2] leaves, and the two
    counts of deleted rows add up to the count of the single sweep.  A
    sweep repeated at the same instant deletes nothing.  After a sweep
    every row has a date of expiry that is not before the UTC date of the
    sweep; a row that has expired earlier on that date is still there. *)
Theorem cleanupExpiredHolds_composes :
  forall (now1 now2 : Z) (w : World),
    now1 <= now2 ->
    snd (cleanupExpiredHolds now2 (snd (cleanupExpiredHolds now1 w)))
    = snd (cleanupExpiredHolds now2 w)
    /\ fst (cleanupExpiredHolds now1 w)
       + fst (cleanupExpiredHolds now2 (snd (cleanupExpiredHolds now1 w)))
       = fst (cleanupExpiredHolds now2 w)
    /\ cleanupExpiredHolds now1 (snd (cleanupExpiredHolds now1 w))
       = (0, snd (cleanupExpiredHolds now1 w))
    /\ (forall h, In h (holds (snd (cleanupExpiredHolds now1 w))) <->
                  In h (holds w)
                  /\ utc_date now1 <= utc_date (HoldRow.expires_at h)).
Proof.
  intros now1 now2 w Hle.
  assert (Hlen : forall now (hs : list HoldRow.t),
             Z.of_nat (List.length (filter (expired now) hs))
             = Z.of_nat (List.length hs)
               - Z.of_nat (List.length (filter (not_expired now) hs))).
  { intros now hs.
    pose proof (filter_length_split (expired now) hs) as H.
    cbv beta in H.
    rewrite (filter_ext_holds (fun x => negb (expired now x))
                              (not_expired now) hs) in H
      by (intros; apply expired_negb).
    lia. }
  assert (Hsub : filter (not_expired now2) (filter (not_expired now1) (holds w))
                 = filter (not_expired now2) (holds w)).
  { apply filter_filter_sub. intros h. apply not_expired_mono. exact Hle. }
  assert (Hholds : forall now v,
             holds (snd (cleanupExpiredHolds now v)) = filter (not_expired now) (holds v))
    by (intros; apply cleanup_holds).
  assert (Hsnd : forall now v,
             snd (cleanupExpiredHolds now v)
             = set_holds v (filter (not_expired now) (holds v))).
  { intros now v. unfold cleanupExpiredHolds. simpl. f_equal.
    apply filter_ext_holds. intros; apply expired_negb. }
  assert (Hfst : forall now v,
             fst (cleanupExpiredHolds now v)
             = Z.of_nat (List.length (holds v))
               - Z.of_nat (List.length (filter (not_expired now) (holds v)))).
  { intros now v. unfold cleanupExpiredHolds. simpl. apply Hlen. }
  split; [|split; [|split]].
  - rewrite !Hsnd. unfold set_holds. simpl. rewrite Hsub. reflexivity.
  - rewrite !Hfst, Hholds, Hsub. lia.
  - rewrite (surjective_pairing (cleanupExpiredHolds now1 _)). f_equal.
    + rewrite Hfst, Hholds.
      rewrite (filter_filter_sub (not_expired now1) (not_expired now1)) by auto.
      lia.
    + rewrite !Hsnd. unfold set_holds. simpl.
      rewrite (filter_filter_sub (not_expired now1) (not_expired now1)) by auto.
      reflexivity.
  - intros h. rewrite Hholds, filter_In, not_expired_spec. reflexivity.
Qed.

Lemma cleanupExpiredHolds_composes_witness :
  86100000 <= 86400000
  /\ fst (cleanupExpiredHolds 86100000 Scenario.before_revival) = 0
  /\ fst (cleanupExpiredHolds 86100000 Scenario.before_revival)
     + fst (cleanupExpiredHolds 86400000
              (snd (cleanupExpiredHolds 86100000 Scenario.before_revival)))
     = 1.
Proof.
  split; [lia|]. split; [reflexivity|].
  rewrite (proj1 (proj2 (cleanupExpiredHolds_composes 86100000 86400000
                           Scenario.before_revival ltac:(lia)))).
  reflexivity.
Defined.

(** X3.  A sweep is invisible to every read made at the same or a later
    instant: the holds of a session, of a session for a concert, the
    expiring holds, the inventory entries and the available quantity are
    what they are without the sweep, and so is the answer of
    [processBooking].  The sweep touches no other table. *)
Theorem cleanupExpiredHolds_invisible :
  forall (now now' : Z) (w : World),
    now <= now' ->
    (forall s, getHoldsForSession now' (snd (cleanupExpiredHolds now w)) s
               = getHoldsForSession now' w s)
    /\ (forall s c, getHoldsForConcert now' (snd (cleanupExpiredHolds now w)) s c
                    = getHoldsForConcert now' w s c)
    /\ (forall s threshold,
          getExpiringHolds now' (snd (cleanupExpiredHolds now w)) s threshold
          = getExpiringHolds now' w s threshold)
    /\ (forall c, getInventory now' (snd (cleanupExpiredHolds now w)) c
                  = getInventory now' w c)
    /\ (forall c t, getAvailableQuantity now' (snd (cleanupExpiredHolds now w)) c t
                    = getAvailableQuantity now' w c t)
    /\ (forall random s c selections,
          fst (processBooking now' random s c selections (snd (cleanupExpiredHolds now w)))
          = fst (processBooking now' random s c selections w))
    /\ ticket_inventory (snd (cleanupExpiredHolds now w)) = ticket_inventory w
    /\ bookings (snd (cleanupExpiredHolds now w)) = bookings w
    /\ booking_items (snd (cleanupExpiredHolds now w)) = booking_items w
    /\ uuid_state (snd (cleanupExpiredHolds now w)) = uuid_state w.
Proof.
  intros now now' w Hle.
  split; [|split; [|split; [|split; [|split; [|split]]]]].
  - intros s. unfold getHoldsForSession.
    rewrite (filter_after_sweep now now'
               (fun h => String.eqb (HoldRow.session_id h) s) w Hle).
    reflexivity.
  - intros s c. apply getHoldsForConcert_after_sweep. exact Hle.
  - intros s threshold. unfold getExpiringHolds. cbv zeta.
    rewrite cleanup_holds. f_equal. apply filter_filter_sub.
    intros h Hh. apply andb_true_iff in Hh. destruct Hh as [Hh _].
    apply andb_true_iff in Hh. destruct Hh as [_ Hh].
    apply (not_expired_mono now now'); assumption.
  - intros c. unfold getInventory.
    change (ticket_inventory (snd (cleanupExpiredHolds now w))) with (ticket_inventory w).
    apply map_ext. intros r.
    rewrite (heldQuantity_after_sweep now now' w c (InventoryRow.tier r) Hle).
    reflexivity.
  - intros c t. unfold getAvailableQuantity.
    change (select_inventory (snd (cleanupExpiredHolds now w)) c t)
      with (select_inventory w c t).
    rewrite (heldQuantity_after_sweep now now' w c t Hle). reflexivity.
  - intros random s c selections. unfold processBooking.
    rewrite (getHoldsForConcert_after_sweep now now' w s c Hle).
    destruct (verify_holds _ selections); [reflexivity|].
    rewrite (verify_inventory_ext (snd (cleanupExpiredHolds now w)) w c selections eq_refl).
    destruct (verify_inventory w c selections); [reflexivity|].
    destruct (negb (simulatePayment random)); [reflexivity|].
    cbn [uuidv4]. destruct (prepare_items selections). reflexivity.
  - repeat split.
Qed.

Lemma cleanupExpiredHolds_invisible_witness :
  86400000 <= 86400001
  /\ getAvailableQuantity 86400001
       (snd (cleanupExpiredHolds 86400000 Scenario.before_revival))
       "good-luck" VIP = 0
  /\ List.length (holds (snd (cleanupExpiredHolds 86400000 Scenario.before_revival)))
     = 2%nat.
Proof.
  split; [lia|]. split; [|reflexivity].
  pose proof (cleanupExpiredHolds_invisible 86400000 86400001 Scenario.before_revival
                ltac:(lia)) as H.
  destruct H as [_ [_ [_ [_ [H _]]]]]. rewrite H. reflexivity.
Defined.

(* ------------------------------------------------------------------ *)
(** ** Releasing holds *)

(** What a [DELETE ... WHERE p] takes from a sum over the rows selected
    by [q]. *)
Lemma sum_quantity_delete (p q : HoldRow.t -> bool) (hs : list HoldRow.t) :
  sum_quantity (filter q (filter (fun h => negb (p h)) hs))
  = sum_quantity (filter q hs) - sum_quantity (filter (fun h => p h && q h) hs).
Proof.
  induction hs as [|h hs IH]; simpl; [reflexivity|].
  destruct (p h) eqn:Ep, (q h) eqn:Eq; simpl; rewrite ?Eq; simpl; rewrite IH; lia.
Qed.

(** X4.  [releaseHolds] deletes exactly the rows of the session for the
    concert: afterwards the session has no hold for the concert, every
    other row is still there, the held quantity of each tier of the concert
    drops by what the session held of it unexpired, other concerts are not
    affected, and releasing again changes nothing. *)
Theorem releaseHolds_effect :
  forall (now : Z) (sessionId concertId : string) (w : World),
    getHoldsForConcert now (releaseHolds sessionId concertId w) sessionId concertId = []
    /\ (forall h, In h (holds (releaseHolds sessionId concertId w)) <->
                  In h (holds w)
                  /\ ~ (HoldRow.session_id h = sessionId
                        /\ HoldRow.concert_id h = concertId))
    /\ (forall tier,
          heldQuantity now (releaseHolds sessionId concertId w) concertId tier
          = heldQuantity now w concertId tier
            - sum_quantity
                (filter (fun h => of_session_concert_tier sessionId concertId tier h
                                  && not_expired now h) (holds w)))
    /\ (forall c tier, c <> concertId ->
          heldQuantity now (releaseHolds sessionId concertId w) c tier
          = heldQuantity now w c tier)
    /\ (forall s c, s <> sessionId \/ c <> concertId ->
          getHoldsForConcert now (releaseHolds sessionId concertId w) s c
          = getHoldsForConcert now w s c)
    /\ releaseHolds sessionId concertId (releaseHolds sessionId concertId w)
       = releaseHolds sessionId concertId w
    /\ ticket_inventory (releaseHolds sessionId concertId w) = ticket_inventory w
    /\ bookings (releaseHolds sessionId concertId w) = bookings w
    /\ booking_items (releaseHolds sessionId concertId w) = booking_items w.
Proof.
  intros now sessionId concertId w.
  split; [|split; [|split; [|split; [|split; [|split]]]]].
  - unfold getHoldsForConcert, releaseHolds. simpl. rewrite map_rowToHold.
    induction (holds w) as [|h hs IH]; simpl; [reflexivity|].
    destruct (of_session_concert sessionId concertId h) eqn:E; simpl; [exact IH|].
    rewrite E. simpl. exact IH.
  - intros h. unfold releaseHolds. simpl. rewrite filter_In, negb_true_iff.
    rewrite <- of_session_concert_spec.
    destruct (of_session_concert sessionId concertId h); intuition congruence.
  - intros tier. unfold heldQuantity, releaseHolds. simpl.
    rewrite sum_quantity_delete. f_equal. f_equal.
    induction (holds w) as [|h hs IH]; simpl; [reflexivity|].
    rewrite IH. unfold of_session_concert_tier, of_session_concert, of_concert_tier.
    destruct (String.eqb (HoldRow.session_id h) sessionId),
             (String.eqb (HoldRow.concert_id h) concertId),
             (tier_eqb (HoldRow.tier h) tier), (not_expired now h); reflexivity.
  - intros c tier Hc. unfold heldQuantity, releaseHolds. simpl.
    apply f_equal. apply filter_filter_sub. intros h Hh.
    apply andb_true_iff in Hh. destruct Hh as [Hh _].
    unfold of_concert_tier in Hh. apply andb_true_iff in Hh. destruct Hh as [Hh _].
    apply String.eqb_eq in Hh. apply negb_true_iff.
    destruct (of_session_concert sessionId concertId h) eqn:E; [|reflexivity].
    apply of_session_concert_spec in E. destruct E as [_ E]. congruence.
  - intros s c Hsc. unfold getHoldsForConcert, releaseHolds. simpl.
    apply f_equal. apply filter_filter_sub. intros h Hh.
    apply andb_true_iff in Hh. destruct Hh as [Hh _].
    apply of_session_concert_spec in Hh. destruct Hh as [Hs Hc].
    apply negb_true_iff.
    destruct (of_session_concert sessionId concertId h) eqn:E; [|reflexivity].
    apply of_session_concert_spec in E. destruct E as [E1 E2].
    destruct Hsc; congruence.
  - unfold releaseHolds, set_holds. simpl. f_equal.
    apply filter_filter_sub. auto.
  - repeat split.
Qed.

Lemma releaseHolds_effect_witness :
  getHoldsForConcert 1000 (releaseHolds "A" "good-luck" Scenario.a_holds_vip)
    "A" "good-luck" = []
  /\ heldQuantity 1000 (releaseHolds "A" "good-luck" Scenario.a_holds_vip)
       "good-luck" VIP = 0.
Proof.
  split.
  - exact (proj1 (releaseHolds_effect 1000 "A" "good-luck" Scenario.a_holds_vip)).
  - rewrite (proj1 (proj2 (proj2 (releaseHolds_effect 1000 "A" "good-luck"
                                    Scenario.a_holds_vip)))).
    reflexivity.
Defined.

(** X5.  [releaseAllHolds] leaves the session without any hold, leaves
    the rows of every other session as they are, and is what releasing
    concert by concert adds up to: releasing one concert before or after
    it makes no difference. *)
Theorem releaseAllHolds_effect :
  forall (now : Z) (sessionId : string) (w : World),
    getHoldsForSession now (releaseAllHolds sessionId w) sessionId = []
    /\ (forall h, In h (holds (releaseAllHolds sessionId w)) <->
                  In h (holds w) /\ HoldRow.session_id h <> sessionId)
    /\ (forall s, s <> sessionId ->
          getHoldsForSession now (releaseAllHolds sessionId w) s
          = getHoldsForSession now w s)
    /\ (forall c, releaseHolds sessionId c (releaseAllHolds sessionId w)
                  = releaseAllHolds sessionId w)
    /\ (forall c, releaseAllHolds sessionId (releaseHolds sessionId c w)
                  = releaseAllHolds sessionId w)
    /\ (forall c, getHoldsForConcert now (releaseAllHolds sessionId w) sessionId c = []).
Proof.
  intros now sessionId w.
  assert (Hnone : forall (p : HoldRow.t -> bool) (hs : list HoldRow.t),
             (forall h, p h = true -> String.eqb (HoldRow.session_id h) sessionId = true) ->
             filter p
               (filter (fun h => negb (String.eqb (HoldRow.session_id h) sessionId)) hs)
             = []).
  { intros p hs Hp. induction hs as [|h hs IH]; simpl; [reflexivity|].
    destruct (String.eqb (HoldRow.session_id h) sessionId) eqn:E; simpl; [exact IH|].
    destruct (p h) eqn:Ep; [|exact IH]. apply Hp in Ep. congruence. }
  split; [|split; [|split; [|split; [|split]]]].
  - unfold getHoldsForSession, releaseAllHolds. simpl. rewrite map_rowToHold.
    apply Hnone. intros h Hh. apply andb_true_iff in Hh. apply Hh.
  - intros h. unfold releaseAllHolds. simpl. rewrite filter_In, negb_true_iff.
    rewrite <- String.eqb_neq. reflexivity.
  - intros s Hs. unfold getHoldsForSession, releaseAllHolds. simpl.
    apply f_equal. apply filter_filter_sub. intros h Hh.
    apply andb_true_iff in Hh. destruct Hh as [Hh _]. apply String.eqb_eq in Hh.
    apply negb_true_iff. apply String.eqb_neq. congruence.
  - intros c. unfold releaseHolds, releaseAllHolds, set_holds. simpl. f_equal.
    apply filter_all. intros h Hh. apply filter_In in Hh. destruct Hh as [_ Hh].
    apply negb_true_iff in Hh. unfold of_session_concert. rewrite Hh. reflexivity.
  - intros c. unfold releaseHolds, releaseAllHolds, set_holds. simpl. f_equal.
    apply filter_filter_sub. intros h Hh. apply negb_true_iff in Hh.
    unfold of_session_concert. rewrite Hh. reflexivity.
  - intros c. unfold getHoldsForConcert, releaseAllHolds. simpl. rewrite map_rowToHold.
    apply Hnone. intros h Hh. apply andb_true_iff in Hh. destruct Hh as [Hh _].
    unfold of_session_concert in Hh. apply andb_true_iff in Hh. apply Hh.
Qed.

Lemma releaseAllHolds_effect_witness :
  getHoldsForSession 1000 (releaseAllHolds "A" Scenario.before_revival) "A" = []
  /\ List.length (holds (releaseAllHolds "A" Scenario.before_revival)) = 1%nat.
Proof.
  split; [|reflexivity].
  exact (proj1 (releaseAllHolds_effect 1000 "A" Scenario.before_revival)).
Defined.

(* ------------------------------------------------------------------ *)
(** ** What a heartbeat leaves alone *)

Lemma update_expiry_erased sessionId concertId e stamp (hs : list HoldRow.t) :
  map erase_refreshed (update_expiry sessionId concertId e stamp hs)
  = map erase_refreshed hs.
Proof.
  unfold update_expiry. rewrite map_map. apply map_ext. intros h.
  destruct (of_session_concert sessionId concertId h); reflexivity.
Qed.

Lemma update_expiry_others sessionId concertId e stamp (hs : list HoldRow.t) :
  filter (fun h => negb (of_session_concert sessionId concertId h))
         (update_expiry sessionId concertId e stamp hs)
  = filter (fun h => negb (of_session_concert sessionId concertId h)) hs.
Proof.
  unfold update_expiry. apply filter_map_fixed. intros h _.
  destruct (of_session_concert sessionId concertId h) eqn:E.
  - split; [|discriminate]. unfold of_session_concert in *. simpl. rewrite E. reflexivity.
  - rewrite E. auto.
Qed.

(** X6.  A heartbeat fails exactly when [getHoldsForConcert] has no hold to
    return for the session and the concert, that is, when the session has
    no row for the concert whose date of expiry is not before the UTC date
    of [now]; then it changes nothing and returns no hold and no expiry.
    A hold that has expired earlier on the date of [now] does not make the
    heartbeat fail.  Whatever its outcome, a heartbeat creates no row, deletes no
    row and changes no quantity: the hold table keeps its rows in order, up
    to the two refreshed timestamps; the rows of other sessions and concerts
    are untouched; the other tables and the uuid generator too.  The holds
    it returns are rows of the session for the concert in the state it
    leaves. *)
Theorem processHeartbeat_frame :
  forall (now : Z) (sessionId concertId : string) (lastActivityAt : Z)
         (isTabVisible : bool) (w : World),
    let r := fst (processHeartbeat now sessionId concertId lastActivityAt isTabVisible w) in
    let w' := snd (processHeartbeat now sessionId concertId lastActivityAt isTabVisible w) in
    (HeartbeatResult.success r = false <->
     getHoldsForConcert now w sessionId concertId = [])
    /\ (HeartbeatResult.success r = false <->
        forall h, In h (holds w) -> HoldRow.session_id h = sessionId ->
                  HoldRow.concert_id h = concertId ->
                  utc_date (HoldRow.expires_at h) < utc_date now)
    /\ (HeartbeatResult.success r = false ->
        w' = w /\ HeartbeatResult.holds r = [] /\ HeartbeatResult.expiresAt r = None
        /\ HeartbeatResult.message r = Some NoActiveHoldsFound)
    /\ map erase_refreshed (holds w') = map erase_refreshed (holds w)
    /\ filter (fun h => negb (of_session_concert sessionId concertId h)) (holds w')
       = filter (fun h => negb (of_session_concert sessionId concertId h)) (holds w)
    /\ ticket_inventory w' = ticket_inventory w
    /\ bookings w' = bookings w
    /\ booking_items w' = booking_items w
    /\ uuid_state w' = uuid_state w
    /\ (forall h, In h (HeartbeatResult.holds r) ->
          In h (holds w')
          /\ HoldRow.session_id h = sessionId /\ HoldRow.concert_id h = concertId).
Proof.
  intros now sessionId concertId lastActivityAt isTabVisible w r w'.
  subst r w'.
  unfold getHoldsForConcert. rewrite map_rowToHold.
  assert (Hdates :
    filter (fun h => of_session_concert sessionId concertId h && not_expired now h)
           (holds w) = []
    <-> forall h, In h (holds w) -> HoldRow.session_id h = sessionId ->
                  HoldRow.concert_id h = concertId ->
                  utc_date (HoldRow.expires_at h) < utc_date now).
  { split.
    - intros Hnil h Hin Hs Hc.
      destruct (Z.lt_ge_cases (utc_date (HoldRow.expires_at h)) (utc_date now))
        as [Hlt|Hge]; [exact Hlt|].
      assert (Hf : In h (filter (fun h => of_session_concert sessionId concertId h
                                          && not_expired now h) (holds w))).
      { apply filter_In. split; [exact Hin|]. apply andb_true_iff. split.
        - apply of_session_concert_spec. auto.
        - apply not_expired_spec. exact Hge. }
      rewrite Hnil in Hf. contradiction.
    - intros Hall.
      destruct (filter (fun h => of_session_concert sessionId concertId h
                                 && not_expired now h) (holds w)) as [|x l] eqn:F;
        [reflexivity|].
      assert (Hx : In x (filter (fun h => of_session_concert sessionId concertId h
                                          && not_expired now h) (holds w)))
        by (rewrite F; left; reflexivity).
      apply filter_In in Hx. destruct Hx as [Hin Hk].
      apply andb_true_iff in Hk. destruct Hk as [Hsc Hne].
      apply of_session_concert_spec in Hsc. apply not_expired_spec in Hne.
      specialize (Hall x Hin (proj1 Hsc) (proj2 Hsc)). lia. }
  destruct (filter (fun h => of_session_concert sessionId concertId h && not_expired now h)
                   (holds w)) as [|first rest] eqn:Ef.
  - unfold processHeartbeat. rewrite Ef. simpl.
    split; [tauto|]. split; [split; [intros _; apply Hdates; reflexivity|reflexivity]|].
    repeat split; try reflexivity; try tauto.
  - assert (Hsome : ~ (forall h, In h (holds w) -> HoldRow.session_id h = sessionId ->
                         HoldRow.concert_id h = concertId ->
                         utc_date (HoldRow.expires_at h) < utc_date now)).
    { intros Hall. apply Hdates in Hall. discriminate Hall. }
    rewrite (processHeartbeat_cases now sessionId concertId lastActivityAt isTabVisible
               w first rest Ef).
    cbv zeta.
    assert (Hret : forall h e,
               In h (filter (of_session_concert sessionId concertId)
                            (update_expiry sessionId concertId e now (holds w))) ->
               In h (update_expiry sessionId concertId e now (holds w))
               /\ HoldRow.session_id h = sessionId /\ HoldRow.concert_id h = concertId).
    { intros h e Hh. apply filter_In in Hh. destruct Hh as [Hh Hk].
      apply of_session_concert_spec in Hk. tauto. }
    destruct (negb isTabVisible);
      [|destruct (now - lastActivityAt >? HOLD_CONFIG.inactivityTimeoutMs)]; simpl.
    + split; [split; discriminate|].
      split; [split; [discriminate|intros H; contradiction]|]. split; [discriminate|].
      split; [apply update_expiry_erased|]. split; [apply update_expiry_others|].
      repeat (split; [reflexivity|]). intros h. apply Hret.
    + split; [split; discriminate|].
      split; [split; [discriminate|intros H; contradiction]|]. split; [discriminate|].
      repeat (split; [reflexivity|]). intros h Hh.
      change (In h (first :: rest)) in Hh.
      rewrite <- Ef in Hh. apply filter_In in Hh.
      destruct Hh as [Hh Hk]. apply andb_true_iff in Hk. destruct Hk as [Hk _].
      apply of_session_concert_spec in Hk. tauto.
    + split; [split; discriminate|].
      split; [split; [discriminate|intros H; contradiction]|]. split; [discriminate|].
      split; [apply update_expiry_erased|]. split; [apply update_expiry_others|].
      repeat (split; [reflexivity|]). intros h. apply Hret.
Qed.

Lemma processHeartbeat_frame_witness :
  getHoldsForConcert 1000 Scenario.a_holds_vip "B" "good-luck" = []
  /\ snd (processHeartbeat 1000 "B" "good-luck" 1000 true Scenario.a_holds_vip)
     = Scenario.a_holds_vip
  /\ HeartbeatResult.success
       (fst (processHeartbeat 700000 "A" "good-luck" 700000 true Scenario.a_holds_vip))
     = true
  /\ holds (snd (processHeartbeat 700000 "A" "good-luck" 700000 true
                   Scenario.a_holds_vip))
     = [HoldRow.mk 0%nat "A" "good-luck" VIP 2 0 900000 700000]
  /\ HeartbeatResult.success
       (fst (processHeartbeat 86400000 "A" "good-luck" 86400000 true
               Scenario.a_holds_vip))
     = false.
Proof.
  split; [reflexivity|].
  split; [|repeat split; reflexivity].
  pose proof (processHeartbeat_frame 1000 "B" "good-luck" 1000 true Scenario.a_holds_vip)
    as H.
  cbv zeta in H. destruct H as [H1 [_ [H2 _]]].
  apply H2. apply H1. reflexivity.
Defined.

(* ------------------------------------------------------------------ *)
(** ** The reads of the hold table agree *)

(** X7.  The holds of a session for a concert are its holds, filtered by
    concert; its expiring holds are its holds whose expiry is not after
    [now + threshold], and a larger threshold selects no less.  The three
    reads return the rows of the session whose date of expiry is not before
    the UTC date of [now]: a hold that has expired earlier on that date is
    still returned, and it is an expiring hold for every threshold from 0
    on. *)
Theorem hold_reads_agree :
  forall (now : Z) (w : World) (sessionId : string),
    (forall concertId,
        getHoldsForConcert now w sessionId concertId
        = filter (fun h => String.eqb (HoldRow.concert_id h) concertId)
                 (getHoldsForSession now w sessionId))
    /\ (forall threshold,
          getExpiringHolds now w sessionId threshold
          = filter (fun h => HoldRow.expires_at h <=? now + threshold)
                   (getHoldsForSession now w sessionId))
    /\ (forall t1 t2, t1 <= t2 ->
          incl (getExpiringHolds now w sessionId t1) (getExpiringHolds now w sessionId t2))
    /\ (forall h, In h (getHoldsForSession now w sessionId) <->
          In h (holds w) /\ HoldRow.session_id h = sessionId
          /\ utc_date now <= utc_date (HoldRow.expires_at h))
    /\ (forall h threshold,
          In h (getHoldsForSession now w sessionId) ->
          HoldRow.expires_at h <= now -> 0 <= threshold ->
          In h (getExpiringHolds now w sessionId threshold)).
Proof.
  intros now w sessionId.
  assert (Hexp : forall threshold,
            getExpiringHolds now w sessionId threshold
            = filter (fun h => HoldRow.expires_at h <=? now + threshold)
                     (getHoldsForSession now w sessionId)).
  { intros threshold. unfold getExpiringHolds, getHoldsForSession. cbv zeta.
    rewrite !map_rowToHold.
    induction (holds w) as [|h hs IH]; simpl; [reflexivity|].
    rewrite text_ltb_toISOString.
    replace (negb (now + threshold <? HoldRow.expires_at h))
      with (HoldRow.expires_at h <=? now + threshold)
      by (destruct (Z.leb_spec (HoldRow.expires_at h) (now + threshold));
          destruct (Z.ltb_spec (now + threshold) (HoldRow.expires_at h));
          simpl; try reflexivity; lia).
    destruct (String.eqb (HoldRow.session_id h) sessionId && not_expired now h);
      simpl; [|exact IH].
    destruct (HoldRow.expires_at h <=? now + threshold); [f_equal|]; exact IH. }
  split; [|split; [|split; [|split]]].
  - intros concertId. unfold getHoldsForConcert, getHoldsForSession.
    rewrite !map_rowToHold.
    induction (holds w) as [|h hs IH]; simpl; [reflexivity|].
    unfold of_session_concert at 1.
    destruct (String.eqb (HoldRow.session_id h) sessionId),
             (String.eqb (HoldRow.concert_id h) concertId) eqn:Ec,
             (not_expired now h); simpl; rewrite ?Ec, ?IH; reflexivity.
  - exact Hexp.
  - intros t1 t2 Hle h. rewrite !Hexp, !filter_In. intros [Hin Hk].
    split; [exact Hin|]. apply Z.leb_le in Hk. apply Z.leb_le. lia.
  - intros h. unfold getHoldsForSession. rewrite map_rowToHold, filter_In.
    rewrite andb_true_iff, String.eqb_eq, not_expired_spec. tauto.
  - intros h threshold Hin Hpast Hth. rewrite Hexp, filter_In.
    split; [exact Hin|]. apply Z.leb_le. lia.
Qed.

Lemma hold_reads_agree_witness :
  In (HoldRow.mk 0%nat "A" "good-luck" VIP 2 0 600000 0)
     (getHoldsForSession 700000 Scenario.a_holds_vip "A")
  /\ getExpiringHolds 700000 Scenario.a_holds_vip "A" 0
     = [HoldRow.mk 0%nat "A" "good-luck" VIP 2 0 600000 0]
  /\ In (HoldRow.mk 0%nat "A" "good-luck" VIP 2 0 600000 0)
        (getExpiringHolds 700000 Scenario.a_holds_vip "A" 0)
  /\ getExpiringHolds 1000 Scenario.a_holds_vip "A" 0 = []
  /\ getHoldsForSession 86400000 Scenario.a_holds_vip "A" = [].
Proof.
  assert (Hin : In (HoldRow.mk 0%nat "A" "good-luck" VIP 2 0 600000 0)
                   (getHoldsForSession 700000 Scenario.a_holds_vip "A"))
    by (vm_compute; auto).
  split; [exact Hin|]. split; [reflexivity|].
  split; [|split; reflexivity].
  apply (proj2 (proj2 (proj2 (proj2 (hold_reads_agree 700000 Scenario.a_holds_vip "A"))))
           _ 0 Hin); simpl; lia.
Defined.

(* ------------------------------------------------------------------ *)
(** ** What each operation does to the tables *)

Lemma holds_iteration_tables now expiresAt sessionId concertId acc selection :
  ticket_inventory (lp_world (holds_iteration now expiresAt sessionId concertId acc selection))
  = ticket_inventory (lp_world acc)
  /\ bookings (lp_world (holds_iteration now expiresAt sessionId concertId acc selection))
     = bookings (lp_world acc)
  /\ booking_items (lp_world (holds_iteration now expiresAt sessionId concertId acc selection))
     = booking_items (lp_world acc)
  /\ (uuid_state (lp_world acc)
      <= uuid_state (lp_world (holds_iteration now expiresAt sessionId concertId acc selection)))%nat.
Proof.
  unfold holds_iteration.
  destruct (TicketSelection.quantity selection =? 0); simpl; [auto|].
  destruct (find _ (holds (lp_world acc))); destruct (_ && _); simpl; auto.
Qed.

Lemma holds_loop_tables now expiresAt sessionId concertId selections : forall acc,
  ticket_inventory
    (lp_world (fold_left (holds_iteration now expiresAt sessionId concertId) selections acc))
  = ticket_inventory (lp_world acc)
  /\ bookings
       (lp_world (fold_left (holds_iteration now expiresAt sessionId concertId) selections acc))
     = bookings (lp_world acc)
  /\ booking_items
       (lp_world (fold_left (holds_iteration now expiresAt sessionId concertId) selections acc))
     = booking_items (lp_world acc)
  /\ (uuid_state (lp_world acc)
      <= uuid_state
           (lp_world (fold_left (holds_iteration now expiresAt sessionId concertId)
                                selections acc)))%nat.
Proof.
  induction selections as [|s rest IH]; intros acc; simpl; [auto|].
  destruct (IH (holds_iteration now expiresAt sessionId concertId acc s))
    as [H1 [H2 [H3 H4]]].
  destruct (holds_iteration_tables now expiresAt sessionId concertId acc s)
    as [G1 [G2 [G3 G4]]].
  rewrite H1, H2, H3, G1, G2, G3. repeat split. lia.
Qed.

(** The state that [createOrUpdateHolds] leaves is the one it found, or
    the one its loop leaves. *)
Lemma createOrUpdateHolds_state now sessionId concertId selections w :
  snd (createOrUpdateHolds now sessionId concertId selections w) = w
  \/ ((forall s, In s selections ->
         TicketSelection.quantity s <= LIMITS.MAX_TICKETS_PER_TIER)
      /\ requested_total selections <= LIMITS.MAX_TICKETS_PER_ORDER
      /\ snd (createOrUpdateHolds now sessionId concertId selections w)
         = lp_world
             (fold_left
                (holds_iteration now (now + HOLD_CONFIG.holdDurationMs) sessionId concertId)
                selections (mkHoldsLoop w [] []))).
Proof.
  destruct (createOrUpdateHolds_validation selections) as [[Hq Ht]|Hno].
  - right. split; [exact Hq|]. split; [exact Ht|].
    apply (createOrUpdateHolds_loop now sessionId concertId selections w Hq Ht).
  - left. apply Hno.
Qed.

Lemma createOrUpdateHolds_tables now sessionId concertId selections w :
  ticket_inventory (snd (createOrUpdateHolds now sessionId concertId selections w))
  = ticket_inventory w
  /\ bookings (snd (createOrUpdateHolds now sessionId concertId selections w)) = bookings w
  /\ booking_items (snd (createOrUpdateHolds now sessionId concertId selections w))
     = booking_items w
  /\ (uuid_state w
      <= uuid_state (snd (createOrUpdateHolds now sessionId concertId selections w)))%nat.
Proof.
  destruct (createOrUpdateHolds_state now sessionId concertId selections w)
    as [->|[_ [_ ->]]]; [auto|].
  apply (holds_loop_tables now _ sessionId concertId selections (mkHoldsLoop w [] [])).
Qed.

(** The hold table after a heartbeat: as it was, or with the expiry of the
    session's rows for the concert rewritten. *)
Lemma processHeartbeat_state now sessionId concertId lastActivityAt isTabVisible w :
  snd (processHeartbeat now sessionId concertId lastActivityAt isTabVisible w) = w
  \/ exists e,
       snd (processHeartbeat now sessionId concertId lastActivityAt isTabVisible w)
       = set_holds w (update_expiry sessionId concertId e now (holds w)).
Proof.
  destruct (filter (fun h => of_session_concert sessionId concertId h && not_expired now h)
                   (holds w)) as [|first rest] eqn:Ef.
  - left. unfold processHeartbeat. rewrite Ef. reflexivity.
  - rewrite (processHeartbeat_cases now sessionId concertId lastActivityAt isTabVisible
               w first rest Ef).
    cbv zeta.
    destruct (negb isTabVisible);
      [|destruct (now - lastActivityAt >? HOLD_CONFIG.inactivityTimeoutMs)]; simpl;
      eauto.
Qed.

(** The state after [processBooking]: the one it found, or the one in
    which the booking is recorded. *)
Lemma processBooking_state now random sessionId concertId selections w :
  (BookingResult.success (fst (processBooking now random sessionId concertId selections w))
   = false
   /\ BookingResult.booking (fst (processBooking now random sessionId concertId selections w))
      = None
   /\ snd (processBooking now random sessionId concertId selections w) = w)
  \/ (BookingResult.success (fst (processBooking now random sessionId concertId selections w))
      = true
      /\ verify_holds (holdsByTier (getHoldsForConcert now w sessionId concertId)) selections
         = None
      /\ verify_inventory w concertId selections = None
      /\ BookingResult.booking
           (fst (processBooking now random sessionId concertId selections w))
         = Some (Booking.mk (uuid_state w) sessionId concertId
                   (map item_of (nonzero selections))
                   (sum_subtotals (map item_of (nonzero selections)))
                   CONFIRMED now (Some now))
      /\ snd (processBooking now random sessionId concertId selections w)
         = releaseHolds sessionId concertId
             (record_items (uuid_state w) concertId (map item_of (nonzero selections))
                (set_bookings (snd (uuidv4 w))
                   (bookings w
                    ++ [BookingRow.mk (uuid_state w) sessionId concertId
                          (sum_subtotals (map item_of (nonzero selections)))
                          CONFIRMED now (Some now)])))).
Proof.
  unfold processBooking.
  destruct (verify_holds _ selections); [left; auto|].
  destruct (verify_inventory w concertId selections); [left; auto|].
  destruct (negb (simulatePayment random)); [left; auto|].
  right. cbn [uuidv4]. rewrite prepare_items_spec. simpl. auto.
Qed.

Lemma processBooking_tables now random sessionId concertId selections w :
  exists bs items,
    bookings (snd (processBooking now random sessionId concertId selections w))
    = bookings w ++ bs
    /\ booking_items (snd (processBooking now random sessionId concertId selections w))
       = booking_items w ++ items
    /\ (uuid_state w
        <= uuid_state (snd (processBooking now random sessionId concertId selections w)))%nat
    /\ (forall b, In b bs ->
          BookingRow.id b = uuid_state w
          /\ BookingRow.session_id b = sessionId
          /\ BookingRow.status b = CONFIRMED
          /\ BookingRow.created_at b = now
          /\ BookingRow.confirmed_at b = Some now
          /\ (uuid_state w
              < uuid_state (snd (processBooking now random sessionId concertId selections w)))%nat)
    /\ (forall i, In i items ->
          BookingItemRow.booking_id i = uuid_state w
          /\ (uuid_state w
              < uuid_state (snd (processBooking now random sessionId concertId selections w)))%nat).
Proof.
  destruct (processBooking_state now random sessionId concertId selections w)
    as [[_ [_ ->]]|[_ [_ [_ [_ ->]]]]].
  - exists [], []. rewrite !app_nil_r.
    split; [reflexivity|]. split; [reflexivity|]. split; [lia|].
    split; intros ? [].
  - remember (set_bookings (snd (uuidv4 w))
                (bookings w
                 ++ [BookingRow.mk (uuid_state w) sessionId concertId
                       (sum_subtotals (map item_of (nonzero selections)))
                       CONFIRMED now (Some now)])) as w2 eqn:Ew2.
    destruct (record_items_frame (uuid_state w) concertId
                (map item_of (nonzero selections)) w2) as [_ [Hb Hu]].
    exists [BookingRow.mk (uuid_state w) sessionId concertId
              (sum_subtotals (map item_of (nonzero selections)))
              CONFIRMED now (Some now)],
           (item_rows (List.length (booking_items w)) (uuid_state w)
                      (map item_of (nonzero selections))).
    unfold releaseHolds.
    cbn [bookings booking_items uuid_state set_holds].
    rewrite Hb, Hu, record_items_booking_items. subst w2. simpl.
    split; [reflexivity|]. split; [reflexivity|]. split; [lia|]. split.
    + intros b [<-|[]]. simpl. repeat split. lia.
    + intros i Hi. split; [|lia].
      clear - Hi. revert Hi. generalize (List.length (booking_items w)).
      induction (map item_of (nonzero selections)) as [|x l IH]; intros n Hi;
        [destruct Hi|].
      simpl in Hi. destruct Hi as [<-|Hi]; [reflexivity|]. apply (IH _ Hi).
Qed.

(** The key and the total of every inventory row, in table order. *)
Lemma exec_inventory_keys now call w :
  map (fun r => (InventoryRow.concert_id r, InventoryRow.tier r,
                 InventoryRow.total_quantity r))
      (ticket_inventory (exec now call w))
  = map (fun r => (InventoryRow.concert_id r, InventoryRow.tier r,
                   InventoryRow.total_quantity r))
        (ticket_inventory w).
Proof.
  destruct call as [s c sels|s c last vis|s c|s| |random s c sels]; simpl;
    try reflexivity.
  - destruct (createOrUpdateHolds_tables now s c sels w) as [-> _]. reflexivity.
  - destruct (processHeartbeat_state now s c last vis w) as [->|[e ->]]; reflexivity.
  - destruct (processBooking_state now random s c sels w)
      as [[_ [_ ->]]|[_ [_ [_ [_ ->]]]]]; [reflexivity|].
    unfold releaseHolds. simpl. rewrite record_items_inventory. simpl.
    rewrite map_map. apply map_ext. intros r.
    destruct (String.eqb (InventoryRow.concert_id r) c); reflexivity.
Qed.

Lemma exec_bookings now call w :
  exists bs items,
    bookings (exec now call w) = bookings w ++ bs
    /\ booking_items (exec now call w) = booking_items w ++ items
    /\ (uuid_state w <= uuid_state (exec now call w))%nat
    /\ (forall b, In b bs ->
          BookingRow.id b = uuid_state w
          /\ BookingRow.status b = CONFIRMED
          /\ BookingRow.created_at b = now
          /\ BookingRow.confirmed_at b = Some now
          /\ (uuid_state w < uuid_state (exec now call w))%nat)
    /\ (forall i, In i items ->
          BookingItemRow.booking_id i = uuid_state w
          /\ (uuid_state w < uuid_state (exec now call w))%nat).
Proof.
  assert (Hsame : forall w', bookings w' = bookings w -> booking_items w' = booking_items w ->
             (uuid_state w <= uuid_state w')%nat ->
             exists bs items,
               bookings w' = bookings w ++ bs
               /\ booking_items w' = booking_items w ++ items
               /\ (uuid_state w <= uuid_state w')%nat
               /\ (forall b, In b bs ->
                     BookingRow.id b = uuid_state w
                     /\ BookingRow.status b = CONFIRMED
                     /\ BookingRow.created_at b = now
                     /\ BookingRow.confirmed_at b = Some now
                     /\ (uuid_state w < uuid_state w')%nat)
               /\ (forall i, In i items ->
                     BookingItemRow.booking_id i = uuid_state w
                     /\ (uuid_state w < uuid_state w')%nat)).
  { intros w' Hb Hi Hu. exists [], []. rewrite !app_nil_r.
    split; [exact Hb|]. split; [exact Hi|]. split; [exact Hu|].
    split; intros ? []. }
  destruct call as [s c sels|s c last vis|s c|s| |random s c sels]; simpl;
    try (apply Hsame; simpl; auto; fail).
  - destruct (createOrUpdateHolds_tables now s c sels w) as [_ [Hb [Hi Hu]]].
    apply Hsame; assumption.
  - destruct (processHeartbeat_state now s c last vis w) as [->|[e ->]];
      apply Hsame; simpl; auto.
  - destruct (processBooking_tables now random s c sels w)
      as [bs [items [Hb [Hi [Hu [Hbs His]]]]]].
    exists bs, items.
    split; [exact Hb|]. split; [exact Hi|]. split; [exact Hu|]. split.
    + intros b Hin. destruct (Hbs b Hin) as [H1 [_ [H3 [H4 [H5 H6]]]]]. auto.
    + exact His.
Qed.

(* ------------------------------------------------------------------ *)
(** ** Bookings and inventory rows along histories *)

(** X8.  No call deletes or rewrites a booking or a booking item: along
    any history both tables only grow at the end, every booking added is
    [CONFIRMED] with [confirmed_at] equal to [created_at], and the uuid
    generator never goes back. *)
Theorem bookings_append_only :
  forall (history : list (Z * Call)) (w : World),
    exists bs items,
      bookings (run history w) = bookings w ++ bs
      /\ booking_items (run history w) = booking_items w ++ items
      /\ (uuid_state w <= uuid_state (run history w))%nat
      /\ (forall b, In b bs ->
            BookingRow.status b = CONFIRMED
            /\ BookingRow.confirmed_at b = Some (BookingRow.created_at b)
            /\ (uuid_state w <= BookingRow.id b < uuid_state (run history w))%nat
            /\ exists call, In (BookingRow.created_at b, call) history).
Proof.
  intros history. unfold run.
  induction history as [|[t call] rest IH]; intros w; simpl.
  - exists [], []. rewrite !app_nil_r.
    split; [reflexivity|]. split; [reflexivity|]. split; [lia|]. intros ? [].
  - destruct (exec_bookings t call w) as [bs1 [is1 [Hb1 [Hi1 [Hu1 [Hbs1 _]]]]]].
    destruct (IH (exec t call w)) as [bs2 [is2 [Hb2 [Hi2 [Hu2 Hbs2]]]]].
    exists (bs1 ++ bs2), (is1 ++ is2).
    rewrite Hb2, Hi2, Hb1, Hi1, !app_assoc.
    split; [reflexivity|]. split; [reflexivity|]. split; [lia|].
    intros b Hb. apply in_app_or in Hb. destruct Hb as [Hb|Hb].
    + destruct (Hbs1 b Hb) as [Hid [Hst [Hcr [Hco Hlt]]]].
      split; [exact Hst|]. split; [congruence|]. split; [lia|].
      exists call. left. congruence.
    + destruct (Hbs2 b Hb) as [Hst [Hco [Hlt [call' Hc]]]].
      split; [exact Hst|]. split; [exact Hco|]. split; [lia|].
      exists call'. right. exact Hc.
Qed.

Lemma bookings_append_only_witness :
  List.length (bookings (run Scenario.purchase Scenario.seeded)) = 1%nat
  /\ (uuid_state Scenario.seeded
      <= uuid_state (run Scenario.purchase Scenario.seeded))%nat.
Proof.
  split; [reflexivity|].
  destruct (bookings_append_only Scenario.purchase Scenario.seeded)
    as [bs [items [_ [_ [H _]]]]].
  exact H.
Defined.

(** X9.  No call adds, removes, reorders or resizes an inventory row:
    along any history the table keeps its rows with their concert, tier and
    total quantity; and a history without [processBooking] leaves the whole
    table, sold quantities included, as it was. *)
Theorem inventory_rows_stable :
  forall (history : list (Z * Call)) (w : World),
    map (fun r => (InventoryRow.concert_id r, InventoryRow.tier r,
                   InventoryRow.total_quantity r))
        (ticket_inventory (run history w))
    = map (fun r => (InventoryRow.concert_id r, InventoryRow.tier r,
                     InventoryRow.total_quantity r))
          (ticket_inventory w)
    /\ (forall c t, totalQuantity (run history w) c t = totalQuantity w c t)
    /\ ((forall t call, In (t, call) history ->
           match call with ProcessBooking _ _ _ _ => False | _ => True end) ->
        ticket_inventory (run history w) = ticket_inventory w).
Proof.
  intros history w.
  assert (Hkeys : map (fun r => (InventoryRow.concert_id r, InventoryRow.tier r,
                                 InventoryRow.total_quantity r))
                      (ticket_inventory (run history w))
                  = map (fun r => (InventoryRow.concert_id r, InventoryRow.tier r,
                                   InventoryRow.total_quantity r))
                        (ticket_inventory w)).
  { unfold run. revert w. induction history as [|[t call] rest IH]; intros w; simpl;
      [reflexivity|].
    rewrite IH. apply exec_inventory_keys. }
  split; [exact Hkeys|]. split.
  - intros c t. unfold totalQuantity, select_inventory.
    revert Hkeys. generalize (ticket_inventory (run history w)).
    induction (ticket_inventory w) as [|r l IH]; intros l' Hk;
      destruct l' as [|r' l']; try discriminate Hk; [reflexivity|].
    simpl in Hk. inversion Hk as [[Hc Ht Hq Hl]].
    simpl. unfold inv_of_concert_tier at 1 3. rewrite Hc, Ht.
    destruct (String.eqb (InventoryRow.concert_id r) c
              && tier_eqb (InventoryRow.tier r) t).
    + simpl. rewrite Hq. reflexivity.
    + apply IH. exact Hl.
  - unfold run. clear Hkeys. revert w.
    induction history as [|[t call] rest IH]; intros w Hno; simpl; [reflexivity|].
    rewrite IH by (intros t' call' Hin; apply (Hno t' call'); right; exact Hin).
    specialize (Hno t call (or_introl eq_refl)).
    destruct call as [s c sels|s c last vis|s c|s| |random s c sels]; simpl;
      try reflexivity.
    + apply createOrUpdateHolds_tables.
    + destruct (processHeartbeat_state t s c last vis w) as [->|[e ->]]; reflexivity.
    + destruct Hno.
Qed.

Lemma inventory_rows_stable_witness :
  (forall t call, In (t, call) Scenario.revival ->
     match call with ProcessBooking _ _ _ _ => False | _ => True end)
  /\ ticket_inventory (run Scenario.revival Scenario.seeded)
     = ticket_inventory Scenario.seeded.
Proof.
  assert (H : forall t call, In (t, call) Scenario.revival ->
              match call with ProcessBooking _ _ _ _ => False | _ => True end).
  { intros t call Hin. simpl in Hin.
    repeat (destruct Hin as [Hin|Hin]; [inversion Hin; exact I|]). destruct Hin. }
  split; [exact H|].
  exact (proj2 (proj2 (inventory_rows_stable Scenario.revival Scenario.seeded)) H).
Defined.

(* ------------------------------------------------------------------ *)
(** ** Reading a booking back *)

Lemma item_rows_back n bookingId (items : list BookingItem.t) :
  map (fun item =>
         BookingItem.mk (BookingItemRow.tier item) (BookingItemRow.quantity item)
                        (BookingItemRow.price_per_ticket item)
                        (BookingItemRow.subtotal item))
      (item_rows n bookingId items)
  = items.
Proof.
  revert n. induction items as [|i rest IH]; intros n; simpl; [reflexivity|].
  rewrite IH. destruct i; reflexivity.
Qed.

Lemma item_rows_booking_id n bookingId (items : list BookingItem.t) i :
  In i (item_rows n bookingId items) -> BookingItemRow.booking_id i = bookingId.
Proof.
  revert n. induction items as [|x rest IH]; intros n Hi; [destruct Hi|].
  simpl in Hi. destruct Hi as [<-|Hi]; [reflexivity|]. apply (IH _ Hi).
Qed.

Lemma filter_items_app (bookingId u : Uuid) n (old : list BookingItemRow.t)
      (items : list BookingItem.t) :
  (forall i, In i old -> (BookingItemRow.booking_id i < u)%nat) ->
  filter (fun i => Nat.eqb (BookingItemRow.booking_id i) bookingId)
         (old ++ item_rows n u items)
  = if Nat.eqb u bookingId then item_rows n u items
    else filter (fun i => Nat.eqb (BookingItemRow.booking_id i) bookingId) old.
Proof.
  intros Hold. rewrite filter_app.
  destruct (Nat.eqb u bookingId) eqn:E.
  - apply Nat.eqb_eq in E. subst bookingId.
    replace (filter _ old) with (@nil BookingItemRow.t).
    + simpl. apply filter_all. intros i Hi.
      apply item_rows_booking_id in Hi. apply Nat.eqb_eq. exact Hi.
    + symmetry. clear - Hold. induction old as [|x l IH]; simpl; [reflexivity|].
      destruct (Nat.eqb (BookingItemRow.booking_id x) u) eqn:Ex.
      * apply Nat.eqb_eq in Ex. specialize (Hold x (or_introl eq_refl)). lia.
      * apply IH. intros i Hi. apply Hold. right. exact Hi.
  - replace (filter _ (item_rows n u items)) with (@nil BookingItemRow.t);
      [apply app_nil_r|].
    symmetry. clear - E. revert n. induction items as [|x l IH]; intros n; simpl;
      [reflexivity|].
    rewrite E. apply IH.
Qed.

Lemma find_booking_app (bookingId : Uuid) (old : list BookingRow.t) (row : BookingRow.t) :
  (forall b, In b old -> (BookingRow.id b < BookingRow.id row)%nat) ->
  find (fun b => Nat.eqb (BookingRow.id b) bookingId) (old ++ [row])
  = if Nat.eqb (BookingRow.id row) bookingId then Some row
    else find (fun b => Nat.eqb (BookingRow.id b) bookingId) old.
Proof.
  intros Hold. induction old as [|x l IH]; simpl.
  - destruct (Nat.eqb (BookingRow.id row) bookingId); reflexivity.
  - destruct (Nat.eqb (BookingRow.id x) bookingId) eqn:Ex.
    + apply Nat.eqb_eq in Ex. specialize (Hold x (or_introl eq_refl)).
      destruct (Nat.eqb (BookingRow.id row) bookingId) eqn:Er; [|reflexivity].
      apply Nat.eqb_eq in Er. lia.
    + apply IH. intros b Hb. apply Hold. right. exact Hb.
Qed.

(** The two tables after a booking is recorded. *)
Lemma processBooking_recorded now random sessionId concertId selections w :
  BookingResult.success (fst (processBooking now random sessionId concertId selections w))
  = true ->
  bookings (snd (processBooking now random sessionId concertId selections w))
  = bookings w
    ++ [BookingRow.mk (uuid_state w) sessionId concertId
          (sum_subtotals (map item_of (nonzero selections))) CONFIRMED now (Some now)]
  /\ booking_items (snd (processBooking now random sessionId concertId selections w))
     = booking_items w
       ++ item_rows (List.length (booking_items w)) (uuid_state w)
                    (map item_of (nonzero selections))
  /\ uuid_state (snd (processBooking now random sessionId concertId selections w))
     = S (uuid_state w).
Proof.
  intros Hs.
  destruct (processBooking_state now random sessionId concertId selections w)
    as [[Hf _]|[_ [_ [_ [_ ->]]]]]; [congruence|].
  remember (set_bookings (snd (uuidv4 w))
              (bookings w
               ++ [BookingRow.mk (uuid_state w) sessionId concertId
                     (sum_subtotals (map item_of (nonzero selections)))
                     CONFIRMED now (Some now)])) as w2 eqn:Ew2.
  destruct (record_items_frame (uuid_state w) concertId
              (map item_of (nonzero selections)) w2) as [_ [Hb Hu]].
  unfold releaseHolds. cbn [bookings booking_items uuid_state set_holds].
  rewrite Hb, Hu, record_items_booking_items. subst w2. simpl. auto.
Qed.

(** Reading back by id after a booking is recorded. *)
Lemma getBookingById_at now random sessionId concertId selections w :
  bookings_wf w ->
  BookingResult.success (fst (processBooking now random sessionId concertId selections w))
  = true ->
  getBookingById (snd (processBooking now random sessionId concertId selections w))
                 (uuid_state w)
  = Some (Booking.mk (uuid_state w) sessionId concertId
            (map item_of (nonzero selections))
            (sum_subtotals (map item_of (nonzero selections)))
            CONFIRMED now (Some now))
  /\ (forall bookingId, bookingId <> uuid_state w ->
        getBookingById (snd (processBooking now random sessionId concertId selections w))
                       bookingId
        = getBookingById w bookingId).
Proof.
  intros [Hwb Hwi] Hs.
  destruct (processBooking_recorded now random sessionId concertId selections w Hs)
    as [Hbs [His _]].
  assert (Hfresh : forall b, In b (bookings w) ->
             (BookingRow.id b
              < BookingRow.id
                  (BookingRow.mk (uuid_state w) sessionId concertId
                     (sum_subtotals (map item_of (nonzero selections)))
                     CONFIRMED now (Some now)))%nat)
    by (intros b Hin; simpl; apply Hwb; exact Hin).
  split.
  - unfold getBookingById. rewrite Hbs, His.
    rewrite (find_booking_app _ _ _ Hfresh). simpl. rewrite Nat.eqb_refl.
    unfold rowToBooking. simpl.
    rewrite (filter_items_app _ _ _ _ _ Hwi), Nat.eqb_refl, item_rows_back.
    reflexivity.
  - intros bookingId Hne. unfold getBookingById. rewrite Hbs, His.
    rewrite (find_booking_app _ _ _ Hfresh). simpl.
    destruct (Nat.eqb (uuid_state w) bookingId) eqn:E;
      [apply Nat.eqb_eq in E; congruence|].
    destruct (find _ (bookings w)) as [b|] eqn:Ef; [|reflexivity].
    rewrite (filter_items_app _ _ _ _ _ Hwi), E. reflexivity.
Qed.

(** X10.  A booking that [processBooking] returns can be read back: in the
    state the call leaves, [getBookingById] with the booking's id returns
    that very booking, items included, and every other id reads as before
    the call.  Before the call the id read as no booking, and the booking
    belongs to the calling session. *)
Theorem getBookingById_round_trip :
  forall (now : Z) (random : Q) (sessionId concertId : string)
         (selections : list TicketSelection.t) (w : World) (booking : Booking.t),
    bookings_wf w ->
    BookingResult.booking (fst (processBooking now random sessionId concertId selections w))
    = Some booking ->
    getBookingById (snd (processBooking now random sessionId concertId selections w))
                   (Booking.id booking)
    = Some booking
    /\ (forall bookingId, bookingId <> Booking.id booking ->
          getBookingById (snd (processBooking now random sessionId concertId selections w))
                         bookingId
          = getBookingById w bookingId)
    /\ getBookingById w (Booking.id booking) = None
    /\ Booking.sessionId booking = sessionId.
Proof.
  intros now random sessionId concertId selections w booking Hwf Hbk.
  destruct (processBooking_state now random sessionId concertId selections w)
    as [[_ [Hn _]]|[Hs [_ [_ [Hb _]]]]]; [congruence|].
  rewrite Hb in Hbk. inversion Hbk as [Hbooking]. clear Hbk. simpl.
  destruct (getBookingById_at now random sessionId concertId selections w Hwf Hs)
    as [Hnew Hold].
  split; [exact Hnew|]. split; [exact Hold|]. split; [|reflexivity].
  unfold getBookingById.
  destruct (find _ (bookings w)) as [b|] eqn:E; [|reflexivity].
  apply find_some in E. destruct E as [Hin E]. apply Nat.eqb_eq in E.
  destruct Hwf as [Hwb _]. specialize (Hwb b Hin). lia.
Qed.

Lemma getBookingById_round_trip_witness :
  bookings_wf Scenario.a_holds_vip
  /\ getBookingById
       (snd (processBooking 1000 (1 # 2) "A" "good-luck" [Scenario.sel VIP 2]
               Scenario.a_holds_vip)) 1%nat
     = Some (Booking.mk 1%nat "A" "good-luck" [BookingItem.mk VIP 2 10000 20000] 20000
                        CONFIRMED 1000 (Some 1000)).
Proof.
  assert (Hwf : bookings_wf Scenario.a_holds_vip) by (split; intros ? []).
  split; [exact Hwf|].
  exact (proj1 (getBookingById_round_trip 1000 (1 # 2) "A" "good-luck"
                  [Scenario.sel VIP 2] Scenario.a_holds_vip
                  (Booking.mk 1%nat "A" "good-luck" [BookingItem.mk VIP 2 10000 20000]
                              20000 CONFIRMED 1000 (Some 1000))
                  Hwf eq_refl)).
Defined.

(* ------------------------------------------------------------------ *)
(** ** Bookings in reachable states *)

Lemma exec_bookings_wf now call w : bookings_wf w -> bookings_wf (exec now call w).
Proof.
  intros [Hb Hi].
  destruct (exec_bookings now call w) as [bs [items [Eb [Ei [Hu [Hbs His]]]]]].
  split.
  - intros b Hin. rewrite Eb in Hin. apply in_app_or in Hin. destruct Hin as [Hin|Hin].
    + specialize (Hb b Hin). lia.
    + destruct (Hbs b Hin) as [-> [_ [_ [_ Hlt]]]]. exact Hlt.
  - intros i Hin. rewrite Ei in Hin. apply in_app_or in Hin. destruct Hin as [Hin|Hin].
    + specialize (Hi i Hin). lia.
    + destruct (His i Hin) as [-> Hlt]. exact Hlt.
Qed.

Lemma reachable_bookings_wf concerts history : bookings_wf (run history (seed concerts)).
Proof.
  assert (H : forall w, bookings_wf w -> bookings_wf (run history w)).
  { unfold run. induction history as [|[t call] rest IH]; intros w Hw; simpl;
      [exact Hw|].
    apply IH. apply exec_bookings_wf. exact Hw. }
  apply H. split; intros ? [].
Qed.

(** The booking row [b] is consistent with its items in [w]. *)
Lemma sum_subtotals_item_of (selections : list TicketSelection.t) :
  forall item, In item (map item_of (nonzero selections)) ->
    BookingItem.quantity item <> 0
    /\ BookingItem.pricePerTicket item
       = TicketTierInfo.price (TICKET_TIERS (BookingItem.tier item))
    /\ BookingItem.subtotal item
       = BookingItem.pricePerTicket item * BookingItem.quantity item.
Proof.
  intros item Hin. apply in_map_iff in Hin. destruct Hin as [s [<- Hs]].
  unfold nonzero in Hs. apply filter_In in Hs. destruct Hs as [_ Hs].
  apply negb_true_iff, Z.eqb_neq in Hs. simpl. auto.
Qed.

(** X11.  In every state reachable from a seeded database, every booking
    row reads back as a booking of the same id whose amount is the sum of
    the subtotals of its items, each item being for a non-zero quantity at
    the configured price of its tier with subtotal = price * quantity; and
    no two booking rows share an id. *)
Theorem bookings_consistent :
  forall (concerts : list SeedConcert.t) (history : list (Z * Call)) (b : BookingRow.t),
    In b (bookings (run history (seed concerts))) ->
    NoDup (map BookingRow.id (bookings (run history (seed concerts))))
    /\ exists booking,
         getBookingById (run history (seed concerts)) (BookingRow.id b) = Some booking
         /\ Booking.id booking = BookingRow.id b
         /\ Booking.sessionId booking = BookingRow.session_id b
         /\ Booking.status booking = CONFIRMED
         /\ Booking.totalAmount booking = sum_subtotals (Booking.items booking)
         /\ forall item, In item (Booking.items booking) ->
              BookingItem.quantity item <> 0
              /\ BookingItem.pricePerTicket item
                 = TicketTierInfo.price (TICKET_TIERS (BookingItem.tier item))
              /\ BookingItem.subtotal item
                 = BookingItem.pricePerTicket item * BookingItem.quantity item.
Proof.
  intros concerts history.
  set (good := fun w : World =>
         bookings_wf w
         /\ NoDup (map BookingRow.id (bookings w))
         /\ forall b, In b (bookings w) ->
              exists booking,
                getBookingById w (BookingRow.id b) = Some booking
                /\ Booking.id booking = BookingRow.id b
                /\ Booking.sessionId booking = BookingRow.session_id b
                /\ Booking.status booking = CONFIRMED
                /\ Booking.totalAmount booking = sum_subtotals (Booking.items booking)
                /\ forall item, In item (Booking.items booking) ->
                     BookingItem.quantity item <> 0
                     /\ BookingItem.pricePerTicket item
                        = TicketTierInfo.price (TICKET_TIERS (BookingItem.tier item))
                     /\ BookingItem.subtotal item
                        = BookingItem.pricePerTicket item * BookingItem.quantity item).
  assert (Hstep : forall now call w, good w -> good (exec now call w)).
  { intros now call w [Hwf [Hnd Hall]].
    split; [apply exec_bookings_wf; exact Hwf|].
    assert (Hsame : forall w', bookings w' = bookings w ->
               booking_items w' = booking_items w ->
               NoDup (map BookingRow.id (bookings w'))
               /\ forall b, In b (bookings w') ->
                    exists booking,
                      getBookingById w' (BookingRow.id b) = Some booking
                      /\ Booking.id booking = BookingRow.id b
                      /\ Booking.sessionId booking = BookingRow.session_id b
                      /\ Booking.status booking = CONFIRMED
                      /\ Booking.totalAmount booking = sum_subtotals (Booking.items booking)
                      /\ forall item, In item (Booking.items booking) ->
                           BookingItem.quantity item <> 0
                           /\ BookingItem.pricePerTicket item
                              = TicketTierInfo.price (TICKET_TIERS (BookingItem.tier item))
                           /\ BookingItem.subtotal item
                              = BookingItem.pricePerTicket item * BookingItem.quantity item).
    { intros w' Eb Ei. unfold getBookingById. rewrite Eb, Ei. split; [exact Hnd|].
      exact Hall. }
    destruct call as [s c sels|s c last vis|s c|s| |random s c sels];
      cbn [exec].
    - destruct (createOrUpdateHolds_tables now s c sels w) as [_ [Eb [Ei _]]].
      apply Hsame; assumption.
    - destruct (processHeartbeat_state now s c last vis w) as [->|[e ->]];
        apply Hsame; reflexivity.
    - apply Hsame; reflexivity.
    - apply Hsame; reflexivity.
    - apply Hsame; reflexivity.
    - destruct (processBooking_state now random s c sels w)
        as [[_ [_ ->]]|[Hs [_ [_ [Hbk _]]]]]; [apply Hsame; reflexivity|].
      destruct (processBooking_recorded now random s c sels w Hs) as [Hbs [His _]].
      destruct Hwf as [Hwb Hwi].
      destruct (getBookingById_at now random s c sels w) as [Hnew Hold];
        [split; assumption|exact Hs|].
      split.
      + rewrite Hbs, map_app. simpl. apply NoDup_app; [exact Hnd|repeat constructor; auto|].
        intros x Hx [<-|[]]. apply in_map_iff in Hx. destruct Hx as [b [Hb Hin]].
        specialize (Hwb b Hin). lia.
      + intros b Hin. rewrite Hbs in Hin. apply in_app_or in Hin.
        destruct Hin as [Hin|[<-|[]]].
        * rewrite Hold by (specialize (Hwb b Hin); simpl; lia).
          apply Hall. exact Hin.
        * simpl. eexists. split; [exact Hnew|]. simpl.
          repeat (split; [reflexivity|]). apply sum_subtotals_item_of. }
  assert (Hrun : forall w, good w -> good (run history w)).
  { unfold run. induction history as [|[t call] rest IH]; intros w Hw; simpl;
      [exact Hw|].
    apply IH. apply Hstep. exact Hw. }
  assert (Hseed : good (seed concerts)).
  { split; [split; intros ? []|]. split; [constructor|]. intros ? []. }
  intros b Hb. destruct (Hrun _ Hseed) as [_ [Hnd Hall]].
  split; [exact Hnd|]. apply Hall. exact Hb.
Qed.

Lemma bookings_consistent_witness :
  In (BookingRow.mk 1%nat "A" "good-luck" 20000 CONFIRMED 1000 (Some 1000))
     (bookings (run [(0, CreateOrUpdateHolds "A" "good-luck" [Scenario.sel VIP 2]);
                     (1000, ProcessBooking (1 # 2) "A" "good-luck" [Scenario.sel VIP 2])]
                    (seed [Scenario.concert])))
  /\ NoDup (map BookingRow.id
              (bookings (run [(0, CreateOrUpdateHolds "A" "good-luck" [Scenario.sel VIP 2]);
                              (1000, ProcessBooking (1 # 2) "A" "good-luck"
                                       [Scenario.sel VIP 2])]
                             (seed [Scenario.concert])))).
Proof.
  assert (H : In (BookingRow.mk 1%nat "A" "good-luck" 20000 CONFIRMED 1000 (Some 1000))
     (bookings (run [(0, CreateOrUpdateHolds "A" "good-luck" [Scenario.sel VIP 2]);
                     (1000, ProcessBooking (1 # 2) "A" "good-luck" [Scenario.sel VIP 2])]
                    (seed [Scenario.concert])))) by (left; reflexivity).
  split; [exact H|].
  exact (proj1 (bookings_consistent _ _ _ H)).
Defined.

(* ------------------------------------------------------------------ *)
(** ** The hold table after one iteration of [createOrUpdateHolds] *)

Lemma holds_iteration_holds now expiresAt sessionId concertId acc selection :
  (TicketSelection.quantity selection = 0
   /\ holds (lp_world (holds_iteration now expiresAt sessionId concertId acc selection))
      = filter (fun h => negb (of_session_concert_tier sessionId concertId
                                 (TicketSelection.tier selection) h))
               (holds (lp_world acc)))
  \/ (TicketSelection.quantity selection <> 0
      /\ lp_world (holds_iteration now expiresAt sessionId concertId acc selection)
         = lp_world acc)
  \/ (TicketSelection.quantity selection <> 0
      /\ exists existing,
           find (of_session_concert_tier sessionId concertId
                   (TicketSelection.tier selection)) (holds (lp_world acc))
           = Some existing
           /\ (TicketSelection.quantity selection - HoldRow.quantity existing <= 0
               \/ TicketSelection.quantity selection - HoldRow.quantity existing
                  <= getAvailableQuantity now (lp_world acc) concertId
                       (TicketSelection.tier selection))
           /\ holds (lp_world (holds_iteration now expiresAt sessionId concertId
                                 acc selection))
              = map (fun h =>
                       if Nat.eqb (HoldRow.id h) (HoldRow.id existing)
                       then HoldRow.mk (HoldRow.id h) (HoldRow.session_id h)
                                       (HoldRow.concert_id h) (HoldRow.tier h)
                                       (TicketSelection.quantity selection)
                                       (HoldRow.created_at h) expiresAt now
                       else h)
                    (holds (lp_world acc)))
  \/ (TicketSelection.quantity selection <> 0
      /\ find (of_session_concert_tier sessionId concertId
                 (TicketSelection.tier selection)) (holds (lp_world acc))
         = None
      /\ (TicketSelection.quantity selection <= 0
          \/ TicketSelection.quantity selection
             <= getAvailableQuantity now (lp_world acc) concertId
                  (TicketSelection.tier selection))
      /\ holds (lp_world (holds_iteration now expiresAt sessionId concertId acc selection))
         = holds (lp_world acc)
           ++ [HoldRow.mk (uuid_state (lp_world acc)) sessionId concertId
                 (TicketSelection.tier selection) (TicketSelection.quantity selection)
                 now expiresAt now]).
Proof.
  unfold holds_iteration.
  destruct (TicketSelection.quantity selection =? 0) eqn:E0.
  { left. apply Z.eqb_eq in E0. simpl. auto. }
  apply Z.eqb_neq in E0. right.
  destruct (find _ (holds (lp_world acc))) as [existing|] eqn:Ef.
  - destruct (_ && _) eqn:Et.
    + left. simpl. auto.
    + right. left. split; [exact E0|]. exists existing. split; [reflexivity|].
      split; [|reflexivity].
      apply andb_false_iff in Et. destruct Et as [Et|Et].
      * left. destruct (Z.gtb_spec (TicketSelection.quantity selection
                                    - HoldRow.quantity existing) 0); [discriminate|lia].
      * right.
        destruct (Z.gtb_spec (TicketSelection.quantity selection
                              - HoldRow.quantity existing)
                             (getAvailableQuantity now (lp_world acc) concertId
                                (TicketSelection.tier selection)));
          [discriminate|lia].
  - destruct (_ && _) eqn:Et.
    + left. simpl. auto.
    + right. right. split; [exact E0|]. split; [reflexivity|].
      split; [|reflexivity].
      apply andb_false_iff in Et. destruct Et as [Et|Et].
      * left. destruct (Z.gtb_spec (TicketSelection.quantity selection - 0) 0);
          [discriminate|lia].
      * right.
        destruct (Z.gtb_spec (TicketSelection.quantity selection - 0)
                             (getAvailableQuantity now (lp_world acc) concertId
                                (TicketSelection.tier selection)));
          [discriminate|lia].
Qed.

Lemma processBooking_holds now random sessionId concertId selections w :
  holds (snd (processBooking now random sessionId concertId selections w)) = holds w
  \/ holds (snd (processBooking now random sessionId concertId selections w))
     = filter (fun h => negb (of_session_concert sessionId concertId h)) (holds w).
Proof.
  destruct (processBooking_state now random sessionId concertId selections w)
    as [[_ [_ ->]]|[_ [_ [_ [_ ->]]]]]; [left; reflexivity|].
  right. unfold releaseHolds. cbn [holds set_holds].
  destruct (record_items_frame (uuid_state w) concertId (map item_of (nonzero selections))
              (set_bookings (snd (uuidv4 w))
                 (bookings w
                  ++ [BookingRow.mk (uuid_state w) sessionId concertId
                        (sum_subtotals (map item_of (nonzero selections)))
                        CONFIRMED now (Some now)])))
    as [-> _].
  reflexivity.
Qed.

(* ------------------------------------------------------------------ *)
(** ** Hold quantities along histories *)

Section Bounds.

(** A bound on quantities that an update or insert of a non-zero,
    non-negative, capped quantity respects. *)
Variable ok : Z -> Prop.
Hypothesis ok_selected :
  forall q, q <> 0 -> 0 <= q -> q <= LIMITS.MAX_TICKETS_PER_TIER -> ok q.

Local Abbreviation all_ok w := (forall h, In h (holds w) -> ok (HoldRow.quantity h)).

Lemma holds_iteration_ok now expiresAt sessionId concertId acc selection :
  0 <= TicketSelection.quantity selection <= LIMITS.MAX_TICKETS_PER_TIER ->
  all_ok (lp_world acc) ->
  all_ok (lp_world (holds_iteration now expiresAt sessionId concertId acc selection)).
Proof.
  intros Hq Hb h Hh.
  destruct (holds_iteration_holds now expiresAt sessionId concertId acc selection)
    as [[_ E]|[[_ E]|[[Hnz [existing [_ [_ E]]]]|[Hnz [_ [_ E]]]]]];
    rewrite E in Hh.
  - apply filter_In in Hh. apply Hb. apply Hh.
  - apply Hb. exact Hh.
  - apply in_map_iff in Hh. destruct Hh as [h0 [Eh Hh0]].
    destruct (Nat.eqb (HoldRow.id h0) (HoldRow.id existing)).
    + subst h. simpl. apply ok_selected; lia.
    + subst h. apply Hb. exact Hh0.
  - apply in_app_or in Hh. destruct Hh as [Hh|[<-|[]]].
    + apply Hb. exact Hh.
    + simpl. apply ok_selected; lia.
Qed.

Lemma exec_ok now call w :
  well_formed_call call -> all_ok w -> all_ok (exec now call w).
Proof.
  intros Hcall Hb.
  destruct call as [s c sels|s c last vis|s c|s| |random s c sels]; cbn [exec].
  - destruct (createOrUpdateHolds_state now s c sels w) as [->|[Hq [_ ->]]];
      [exact Hb|].
    simpl in Hcall.
    assert (Hloop : forall acc, all_ok (lp_world acc) ->
               all_ok
                 (lp_world
                    (fold_left (holds_iteration now (now + HOLD_CONFIG.holdDurationMs) s c)
                               sels acc))).
    { clear Hb. induction sels as [|x rest IH]; intros acc Hacc; simpl; [exact Hacc|].
      apply IH.
      - intros y Hy. apply Hcall. right. exact Hy.
      - intros y Hy. apply Hq. right. exact Hy.
      - apply holds_iteration_ok; [|exact Hacc].
        split; [apply Hcall|apply Hq]; left; reflexivity. }
    apply Hloop. exact Hb.
  - destruct (processHeartbeat_state now s c last vis w) as [->|[e ->]]; [exact Hb|].
    intros h Hh. simpl in Hh. unfold update_expiry in Hh.
    apply in_map_iff in Hh. destruct Hh as [h0 [Eh Hh0]].
    destruct (of_session_concert s c h0); subst h; [simpl|]; apply Hb; exact Hh0.
  - intros h Hh. simpl in Hh. apply filter_In in Hh. apply Hb. apply Hh.
  - intros h Hh. simpl in Hh. apply filter_In in Hh. apply Hb. apply Hh.
  - intros h Hh. simpl in Hh. apply filter_In in Hh. apply Hb. apply Hh.
  - intros h Hh.
    destruct (processBooking_holds now random s c sels w) as [E|E]; rewrite E in Hh.
    + apply Hb. exact Hh.
    + apply filter_In in Hh. apply Hb. apply Hh.
Qed.

End Bounds.

Lemma exec_quantities_bounded now call w :
  well_formed_call call -> quantities_bounded w -> quantities_bounded (exec now call w).
Proof.
  intros Hcall Hb.
  refine (exec_ok (fun q => 0 < q <= LIMITS.MAX_TICKETS_PER_TIER) _ now call w Hcall Hb).
  intros q H0 H1 H2. lia.
Qed.

Lemma exec_quantities_nonneg now call w :
  well_formed_call call ->
  (forall h, In h (holds w) -> 0 <= HoldRow.quantity h) ->
  forall h, In h (holds (exec now call w)) -> 0 <= HoldRow.quantity h.
Proof.
  intros Hcall Hb.
  refine (exec_ok (fun q => 0 <= q) _ now call w Hcall Hb).
  intros q H0 H1 H2. lia.
Qed.



(* ------------------------------------------------------------------ *)
(** ** Sold quantities along histories *)

Lemma inventory_wf_keys w w' :
  map (fun r => (InventoryRow.concert_id r, InventoryRow.tier r,
                 InventoryRow.total_quantity r)) (ticket_inventory w')
  = map (fun r => (InventoryRow.concert_id r, InventoryRow.tier r,
                   InventoryRow.total_quantity r)) (ticket_inventory w) ->
  inventory_wf w -> inventory_wf w'.
Proof.
  unfold inventory_wf. intros Hk Hwf.
  assert (E : forall l : list InventoryRow.t,
             map (fun r => (InventoryRow.concert_id r, InventoryRow.tier r)) l
             = map fst (map (fun r => (InventoryRow.concert_id r, InventoryRow.tier r,
                                       InventoryRow.total_quantity r)) l)).
  { intros l. rewrite map_map. reflexivity. }
  rewrite E, Hk, <- E. exact Hwf.
Qed.

Lemma exec_inventory_wf now call w : inventory_wf w -> inventory_wf (exec now call w).
Proof. apply inventory_wf_keys. apply exec_inventory_keys. Qed.

Lemma seed_inventory_wf concerts :
  NoDup (map SeedConcert.id concerts) -> inventory_wf (seed concerts).
Proof.
  unfold inventory_wf, seed. simpl.
  induction concerts as [|x rest IH]; intros Hnd; simpl; [constructor|].
  simpl in Hnd. inversion Hnd as [|? ? Hx Hrest]; subst.
  assert (Hfresh : forall tier,
             ~ In (SeedConcert.id x, tier)
                  (map (fun r => (InventoryRow.concert_id r, InventoryRow.tier r))
                       (flat_map
                          (fun concert =>
                             map (fun tier =>
                                    InventoryRow.mk (SeedConcert.id concert) tier
                                      (SeedConcert.inventory concert tier) 0)
                                 [VIP; FRONT_ROW; GA]) rest))).
  { intros tier Hin. apply in_map_iff in Hin. destruct Hin as [r [Hr Hin]].
    apply in_flat_map in Hin. destruct Hin as [y [Hy Hin]].
    apply Hx. apply in_map_iff. exists y. split; [|exact Hy].
    simpl in Hin.
    destruct Hin as [<-|[<-|[<-|[]]]]; simpl in Hr; congruence. }
  repeat constructor; simpl.
  - intros [H|[H|H]]; try discriminate H. exact (Hfresh VIP H).
  - intros [H|H]; try discriminate H. exact (Hfresh FRONT_ROW H).
  - exact (Hfresh GA).
  - apply IH. exact Hrest.
Qed.

(** What selections of distinct tiers buy of one tier: nothing, or what
    the one selection of that tier asks for. *)
Lemma purchased_quantity_distinct (selections : list TicketSelection.t) tier :
  NoDup (map TicketSelection.tier selections) ->
  purchased_quantity selections tier = 0
  \/ exists s, In s selections /\ TicketSelection.tier s = tier
               /\ TicketSelection.quantity s <> 0
               /\ purchased_quantity selections tier = TicketSelection.quantity s.
Proof.
  induction selections as [|x rest IH]; intros Hnd; simpl; [left; reflexivity|].
  simpl in Hnd. inversion Hnd as [|? ? Hx Hrest]; subst.
  destruct (tier_eqb (TicketSelection.tier x) tier) eqn:E.
  - apply tier_eqb_eq in E.
    assert (Hzero : purchased_quantity rest tier = 0).
    { destruct (IH Hrest) as [H|[s [Hin [Ht _]]]]; [exact H|].
      exfalso. apply Hx. apply in_map_iff. exists s. split; [congruence|exact Hin]. }
    rewrite Hzero.
    destruct (Z.eq_dec (TicketSelection.quantity x) 0) as [Hq|Hq].
    + left. lia.
    + right. exists x. split; [left; reflexivity|]. split; [exact E|].
      split; [exact Hq|]. lia.
  - destruct (IH Hrest) as [H|[s [Hin H]]]; [left; exact H|].
    right. exists s. split; [right; exact Hin|exact H].
Qed.

Lemma purchased_quantity_nonneg (selections : list TicketSelection.t) tier :
  (forall s, In s selections -> 0 <= TicketSelection.quantity s) ->
  0 <= purchased_quantity selections tier.
Proof.
  induction selections as [|x rest IH]; intros Hq; simpl; [lia|].
  assert (0 <= purchased_quantity rest tier)
    by (apply IH; intros s Hs; apply Hq; right; exact Hs).
  specialize (Hq x (or_introl eq_refl)).
  destruct (tier_eqb (TicketSelection.tier x) tier); lia.
Qed.

(** The inventory table after a booking is recorded. *)
Lemma processBooking_inventory now random sessionId concertId selections w :
  BookingResult.success (fst (processBooking now random sessionId concertId selections w))
  = true ->
  ticket_inventory (snd (processBooking now random sessionId concertId selections w))
  = map (fun r => if String.eqb (InventoryRow.concert_id r) concertId
                  then sell (purchased_quantity selections (InventoryRow.tier r)) r
                  else r)
        (ticket_inventory w).
Proof.
  intros Hs.
  destruct (processBooking_state now random sessionId concertId selections w)
    as [[Hf _]|[_ [_ [_ [_ ->]]]]]; [congruence|].
  unfold releaseHolds. cbn [ticket_inventory set_holds].
  rewrite record_items_inventory. simpl. apply map_ext. intros r.
  rewrite items_quantity_of_selections. reflexivity.
Qed.

(** The inventory double-check leaves room, in the one row of its tier,
    for what a selection asks. *)
Lemma verify_inventory_room w concertId (selections : list TicketSelection.t) s r :
  inventory_wf w ->
  verify_inventory w concertId selections = None ->
  In s selections -> TicketSelection.quantity s <> 0 ->
  In r (ticket_inventory w) ->
  InventoryRow.concert_id r = concertId -> InventoryRow.tier r = TicketSelection.tier s ->
  InventoryRow.sold_quantity r + TicketSelection.quantity s
  <= InventoryRow.total_quantity r.
Proof.
  intros Hwf Hv Hs Hq Hr Hc Ht.
  pose proof (verify_inventory_passes w concertId selections Hv s Hs) as Hpass.
  pose proof (select_inventory_unique w r Hwf Hr) as Hsel. rewrite Hc, Ht in Hsel.
  destruct (Z_lt_le_dec (InventoryRow.total_quantity r - InventoryRow.sold_quantity r)
                        (TicketSelection.quantity s)) as [Hlt|Hle]; [|lia].
  exfalso. apply Hpass. split; [exact Hq|]. right. exists r. split; assumption.
Qed.

Lemma exec_sold_within_total now call w :
  well_formed_call call -> inventory_wf w ->
  sold_within_total w -> sold_within_total (exec now call w).
Proof.
  intros Hcall Hwf Hsold.
  destruct call as [s c sels|s c last vis|s c|s| |random s c sels]; cbn [exec];
    try exact Hsold.
  - unfold sold_within_total.
    destruct (createOrUpdateHolds_tables now s c sels w) as [-> _]. exact Hsold.
  - destruct (processHeartbeat_state now s c last vis w) as [->|[e ->]]; exact Hsold.
  - destruct (processBooking_state now random s c sels w)
      as [[_ [_ ->]]|[Hs [_ [Hv _]]]]; [exact Hsold|].
    intros r' Hr'. rewrite (processBooking_inventory now random s c sels w Hs) in Hr'.
    apply in_map_iff in Hr'. destruct Hr' as [r [<- Hr]].
    specialize (Hsold r Hr).
    destruct (String.eqb (InventoryRow.concert_id r) c) eqn:Ec; [|exact Hsold].
    apply String.eqb_eq in Ec. simpl. destruct Hcall as [Hnn Hnd].
    pose proof (purchased_quantity_nonneg sels (InventoryRow.tier r) Hnn) as Hp.
    destruct (purchased_quantity_distinct sels (InventoryRow.tier r) Hnd)
      as [E|[x [Hx [Ht [Hq E]]]]]; rewrite E in *; [lia|].
    pose proof (verify_inventory_room w c sels x r Hwf Hv Hx Hq Hr Ec (eq_sym Ht)).
    lia.
Qed.

(** X13.  Along any history of well-formed calls, started from a database
    seeded with distinct concerts and non-negative totals, no inventory row
    has more sold than its total, or a negative sold quantity; and the key
    (concert, tier) of the inventory table stays unique. *)
Theorem sold_never_exceeds_total :
  forall (concerts : list SeedConcert.t) (history : list (Z * Call)),
    NoDup (map SeedConcert.id concerts) ->
    (forall concert tier, In concert concerts -> 0 <= SeedConcert.inventory concert tier) ->
    (forall t call, In (t, call) history -> well_formed_call call) ->
    sold_within_total (run history (seed concerts))
    /\ inventory_wf (run history (seed concerts)).
Proof.
  intros concerts history Hnd Hpos.
  assert (H : forall w,
             (forall t call, In (t, call) history -> well_formed_call call) ->
             inventory_wf w /\ sold_within_total w ->
             sold_within_total (run history w) /\ inventory_wf (run history w)).
  { unfold run. induction history as [|[t call] rest IH]; intros w Hcalls [Hwf Hs]; simpl;
      [split; assumption|].
    apply IH.
    - intros t' call' Hin. apply (Hcalls t' call'). right. exact Hin.
    - split; [apply exec_inventory_wf; exact Hwf|].
      apply exec_sold_within_total; try assumption.
      apply (Hcalls t call). left. reflexivity. }
  intros Hcalls. apply H; [exact Hcalls|]. split; [apply seed_inventory_wf; exact Hnd|].
  intros r Hr. unfold seed in Hr. simpl in Hr.
  apply in_flat_map in Hr. destruct Hr as [x [Hx Hr]].
  simpl in Hr. destruct Hr as [<-|[<-|[<-|[]]]]; simpl;
    (split; [lia|apply Hpos; exact Hx]).
Qed.

(* ------------------------------------------------------------------ *)
(** ** The inventory invariant, step by step *)

Lemma sum_quantity_nonneg (hs : list HoldRow.t) :
  (forall h, In h hs -> 0 <= HoldRow.quantity h) -> 0 <= sum_quantity hs.
Proof.
  induction hs as [|h hs IH]; intros Hq; simpl; [lia|].
  assert (0 <= sum_quantity hs) by (apply IH; intros x Hx; apply Hq; right; exact Hx).
  specialize (Hq h (or_introl eq_refl)). lia.
Qed.

Lemma sum_quantity_filter_le (p : HoldRow.t -> bool) (hs : list HoldRow.t) :
  (forall h, In h hs -> 0 <= HoldRow.quantity h) ->
  sum_quantity (filter p hs) <= sum_quantity hs.
Proof.
  induction hs as [|h hs IH]; intros Hq; simpl; [lia|].
  assert (sum_quantity (filter p hs) <= sum_quantity hs)
    by (apply IH; intros x Hx; apply Hq; right; exact Hx).
  specialize (Hq h (or_introl eq_refl)).
  destruct (p h); simpl; lia.
Qed.

Lemma sum_quantity_In_le (h : HoldRow.t) (hs : list HoldRow.t) :
  (forall x, In x hs -> 0 <= HoldRow.quantity x) ->
  In h hs -> HoldRow.quantity h <= sum_quantity hs.
Proof.
  induction hs as [|x hs IH]; intros Hq Hin; [destruct Hin|].
  simpl.
  assert (Hrest : forall y, In y hs -> 0 <= HoldRow.quantity y)
    by (intros y Hy; apply Hq; right; exact Hy).
  pose proof (sum_quantity_nonneg hs Hrest).
  destruct Hin as [->|Hin]; [lia|].
  specialize (IH Hrest Hin). specialize (Hq x (or_introl eq_refl)). lia.
Qed.

(** An [UPDATE] that lowers, row by row, what each row counts for under
    [p] lowers the sum. *)
Lemma sum_quantity_map_le (p : HoldRow.t -> bool) (g : HoldRow.t -> HoldRow.t)
      (hs : list HoldRow.t) :
  (forall h, In h hs ->
     (if p (g h) then HoldRow.quantity (g h) else 0)
     <= (if p h then HoldRow.quantity h else 0)) ->
  sum_quantity (filter p (map g hs)) <= sum_quantity (filter p hs).
Proof.
  induction hs as [|h hs IH]; intros Hw; [simpl; lia|].
  assert (sum_quantity (filter p (map g hs)) <= sum_quantity (filter p hs))
    by (apply IH; intros x Hx; apply Hw; right; exact Hx).
  specialize (Hw h (or_introl eq_refl)).
  cbn [map]. rewrite !sum_quantity_filter_cons. lia.
Qed.

(** An [UPDATE ... WHERE id = ?] changes the sum under [p] by what the one
    row of that id counts for, before and after. *)
Lemma sum_quantity_replace (p : HoldRow.t -> bool) (existing : HoldRow.t)
      (upd : HoldRow.t -> HoldRow.t) (hs : list HoldRow.t) :
  NoDup (map HoldRow.id hs) -> In existing hs ->
  sum_quantity
    (filter p (map (fun h => if Nat.eqb (HoldRow.id h) (HoldRow.id existing)
                             then upd h else h) hs))
  = sum_quantity (filter p hs)
    - (if p existing then HoldRow.quantity existing else 0)
    + (if p (upd existing) then HoldRow.quantity (upd existing) else 0).
Proof.
  induction hs as [|h hs IH]; intros Hnd Hin; [destruct Hin|].
  simpl in Hnd. inversion Hnd as [|? ? Hh Hrest]; subst.
  cbn [map]. rewrite !sum_quantity_filter_cons.
  destruct (Nat.eqb (HoldRow.id h) (HoldRow.id existing)) eqn:E.
  - apply Nat.eqb_eq in E.
    assert (h = existing).
    { destruct Hin as [Hin|Hin]; [exact Hin|].
      exfalso. apply Hh. rewrite E. apply in_map. exact Hin. }
    subst h.
    assert (Hsame : map (fun h => if Nat.eqb (HoldRow.id h) (HoldRow.id existing)
                                  then upd h else h) hs = hs).
    { rewrite <- (map_id hs) at 2. apply map_ext_in. intros x Hx.
      destruct (Nat.eqb (HoldRow.id x) (HoldRow.id existing)) eqn:Ex; [|reflexivity].
      apply Nat.eqb_eq in Ex. exfalso. apply Hh. rewrite <- Ex. apply in_map. exact Hx. }
    rewrite Hsame. lia.
  - destruct Hin as [->|Hin]; [rewrite Nat.eqb_refl in E; discriminate E|].
    rewrite (IH Hrest Hin). lia.
Qed.

Lemma heldQuantity_filter_le now w w' (p : HoldRow.t -> bool) concertId tier :
  (forall h, In h (holds w) -> 0 <= HoldRow.quantity h) ->
  holds w' = filter p (holds w) ->
  heldQuantity now w' concertId tier <= heldQuantity now w concertId tier.
Proof.
  intros Hq E. unfold heldQuantity. rewrite E.
  assert (Hcomm : forall (a b : HoldRow.t -> bool) (l : list HoldRow.t),
             filter a (filter b l) = filter b (filter a l)).
  { intros a b l. induction l as [|x l IH]; simpl; [reflexivity|].
    destruct (a x) eqn:Ea, (b x) eqn:Eb; simpl; rewrite ?Ea, ?Eb, IH; reflexivity. }
  rewrite Hcomm. apply sum_quantity_filter_le.
  intros h Hh. apply filter_In in Hh. apply Hq. apply Hh.
Qed.

(** The held quantity only shrinks as time passes. *)
Lemma heldQuantity_later now now' w concertId tier :
  (forall h, In h (holds w) -> 0 <= HoldRow.quantity h) ->
  now <= now' ->
  heldQuantity now' w concertId tier <= heldQuantity now w concertId tier.
Proof.
  intros Hq Hle. unfold heldQuantity.
  rewrite <- (filter_filter_sub
                (fun h => of_concert_tier concertId tier h && not_expired now' h)
                (fun h => of_concert_tier concertId tier h && not_expired now h)).
  - apply sum_quantity_filter_le. intros h Hh. apply filter_In in Hh. apply Hq. apply Hh.
  - intros h Hh. apply andb_true_iff in Hh. destruct Hh as [H1 H2].
    rewrite H1. simpl. apply (not_expired_mono now now'); assumption.
Qed.

(** The query counts every hold that has not expired yet, and more. *)
Lemma unexpired_quantity_le_held now w concertId tier :
  (forall h, In h (holds w) -> 0 <= HoldRow.quantity h) ->
  unexpired_quantity now w concertId tier <= heldQuantity now w concertId tier.
Proof.
  intros Hq. unfold unexpired_quantity, heldQuantity.
  rewrite <- (filter_filter_sub
                (fun h => of_concert_tier concertId tier h
                          && (now <? HoldRow.expires_at h))
                (fun h => of_concert_tier concertId tier h && not_expired now h)).
  - apply sum_quantity_filter_le. intros h Hh. apply filter_In in Hh. apply Hq. apply Hh.
  - intros h Hh. apply andb_true_iff in Hh. destruct Hh as [H1 H2].
    rewrite H1. simpl. apply not_expired_ahead. apply Z.ltb_lt in H2. lia.
Qed.

Lemma inventory_invariant_later now now' w :
  (forall h, In h (holds w) -> 0 <= HoldRow.quantity h) ->
  now <= now' -> inventory_invariant now w -> inventory_invariant now' w.
Proof.
  intros Hq Hle Hinv r Hr. destruct (Hinv r Hr) as [H1 H2]. split; [exact H1|].
  pose proof (heldQuantity_later now now' w (InventoryRow.concert_id r)
                (InventoryRow.tier r) Hq Hle).
  lia.
Qed.

(** Deleting hold rows keeps the invariant. *)
Lemma inventory_invariant_filter now w w' (p : HoldRow.t -> bool) :
  (forall h, In h (holds w) -> 0 <= HoldRow.quantity h) ->
  ticket_inventory w' = ticket_inventory w ->
  holds w' = filter p (holds w) ->
  inventory_invariant now w -> inventory_invariant now w'.
Proof.
  intros Hq Ei Eh Hinv r Hr. rewrite Ei in Hr. destruct (Hinv r Hr) as [H1 H2].
  split; [exact H1|].
  pose proof (heldQuantity_filter_le now w w' p (InventoryRow.concert_id r)
                (InventoryRow.tier r) Hq Eh).
  lia.
Qed.

(** A hold that has just been granted or refreshed reads as not expired. *)
Lemma holdDuration_later now (h : HoldRow.t) :
  HoldRow.expires_at h = now + HOLD_CONFIG.holdDurationMs -> not_expired now h = true.
Proof.
  intros E. apply not_expired_ahead. rewrite E.
  unfold HOLD_CONFIG.holdDurationMs. lia.
Qed.

Section Step.

Variables (now : Z) (sessionId concertId : string).

(** What the loop of [createOrUpdateHolds] keeps, iteration by
    iteration, when the session comes without a row for the concert that
    reads as expired. *)
Local Abbreviation kept w :=
  (holds_wf w /\ inventory_wf w
   /\ (forall h, In h (holds w) -> 0 <= HoldRow.quantity h)
   /\ (forall h, In h (holds w) -> HoldRow.session_id h = sessionId ->
         HoldRow.concert_id h = concertId -> not_expired now h = true)
   /\ inventory_invariant now w).

Lemma holds_iteration_kept acc selection :
  0 <= TicketSelection.quantity selection <= LIMITS.MAX_TICKETS_PER_TIER ->
  kept (lp_world acc) ->
  kept (lp_world (holds_iteration now (now + HOLD_CONFIG.holdDurationMs)
                    sessionId concertId acc selection)).
Proof.
  intros Hq [Hwf [Hiwf [Hnn [Hfresh Hinv]]]].
  pose proof (holds_iteration_tables now (now + HOLD_CONFIG.holdDurationMs)
                sessionId concertId acc selection) as [Einv _].
  split; [apply holds_iteration_wf; exact Hwf|].
  split; [unfold inventory_wf; rewrite Einv; exact Hiwf|].
  split.
  { refine (holds_iteration_ok (fun q => 0 <= q) _ now _ sessionId concertId acc
              selection Hq Hnn).
    intros; lia. }
  destruct (holds_iteration_holds now (now + HOLD_CONFIG.holdDurationMs)
              sessionId concertId acc selection)
    as [[_ E]|[[_ E]|[[Hnz [existing [Ef [Hroom E]]]]|[Hnz [Ef [Hroom E]]]]]].
  - (* quantity 0: the row is deleted *)
    split.
    + intros h Hh. rewrite E in Hh. apply filter_In in Hh. apply Hfresh. apply Hh.
    + apply (inventory_invariant_filter now (lp_world acc) _ _ Hnn Einv E Hinv).
  - (* rejected *)
    rewrite E. split; assumption.
  - (* the existing row is updated *)
    destruct (find_some _ _ Ef) as [Hin Hkey].
    apply of_session_concert_tier_spec in Hkey. destruct Hkey as [Hs [Hc Ht]].
    split.
    + intros h Hh. rewrite E in Hh. apply in_map_iff in Hh.
      destruct Hh as [h0 [Eh Hh0]].
      destruct (Nat.eqb (HoldRow.id h0) (HoldRow.id existing)).
      * subst h. intros _ _. apply holdDuration_later. reflexivity.
      * subst h. apply Hfresh. exact Hh0.
    + intros r Hr. rewrite Einv in Hr. destruct (Hinv r Hr) as [H1 H2].
      split; [exact H1|].
      unfold heldQuantity in *. rewrite E.
      rewrite (sum_quantity_replace _ existing _ (holds (lp_world acc)))
        by (try apply Hwf; exact Hin).
      cbv beta.
      set (h' := HoldRow.mk (HoldRow.id existing) (HoldRow.session_id existing)
                   (HoldRow.concert_id existing) (HoldRow.tier existing)
                   (TicketSelection.quantity selection) (HoldRow.created_at existing)
                   (now + HOLD_CONFIG.holdDurationMs) now).
      assert (Hn1 : not_expired now existing = true)
        by (apply Hfresh; assumption).
      assert (Hn2 : not_expired now h' = true)
        by (apply holdDuration_later; reflexivity).
      assert (Hk' : of_concert_tier (InventoryRow.concert_id r) (InventoryRow.tier r) h'
                    = of_concert_tier (InventoryRow.concert_id r) (InventoryRow.tier r)
                        existing) by reflexivity.
      rewrite Hn1, Hn2, Hk', !andb_true_r.
      change (HoldRow.quantity h') with (TicketSelection.quantity selection).
      destruct (of_concert_tier (InventoryRow.concert_id r) (InventoryRow.tier r) existing)
        eqn:Ek; [|lia].
      unfold of_concert_tier in Ek.
      apply andb_true_iff in Ek. destruct Ek as [Ek1 Ek2].
      apply String.eqb_eq in Ek1. apply tier_eqb_eq in Ek2.
      pose proof (select_inventory_unique (lp_world acc) r Hiwf Hr) as Hsel.
      unfold getAvailableQuantity in Hroom.
      rewrite <- Ek1, <- Ek2, Hc, Ht in Hsel. rewrite Hsel in Hroom.
      unfold heldQuantity in Hroom.
      rewrite <- Ek1, <- Ek2, Hc, Ht in H2 |- *.
      destruct Hroom; lia.
  - (* a new row is inserted *)
    split.
    + intros h Hh. rewrite E in Hh. apply in_app_or in Hh.
      destruct Hh as [Hh|[<-|[]]]; [apply Hfresh; exact Hh|].
      intros _ _. apply holdDuration_later. reflexivity.
    + intros r Hr. rewrite Einv in Hr. destruct (Hinv r Hr) as [H1 H2].
      split; [exact H1|].
      unfold heldQuantity in *. rewrite E, filter_app, sum_quantity_app.
      set (row := HoldRow.mk (uuid_state (lp_world acc)) sessionId concertId
                    (TicketSelection.tier selection) (TicketSelection.quantity selection)
                    now (now + HOLD_CONFIG.holdDurationMs) now).
      cbn [filter].
      assert (Hn2 : not_expired now row = true)
        by (apply holdDuration_later; reflexivity).
      rewrite Hn2, andb_true_r.
      destruct (of_concert_tier (InventoryRow.concert_id r) (InventoryRow.tier r) row)
        eqn:Ek; cbn [sum_quantity fold_right]; [|lia].
      change (HoldRow.quantity row) with (TicketSelection.quantity selection).
      unfold of_concert_tier in Ek. cbn [row HoldRow.concert_id HoldRow.tier] in Ek.
      apply andb_true_iff in Ek. destruct Ek as [Ek1 Ek2].
      apply String.eqb_eq in Ek1. apply tier_eqb_eq in Ek2.
      pose proof (select_inventory_unique (lp_world acc) r Hiwf Hr) as Hsel.
      unfold getAvailableQuantity in Hroom.
      rewrite <- Ek1, <- Ek2 in Hsel. rewrite Hsel in Hroom.
      unfold heldQuantity in Hroom.
      rewrite <- Ek1, <- Ek2 in H2 |- *.
      destruct Hroom; lia.
Qed.

Lemma createOrUpdateHolds_kept selections w :
  (forall s, In s selections -> 0 <= TicketSelection.quantity s) ->
  kept w -> kept (snd (createOrUpdateHolds now sessionId concertId selections w)).
Proof.
  intros Hnn Hk.
  destruct (createOrUpdateHolds_state now sessionId concertId selections w)
    as [->|[Hq [_ ->]]]; [exact Hk|].
  assert (Hloop : forall acc, kept (lp_world acc) ->
             kept (lp_world
                     (fold_left
                        (holds_iteration now (now + HOLD_CONFIG.holdDurationMs)
                                         sessionId concertId)
                        selections acc))).
  { clear Hk. induction selections as [|x rest IH]; intros acc Hacc; [exact Hacc|].
    cbn [fold_left]. apply IH.
    - intros y Hy. apply Hnn. right. exact Hy.
    - intros y Hy. apply Hq. right. exact Hy.
    - apply holds_iteration_kept; [|exact Hacc].
      split; [apply Hnn|apply Hq]; left; reflexivity. }
  apply Hloop. exact Hk.
Qed.

Lemma processHeartbeat_kept lastActivityAt isTabVisible w :
  (forall h, In h (holds w) -> 0 <= HoldRow.quantity h) ->
  (forall h, In h (holds w) -> HoldRow.session_id h = sessionId ->
     HoldRow.concert_id h = concertId -> not_expired now h = true) ->
  inventory_invariant now w ->
  inventory_invariant now
    (snd (processHeartbeat now sessionId concertId lastActivityAt isTabVisible w)).
Proof.
  intros Hnn Hfresh Hinv.
  destruct (processHeartbeat_state now sessionId concertId lastActivityAt isTabVisible w)
    as [->|[e ->]]; [exact Hinv|].
  intros r Hr. cbn [ticket_inventory set_holds] in Hr.
  destruct (Hinv r Hr) as [H1 H2]. split; [exact H1|].
  assert (heldQuantity now
            (set_holds w (update_expiry sessionId concertId e now (holds w)))
            (InventoryRow.concert_id r) (InventoryRow.tier r)
          <= heldQuantity now w (InventoryRow.concert_id r) (InventoryRow.tier r));
    [|lia].
  unfold heldQuantity. cbn [holds set_holds]. unfold update_expiry.
  apply sum_quantity_map_le. intros h Hh.
  destruct (of_session_concert sessionId concertId h) eqn:Ek.
  - apply of_session_concert_spec in Ek. destruct Ek as [Es Ec].
    pose proof (Hfresh h Hh Es Ec) as Hact.
    unfold of_concert_tier.
    cbn [HoldRow.concert_id HoldRow.tier HoldRow.quantity].
    rewrite Hact. specialize (Hnn h Hh).
    destruct (String.eqb (HoldRow.concert_id h) (InventoryRow.concert_id r)
              && tier_eqb (HoldRow.tier h) (InventoryRow.tier r));
      match goal with
      | |- context [not_expired now ?x] => destruct (not_expired now x)
      end; cbn [andb]; lia.
  - lia.
Qed.

Lemma processBooking_kept random selections w :
  holds_wf w -> inventory_wf w ->
  (forall h, In h (holds w) -> 0 <= HoldRow.quantity h) ->
  (forall s, In s selections -> 0 <= TicketSelection.quantity s) ->
  NoDup (map TicketSelection.tier selections) ->
  inventory_invariant now w ->
  inventory_invariant now
    (snd (processBooking now random sessionId concertId selections w)).
Proof.
  intros Hwf Hiwf Hnn Hsel Hnd Hinv.
  destruct (processBooking_state now random sessionId concertId selections w)
    as [[_ [_ ->]]|[Hs [Hvh [Hvi _]]]]; [exact Hinv|].
  assert (Eh : holds (snd (processBooking now random sessionId concertId selections w))
               = filter (fun h => negb (of_session_concert sessionId concertId h))
                        (holds w)).
  { destruct (processBooking_holds now random sessionId concertId selections w)
      as [E|E]; [|exact E].
    destruct (processBooking_state now random sessionId concertId selections w)
      as [[Hf _]|[_ [_ [_ [_ E']]]]]; [congruence|].
    rewrite E'. unfold releaseHolds. cbn [holds set_holds].
    destruct (record_items_frame (uuid_state w) concertId
                (map item_of (nonzero selections))
                (set_bookings (snd (uuidv4 w))
                   (bookings w
                    ++ [BookingRow.mk (uuid_state w) sessionId concertId
                          (sum_subtotals (map item_of (nonzero selections)))
                          CONFIRMED now (Some now)])))
      as [-> _].
    reflexivity. }
  intros r' Hr'.
  rewrite (processBooking_inventory now random sessionId concertId selections w Hs) in Hr'.
  apply in_map_iff in Hr'. destruct Hr' as [r [<- Hr]].
  destruct (Hinv r Hr) as [H1 H2].
  destruct (String.eqb (InventoryRow.concert_id r) concertId) eqn:Ec.
  - apply String.eqb_eq in Ec. cbn [sell InventoryRow.concert_id InventoryRow.tier
                                    InventoryRow.sold_quantity InventoryRow.total_quantity].
    pose proof (purchased_quantity_nonneg selections (InventoryRow.tier r) Hsel) as Hp.
    (* what the session held, unexpired, of the tier *)
    assert (Hheld :
              heldQuantity now
                (snd (processBooking now random sessionId concertId selections w))
                (InventoryRow.concert_id r) (InventoryRow.tier r)
              = heldQuantity now w (InventoryRow.concert_id r) (InventoryRow.tier r)
                - sum_quantity
                    (filter (fun h => of_session_concert sessionId concertId h
                                      && (of_concert_tier (InventoryRow.concert_id r)
                                            (InventoryRow.tier r) h
                                          && not_expired now h))
                            (holds w))).
    { unfold heldQuantity. rewrite Eh. apply sum_quantity_delete. }
    rewrite Hheld.
    assert (Hown : forall h, In h (filter (fun h => of_session_concert sessionId concertId h
                                      && (of_concert_tier (InventoryRow.concert_id r)
                                            (InventoryRow.tier r) h
                                          && not_expired now h))
                            (holds w)) -> 0 <= HoldRow.quantity h)
      by (intros h Hh; apply filter_In in Hh; apply Hnn; apply Hh).
    pose proof (sum_quantity_nonneg _ Hown) as Hsum.
    destruct (purchased_quantity_distinct selections (InventoryRow.tier r) Hnd)
      as [E|[x [Hx [Ht [Hq E]]]]]; rewrite E in *; [lia|].
    pose proof (verify_inventory_room w concertId selections x r Hiwf Hvi Hx Hq Hr Ec
                  (eq_sym Ht)) as Hroom.
    (* the hold that the first loop found for the selection *)
    assert (Hhold : exists hold,
               holdsByTier (getHoldsForConcert now w sessionId concertId)
                           (TicketSelection.tier x) = Some hold
               /\ TicketSelection.quantity x <= HoldRow.quantity hold).
    { clear - Hvh Hx Hq. induction selections as [|y rest IH]; [destruct Hx|].
      simpl in Hvh.
      destruct (TicketSelection.quantity y =? 0) eqn:E0.
      - destruct Hx as [->|Hx]; [apply Z.eqb_eq in E0; contradiction|].
        apply IH; assumption.
      - destruct (holdsByTier (getHoldsForConcert now w sessionId concertId)
                              (TicketSelection.tier y)) as [hold|] eqn:Eb;
          [|discriminate Hvh].
        destruct (HoldRow.quantity hold <? TicketSelection.quantity y) eqn:El;
          [discriminate Hvh|].
        destruct Hx as [->|Hx]; [|apply IH; assumption].
        exists hold. split; [exact Eb|]. apply Z.ltb_ge in El. exact El. }
    destruct Hhold as [hold [Hb Hge]].
    apply (holdsByTier_Some now w sessionId concertId _ hold Hwf) in Hb.
    destruct Hb as [Hin [Hhs [Hhc [Hht Hact]]]].
    assert (Hmem : In hold (filter (fun h => of_session_concert sessionId concertId h
                                      && (of_concert_tier (InventoryRow.concert_id r)
                                            (InventoryRow.tier r) h
                                          && not_expired now h))
                            (holds w))).
    { apply filter_In. split; [exact Hin|].
      rewrite !andb_true_iff. split; [apply of_session_concert_spec; auto|].
      split; [|exact Hact].
      unfold of_concert_tier. rewrite andb_true_iff, String.eqb_eq, tier_eqb_eq.
      split; congruence. }
    pose proof (sum_quantity_In_le hold _ Hown Hmem). lia.
  - split; [exact H1|].
    pose proof (heldQuantity_filter_le now w _ _ (InventoryRow.concert_id r)
                  (InventoryRow.tier r) Hnn Eh).
    lia.
Qed.

End Step.

Lemma sold_never_exceeds_total_witness :
  NoDup (map SeedConcert.id [Scenario.concert])
  /\ (forall t call, In (t, call) Scenario.purchase -> well_formed_call call)
  /\ soldQuantity (run Scenario.purchase (seed [Scenario.concert])) "good-luck" VIP = Some 2
  /\ sold_within_total (run Scenario.purchase (seed [Scenario.concert])).
Proof.
  assert (Hnd : NoDup (map SeedConcert.id [Scenario.concert]))
    by (repeat constructor; intros []).
  assert (Hpos : forall concert tier, In concert [Scenario.concert] ->
                   0 <= SeedConcert.inventory concert tier).
  { intros concert tier [<-|[]]. destruct tier; simpl; lia. }
  assert (Hcalls : forall t call, In (t, call) Scenario.purchase -> well_formed_call call).
  { intros t call [Hin|[Hin|[]]]; inversion Hin; subst; simpl.
    - intros s [<-|[]]; simpl; lia.
    - split; [intros s [<-|[]]; simpl; lia|]. repeat constructor. intros []. }
  split; [exact Hnd|]. split; [exact Hcalls|]. split; [reflexivity|].
  exact (proj1 (sold_never_exceeds_total [Scenario.concert] Scenario.purchase
                  Hnd Hpos Hcalls)).
Defined.

(* ------------------------------------------------------------------ *)
(** ** Holds and their inventory rows *)

Lemma select_inventory_keys w w' concertId tier :
  map (fun r => (InventoryRow.concert_id r, InventoryRow.tier r,
                 InventoryRow.total_quantity r)) (ticket_inventory w')
  = map (fun r => (InventoryRow.concert_id r, InventoryRow.tier r,
                   InventoryRow.total_quantity r)) (ticket_inventory w) ->
  select_inventory w concertId tier <> None ->
  select_inventory w' concertId tier <> None.
Proof.
  unfold select_inventory. generalize (ticket_inventory w').
  induction (ticket_inventory w) as [|r l IH]; intros l' Hk Hsel;
    destruct l' as [|r' l']; try discriminate Hk; [exact Hsel|].
  simpl in Hk. inversion Hk as [[Hc Ht Hq Hl]].
  simpl in *. unfold inv_of_concert_tier in *. rewrite Hc, Ht.
  destruct (String.eqb (InventoryRow.concert_id r) concertId
            && tier_eqb (InventoryRow.tier r) tier); [discriminate|].
  apply IH; assumption.
Qed.

Lemma holds_iteration_rows now expiresAt sessionId concertId acc selection :
  0 <= TicketSelection.quantity selection ->
  holds_have_inventory (lp_world acc) ->
  holds_have_inventory
    (lp_world (holds_iteration now expiresAt sessionId concertId acc selection)).
Proof.
  intros Hq Hrows h Hh.
  pose proof (holds_iteration_tables now expiresAt sessionId concertId acc selection)
    as [Einv _].
  unfold select_inventory. rewrite Einv. fold (select_inventory (lp_world acc)
                                                (HoldRow.concert_id h) (HoldRow.tier h)).
  destruct (holds_iteration_holds now expiresAt sessionId concertId acc selection)
    as [[_ E]|[[_ E]|[[Hnz [existing [_ [_ E]]]]|[Hnz [_ [Hroom E]]]]]];
    rewrite E in Hh.
  - apply filter_In in Hh. apply Hrows. apply Hh.
  - apply Hrows. exact Hh.
  - apply in_map_iff in Hh. destruct Hh as [h0 [Eh Hh0]].
    destruct (Nat.eqb (HoldRow.id h0) (HoldRow.id existing)); subst h;
      [simpl|]; apply Hrows; exact Hh0.
  - apply in_app_or in Hh. destruct Hh as [Hh|[<-|[]]]; [apply Hrows; exact Hh|].
    simpl. intros Hnone. unfold getAvailableQuantity in Hroom.
    rewrite Hnone in Hroom. lia.
Qed.

Lemma exec_rows now call w :
  well_formed_call call -> holds_have_inventory w ->
  holds_have_inventory (exec now call w).
Proof.
  intros Hcall Hrows.
  assert (Hsub : forall w',
             map (fun r => (InventoryRow.concert_id r, InventoryRow.tier r,
                            InventoryRow.total_quantity r)) (ticket_inventory w')
             = map (fun r => (InventoryRow.concert_id r, InventoryRow.tier r,
                              InventoryRow.total_quantity r)) (ticket_inventory w) ->
             (forall h, In h (holds w') ->
                exists h0, In h0 (holds w)
                           /\ HoldRow.concert_id h = HoldRow.concert_id h0
                           /\ HoldRow.tier h = HoldRow.tier h0) ->
             holds_have_inventory w').
  { intros w' Hk Hin h Hh. destruct (Hin h Hh) as [h0 [Hh0 [-> ->]]].
    apply (select_inventory_keys w w' _ _ Hk). apply Hrows. exact Hh0. }
  pose proof (exec_inventory_keys now call w) as Hkeys.
  destruct call as [s c sels|s c last vis|s c|s| |random s c sels]; cbn [exec] in *.
  - destruct (createOrUpdateHolds_state now s c sels w) as [->|[_ [_ ->]]];
      [exact Hrows|].
    simpl in Hcall. clear Hkeys Hsub.
    assert (Hloop : forall acc, holds_have_inventory (lp_world acc) ->
               holds_have_inventory
                 (lp_world
                    (fold_left (holds_iteration now (now + HOLD_CONFIG.holdDurationMs) s c)
                               sels acc))).
    { clear Hrows. induction sels as [|x rest IH]; intros acc Hacc; simpl; [exact Hacc|].
      apply IH.
      - intros y Hy. apply Hcall. right. exact Hy.
      - apply holds_iteration_rows; [|exact Hacc]. apply Hcall. left. reflexivity. }
    apply Hloop. exact Hrows.
  - apply Hsub; [exact Hkeys|].
    destruct (processHeartbeat_state now s c last vis w) as [->|[e ->]];
      intros h Hh; [eauto|].
    simpl in Hh. unfold update_expiry in Hh. apply in_map_iff in Hh.
    destruct Hh as [h0 [Eh Hh0]]. exists h0. split; [exact Hh0|].
    destruct (of_session_concert s c h0); subst h; auto.
  - apply Hsub; [exact Hkeys|]. intros h Hh. simpl in Hh. apply filter_In in Hh.
    exists h. intuition.
  - apply Hsub; [exact Hkeys|]. intros h Hh. simpl in Hh. apply filter_In in Hh.
    exists h. intuition.
  - apply Hsub; [exact Hkeys|]. intros h Hh. simpl in Hh. apply filter_In in Hh.
    exists h. intuition.
  - apply Hsub; [exact Hkeys|]. intros h Hh.
    destruct (processBooking_holds now random s c sels w) as [E|E]; rewrite E in Hh.
    + eauto.
    + apply filter_In in Hh. exists h. intuition.
Qed.

(* ------------------------------------------------------------------ *)
(** ** The inventory invariant holds where no expired row is revived *)

Lemma quantities_bounded_nonneg w :
  quantities_bounded w -> forall h, In h (holds w) -> 0 <= HoldRow.quantity h.
Proof. intros Hb h Hh. specialize (Hb h Hh). lia. Qed.

Lemma exec_invariant now call w :
  holds_wf w -> inventory_wf w ->
  (forall h, In h (holds w) -> 0 <= HoldRow.quantity h) ->
  well_formed_call call -> caller_fresh now call w ->
  inventory_invariant now w -> inventory_invariant now (exec now call w).
Proof.
  intros Hwf Hiwf Hnn Hcall Hfresh Hinv.
  destruct call as [s c sels|s c last vis|s c|s| |random s c sels]; cbn [exec].
  - simpl in Hcall, Hfresh.
    apply (createOrUpdateHolds_kept now s c sels w Hcall). auto.
  - simpl in Hfresh. apply processHeartbeat_kept; assumption.
  - apply (inventory_invariant_filter now w _
             (fun h => negb (of_session_concert s c h)) Hnn); auto.
  - apply (inventory_invariant_filter now w _
             (fun h => negb (String.eqb (HoldRow.session_id h) s)) Hnn); auto.
  - apply (inventory_invariant_filter now w _
             (fun h => negb (expired now h)) Hnn); auto.
  - destruct Hcall as [Hq Hnd]. apply processBooking_kept; assumption.
Qed.

Lemma exec_sound now call w :
  well_formed_call call -> caller_fresh now call w ->
  sound now w -> sound now (exec now call w).
Proof.
  intros Hcall Hfresh [Hwf Hiwf Hb Hrows Hinv]. constructor.
  - apply exec_wf. exact Hwf.
  - apply exec_inventory_wf. exact Hiwf.
  - apply exec_quantities_bounded; assumption.
  - apply exec_rows; assumption.
  - apply exec_invariant; try assumption. apply quantities_bounded_nonneg. exact Hb.
Qed.

Lemma sound_later now now' w : now <= now' -> sound now w -> sound now' w.
Proof.
  intros Hle [Hwf Hiwf Hb Hrows Hinv]. constructor; try assumption.
  apply (inventory_invariant_later now now' w); try assumption.
  apply quantities_bounded_nonneg. exact Hb.
Qed.

Lemma seed_sound concerts now :
  NoDup (map SeedConcert.id concerts) ->
  (forall concert tier, In concert concerts -> 0 <= SeedConcert.inventory concert tier) ->
  sound now (seed concerts).
Proof.
  intros Hnd Hpos. constructor.
  - apply seed_wf.
  - apply seed_inventory_wf. exact Hnd.
  - intros h [].
  - intros h [].
  - intros r Hr. unfold heldQuantity. cbn [holds seed filter sum_quantity fold_right].
    unfold seed in Hr. simpl in Hr.
    apply in_flat_map in Hr. destruct Hr as [x [Hx Hr]].
    pose proof (Hpos x VIP Hx). pose proof (Hpos x FRONT_ROW Hx).
    pose proof (Hpos x GA Hx).
    simpl in Hr. destruct Hr as [<-|[<-|[<-|[]]]]; simpl; lia.
Qed.

Lemma sound_available now w concertId tier :
  sound now w -> 0 <= getAvailableQuantity now w concertId tier.
Proof.
  intros [_ _ _ _ Hinv]. unfold getAvailableQuantity.
  destruct (select_inventory w concertId tier) as [r|] eqn:E; [|lia].
  unfold select_inventory in E. apply find_some in E. destruct E as [Hr Hk].
  unfold inv_of_concert_tier in Hk. apply andb_true_iff in Hk. destruct Hk as [Hc Ht].
  apply String.eqb_eq in Hc. apply tier_eqb_eq in Ht.
  destruct (Hinv r Hr) as [_ H]. rewrite Hc, Ht in H. lia.
Qed.

(** X14.  The inventory invariant, with the held quantity that the
    availability query computes, is kept by every well-formed call made in
    a state with a well-formed hold table, unique inventory keys and no
    negative hold, provided that a session that calls [createOrUpdateHolds]
    or [processHeartbeat] has no row for the concert that the queries read
    as expired, that is, whose date of expiry is before the UTC date of the
    call: sold plus held stays within the total of every inventory row, at
    the instant of the call and at every later instant.  The holds whose
    expiry is after that instant are among those that the query counts, so
    that sold plus their quantities stays within the total as well. *)
Theorem exec_keeps_inventory_invariant :
  forall (now : Z) (call : Call) (w : World),
    holds_wf w -> inventory_wf w ->
    (forall h, In h (holds w) -> 0 <= HoldRow.quantity h) ->
    well_formed_call call -> caller_fresh now call w ->
    inventory_invariant now w ->
    forall now', now <= now' ->
      inventory_invariant now' (exec now call w)
      /\ forall r, In r (ticket_inventory (exec now call w)) ->
           InventoryRow.sold_quantity r
           + unexpired_quantity now' (exec now call w)
               (InventoryRow.concert_id r) (InventoryRow.tier r)
           <= InventoryRow.total_quantity r.
Proof.
  intros now call w Hwf Hiwf Hnn Hcall Hfresh Hinv now' Hle.
  assert (Hnn' : forall h, In h (holds (exec now call w)) -> 0 <= HoldRow.quantity h)
    by (apply exec_quantities_nonneg; assumption).
  assert (Hinv' : inventory_invariant now' (exec now call w)).
  { apply (inventory_invariant_later now now').
    - exact Hnn'.
    - exact Hle.
    - apply exec_invariant; assumption. }
  split; [exact Hinv'|].
  intros r Hr. destruct (Hinv' r Hr) as [_ H].
  pose proof (unexpired_quantity_le_held now' (exec now call w)
                (InventoryRow.concert_id r) (InventoryRow.tier r) Hnn').
  lia.
Qed.

Lemma exec_keeps_inventory_invariant_witness :
  caller_fresh 700000 (CreateOrUpdateHolds "A" "good-luck" [Scenario.sel VIP 1])
               Scenario.a_holds_vip
  /\ inventory_invariant 700000 Scenario.a_holds_vip
  /\ inventory_invariant 800000
       (exec 700000 (CreateOrUpdateHolds "A" "good-luck" [Scenario.sel VIP 1])
             Scenario.a_holds_vip).
Proof.
  assert (Hwf : holds_wf Scenario.a_holds_vip) by apply reachable_wf.
  assert (Hiwf : inventory_wf Scenario.a_holds_vip).
  { unfold inventory_wf. vm_compute.
    repeat constructor; simpl; intuition discriminate. }
  assert (Hnn : forall h, In h (holds Scenario.a_holds_vip) -> 0 <= HoldRow.quantity h)
    by (intros h [<-|[]]; simpl; lia).
  assert (Hcall : well_formed_call
                    (CreateOrUpdateHolds "A" "good-luck" [Scenario.sel VIP 1]))
    by (intros s [<-|[]]; simpl; lia).
  assert (Hfresh : caller_fresh 700000
                     (CreateOrUpdateHolds "A" "good-luck" [Scenario.sel VIP 1])
                     Scenario.a_holds_vip)
    by (intros h [<-|[]]; reflexivity).
  assert (Hinv : inventory_invariant 700000 Scenario.a_holds_vip).
  { intros r [<-|[<-|[<-|[]]]]; vm_compute; repeat split; discriminate. }
  split; [exact Hfresh|]. split; [exact Hinv|].
  apply (exec_keeps_inventory_invariant 700000 _ _ Hwf Hiwf Hnn Hcall Hfresh Hinv 800000).
  lia.
Defined.

(** X15.  Along a chronological history of well-formed calls in which
    the sweep runs right before every call, started from a database seeded
    with distinct concerts and non-negative totals, the state is sound at
    the instant of the last call: well-formed hold table, unique inventory
    keys, hold quantities greater than 0 and within the per-tier cap, an
    inventory row for every hold, and sold + held within the total of
    every inventory row, where held is what the availability query counts.
    No available quantity is negative there, and sold plus the quantities
    of the holds whose expiry is still ahead is within the total too.  The
    sweep deletes the rows whose date of expiry has passed, which are the
    rows that the queries read as expired. *)
Theorem swept_history_sound :
  forall (concerts : list SeedConcert.t) (history : list (Z * Call)) (t0 : Z),
    NoDup (map SeedConcert.id concerts) ->
    (forall concert tier, In concert concerts -> 0 <= SeedConcert.inventory concert tier) ->
    (forall t call, In (t, call) history -> well_formed_call call) ->
    chronological t0 history ->
    sound (last_instant t0 history) (run_swept history (seed concerts))
    /\ (forall concertId tier,
          0 <= getAvailableQuantity (last_instant t0 history)
                 (run_swept history (seed concerts)) concertId tier)
    /\ (forall r, In r (ticket_inventory (run_swept history (seed concerts))) ->
          InventoryRow.sold_quantity r
          + unexpired_quantity (last_instant t0 history)
              (run_swept history (seed concerts))
              (InventoryRow.concert_id r) (InventoryRow.tier r)
          <= InventoryRow.total_quantity r).
Proof.
  intros concerts history t0 Hnd Hpos Hcalls Hchron.
  assert (H : forall w t0,
             (forall t call, In (t, call) history -> well_formed_call call) ->
             chronological t0 history -> sound t0 w ->
             sound (last_instant t0 history) (run_swept history w)).
  { clear. unfold run_swept, last_instant.
    induction history as [|[t call] rest IH]; intros w t0 Hcalls Hchron Hs;
      [exact Hs|].
    simpl in Hchron. destruct Hchron as [Hle Hchron]. cbn [fold_left fst snd].
    apply IH.
    - intros t' call' Hin. apply (Hcalls t' call'). right. exact Hin.
    - exact Hchron.
    - assert (Hswept : sound t (exec t CleanupExpiredHolds w)).
      { apply exec_sound; [exact I|exact I|]. apply (sound_later t0 t); assumption. }
      cbn [exec] in Hswept.
      apply exec_sound; [apply (Hcalls t call); left; reflexivity| |exact Hswept].
      assert (Hnone : forall h, In h (holds (snd (cleanupExpiredHolds t w))) ->
                                not_expired t h = true).
      { intros h Hh. rewrite cleanup_holds in Hh. apply filter_In in Hh. apply Hh. }
      destruct call; simpl; auto. }
  pose proof (H (seed concerts) t0 Hcalls Hchron (seed_sound concerts t0 Hnd Hpos)) as Hs.
  split; [exact Hs|].
  split; [intros concertId tier; apply sound_available; exact Hs|].
  intros r Hr. destruct (sound_invariant _ _ Hs r Hr) as [_ Hle].
  pose proof (unexpired_quantity_le_held (last_instant t0 history)
                (run_swept history (seed concerts))
                (InventoryRow.concert_id r) (InventoryRow.tier r)
                (quantities_bounded_nonneg _ (sound_quantities _ _ Hs))).
  lia.
Qed.

Lemma swept_history_sound_witness :
  NoDup (map SeedConcert.id [Scenario.concert])
  /\ chronological 0 Scenario.revival
  /\ heldQuantity 86400001 (run_swept Scenario.revival (seed [Scenario.concert]))
       "good-luck" VIP = 2
  /\ sound 86400001 (run_swept Scenario.revival (seed [Scenario.concert])).
Proof.
  assert (Hnd : NoDup (map SeedConcert.id [Scenario.concert]))
    by (repeat constructor; intros []).
  assert (Hpos : forall concert tier, In concert [Scenario.concert] ->
                   0 <= SeedConcert.inventory concert tier).
  { intros concert tier [<-|[]]. destruct tier; simpl; lia. }
  assert (Hcalls : forall t call, In (t, call) Scenario.revival -> well_formed_call call).
  { intros t call Hin. simpl in Hin.
    repeat (destruct Hin as [Hin|Hin];
            [inversion Hin; subst; simpl;
             try (intros s [<-|[]]; simpl; lia); exact I|]).
    destruct Hin. }
  assert (Hchron : chronological 0 Scenario.revival)
    by (vm_compute; repeat split; discriminate).
  split; [exact Hnd|]. split; [exact Hchron|]. split; [reflexivity|].
  exact (proj1 (swept_history_sound [Scenario.concert] Scenario.revival 0
                  Hnd Hpos Hcalls Hchron)).
Defined.

(* ------------------------------------------------------------------ *)
(** ** The routes *)

Lemma validateSelections_nonneg (selections : list TicketSelection.t) :
  validateSelections selections = true ->
  forall s, In s selections -> 0 <= TicketSelection.quantity s.
Proof.
  unfold validateSelections. intros Hv s Hs.
  rewrite forallb_forall in Hv. specialize (Hv s Hs).
  apply negb_true_iff, Z.ltb_ge in Hv. exact Hv.
Qed.

(** The holds of a session for a concert are for distinct tiers. *)
Lemma getHoldsForConcert_tiers now w sessionId concertId :
  holds_wf w ->
  NoDup (map HoldRow.tier (getHoldsForConcert now w sessionId concertId)).
Proof.
  intros Hwf.
  assert (Hkey : forall h1 h2,
             In h1 (getHoldsForConcert now w sessionId concertId) ->
             In h2 (getHoldsForConcert now w sessionId concertId) ->
             HoldRow.tier h1 = HoldRow.tier h2 -> h1 = h2).
  { intros h1 h2 H1 H2 Ht.
    apply getHoldsForConcert_In in H1, H2.
    destruct H1 as [I1 [S1 [C1 _]]]. destruct H2 as [I2 [S2 [C2 _]]].
    apply (wf_one_per_tier w Hwf); [exact I1|exact I2|congruence ..]. }
  assert (Hnd : NoDup (getHoldsForConcert now w sessionId concertId)).
  { unfold getHoldsForConcert. rewrite map_rowToHold.
    apply (NoDup_map_inv HoldRow.id). apply hold_ids_unique_filter. apply Hwf. }
  revert Hkey Hnd. generalize (getHoldsForConcert now w sessionId concertId).
  intros l. induction l as [|h l IH]; intros Hkey Hnd; simpl; [constructor|].
  inversion Hnd as [|? ? Hh Hl]; subst. constructor.
  - intros Hin. apply in_map_iff in Hin. destruct Hin as [h' [Ht Hh']].
    assert (h' = h) by (apply Hkey; [right; exact Hh'|left; reflexivity|exact Ht]).
    subst h'. contradiction.
  - apply IH; [|exact Hl]. intros h1 h2 H1 H2. apply Hkey; right; assumption.
Qed.

(** Every event of the server leaves the state as it is or makes one
    well-formed call. *)
Lemma step_is_call now event w :
  holds_wf w -> quantities_bounded w ->
  step now event w = w
  \/ exists call, well_formed_call call /\ step now event w = exec now call w.
Proof.
  intros Hwf Hb.
  destruct event as [s [c sels|c last vis|c|c sels|random c]|]; cbn [step handle].
  - unfold postHolds. destruct c as [c|]; [|left; reflexivity].
    destruct (String.eqb c EmptyString); [left; reflexivity|].
    destruct (validateSelections sels) eqn:Ev; [|left; reflexivity].
    right. exists (CreateOrUpdateHolds s c sels). split.
    + exact (validateSelections_nonneg sels Ev).
    + cbn [negb exec].
      destruct (HoldsResult.success (fst (createOrUpdateHolds now s c sels w)));
        reflexivity.
  - right. eexists (ProcessHeartbeat s c _ _). split; [exact I|]. reflexivity.
  - right. exists (ReleaseHolds s c). split; [exact I|]. reflexivity.
  - unfold postCheckout. destruct c as [c|]; [|left; reflexivity].
    destruct (String.eqb c EmptyString); [left; reflexivity|].
    destruct (validateSelections sels) eqn:Ev; [|left; reflexivity].
    cbn [negb].
    destruct (filter (fun s => TicketSelection.quantity s >? 0) sels)
      as [|x rest] eqn:Ef; [left; reflexivity|].
    right. exists (CreateOrUpdateHolds s c (x :: rest)). split.
    + intros y Hy. rewrite <- Ef in Hy. apply filter_In in Hy.
      apply (validateSelections_nonneg sels Ev). apply Hy.
    + cbn [exec].
      destruct (HoldsResult.success (fst (createOrUpdateHolds now s c (x :: rest) w)));
        reflexivity.
  - unfold postPayment. destruct c as [c|]; [|left; reflexivity].
    destruct (String.eqb c EmptyString); [left; reflexivity|].
    destruct (getHoldsForConcert now w s c) as [|x rest] eqn:Eh; [left; reflexivity|].
    right.
    exists (ProcessBooking random s c
              (map (fun h => TicketSelection.mk (HoldRow.tier h) (HoldRow.quantity h))
                   (x :: rest))).
    split.
    + split.
      * intros y Hy. apply in_map_iff in Hy. destruct Hy as [h [<- Hh]].
        rewrite <- Eh in Hh. apply getHoldsForConcert_In in Hh.
        destruct Hh as [Hh _]. specialize (Hb h Hh). simpl. lia.
      * rewrite map_map. cbn [TicketSelection.tier]. rewrite <- Eh.
        apply getHoldsForConcert_tiers. exact Hwf.
    + cbn [exec].
      destruct (BookingResult.success (fst (processBooking now random s c _ w)));
        reflexivity.
  - right. exists CleanupExpiredHolds. split; [exact I|]. reflexivity.
Qed.

(** X16.  Whatever requests with integer quantities the sessions send and
    whenever the cleanup job ticks, the server started on a database seeded
    with distinct concerts and non-negative totals never sells more of an
    inventory row than its total; every hold is for a quantity greater
    than 0 and not greater than [MAX_TICKETS_PER_TIER], of a (concert,
    tier) that has an inventory row; a session has at most one hold row per
    concert and tier; and the inventory key stays unique.  In every state
    that the server reaches, a request or tick leaves the state as it is or
    makes one call of a service operation with non-negative quantities,
    and distinct tiers for [processBooking]. *)
Theorem server_never_oversells :
  forall (concerts : list SeedConcert.t) (history : list (Z * Event)),
    NoDup (map SeedConcert.id concerts) ->
    (forall concert tier, In concert concerts -> 0 <= SeedConcert.inventory concert tier) ->
    sold_within_total (serve history (seed concerts))
    /\ quantities_bounded (serve history (seed concerts))
    /\ holds_have_inventory (serve history (seed concerts))
    /\ holds_wf (serve history (seed concerts))
    /\ inventory_wf (serve history (seed concerts))
    /\ (forall now event,
          step now event (serve history (seed concerts))
          = serve history (seed concerts)
          \/ exists call,
               well_formed_call call
               /\ step now event (serve history (seed concerts))
                  = exec now call (serve history (seed concerts))).
Proof.
  intros concerts history Hnd Hpos.
  set (good := fun w : World =>
         sold_within_total w /\ quantities_bounded w /\ holds_have_inventory w
         /\ holds_wf w /\ inventory_wf w).
  assert (Hstep : forall now event w, good w -> good (step now event w)).
  { intros now event w [Hs [Hb [Hr [Hwf Hiwf]]]]. unfold good.
    destruct (step_is_call now event w Hwf Hb) as [->|[call [Hcall ->]]].
    - auto.
    - split; [apply exec_sold_within_total; assumption|].
      split; [apply exec_quantities_bounded; assumption|].
      split; [apply exec_rows; assumption|].
      split; [apply exec_wf; assumption|apply exec_inventory_wf; assumption]. }
  assert (Hrun : forall w, good w -> good (serve history w)).
  { unfold serve. induction history as [|[t event] rest IH]; intros w Hw; simpl;
      [exact Hw|].
    apply IH. apply Hstep. exact Hw. }
  assert (Hgood : good (serve history (seed concerts))).
  { apply Hrun. destruct (seed_sound concerts 0 Hnd Hpos) as [Hwf Hiwf Hb Hr Hinv].
    unfold good. split; [|auto].
    intros r Hr'. apply Hinv. exact Hr'. }
  destruct Hgood as [Hs [Hb [Hr [Hwf Hiwf]]]].
  repeat (split; [assumption|]).
  intros now event. apply step_is_call; assumption.
Qed.

Lemma server_never_oversells_witness :
  NoDup (map SeedConcert.id [Scenario.concert])
  /\ soldQuantity (serve Scenario.purchase_requests (seed [Scenario.concert]))
       "good-luck" VIP = Some 2
  /\ sold_within_total (serve Scenario.purchase_requests (seed [Scenario.concert])).
Proof.
  assert (Hnd : NoDup (map SeedConcert.id [Scenario.concert]))
    by (repeat constructor; intros []).
  assert (Hpos : forall concert tier, In concert [Scenario.concert] ->
                   0 <= SeedConcert.inventory concert tier).
  { intros concert tier [<-|[]]. destruct tier; simpl; lia. }
  split; [exact Hnd|]. split; [reflexivity|].
  exact (proj1 (server_never_oversells [Scenario.concert] Scenario.purchase_requests
                  Hnd Hpos)).
Defined.

(* ------------------------------------------------------------------ *)
(** ** [POST /api/bookings/payment] *)

Lemma verify_holds_None_intro byTier (selections : list TicketSelection.t) :
  (forall s, In s selections -> TicketSelection.quantity s <> 0 ->
     exists hold, byTier (TicketSelection.tier s) = Some hold
                  /\ TicketSelection.quantity s <= HoldRow.quantity hold) ->
  verify_holds byTier selections = None.
Proof.
  induction selections as [|x rest IH]; intros H; simpl; [reflexivity|].
  assert (Hrest : verify_holds byTier rest = None)
    by (apply IH; intros s Hs; apply H; right; exact Hs).
  destruct (TicketSelection.quantity x =? 0) eqn:E0; [exact Hrest|].
  apply Z.eqb_neq in E0.
  destruct (H x (or_introl eq_refl) E0) as [hold [-> Hle]].
  destruct (HoldRow.quantity hold <? TicketSelection.quantity x) eqn:El;
    [apply Z.ltb_lt in El; lia|exact Hrest].
Qed.

Lemma verify_inventory_None_intro w concertId (selections : list TicketSelection.t) :
  (forall s, In s selections -> TicketSelection.quantity s <> 0 ->
     exists inventory,
       select_inventory w concertId (TicketSelection.tier s) = Some inventory
       /\ TicketSelection.quantity s
          <= InventoryRow.total_quantity inventory - InventoryRow.sold_quantity inventory) ->
  verify_inventory w concertId selections = None.
Proof.
  induction selections as [|x rest IH]; intros H; simpl; [reflexivity|].
  assert (Hrest : verify_inventory w concertId rest = None)
    by (apply IH; intros s Hs; apply H; right; exact Hs).
  destruct (TicketSelection.quantity x =? 0) eqn:E0; [exact Hrest|].
  apply Z.eqb_neq in E0.
  destruct (H x (or_introl eq_refl) E0) as [inventory [-> Hle]].
  destruct (InventoryRow.total_quantity inventory - InventoryRow.sold_quantity inventory
            <? TicketSelection.quantity x) eqn:El;
    [apply Z.ltb_lt in El; lia|exact Hrest].
Qed.

(** What selections of distinct tiers buy of the tier of one of them. *)
Lemma purchased_quantity_In (selections : list TicketSelection.t) s :
  NoDup (map TicketSelection.tier selections) -> In s selections ->
  purchased_quantity selections (TicketSelection.tier s) = TicketSelection.quantity s.
Proof.
  induction selections as [|x rest IH]; intros Hnd Hin; [destruct Hin|].
  simpl in Hnd. inversion Hnd as [|? ? Hx Hrest]; subst. simpl.
  destruct Hin as [->|Hin].
  - rewrite tier_eqb_refl.
    destruct (purchased_quantity_distinct rest (TicketSelection.tier s) Hrest)
      as [E|[y [Hy [Ht _]]]]; [lia|].
    exfalso. apply Hx. rewrite <- Ht. apply in_map. exact Hy.
  - destruct (tier_eqb (TicketSelection.tier x) (TicketSelection.tier s)) eqn:E.
    + apply tier_eqb_eq in E. exfalso. apply Hx. rewrite E. apply in_map. exact Hin.
    + apply IH; assumption.
Qed.

(** In a sound state both checks of [processBooking] pass for the
    selections that the payment route reads off the session's holds, and
    each of them asks for something. *)
Lemma payment_checks_pass now sessionId concertId w :
  sound now w ->
  verify_holds (holdsByTier (getHoldsForConcert now w sessionId concertId))
    (map (fun h => TicketSelection.mk (HoldRow.tier h) (HoldRow.quantity h))
         (getHoldsForConcert now w sessionId concertId))
  = None
  /\ verify_inventory w concertId
       (map (fun h => TicketSelection.mk (HoldRow.tier h) (HoldRow.quantity h))
            (getHoldsForConcert now w sessionId concertId))
     = None
  /\ nonzero (map (fun h => TicketSelection.mk (HoldRow.tier h) (HoldRow.quantity h))
                  (getHoldsForConcert now w sessionId concertId))
     = map (fun h => TicketSelection.mk (HoldRow.tier h) (HoldRow.quantity h))
           (getHoldsForConcert now w sessionId concertId).
Proof.
  intros [Hwf Hiwf Hb Hrows Hinv].
  assert (Hheld : forall h, In h (getHoldsForConcert now w sessionId concertId) ->
             In h (holds w) /\ HoldRow.session_id h = sessionId
             /\ HoldRow.concert_id h = concertId /\ not_expired now h = true)
    by (intros h Hh; apply getHoldsForConcert_In; exact Hh).
  split; [|split].
  - apply verify_holds_None_intro. intros s Hs _.
    apply in_map_iff in Hs. destruct Hs as [h [<- Hh]].
    exists h. simpl. split; [|lia].
    apply (holdsByTier_Some now w sessionId concertId (HoldRow.tier h) h Hwf).
    destruct (Hheld h Hh) as [H1 [H2 [H3 H4]]]. repeat split; assumption.
  - apply verify_inventory_None_intro. intros s Hs _.
    apply in_map_iff in Hs. destruct Hs as [h [<- Hh]]. simpl.
    destruct (Hheld h Hh) as [H1 [H2 [H3 H4]]].
    pose proof (Hrows h H1) as Hrow. rewrite H3 in Hrow.
    destruct (select_inventory w concertId (HoldRow.tier h)) as [r|] eqn:Er;
      [|contradiction].
    exists r. split; [reflexivity|].
    unfold select_inventory in Er. apply find_some in Er. destruct Er as [Hr Hk].
    unfold inv_of_concert_tier in Hk. apply andb_true_iff in Hk.
    destruct Hk as [Hkc Hkt]. apply String.eqb_eq in Hkc. apply tier_eqb_eq in Hkt.
    destruct (Hinv r Hr) as [_ Hsum]. rewrite Hkc, Hkt in Hsum.
    assert (HoldRow.quantity h <= heldQuantity now w concertId (HoldRow.tier h)); [|lia].
    unfold heldQuantity. apply sum_quantity_In_le.
    + intros x Hx. apply filter_In in Hx. destruct Hx as [Hx _].
      specialize (Hb x Hx). lia.
    + apply filter_In. split; [exact H1|].
      unfold of_concert_tier. rewrite H3, String.eqb_refl, tier_eqb_refl. simpl.
      exact H4.
  - unfold nonzero. apply filter_all. intros s Hs.
    apply in_map_iff in Hs. destruct Hs as [h [<- Hh]]. simpl.
    destruct (Hheld h Hh) as [H1 _]. specialize (Hb h H1).
    apply negb_true_iff, Z.eqb_neq. lia.
Qed.

(** X17.  In a sound state, where sold plus the held quantity that the
    availability query counts is within the total of every inventory row,
    the payment route never answers 409 to a session for which
    [getHoldsForConcert] returns a hold for the concert: the hold check and
    the inventory double-check of [processBooking] pass for the selections
    that the route reads off the holds it returns, which are the holds of
    the session whose date of expiry has not passed.  When the payment succeeds the answer is
    200 with a confirmed booking of exactly the held tickets at the
    configured prices, the session's holds for the concert are gone and the
    sold quantity of each held tier has grown by the held quantity; when it
    is declined the answer is 402 with [retryAllowed] and nothing has
    changed. *)
Theorem postPayment_outcome :
  forall (now : Z) (random : Q) (sessionId concertId : string) (w : World)
         (first : Hold) (rest : list Hold),
    sound now w ->
    concertId <> EmptyString ->
    getHoldsForConcert now w sessionId concertId = first :: rest ->
    (simulatePayment random = true ->
       fst (postPayment now random sessionId (Some concertId) w)
       = Response.mk 200
           (inr (BookingResult.mk true
                   (Some (Booking.mk (uuid_state w) sessionId concertId
                            (map (fun h =>
                                    item_of (TicketSelection.mk (HoldRow.tier h)
                                                                (HoldRow.quantity h)))
                                 (first :: rest))
                            (sum_subtotals
                               (map (fun h =>
                                       item_of (TicketSelection.mk (HoldRow.tier h)
                                                                   (HoldRow.quantity h)))
                                    (first :: rest)))
                            CONFIRMED now (Some now)))
                   PaymentSuccessful None))
       /\ getHoldsForConcert now
            (snd (postPayment now random sessionId (Some concertId) w))
            sessionId concertId = []
       /\ forall h, In h (first :: rest) ->
            soldQuantity (snd (postPayment now random sessionId (Some concertId) w))
                         concertId (HoldRow.tier h)
            = option_map (fun sold => sold + HoldRow.quantity h)
                         (soldQuantity w concertId (HoldRow.tier h)))
    /\ (simulatePayment random = false ->
          postPayment now random sessionId (Some concertId) w
          = (Response.mk 402
               (inr (BookingResult.mk false None PaymentDeclined (Some true))), w)).
Proof.
  intros now random sessionId concertId w first rest Hsound Hc Eh.
  destruct Hsound as [Hwf Hiwf Hb Hrows Hinv].
  set (selections :=
         map (fun h => TicketSelection.mk (HoldRow.tier h) (HoldRow.quantity h))
             (first :: rest)).
  destruct (payment_checks_pass now sessionId concertId w
              (mk_sound now w Hwf Hiwf Hb Hrows Hinv)) as [Hvh [Hvi Hnz]].
  rewrite Eh in Hvi, Hnz. rewrite Eh in Hvh at 2.
  fold selections in Hvh, Hvi, Hnz.
  assert (Hroute : postPayment now random sessionId (Some concertId) w
                   = let result :=
                       processBooking now random sessionId concertId selections w in
                     if BookingResult.success (fst result)
                     then (Response.mk 200 (inr (fst result)), snd result)
                     else (Response.mk
                             match BookingResult.retryAllowed (fst result) with
                             | Some true => 402
                             | _ => 409
                             end (inr (fst result)), snd result)).
  { unfold postPayment.
    destruct (String.eqb concertId EmptyString) eqn:E;
      [apply String.eqb_eq in E; contradiction|].
    rewrite Eh. reflexivity. }
  split.
  - intros Hpay.
    destruct (processBooking_state now random sessionId concertId selections w)
      as [[Hf _]|[Hs [_ [_ [Hbk Hst]]]]].
    { exfalso. unfold processBooking in Hf. rewrite Hvh, Hvi, Hpay in Hf.
      cbn [negb uuidv4] in Hf. destruct (prepare_items selections). discriminate Hf. }
    assert (Hres : fst (processBooking now random sessionId concertId selections w)
                   = BookingResult.mk true
                       (Some (Booking.mk (uuid_state w) sessionId concertId
                                (map item_of selections)
                                (sum_subtotals (map item_of selections))
                                CONFIRMED now (Some now)))
                       PaymentSuccessful None).
    { unfold processBooking. rewrite Hvh, Hvi, Hpay. cbn [negb uuidv4].
      rewrite prepare_items_spec, Hnz. reflexivity. }
    rewrite Hroute. cbv zeta. rewrite Hs. cbn [fst snd].
    split; [|split].
    + rewrite Hres. unfold selections. rewrite map_map. reflexivity.
    + rewrite Hst.
      unfold getHoldsForConcert, releaseHolds. cbn [holds set_holds].
      rewrite map_rowToHold.
      induction (holds (record_items _ _ _ _)) as [|h hs IH]; simpl; [reflexivity|].
      destruct (of_session_concert sessionId concertId h) eqn:E; simpl; [exact IH|].
      rewrite E. simpl. exact IH.
    + intros h Hh. unfold soldQuantity.
      rewrite (select_inventory_after_sales w concertId (map item_of (nonzero selections))
                 concertId (HoldRow.tier h)).
      * rewrite String.eqb_refl, items_quantity_of_selections.
        assert (Hp : purchased_quantity selections (HoldRow.tier h)
                     = HoldRow.quantity h).
        { apply (purchased_quantity_In selections
                   (TicketSelection.mk (HoldRow.tier h) (HoldRow.quantity h))).
          - unfold selections. rewrite map_map. cbn [TicketSelection.tier].
            rewrite <- Eh. apply getHoldsForConcert_tiers. exact Hwf.
          - unfold selections. apply in_map_iff. exists h. split; [reflexivity|exact Hh]. }
        rewrite Hp. destruct (select_inventory w concertId (HoldRow.tier h));
          reflexivity.
      * rewrite (processBooking_inventory now random sessionId concertId selections w Hs).
        apply map_ext. intros r. rewrite items_quantity_of_selections. reflexivity.
  - intros Hpay. rewrite Hroute. cbv zeta.
    assert (Hres : processBooking now random sessionId concertId selections w
                   = (BookingResult.mk false None PaymentDeclined (Some true), w)).
    { unfold processBooking. rewrite Hvh, Hvi, Hpay. reflexivity. }
    rewrite Hres. reflexivity.
Qed.

Lemma a_holds_vip_sound now : 0 <= now -> sound now Scenario.a_holds_vip.
Proof.
  intros Hle. apply (sound_later 0 now Scenario.a_holds_vip Hle).
  change Scenario.a_holds_vip
    with (exec 0 (CreateOrUpdateHolds "A" "good-luck" [Scenario.sel VIP 2])
               (seed [Scenario.concert])).
  apply exec_sound.
  - intros s [<-|[]]; simpl; lia.
  - intros h [].
  - apply seed_sound.
    + repeat constructor; intros [].
    + intros concert tier [<-|[]]. destruct tier; simpl; lia.
Qed.

Lemma postPayment_outcome_witness :
  sound 700000 Scenario.a_holds_vip
  /\ getHoldsForConcert 700000 Scenario.a_holds_vip "A" "good-luck"
     = [HoldRow.mk 0%nat "A" "good-luck" VIP 2 0 600000 0]
  /\ simulatePayment (1 # 10) = false
  /\ Response.status (fst (postPayment 700000 (1 # 10) "A" (Some "good-luck"%string)
                             Scenario.a_holds_vip)) = 402.
Proof.
  assert (Hs : sound 700000 Scenario.a_holds_vip) by (apply a_holds_vip_sound; lia).
  split; [exact Hs|]. split; [reflexivity|]. split; [reflexivity|].
  rewrite (proj2 (postPayment_outcome 700000 (1 # 10) "A" "good-luck" Scenario.a_holds_vip
                    (HoldRow.mk 0%nat "A" "good-luck" VIP 2 0 600000 0) []
                    Hs ltac:(discriminate) eq_refl) eq_refl).
  reflexivity.
Defined.

(* ------------------------------------------------------------------ *)
(** ** [POST /api/bookings/checkout] *)

Lemma holds_iteration_results now expiresAt sessionId concertId acc selection :
  (TicketSelection.quantity selection = 0
   /\ lp_unavailable (holds_iteration now expiresAt sessionId concertId acc selection)
      = lp_unavailable acc
   /\ lp_holdResults (holds_iteration now expiresAt sessionId concertId acc selection)
      = lp_holdResults acc)
  \/ (TicketSelection.quantity selection <> 0
      /\ lp_unavailable (holds_iteration now expiresAt sessionId concertId acc selection)
         = lp_unavailable acc ++ [selection]
      /\ lp_holdResults (holds_iteration now expiresAt sessionId concertId acc selection)
         = lp_holdResults acc)
  \/ (TicketSelection.quantity selection <> 0
      /\ lp_unavailable (holds_iteration now expiresAt sessionId concertId acc selection)
         = lp_unavailable acc
      /\ exists h,
           lp_holdResults (holds_iteration now expiresAt sessionId concertId acc selection)
           = lp_holdResults acc ++ [h]
           /\ HoldRow.session_id h = sessionId /\ HoldRow.concert_id h = concertId
           /\ HoldRow.tier h = TicketSelection.tier selection
           /\ HoldRow.quantity h = TicketSelection.quantity selection
           /\ HoldRow.expires_at h = expiresAt
           /\ HoldRow.last_activity_at h = now).
Proof.
  unfold holds_iteration.
  destruct (TicketSelection.quantity selection =? 0) eqn:E0.
  { left. apply Z.eqb_eq in E0. simpl. auto. }
  apply Z.eqb_neq in E0. right.
  destruct (find _ (holds (lp_world acc))) as [existing|]; destruct (_ && _); simpl.
  - left. destruct selection; auto.
  - right. split; [exact E0|]. split; [reflexivity|]. eexists. split; [reflexivity|].
    simpl. auto 10.
  - left. destruct selection; auto.
  - right. split; [exact E0|]. split; [reflexivity|]. eexists. split; [reflexivity|].
    simpl. auto 10.
Qed.

(** Every selection of non-zero quantity gets one answer from the loop: a
    hold that expires at [expiresAt], or an entry of [unavailable]. *)
Lemma holds_loop_results now expiresAt sessionId concertId selections : forall acc,
  exists un hr,
    lp_unavailable
      (fold_left (holds_iteration now expiresAt sessionId concertId) selections acc)
    = lp_unavailable acc ++ un
    /\ lp_holdResults
         (fold_left (holds_iteration now expiresAt sessionId concertId) selections acc)
       = lp_holdResults acc ++ hr
    /\ (List.length un + List.length hr = List.length (nonzero selections))%nat
    /\ (forall x, In x un -> In x selections)
    /\ (forall h, In h hr ->
          HoldRow.session_id h = sessionId /\ HoldRow.concert_id h = concertId
          /\ HoldRow.expires_at h = expiresAt
          /\ exists s, In s selections
                       /\ HoldRow.tier h = TicketSelection.tier s
                       /\ HoldRow.quantity h = TicketSelection.quantity s).
Proof.
  induction selections as [|x rest IH]; intros acc.
  - exists [], []. simpl. rewrite !app_nil_r.
    split; [reflexivity|]. split; [reflexivity|]. split; [reflexivity|].
    split; intros ? [].
  - cbn [fold_left].
    destruct (IH (holds_iteration now expiresAt sessionId concertId acc x))
      as [un [hr [Eu [Eh [Hlen [Hun Hhr]]]]]].
    assert (Hhr' : forall h, In h hr ->
              HoldRow.session_id h = sessionId /\ HoldRow.concert_id h = concertId
              /\ HoldRow.expires_at h = expiresAt
              /\ exists s, In s (x :: rest)
                           /\ HoldRow.tier h = TicketSelection.tier s
                           /\ HoldRow.quantity h = TicketSelection.quantity s).
    { intros h Hh. destruct (Hhr h Hh) as [H1 [H2 [H3 [s [Hs H4]]]]].
      repeat (split; [assumption|]). exists s. split; [right; exact Hs|exact H4]. }
    unfold nonzero. cbn [filter]. fold (nonzero rest).
    destruct (holds_iteration_results now expiresAt sessionId concertId acc x)
      as [[E0 [E1 E2]]|[[E0 [E1 E2]]|[E0 [E1 [h [E2 Hh]]]]]].
    + exists un, hr. rewrite Eu, Eh, E1, E2.
      apply Z.eqb_eq in E0. rewrite E0. cbn [negb].
      split; [reflexivity|]. split; [reflexivity|]. split; [exact Hlen|].
      split; [|exact Hhr'].
      intros y Hy. right. apply Hun. exact Hy.
    + exists (x :: un), hr. rewrite Eu, Eh, E1, E2, <- app_assoc.
      apply Z.eqb_neq in E0. rewrite E0. cbn [negb List.length].
      split; [reflexivity|]. split; [reflexivity|]. split; [lia|].
      split; [|exact Hhr'].
      intros y [<-|Hy]; [left; reflexivity|right; apply Hun; exact Hy].
    + exists un, (h :: hr). rewrite Eu, Eh, E1, E2, <- app_assoc.
      apply Z.eqb_neq in E0. rewrite E0. cbn [negb List.length].
      split; [reflexivity|]. split; [reflexivity|]. split; [lia|].
      split; [intros y Hy; right; apply Hun; exact Hy|].
      intros h' [<-|Hh']; [|apply Hhr'; exact Hh'].
      destruct Hh as [H1 [H2 [H3 [H4 [H5 _]]]]].
      repeat (split; [assumption|]). exists x. split; [left; reflexivity|auto].
Qed.

Lemma earliest_expiry_In (first : Hold) (rest : list Hold) :
  In (earliest_expiry first rest) (first :: rest).
Proof.
  unfold earliest_expiry. revert first.
  induction rest as [|h rest IH]; intros first; simpl; [left; reflexivity|].
  destruct (HoldRow.expires_at h <? HoldRow.expires_at first).
  - right. apply IH.
  - destruct (IH first) as [E|Hin]; [left; exact E|right; right; exact Hin].
Qed.

(** X18.  The checkout route answers 200, 400 or 409.  It answers 400,
    leaving the state as it is, exactly when the concert id is missing or
    empty, a quantity is negative or no quantity is positive.  When it
    answers 200 there is one hold for every selection of positive quantity,
    at least one, each of the session and the concert with the tier and
    quantity of a selection and expiring [holdDurationMs] from now, and the
    [expiresAt] of the answer is that instant.  When it answers 409 the
    answer carries neither a checkout session nor an expiry. *)
Theorem postCheckout_outcome :
  forall (now : Z) (sessionId : string) (concertId : option string)
         (selections : list TicketSelection.t) (w : World),
    (Response.status (fst (postCheckout now sessionId concertId selections w)) = 200
     \/ Response.status (fst (postCheckout now sessionId concertId selections w)) = 400
     \/ Response.status (fst (postCheckout now sessionId concertId selections w)) = 409)
    /\ (Response.status (fst (postCheckout now sessionId concertId selections w)) = 400 <->
        concertId = None \/ concertId = Some EmptyString
        \/ (exists s, In s selections /\ TicketSelection.quantity s < 0)
        \/ (forall s, In s selections -> TicketSelection.quantity s <= 0))
    /\ (Response.status (fst (postCheckout now sessionId concertId selections w)) = 400 ->
        snd (postCheckout now sessionId concertId selections w) = w)
    /\ (Response.status (fst (postCheckout now sessionId concertId selections w)) = 200 ->
        exists holds,
          Response.body (fst (postCheckout now sessionId concertId selections w))
          = inr (CheckoutResponse.mk true (Some now) holds
                   (Some (now + HOLD_CONFIG.holdDurationMs)) None None)
          /\ holds <> []
          /\ List.length holds
             = List.length (filter (fun s => TicketSelection.quantity s >? 0) selections)
          /\ forall h, In h holds ->
               HoldRow.session_id h = sessionId
               /\ Some (HoldRow.concert_id h) = concertId
               /\ HoldRow.expires_at h = now + HOLD_CONFIG.holdDurationMs
               /\ exists s, In s selections
                            /\ HoldRow.tier h = TicketSelection.tier s
                            /\ HoldRow.quantity h = TicketSelection.quantity s
                            /\ 0 < TicketSelection.quantity s)
    /\ (Response.status (fst (postCheckout now sessionId concertId selections w)) = 409 ->
        exists holds message unavailable,
          Response.body (fst (postCheckout now sessionId concertId selections w))
          = inr (CheckoutResponse.mk false None holds None (Some message) unavailable)).
Proof.
  intros now sessionId concertId selections w.
  assert (Hval : validateSelections selections = false <->
                 exists s, In s selections /\ TicketSelection.quantity s < 0).
  { unfold validateSelections. split.
    - intros Hv. destruct (forallb _ selections) eqn:E in Hv; [discriminate|].
      clear Hv. induction selections as [|x rest IH]; [discriminate E|].
      simpl in E. apply andb_false_iff in E. destruct E as [E|E].
      + exists x. split; [left; reflexivity|].
        apply negb_false_iff, Z.ltb_lt in E. exact E.
      + destruct (IH E) as [s [Hs Hq]]. exists s. split; [right; exact Hs|exact Hq].
    - intros [s [Hs Hq]].
      destruct (forallb _ selections) eqn:E; [|reflexivity].
      rewrite forallb_forall in E. specialize (E s Hs).
      apply negb_true_iff, Z.ltb_ge in E. lia. }
  assert (Hfil : filter (fun s => TicketSelection.quantity s >? 0) selections = [] <->
                 forall s, In s selections -> TicketSelection.quantity s <= 0).
  { split.
    - intros E s Hs.
      destruct (Z_le_gt_dec (TicketSelection.quantity s) 0) as [Hle|Hgt]; [exact Hle|].
      assert (Hin : In s (filter (fun s => TicketSelection.quantity s >? 0) selections)).
      { apply filter_In. split; [exact Hs|]. apply gtb_true. lia. }
      rewrite E in Hin. destruct Hin.
    - intros Hall.
      destruct (filter (fun s => TicketSelection.quantity s >? 0) selections)
        as [|x rest] eqn:E; [reflexivity|].
      assert (Hin : In x (filter (fun s => TicketSelection.quantity s >? 0) selections))
        by (rewrite E; left; reflexivity).
      apply filter_In in Hin. destruct Hin as [Hin Hq].
      specialize (Hall x Hin).
      rewrite (gtb_false _ _ Hall) in Hq. discriminate Hq. }
  unfold postCheckout.
  destruct concertId as [c|].
  2:{ cbn [fst snd Response.status].
      split; [auto|]. split; [tauto|]. split; [auto|].
      split; intros H; discriminate H. }
  destruct (String.eqb c EmptyString) eqn:Ec.
  { apply String.eqb_eq in Ec. subst c. cbn [fst snd Response.status].
    split; [auto|]. split; [tauto|]. split; [auto|].
    split; intros H; discriminate H. }
  apply String.eqb_neq in Ec.
  destruct (validateSelections selections) eqn:Ev; cbn [negb].
  2:{ cbn [fst snd Response.status].
      split; [auto|]. split; [split; [intros _|reflexivity]|].
      - right. right. left. apply Hval. reflexivity.
      - split; [auto|]. split; intros H; discriminate H. }
  assert (Hnoneg : ~ exists s, In s selections /\ TicketSelection.quantity s < 0).
  { intros H. apply Hval in H. congruence. }
  destruct (filter (fun s => TicketSelection.quantity s >? 0) selections)
    as [|x rest] eqn:Ef.
  { cbn [fst snd Response.status].
    split; [auto|]. split; [split; [intros _|reflexivity]|].
    - right. right. right. apply Hfil. reflexivity.
    - split; [auto|]. split; intros H; discriminate H. }
  assert (Hnot400 : ~ (Some c = None \/ Some c = Some EmptyString
                       \/ (exists s, In s selections /\ TicketSelection.quantity s < 0)
                       \/ (forall s, In s selections -> TicketSelection.quantity s <= 0))).
  { intros [H|[H|[H|H]]]; [discriminate H|congruence|contradiction|].
    apply Hfil in H. discriminate H. }
  rewrite <- Ef.
  destruct (HoldsResult.success
              (fst (createOrUpdateHolds now sessionId c
                      (filter (fun s => TicketSelection.quantity s >? 0) selections) w)))
    eqn:Es; cbn [fst snd Response.status Response.body].
  - split; [auto|]. split; [split; [intros H; discriminate H|tauto]|].
    split; [intros H; discriminate H|]. split; [|intros H; discriminate H].
    intros _.
    (* the loop has run and has rejected nothing *)
    destruct (createOrUpdateHolds_validation
                (filter (fun s => TicketSelection.quantity s >? 0) selections))
      as [[Hq Ht]|Hno]; [|destruct (Hno now sessionId c w) as [_ [_ [_ Hf]]]; congruence].
    destruct (createOrUpdateHolds_loop now sessionId c _ w Hq Ht)
      as [_ [Hholds [_ [Hsucc _]]]].
    apply Hsucc in Es.
    destruct (holds_loop_results now (now + HOLD_CONFIG.holdDurationMs) sessionId c
                (filter (fun s => TicketSelection.quantity s >? 0) selections)
                (mkHoldsLoop w [] []))
      as [un [hr [Eu [Eh [Hlen [_ Hhr]]]]]].
    cbn [lp_unavailable lp_holdResults app] in Eu, Eh.
    rewrite Es in Eu. subst un. rewrite Eh in Hholds. cbn [List.length plus] in Hlen.
    assert (Hall : nonzero (filter (fun s => TicketSelection.quantity s >? 0) selections)
                   = filter (fun s => TicketSelection.quantity s >? 0) selections).
    { unfold nonzero. apply filter_all. intros s Hs. apply filter_In in Hs.
      destruct Hs as [_ Hs]. apply negb_true_iff, Z.eqb_neq.
      destruct (Z.gtb_spec (TicketSelection.quantity s) 0); [lia|discriminate Hs]. }
    rewrite Hall in Hlen.
    assert (Hexp : forall h, In h hr ->
               HoldRow.expires_at h = now + HOLD_CONFIG.holdDurationMs)
      by (intros h Hh; apply Hhr; exact Hh).
    exists hr. rewrite Hholds. split; [|split; [|split]].
    + destruct hr as [|h0 hr0] eqn:Ehr.
      * exfalso. rewrite Ef in Hlen. cbn in Hlen. lia.
      * rewrite (Hexp _ (earliest_expiry_In h0 hr0)). reflexivity.
    + intros E. rewrite E, Ef in Hlen. cbn in Hlen. lia.
    + exact Hlen.
    + intros h Hh. destruct (Hhr h Hh) as [H1 [H2 [H3 [s [Hs [H4 H5]]]]]].
      split; [exact H1|]. split; [congruence|]. split; [exact H3|].
      apply filter_In in Hs. destruct Hs as [Hs Hpos].
      exists s. repeat (split; [assumption|]).
      destruct (Z.gtb_spec (TicketSelection.quantity s) 0); [lia|discriminate Hpos].
  - split; [auto|]. split; [split; [intros H; discriminate H|tauto]|].
    split; [intros H; discriminate H|]. split; [intros H; discriminate H|].
    intros _.
    assert (Hmsg : exists message,
               HoldsResult.message
                 (fst (createOrUpdateHolds now sessionId c
                         (filter (fun s => TicketSelection.quantity s >? 0) selections) w))
               = Some message).
    { revert Es. unfold createOrUpdateHolds.
      destruct (existsb _ _); [simpl; eauto|].
      destruct (_ >? LIMITS.MAX_TICKETS_PER_ORDER); [simpl; eauto|].
      cbv zeta. destruct (lp_unavailable _); simpl; [discriminate|eauto]. }
    destruct Hmsg as [message Hmsg]. rewrite Hmsg. eauto.
Qed.

Lemma postCheckout_outcome_witness :
  Response.status
    (fst (postCheckout 0 "A" (Some "good-luck"%string) [Scenario.sel VIP 0]
            Scenario.seeded)) = 400
  /\ snd (postCheckout 0 "A" (Some "good-luck"%string) [Scenario.sel VIP 0]
            Scenario.seeded) = Scenario.seeded.
Proof.
  split; [reflexivity|].
  apply (proj1 (proj2 (proj2 (postCheckout_outcome 0 "A" (Some "good-luck"%string)
                                [Scenario.sel VIP 0] Scenario.seeded)))).
  reflexivity.
Defined.

(* ------------------------------------------------------------------ *)
(** ** [GET /api/bookings/:id] *)

(** X19.  A booking is shown to the session that made it and to no
    other: after [processBooking] has returned a booking, the booking route
    answers 200 with that booking to the session that paid and 403 to every
    other session, and before the call the id was not found.  In any state,
    a booking that the route returns belongs to the asking session. *)
Theorem booking_visible_to_owner_only :
  forall (now : Z) (random : Q) (sessionId concertId : string)
         (selections : list TicketSelection.t) (w : World) (booking : Booking.t),
    bookings_wf w ->
    BookingResult.booking (fst (processBooking now random sessionId concertId selections w))
    = Some booking ->
    getBooking sessionId (Booking.id booking)
               (snd (processBooking now random sessionId concertId selections w))
    = Response.mk 200 (inr booking)
    /\ (forall other, other <> sessionId ->
          getBooking other (Booking.id booking)
                     (snd (processBooking now random sessionId concertId selections w))
          = Response.mk 403 (inl NotYourBooking))
    /\ (forall other,
          getBooking other (Booking.id booking) w = Response.mk 404 (inl BookingNotFound))
    /\ (forall other id w0 b,
          Response.body (getBooking other id w0) = inr b -> Booking.sessionId b = other).
Proof.
  intros now random sessionId concertId selections w booking Hwf Hbk.
  destruct (processBooking_state now random sessionId concertId selections w)
    as [[_ [Hn _]]|[Hs [_ [_ [Hb _]]]]]; [congruence|].
  rewrite Hb in Hbk. inversion Hbk as [Hbooking]. clear Hbk.
  destruct (getBookingById_at now random sessionId concertId selections w Hwf Hs)
    as [Hnew _].
  cbn [Booking.id].
  split; [|split; [|split]].
  - unfold getBooking. rewrite Hnew. cbn [Booking.sessionId].
    rewrite String.eqb_refl. reflexivity.
  - intros other Hne. unfold getBooking. rewrite Hnew. cbn [Booking.sessionId].
    destruct (String.eqb sessionId other) eqn:E;
      [apply String.eqb_eq in E; congruence|reflexivity].
  - intros other. unfold getBooking, getBookingById.
    destruct (find _ (bookings w)) as [b|] eqn:E; [|reflexivity].
    apply find_some in E. destruct E as [Hin E]. apply Nat.eqb_eq in E.
    destruct Hwf as [Hwb _]. specialize (Hwb b Hin). lia.
  - intros other id w0 b. unfold getBooking.
    destruct (getBookingById w0 id) as [b0|]; [|discriminate].
    destruct (String.eqb (Booking.sessionId b0) other) eqn:E; cbn [negb];
      [|discriminate].
    intros Hb0. inversion Hb0. subst b0. apply String.eqb_eq. exact E.
Qed.

Lemma booking_visible_to_owner_only_witness :
  bookings_wf Scenario.a_holds_vip
  /\ getBooking "B" 1%nat
       (snd (processBooking 1000 (1 # 2) "A" "good-luck" [Scenario.sel VIP 2]
               Scenario.a_holds_vip))
     = Response.mk 403 (inl NotYourBooking).
Proof.
  assert (Hwf : bookings_wf Scenario.a_holds_vip) by (split; intros ? []).
  split; [exact Hwf|].
  exact (proj1 (proj2 (booking_visible_to_owner_only 1000 (1 # 2) "A" "good-luck"
                         [Scenario.sel VIP 2] Scenario.a_holds_vip
                         (Booking.mk 1%nat "A" "good-luck"
                            [BookingItem.mk VIP 2 10000 20000] 20000
                            CONFIRMED 1000 (Some 1000))
                         Hwf eq_refl)) "B"%string ltac:(discriminate)).
Defined.

(* ------------------------------------------------------------------ *)
(** ** [POST /api/holds/:concertId/heartbeat] *)

(** X20.  A heartbeat request that carries no [lastActivityAt] is never
    found inactive: when the query of the heartbeat returns a hold of the
    session for the concert, the route answers 200 with no message and the
    expiry [min (now + holdDuration) cap], or [min (now + gracePeriod) cap]
    when the body says that the tab is hidden, where [cap] is the hard cap
    of the oldest hold that the query returns.  The query returns the
    session's holds for the concert whose date of expiry is not before the
    UTC date of [now], a hold that has expired earlier on that date
    included. *)
Theorem postHeartbeat_without_activity :
  forall (now : Z) (sessionId concertId : string) (isTabVisible : option bool)
         (w : World) (first : HoldRow.t) (rest : list HoldRow.t),
    filter (fun h => of_session_concert sessionId concertId h && not_expired now h)
           (holds w) = first :: rest ->
    Response.status (fst (postHeartbeat now sessionId concertId None isTabVisible w)) = 200
    /\ HeartbeatResult.success
         (Response.body (fst (postHeartbeat now sessionId concertId None isTabVisible w)))
       = true
    /\ HeartbeatResult.message
         (Response.body (fst (postHeartbeat now sessionId concertId None isTabVisible w)))
       = None
    /\ HeartbeatResult.expiresAt
         (Response.body (fst (postHeartbeat now sessionId concertId None isTabVisible w)))
       = Some (Z.min (now + (if match isTabVisible with
                                | Some visible => visible
                                | None => true
                                end
                             then HOLD_CONFIG.holdDurationMs
                             else HOLD_CONFIG.gracePeriodMs))
                     (HoldRow.created_at (oldest_hold first rest)
                      + HOLD_CONFIG.hardCapMs)).
Proof.
  intros now sessionId concertId isTabVisible w first rest Ef.
  unfold postHeartbeat. cbv zeta. cbn [fst Response.status Response.body].
  rewrite (processHeartbeat_cases now sessionId concertId now _ w first rest Ef).
  cbv zeta. rewrite Z.sub_diag.
  change (0 >? HOLD_CONFIG.inactivityTimeoutMs) with false.
  destruct (match isTabVisible with Some visible => visible | None => true end);
    cbn [negb fst HeartbeatResult.success HeartbeatResult.message
         HeartbeatResult.expiresAt]; auto.
Qed.

Lemma postHeartbeat_without_activity_witness :
  filter (fun h => of_session_concert "A" "good-luck" h && not_expired 600001 h)
         (holds Scenario.a_holds_vip_and_ga)
  = [HoldRow.mk 0%nat "A" "good-luck" VIP 2 0 600000 0;
     HoldRow.mk 1%nat "A" "good-luck" GA 1 300000 900000 300000]
  /\ HeartbeatResult.expiresAt
       (Response.body (fst (postHeartbeat 600001 "A" "good-luck" None None
                              Scenario.a_holds_vip_and_ga)))
     = Some 900000.
Proof.
  split; [reflexivity|].
  exact (proj2 (proj2 (proj2
           (postHeartbeat_without_activity 600001 "A" "good-luck" None
              Scenario.a_holds_vip_and_ga
              (HoldRow.mk 0%nat "A" "good-luck" VIP 2 0 600000 0)
              [HoldRow.mk 1%nat "A" "good-luck" GA 1 300000 900000 300000] eq_refl)))).
Defined.

(* ------------------------------------------------------------------ *)
(** ** The ticket store of the frontend *)

Lemma calculateTotal_sum (selections : TicketTier -> Z) :
  calculateTotal selections
  = 10000 * selections VIP + 5000 * selections FRONT_ROW + 1000 * selections GA.
Proof. unfold calculateTotal, Object_entries. simpl. lia. Qed.

(** What the store keeps for every concert. *)
Lemma act_within_limits (store : TicketStore) (action : StoreAction) :
  (forall c,
      (forall tier, 0 <= getSelections store c tier <= LIMITS.MAX_TICKETS_PER_TIER)
      /\ getSelections store c VIP + getSelections store c FRONT_ROW
         + getSelections store c GA <= LIMITS.MAX_TICKETS_PER_ORDER
      /\ getTotal store c = calculateTotal (getSelections store c)) ->
  forall c,
    (forall tier, 0 <= getSelections (act store action) c tier
                  <= LIMITS.MAX_TICKETS_PER_TIER)
    /\ getSelections (act store action) c VIP + getSelections (act store action) c FRONT_ROW
       + getSelections (act store action) c GA <= LIMITS.MAX_TICKETS_PER_ORDER
    /\ getTotal (act store action) c = calculateTotal (getSelections (act store action) c).
Proof.
  intros Hinv c.
  destruct action as [inventory c0 tier delta|c0]; cbn [act].
  - unfold handleQuantityChange. cbv zeta.
    set (newQty := Z.max 0 (Z.min (getSelections store c0 tier + delta)
                                  (Z.min match inventoryByTier inventory tier with
                                         | Some inv => TicketInventory.availableQuantity inv
                                         | None => 0
                                         end LIMITS.MAX_TICKETS_PER_TIER))).
    destruct (_ >? LIMITS.MAX_TICKETS_PER_ORDER) eqn:Et; [apply Hinv|].
    unfold getSelections, getTotal, setQuantity.
    destruct (String.eqb c c0) eqn:Ec; [|apply Hinv].
    cbn [ConcertSelections.selections ConcertSelections.total].
    assert (Hnew : 0 <= newQty <= LIMITS.MAX_TICKETS_PER_TIER)
      by (unfold newQty, LIMITS.MAX_TICKETS_PER_TIER; lia).
    destruct (Hinv c0) as [Hq [_ _]].
    split; [|split; [|reflexivity]].
    + intros t. destruct (tier_eqb t tier); [exact Hnew|].
      specialize (Hq t). unfold getSelections in Hq.
      destruct (store c0); exact Hq.
    + destruct (Z.gtb_spec
                  (fold_left
                     (fun sum entry =>
                        sum + (if tier_eqb (fst entry) tier then newQty else snd entry))
                     (Object_entries (getSelections store c0)) 0)
                  LIMITS.MAX_TICKETS_PER_ORDER) as [|Hle]; [discriminate Et|].
      unfold Object_entries, getSelections in Hle. cbn [map fold_left fst snd] in Hle.
      destruct (store c0); exact Hle.
  - unfold clearSelections, getSelections, getTotal.
    destruct (String.eqb c c0); [|apply Hinv].
    unfold EMPTY_SELECTIONS, LIMITS.MAX_TICKETS_PER_TIER, LIMITS.MAX_TICKETS_PER_ORDER.
    repeat split; try lia.
Qed.

(** X21.  Whatever buttons of the selector are pressed, against whatever
    inventories, and whenever selections are cleared, the store that
    started empty keeps for every concert: each quantity between 0 and
    [MAX_TICKETS_PER_TIER], at most [MAX_TICKETS_PER_ORDER] tickets in all,
    and a stored total equal to the price of the selections.  The
    selections array that the pages send then passes the validation of the
    routes and the caps of [createOrUpdateHolds], names distinct tiers with
    positive quantities, and the total shown is the amount that
    [processBooking] computes for it. *)
Theorem ticket_store_within_limits :
  forall (actions : list StoreAction) (concertId : string),
    (forall tier,
        0 <= getSelections (fold_left act actions empty_store) concertId tier
        <= LIMITS.MAX_TICKETS_PER_TIER)
    /\ requested_total
         (getSelectionsArray (fold_left act actions empty_store) concertId)
       <= LIMITS.MAX_TICKETS_PER_ORDER
    /\ (forall s,
          In s (getSelectionsArray (fold_left act actions empty_store) concertId) ->
          0 < TicketSelection.quantity s <= LIMITS.MAX_TICKETS_PER_TIER)
    /\ NoDup (map TicketSelection.tier
                (getSelectionsArray (fold_left act actions empty_store) concertId))
    /\ validateSelections
         (getSelectionsArray (fold_left act actions empty_store) concertId) = true
    /\ getTotal (fold_left act actions empty_store) concertId
       = calculateTotal (getSelections (fold_left act actions empty_store) concertId)
    /\ getTotal (fold_left act actions empty_store) concertId
       = fst (prepare_items
                (getSelectionsArray (fold_left act actions empty_store) concertId)).
Proof.
  intros actions concertId.
  assert (Hinv : forall c,
             (forall tier,
                 0 <= getSelections (fold_left act actions empty_store) c tier
                 <= LIMITS.MAX_TICKETS_PER_TIER)
             /\ getSelections (fold_left act actions empty_store) c VIP
                + getSelections (fold_left act actions empty_store) c FRONT_ROW
                + getSelections (fold_left act actions empty_store) c GA
                <= LIMITS.MAX_TICKETS_PER_ORDER
             /\ getTotal (fold_left act actions empty_store) c
                = calculateTotal (getSelections (fold_left act actions empty_store) c)).
  { assert (Hgen : forall store,
               (forall c,
                   (forall tier, 0 <= getSelections store c tier
                                 <= LIMITS.MAX_TICKETS_PER_TIER)
                   /\ getSelections store c VIP + getSelections store c FRONT_ROW
                      + getSelections store c GA <= LIMITS.MAX_TICKETS_PER_ORDER
                   /\ getTotal store c = calculateTotal (getSelections store c)) ->
               forall c,
                 (forall tier,
                     0 <= getSelections (fold_left act actions store) c tier
                     <= LIMITS.MAX_TICKETS_PER_TIER)
                 /\ getSelections (fold_left act actions store) c VIP
                    + getSelections (fold_left act actions store) c FRONT_ROW
                    + getSelections (fold_left act actions store) c GA
                    <= LIMITS.MAX_TICKETS_PER_ORDER
                 /\ getTotal (fold_left act actions store) c
                    = calculateTotal (getSelections (fold_left act actions store) c)).
    { induction actions as [|a rest IH]; intros store Hs; [exact Hs|].
      cbn [fold_left]. apply IH. apply act_within_limits. exact Hs. }
    apply Hgen. intros c. unfold getSelections, getTotal, empty_store, EMPTY_SELECTIONS,
      LIMITS.MAX_TICKETS_PER_TIER, LIMITS.MAX_TICKETS_PER_ORDER.
    repeat split; try lia. }
  destruct (Hinv concertId) as [Hq [Hsum Htotal]].
  set (sel := getSelections (fold_left act actions empty_store) concertId) in *.
  pose proof (Hq VIP) as Hv. pose proof (Hq FRONT_ROW) as Hf. pose proof (Hq GA) as Hg.
  assert (Harr : getSelectionsArray (fold_left act actions empty_store) concertId
                 = (if sel VIP >? 0 then [TicketSelection.mk VIP (sel VIP)] else [])
                   ++ (if sel FRONT_ROW >? 0
                       then [TicketSelection.mk FRONT_ROW (sel FRONT_ROW)] else [])
                   ++ (if sel GA >? 0 then [TicketSelection.mk GA (sel GA)] else [])).
  { unfold getSelectionsArray, Object_entries. fold sel. cbn [map filter fst snd].
    destruct (sel VIP >? 0), (sel FRONT_ROW >? 0), (sel GA >? 0); reflexivity. }
  rewrite Harr, Htotal, calculateTotal_sum, prepare_items_spec.
  unfold LIMITS.MAX_TICKETS_PER_TIER, LIMITS.MAX_TICKETS_PER_ORDER in *.
  destruct (Z.gtb_spec (sel VIP) 0), (Z.gtb_spec (sel FRONT_ROW) 0),
           (Z.gtb_spec (sel GA) 0);
    cbn [app requested_total fold_right TicketSelection.quantity TicketSelection.tier
         map validateSelections forallb nonzero filter];
    (split; [exact Hq|]);
    (split; [lia|]);
    (split; [intros s Hs; simpl in Hs;
             repeat (destruct Hs as [<-|Hs]; [simpl; lia|]); destruct Hs|]);
    (split; [repeat constructor; simpl; intuition discriminate|]);
    (split; [repeat match goal with
                    | |- context [?a <? 0] =>
                        destruct (Z.ltb_spec a 0); [lia|]
                    end; reflexivity|]);
    (split; [reflexivity|]);
    repeat match goal with
           | |- context [?a =? 0] => destruct (Z.eqb_spec a 0); [lia|]
           end;
    cbn [negb map item_of sum_subtotals fold_right fst BookingItem.subtotal
         TicketSelection.tier TicketSelection.quantity TICKET_TIERS
         TicketTierInfo.price];
    lia.
Qed.

Lemma ticket_store_within_limits_witness :
  getSelectionsArray (fold_left act Scenario.presses empty_store) "good-luck"
  = [Scenario.sel VIP 2; Scenario.sel GA 1]
  /\ getTotal (fold_left act Scenario.presses empty_store) "good-luck" = 21000.
Proof.
  split; [reflexivity|].
  rewrite (proj2 (proj2 (proj2 (proj2 (proj2 (proj2
             (ticket_store_within_limits Scenario.presses "good-luck"))))))).
  reflexivity.
Defined.

(* ------------------------------------------------------------------ *)
(** ** The countdown of the checkout page *)

(** X22.  The countdown never shows time for a hold that has expired:
    the seconds it shows are non-negative, are 0 exactly when less than a
    second is left, and otherwise count whole seconds that are still left;
    the minutes and seconds of the timer add up to them, with the seconds
    between 0 and 59. *)
Theorem countdown_shows_time_left :
  forall (expiresAt now : Z),
    0 <= updateCountdown expiresAt now
    /\ (updateCountdown expiresAt now = 0 <-> expiresAt - now < 1000)
    /\ (0 < updateCountdown expiresAt now ->
        now + 1000 * updateCountdown expiresAt now <= expiresAt
        /\ expiresAt < now + 1000 * (updateCountdown expiresAt now + 1))
    /\ 0 <= seconds (updateCountdown expiresAt now) < 60
    /\ 0 <= minutes (updateCountdown expiresAt now)
    /\ 60 * minutes (updateCountdown expiresAt now)
       + seconds (updateCountdown expiresAt now)
       = updateCountdown expiresAt now.
Proof.
  intros expiresAt now. unfold updateCountdown, minutes, seconds.
  pose proof (Z.div_mod (expiresAt - now) 1000 ltac:(lia)) as Hdm.
  pose proof (Z.mod_pos_bound (expiresAt - now) 1000 ltac:(lia)) as Hm.
  set (q := (expiresAt - now) / 1000) in *.
  assert (Hs : 0 <= Z.max 0 q) by lia.
  rewrite (Z.rem_mod_nonneg (Z.max 0 q) 60) by lia.
  pose proof (Z.div_mod (Z.max 0 q) 60 ltac:(lia)) as Hdm2.
  pose proof (Z.mod_pos_bound (Z.max 0 q) 60 ltac:(lia)) as Hm2.
  pose proof (Z.div_pos (Z.max 0 q) 60 Hs ltac:(lia)) as Hd2.
  repeat split; try lia.
Qed.

Lemma countdown_shows_time_left_witness :
  updateCountdown 600000 999 = 599
  /\ 999 + 1000 * updateCountdown 600000 999 <= 600000.
Proof.
  split; [reflexivity|].
  apply (proj1 (proj2 (proj2 (countdown_shows_time_left 600000 999)))).
  reflexivity.
Defined.

(* ------------------------------------------------------------------ *)
(** ** Sessions do not touch each other's holds *)

Lemma createOrUpdateHolds_others now sessionId concertId selections w :
  holds_wf w ->
  filter (fun h => negb (of_session_concert sessionId concertId h))
         (holds (snd (createOrUpdateHolds now sessionId concertId selections w)))
  = filter (fun h => negb (of_session_concert sessionId concertId h)) (holds w).
Proof.
  intros Hwf.
  destruct (createOrUpdateHolds_state now sessionId concertId selections w)
    as [->|[_ [_ ->]]]; [reflexivity|].
  assert (Hloop : forall acc, holds_wf (lp_world acc) ->
             filter (fun h => negb (of_session_concert sessionId concertId h))
                    (holds (lp_world
                              (fold_left
                                 (holds_iteration now (now + HOLD_CONFIG.holdDurationMs)
                                                  sessionId concertId)
                                 selections acc)))
             = filter (fun h => negb (of_session_concert sessionId concertId h))
                      (holds (lp_world acc))).
  { induction selections as [|x rest IH]; intros acc Hacc; [reflexivity|].
    cbn [fold_left]. rewrite IH by (apply holds_iteration_wf; exact Hacc).
    apply holds_iteration_other_session. exact Hacc. }
  apply (Hloop (mkHoldsLoop w [] [])). exact Hwf.
Qed.

(** What a request of a session does to the state: nothing, or one call
    of a service on behalf of that session. *)
Lemma handle_cases now sessionId request w :
  handle now sessionId request w = w
  \/ (exists c sels,
        handle now sessionId request w = snd (createOrUpdateHolds now sessionId c sels w))
  \/ (exists c last vis,
        handle now sessionId request w
        = snd (processHeartbeat now sessionId c last vis w))
  \/ (exists c, handle now sessionId request w = releaseHolds sessionId c w)
  \/ (exists random c sels,
        handle now sessionId request w
        = snd (processBooking now random sessionId c sels w)).
Proof.
  destruct request as [c sels|c last vis|c|c sels|random c]; cbn [handle].
  - unfold postHolds. destruct c as [c|]; [|left; reflexivity].
    destruct (String.eqb c EmptyString); [left; reflexivity|].
    destruct (negb (validateSelections sels)); [left; reflexivity|].
    right. left. exists c, sels.
    cbv zeta. destruct (HoldsResult.success _); reflexivity.
  - right. right. left. unfold postHeartbeat. cbv zeta. cbn [snd]. eauto.
  - right. right. right. left. exists c. reflexivity.
  - unfold postCheckout. destruct c as [c|]; [|left; reflexivity].
    destruct (String.eqb c EmptyString); [left; reflexivity|].
    destruct (negb (validateSelections sels)); [left; reflexivity|].
    destruct (filter (fun s => TicketSelection.quantity s >? 0) sels) as [|x rest];
      [left; reflexivity|].
    right. left. exists c, (x :: rest).
    cbv zeta. destruct (HoldsResult.success _); reflexivity.
  - unfold postPayment. destruct c as [c|]; [|left; reflexivity].
    destruct (String.eqb c EmptyString); [left; reflexivity|].
    destruct (getHoldsForConcert now w sessionId c) as [|x rest]; [left; reflexivity|].
    right. right. right. right. eexists random, c, _.
    cbv zeta. destruct (BookingResult.success _); reflexivity.
Qed.

(** X23.  A request of one session never changes a hold of another
    session: after any of the writing requests the rows of the other
    sessions are the same rows in the same order, so every other session
    reads the same holds, at any instant; and only a payment request
    changes the inventory table or the booking tables. *)
Theorem requests_are_isolated :
  forall (now : Z) (sessionId : string) (request : Request) (w : World),
    holds_wf w ->
    filter (fun h => negb (String.eqb (HoldRow.session_id h) sessionId))
           (holds (handle now sessionId request w))
    = filter (fun h => negb (String.eqb (HoldRow.session_id h) sessionId)) (holds w)
    /\ (forall other now', other <> sessionId ->
          getHoldsForSession now' (handle now sessionId request w) other
          = getHoldsForSession now' w other)
    /\ (match request with
        | PostPayment _ _ => True
        | _ =>
            ticket_inventory (handle now sessionId request w) = ticket_inventory w
            /\ bookings (handle now sessionId request w) = bookings w
            /\ booking_items (handle now sessionId request w) = booking_items w
        end).
Proof.
  intros now sessionId request w Hwf.
  assert (Hconv : forall c w',
             filter (fun h => negb (of_session_concert sessionId c h)) (holds w')
             = filter (fun h => negb (of_session_concert sessionId c h)) (holds w) ->
             filter (fun h => negb (String.eqb (HoldRow.session_id h) sessionId))
                    (holds w')
             = filter (fun h => negb (String.eqb (HoldRow.session_id h) sessionId))
                      (holds w)).
  { intros c w' E.
    rewrite <- (filter_filter_sub
                  (fun h => negb (String.eqb (HoldRow.session_id h) sessionId))
                  (fun h => negb (of_session_concert sessionId c h)) (holds w')),
            <- (filter_filter_sub
                  (fun h => negb (String.eqb (HoldRow.session_id h) sessionId))
                  (fun h => negb (of_session_concert sessionId c h)) (holds w)).
    - rewrite E. reflexivity.
    - intros h Hh. apply negb_true_iff in Hh. unfold of_session_concert.
      rewrite Hh. reflexivity.
    - intros h Hh. apply negb_true_iff in Hh. unfold of_session_concert.
      rewrite Hh. reflexivity. }
  assert (Hothers :
            filter (fun h => negb (String.eqb (HoldRow.session_id h) sessionId))
                   (holds (handle now sessionId request w))
            = filter (fun h => negb (String.eqb (HoldRow.session_id h) sessionId))
                     (holds w)).
  { destruct (handle_cases now sessionId request w)
      as [->|[[c [sels ->]]|[[c [last [vis ->]]]|[[c ->]|[random [c [sels ->]]]]]]].
    - reflexivity.
    - apply (Hconv c). apply createOrUpdateHolds_others. exact Hwf.
    - apply (Hconv c).
      destruct (processHeartbeat_state now sessionId c last vis w) as [->|[e ->]];
        [reflexivity|].
      apply update_expiry_others.
    - apply (Hconv c). unfold releaseHolds. cbn [holds set_holds].
      apply filter_filter_sub. auto.
    - apply (Hconv c).
      destruct (processBooking_holds now random sessionId c sels w) as [->| ->];
        [reflexivity|].
      apply filter_filter_sub. auto. }
  split; [exact Hothers|]. split.
  - intros other now' Hne. unfold getHoldsForSession. f_equal.
    rewrite <- (filter_filter_sub
                  (fun h => String.eqb (HoldRow.session_id h) other && not_expired now' h)
                  (fun h => negb (String.eqb (HoldRow.session_id h) sessionId))
                  (holds (handle now sessionId request w))),
            <- (filter_filter_sub
                  (fun h => String.eqb (HoldRow.session_id h) other && not_expired now' h)
                  (fun h => negb (String.eqb (HoldRow.session_id h) sessionId))
                  (holds w)).
    + rewrite Hothers. reflexivity.
    + intros h Hh. apply andb_true_iff in Hh. destruct Hh as [Hh _].
      apply String.eqb_eq in Hh. apply negb_true_iff, String.eqb_neq. congruence.
    + intros h Hh. apply andb_true_iff in Hh. destruct Hh as [Hh _].
      apply String.eqb_eq in Hh. apply negb_true_iff, String.eqb_neq. congruence.
  - destruct request as [c sels|c last vis|c|c sels|random c]; [| | | |exact I].
    + cbn [handle]. unfold postHolds.
      destruct c as [c|]; [|auto].
      destruct (String.eqb c EmptyString); [auto|].
      destruct (negb (validateSelections sels)); [auto|].
      cbv zeta.
      destruct (createOrUpdateHolds_tables now sessionId c sels w) as [H1 [H2 [H3 _]]].
      destruct (HoldsResult.success _); cbn [snd]; auto.
    + cbn [handle]. unfold postHeartbeat. cbv zeta. cbn [snd].
      destruct (processHeartbeat_state now sessionId c
                  match last with Some t => t | None => now end
                  match vis with Some visible => visible | None => true end w)
        as [->|[e ->]]; auto.
    + cbn [handle]. auto.
    + cbn [handle]. unfold postCheckout.
      destruct c as [c|]; [|auto].
      destruct (String.eqb c EmptyString); [auto|].
      destruct (negb (validateSelections sels)); [auto|].
      destruct (filter (fun s => TicketSelection.quantity s >? 0) sels) as [|x rest];
        [auto|].
      cbv zeta.
      destruct (createOrUpdateHolds_tables now sessionId c (x :: rest) w)
        as [H1 [H2 [H3 _]]].
      destruct (HoldsResult.success _); cbn [snd]; auto.
Qed.

Lemma requests_are_isolated_witness :
  holds_wf Scenario.b_holds_vip
  /\ getHoldsForSession 1000
       (handle 1000 "A" (DeleteHolds "good-luck") Scenario.b_holds_vip) "B"
     = [HoldRow.mk 0%nat "B" "good-luck" VIP 2 0 600000 0].
Proof.
  assert (Hwf : holds_wf Scenario.b_holds_vip) by apply reachable_wf.
  split; [exact Hwf|].
  rewrite (proj1 (proj2 (requests_are_isolated 1000 "A" (DeleteHolds "good-luck")
                           Scenario.b_holds_vip Hwf)) "B"%string 1000 ltac:(discriminate)).
  reflexivity.
Defined.

(* ------------------------------------------------------------------ *)
(** ** The checkout route never releases *)

Lemma holds_iteration_keeps_rows now expiresAt sessionId concertId acc selection :
  TicketSelection.quantity selection <> 0 ->
  exists added,
    map (fun h => (HoldRow.id h, HoldRow.session_id h, HoldRow.concert_id h,
                   HoldRow.tier h, HoldRow.created_at h))
        (holds (lp_world (holds_iteration now expiresAt sessionId concertId acc selection)))
    = map (fun h => (HoldRow.id h, HoldRow.session_id h, HoldRow.concert_id h,
                     HoldRow.tier h, HoldRow.created_at h))
          (holds (lp_world acc))
      ++ added.
Proof.
  intros Hq.
  destruct (holds_iteration_holds now expiresAt sessionId concertId acc selection)
    as [[E0 _]|[[_ E]|[[_ [existing [_ [_ E]]]]|[_ [_ [_ E]]]]]].
  - contradiction.
  - exists []. rewrite E, app_nil_r. reflexivity.
  - exists []. rewrite E, app_nil_r, map_map. apply map_ext. intros h.
    destruct (Nat.eqb (HoldRow.id h) (HoldRow.id existing)); reflexivity.
  - eexists. rewrite E, map_app. reflexivity.
Qed.

Lemma createOrUpdateHolds_positive_keeps now sessionId concertId positive w :
  holds_wf w ->
  (forall s, In s positive -> 0 < TicketSelection.quantity s) ->
  (exists added,
      map (fun h => (HoldRow.id h, HoldRow.session_id h, HoldRow.concert_id h,
                     HoldRow.tier h, HoldRow.created_at h))
          (holds (snd (createOrUpdateHolds now sessionId concertId positive w)))
      = map (fun h => (HoldRow.id h, HoldRow.session_id h, HoldRow.concert_id h,
                       HoldRow.tier h, HoldRow.created_at h))
            (holds w)
        ++ added)
  /\ (forall tier,
        (forall s, In s positive -> TicketSelection.tier s <> tier) ->
        tier_slice tier (holds (snd (createOrUpdateHolds now sessionId concertId positive w)))
        = tier_slice tier (holds w)).
Proof.
  intros Hwf Hpos.
  destruct (createOrUpdateHolds_state now sessionId concertId positive w)
    as [->|[_ [_ ->]]].
  { split; [exists []; rewrite app_nil_r; reflexivity|reflexivity]. }
  assert (Hloop : forall acc,
             holds_wf (lp_world acc) ->
             (exists added,
                 map (fun h => (HoldRow.id h, HoldRow.session_id h, HoldRow.concert_id h,
                                HoldRow.tier h, HoldRow.created_at h))
                     (holds (lp_world
                               (fold_left
                                  (holds_iteration now (now + HOLD_CONFIG.holdDurationMs)
                                                   sessionId concertId) positive acc)))
                 = map (fun h => (HoldRow.id h, HoldRow.session_id h, HoldRow.concert_id h,
                                  HoldRow.tier h, HoldRow.created_at h))
                       (holds (lp_world acc))
                   ++ added)
             /\ (forall tier,
                   (forall s, In s positive -> TicketSelection.tier s <> tier) ->
                   tier_slice tier
                     (holds (lp_world
                               (fold_left
                                  (holds_iteration now (now + HOLD_CONFIG.holdDurationMs)
                                                   sessionId concertId) positive acc)))
                   = tier_slice tier (holds (lp_world acc)))).
  { induction positive as [|y others IH]; intros acc Hacc.
    - split; [exists []; rewrite app_nil_r; reflexivity|reflexivity].
    - cbn [fold_left].
      pose proof (Hpos y (or_introl eq_refl)) as Hqy.
      destruct (IH (fun s Hs => Hpos s (or_intror Hs))
                   (holds_iteration now (now + HOLD_CONFIG.holdDurationMs)
                                    sessionId concertId acc y)
                   (holds_iteration_wf _ _ _ _ _ _ Hacc)) as [[added2 E2] Hslice].
      split.
      + destruct (holds_iteration_keeps_rows now (now + HOLD_CONFIG.holdDurationMs)
                    sessionId concertId acc y ltac:(lia)) as [added1 E1].
        exists (added1 ++ added2). rewrite E2, E1, app_assoc. reflexivity.
      + intros tier Htier.
        rewrite (Hslice tier (fun s Hs => Htier s (or_intror Hs))).
        apply (holds_iteration_other_tier now (now + HOLD_CONFIG.holdDurationMs)
                 sessionId concertId acc y tier Hacc).
        intros Et. apply (Htier y (or_introl eq_refl)). symmetry. exact Et. }
  apply (Hloop (mkHoldsLoop w [] [])). exact Hwf.
Qed.

(** X24.  The checkout route never releases a hold: whatever the
    selections, every row of the hold table is still there afterwards, in
    place, with its id, owner, concert, tier and creation time, and rows
    are only added at the end.  A tier for which the request selects nothing
    positive keeps its rows entirely, quantity and expiry included, so that
    a tier deselected since an earlier checkout stays held (and is what the
    payment route books, since it reads the selections off the holds). *)
Theorem postCheckout_never_releases :
  forall (now : Z) (sessionId : string) (concertId : option string)
         (selections : list TicketSelection.t) (w : World),
    holds_wf w ->
    (exists added,
        map (fun h => (HoldRow.id h, HoldRow.session_id h, HoldRow.concert_id h,
                       HoldRow.tier h, HoldRow.created_at h))
            (holds (snd (postCheckout now sessionId concertId selections w)))
        = map (fun h => (HoldRow.id h, HoldRow.session_id h, HoldRow.concert_id h,
                         HoldRow.tier h, HoldRow.created_at h))
              (holds w)
          ++ added)
    /\ (forall tier,
          (forall s, In s selections -> TicketSelection.tier s = tier ->
             TicketSelection.quantity s <= 0) ->
          tier_slice tier (holds (snd (postCheckout now sessionId concertId selections w)))
          = tier_slice tier (holds w)).
Proof.
  intros now sessionId concertId selections w Hwf.
  assert (Hsame : (exists added,
                      map (fun h => (HoldRow.id h, HoldRow.session_id h,
                                     HoldRow.concert_id h, HoldRow.tier h,
                                     HoldRow.created_at h)) (holds w)
                      = map (fun h => (HoldRow.id h, HoldRow.session_id h,
                                       HoldRow.concert_id h, HoldRow.tier h,
                                       HoldRow.created_at h)) (holds w)
                        ++ added)
                  /\ (forall tier,
                        (forall s, In s selections -> TicketSelection.tier s = tier ->
                           TicketSelection.quantity s <= 0) ->
                        tier_slice tier (holds w) = tier_slice tier (holds w))).
  { split; [exists []; rewrite app_nil_r; reflexivity|reflexivity]. }
  assert (Hpos : forall s,
             In s (filter (fun s => TicketSelection.quantity s >? 0) selections) ->
             In s selections /\ 0 < TicketSelection.quantity s).
  { intros s Hs. apply filter_In in Hs. destruct Hs as [Hs Hq]. split; [exact Hs|].
    destruct (Z.gtb_spec (TicketSelection.quantity s) 0); [lia|discriminate Hq]. }
  unfold postCheckout.
  destruct concertId as [c|]; [|exact Hsame].
  destruct (String.eqb c EmptyString); [exact Hsame|].
  destruct (negb (validateSelections selections)); [exact Hsame|].
  destruct (filter (fun s => TicketSelection.quantity s >? 0) selections)
    as [|x rest] eqn:Ef; [exact Hsame|].
  rewrite <- Ef in *. clear Hsame. cbv zeta.
  destruct (createOrUpdateHolds_positive_keeps now sessionId c
              (filter (fun s => TicketSelection.quantity s >? 0) selections) w Hwf
              (fun s Hs => proj2 (Hpos s Hs))) as [Hrows Hslice].
  assert (Htiers : forall tier,
             (forall s, In s selections -> TicketSelection.tier s = tier ->
                TicketSelection.quantity s <= 0) ->
             forall s,
               In s (filter (fun s => TicketSelection.quantity s >? 0) selections) ->
               TicketSelection.tier s <> tier).
  { intros tier Htier s Hs Et. destruct (Hpos s Hs) as [Hin Hq].
    specialize (Htier s Hin Et). lia. }
  destruct (HoldsResult.success _); cbn [snd];
    (split; [exact Hrows|intros tier Htier; apply Hslice; apply Htiers; exact Htier]).
Qed.

Lemma postCheckout_never_releases_witness :
  holds_wf (serve (firstn 1 Scenario.deselection) Scenario.seeded)
  /\ tier_slice GA
       (holds (snd (postCheckout 1000 "A" (Some "good-luck"%string)
                      [Scenario.sel VIP 2; Scenario.sel GA 0]
                      (serve (firstn 1 Scenario.deselection) Scenario.seeded))))
     = [HoldRow.mk 1%nat "A" "good-luck" GA 1 0 600000 0].
Proof.
  assert (Hwf : holds_wf (serve (firstn 1 Scenario.deselection) Scenario.seeded)).
  { change (serve (firstn 1 Scenario.deselection) Scenario.seeded)
      with (run [(0, CreateOrUpdateHolds "A" "good-luck"
                       [Scenario.sel VIP 2; Scenario.sel GA 1])]
                (seed [Scenario.concert])).
    apply reachable_wf. }
  split; [exact Hwf|].
  rewrite (proj2 (postCheckout_never_releases 1000 "A" (Some "good-luck"%string)
                    [Scenario.sel VIP 2; Scenario.sel GA 0] _ Hwf) GA).
  - reflexivity.
  - intros s [<-|[<-|[]]]; simpl; intros H; [discriminate H|lia].
Defined.

(** The tier deselected before the second checkout is booked and charged
    with the other. *)
Lemma deselected_tier_is_booked_example :
  map (fun b => (BookingRow.session_id b, BookingRow.total_amount b))
      (bookings (serve Scenario.deselection Scenario.seeded))
  = [("A"%string, 21000)]
  /\ map (fun i => (BookingItemRow.tier i, BookingItemRow.quantity i))
         (booking_items (serve Scenario.deselection Scenario.seeded))
     = [(VIP, 2); (GA, 1)].
Proof. split; reflexivity. Qed.

(* ------------------------------------------------------------------ *)
(** ** From checkout to payment *)

(** An iteration that rejects nothing for a selection of non-zero quantity
    leaves a row of the session for the concert that expires at
    [expiresAt]. *)
Lemma holds_iteration_granted_row now expiresAt sessionId concertId acc selection :
  TicketSelection.quantity selection <> 0 ->
  lp_unavailable (holds_iteration now expiresAt sessionId concertId acc selection)
  = lp_unavailable acc ->
  exists h,
    In h (holds (lp_world (holds_iteration now expiresAt sessionId concertId acc selection)))
    /\ HoldRow.session_id h = sessionId /\ HoldRow.concert_id h = concertId
    /\ HoldRow.expires_at h = expiresAt.
Proof.
  intros Hq Hun. unfold holds_iteration in *.
  destruct (TicketSelection.quantity selection =? 0) eqn:E0;
    [apply Z.eqb_eq in E0; contradiction|].
  destruct (find _ (holds (lp_world acc))) as [existing|] eqn:Ef;
    destruct (_ && _); cbn [lp_unavailable lp_world holds set_holds] in *.
  - exfalso. apply (f_equal (@List.length _)) in Hun.
    rewrite length_app in Hun. simpl in Hun. lia.
  - destruct (find_some _ _ Ef) as [Hin Hkey].
    apply of_session_concert_tier_spec in Hkey. destruct Hkey as [Hs [Hc _]].
    eexists. split.
    + apply in_map_iff. exists existing. split; [|exact Hin].
      rewrite Nat.eqb_refl. reflexivity.
    + simpl. auto.
  - exfalso. apply (f_equal (@List.length _)) in Hun.
    rewrite length_app in Hun. simpl in Hun. lia.
  - eexists. split; [apply in_or_app; right; left; reflexivity|]. simpl. auto.
Qed.

(** A successful [createOrUpdateHolds] for a non-empty list of non-zero
    selections leaves the session with a hold for the concert that expires
    [holdDurationMs] from now. *)
Lemma createOrUpdateHolds_leaves_hold now sessionId concertId selections w :
  selections <> [] ->
  (forall s, In s selections -> TicketSelection.quantity s <> 0) ->
  HoldsResult.success (fst (createOrUpdateHolds now sessionId concertId selections w))
  = true ->
  exists h,
    In h (holds (snd (createOrUpdateHolds now sessionId concertId selections w)))
    /\ HoldRow.session_id h = sessionId /\ HoldRow.concert_id h = concertId
    /\ HoldRow.expires_at h = now + HOLD_CONFIG.holdDurationMs.
Proof.
  intros Hne Hq Hs.
  destruct (createOrUpdateHolds_validation selections) as [[Hcap Htot]|Hno];
    [|destruct (Hno now sessionId concertId w) as [_ [_ [_ Hf]]]; congruence].
  destruct (createOrUpdateHolds_loop now sessionId concertId selections w Hcap Htot)
    as [-> [_ [_ [Hsucc _]]]].
  apply Hsucc in Hs. clear Hsucc.
  destruct (exists_last Hne) as [init [last ->]].
  rewrite fold_left_app in *. cbn [fold_left] in *.
  set (acc := fold_left (holds_iteration now (now + HOLD_CONFIG.holdDurationMs)
                                         sessionId concertId)
                        init (mkHoldsLoop w [] [])) in *.
  assert (Hlast : TicketSelection.quantity last <> 0)
    by (apply Hq; apply in_or_app; right; left; reflexivity).
  apply holds_iteration_granted_row; [exact Hlast|].
  destruct (holds_iteration_results now (now + HOLD_CONFIG.holdDurationMs)
              sessionId concertId acc last)
    as [[_ [E _]]|[[_ [E _]]|[_ [E _]]]]; try exact E.
  rewrite E in Hs. destruct (lp_unavailable acc); discriminate Hs.
Qed.

(** X25.  A session that comes to a sound state without a row for the
    concert that the queries read as expired (a row whose date of expiry is
    before the UTC date of [now]), and gets 200 from the checkout route, is
    not refused at payment while the hold lasts: a payment request made less than
    [holdDurationMs] later, with no request in between, is answered 200 when
    the simulated payment succeeds and 402 with the state unchanged when it
    is declined, never 400 or 409. *)
Theorem checkout_then_payment :
  forall (now now' : Z) (random : Q) (sessionId concertId : string)
         (selections : list TicketSelection.t) (w : World),
    sound now w ->
    (forall h, In h (holds w) -> HoldRow.session_id h = sessionId ->
       HoldRow.concert_id h = concertId ->
       utc_date now <= utc_date (HoldRow.expires_at h)) ->
    Response.status (fst (postCheckout now sessionId (Some concertId) selections w)) = 200 ->
    now <= now' < now + HOLD_CONFIG.holdDurationMs ->
    Response.status
      (fst (postPayment now' random sessionId (Some concertId)
              (snd (postCheckout now sessionId (Some concertId) selections w))))
    = (if simulatePayment random then 200 else 402)
    /\ (simulatePayment random = false ->
        snd (postPayment now' random sessionId (Some concertId)
               (snd (postCheckout now sessionId (Some concertId) selections w)))
        = snd (postCheckout now sessionId (Some concertId) selections w))
    /\ (simulatePayment random = true ->
        getHoldsForConcert now'
          (snd (postPayment now' random sessionId (Some concertId)
                  (snd (postCheckout now sessionId (Some concertId) selections w))))
          sessionId concertId = []).
Proof.
  intros now now' random sessionId concertId selections w Hsound Hfresh Hst Hlt.
  unfold postCheckout in Hst |- *.
  destruct (String.eqb concertId EmptyString) eqn:Ec; [discriminate Hst|].
  destruct (validateSelections selections) eqn:Ev; [|discriminate Hst].
  cbn [negb] in *.
  destruct (filter (fun s => TicketSelection.quantity s >? 0) selections)
    as [|x rest] eqn:Ef; [discriminate Hst|].
  rewrite <- Ef in *. cbv zeta in *.
  destruct (HoldsResult.success
              (fst (createOrUpdateHolds now sessionId concertId
                      (filter (fun s => TicketSelection.quantity s >? 0) selections) w)))
    eqn:Es; [|discriminate Hst].
  cbn [snd]. clear Hst.
  set (positive := filter (fun s => TicketSelection.quantity s >? 0) selections) in *.
  set (w1 := snd (createOrUpdateHolds now sessionId concertId positive w)).
  assert (Hpos : forall s, In s positive -> 0 < TicketSelection.quantity s).
  { intros s Hs. apply filter_In in Hs. destruct Hs as [_ Hq].
    destruct (Z.gtb_spec (TicketSelection.quantity s) 0); [lia|discriminate Hq]. }
  assert (Hs1 : sound now' w1).
  { apply (sound_later now now'); [lia|].
    change w1 with (exec now (CreateOrUpdateHolds sessionId concertId positive) w).
    apply exec_sound; [| |exact Hsound].
    - intros s Hs. specialize (Hpos s Hs). lia.
    - intros h0 H0 H1 H2. apply not_expired_spec. apply Hfresh; assumption. }
  destruct (createOrUpdateHolds_leaves_hold now sessionId concertId positive w)
    as [h [Hin [Hhs [Hhc Hhe]]]].
  { rewrite Ef. discriminate. }
  { intros s Hs. specialize (Hpos s Hs). lia. }
  { exact Es. }
  fold w1 in Hin.
  assert (Hheld : In h (getHoldsForConcert now' w1 sessionId concertId)).
  { apply getHoldsForConcert_In. repeat split; try assumption.
    apply not_expired_ahead. lia. }
  destruct (payment_checks_pass now' sessionId concertId w1 Hs1) as [Hvh [Hvi Hnz]].
  unfold postPayment. rewrite Ec.
  destruct (getHoldsForConcert now' w1 sessionId concertId) as [|y others] eqn:Eh;
    [destruct Hheld|].
  cbv zeta. unfold processBooking. rewrite Eh, Hvh, Hvi.
  destruct (simulatePayment random); cbn [negb].
  - cbn [uuidv4]. destruct (prepare_items _) as [total items].
    cbn [fst snd BookingResult.success Response.status].
    split; [reflexivity|]. split; [discriminate|]. intros _.
    unfold getHoldsForConcert, releaseHolds. cbn [holds set_holds].
    rewrite map_rowToHold.
    induction (holds (record_items _ _ _ _)) as [|r rs IH]; simpl; [reflexivity|].
    destruct (of_session_concert sessionId concertId r) eqn:E; simpl; [exact IH|].
    rewrite E. simpl. exact IH.
  - cbn [fst snd BookingResult.success BookingResult.retryAllowed Response.status].
    split; [reflexivity|]. split; [reflexivity|discriminate].
Qed.

Lemma checkout_then_payment_witness :
  sound 0 Scenario.seeded
  /\ Response.status
       (fst (postCheckout 0 "A" (Some "good-luck"%string) [Scenario.sel VIP 2]
               Scenario.seeded)) = 200
  /\ Response.status
       (fst (postPayment 599999 (1 # 2) "A" (Some "good-luck"%string)
               (snd (postCheckout 0 "A" (Some "good-luck"%string) [Scenario.sel VIP 2]
                       Scenario.seeded)))) = 200.
Proof.
  assert (Hs : sound 0 Scenario.seeded).
  { apply seed_sound.
    - repeat constructor; intros [].
    - intros concert tier [<-|[]]. destruct tier; simpl; lia. }
  split; [exact Hs|]. split; [reflexivity|].
  apply (proj1 (checkout_then_payment 0 599999 (1 # 2) "A" "good-luck"
                  [Scenario.sel VIP 2] Scenario.seeded Hs
                  ltac:(intros h []) eq_refl ltac:(unfold HOLD_CONFIG.holdDurationMs; lia))).
Defined.

(* ------------------------------------------------------------------ *)
(** ** The bookings of a session *)

Lemma insert_by_created_at_In row (sorted : list BookingRow.t) x :
  In x (insert_by_created_at row sorted) <-> x = row \/ In x sorted.
Proof.
  induction sorted as [|y rest IH]; simpl.
  - intuition.
  - destruct (BookingRow.created_at y <=? BookingRow.created_at row); simpl.
    + intuition.
    + rewrite IH. intuition.
Qed.

Lemma order_by_created_at_desc_In (rows : list BookingRow.t) x :
  In x (order_by_created_at_desc rows) <-> In x rows.
Proof.
  unfold order_by_created_at_desc.
  induction rows as [|y rest IH]; simpl; [reflexivity|].
  rewrite insert_by_created_at_In, IH. intuition.
Qed.

Lemma order_by_created_at_desc_length (rows : list BookingRow.t) :
  List.length (order_by_created_at_desc rows) = List.length rows.
Proof.
  unfold order_by_created_at_desc.
  induction rows as [|y rest IH]; simpl; [reflexivity|].
  rewrite <- IH. generalize (fold_right insert_by_created_at [] rest).
  intros l. induction l as [|z l IHl]; simpl; [reflexivity|].
  destruct (BookingRow.created_at z <=? BookingRow.created_at y); simpl;
    [reflexivity|]. rewrite IHl. reflexivity.
Qed.

Lemma order_by_created_at_desc_sorted (rows : list BookingRow.t) :
  StronglySorted (fun a b => BookingRow.created_at b <= BookingRow.created_at a)
                 (order_by_created_at_desc rows).
Proof.
  unfold order_by_created_at_desc.
  induction rows as [|y rest IH]; simpl; [constructor|].
  revert IH. generalize (fold_right insert_by_created_at [] rest).
  intros l Hl. induction l as [|z l IHl]; simpl.
  - constructor; constructor.
  - inversion Hl as [|? ? Hs Hall]; subst.
    destruct (BookingRow.created_at z <=? BookingRow.created_at y) eqn:E.
    + apply Z.leb_le in E. constructor; [exact Hl|].
      constructor; [exact E|].
      rewrite Forall_forall in *. intros x Hx. specialize (Hall x Hx). lia.
    + apply Z.leb_gt in E. constructor; [apply IHl; exact Hs|].
      rewrite Forall_forall in *. intros x Hx.
      apply insert_by_created_at_In in Hx. destruct Hx as [->|Hx]; [lia|].
      apply Hall. exact Hx.
Qed.

Lemma find_booking_unique w (row : BookingRow.t) :
  NoDup (map BookingRow.id (bookings w)) -> In row (bookings w) ->
  find (fun b => Nat.eqb (BookingRow.id b) (BookingRow.id row)) (bookings w) = Some row.
Proof.
  induction (bookings w) as [|x l IH]; intros Hnd Hin; [destruct Hin|].
  simpl in Hnd. inversion Hnd as [|? ? Hx Hl]; subst. simpl.
  destruct (Nat.eqb (BookingRow.id x) (BookingRow.id row)) eqn:E.
  - apply Nat.eqb_eq in E. destruct Hin as [->|Hin]; [reflexivity|].
    exfalso. apply Hx. rewrite E. apply in_map. exact Hin.
  - destruct Hin as [->|Hin]; [rewrite Nat.eqb_refl in E; discriminate E|].
    apply IH; assumption.
Qed.

(** X26.  [getBookingsForSession] lists exactly the bookings of the
    session, one per booking row, each with the items of its id, newest
    first.  Where booking ids are unique, each listed booking is what
    [getBookingById] and the booking route return for its id; and a booking
    that [processBooking] returns is listed for the paying session in the
    state the call leaves. *)
Theorem getBookingsForSession_lists_own :
  forall (w : World) (sessionId : string),
    (forall booking,
        In booking (getBookingsForSession w sessionId) <->
        exists row,
          In row (bookings w) /\ BookingRow.session_id row = sessionId
          /\ booking
             = rowToBooking row
                 (filter (fun i => Nat.eqb (BookingItemRow.booking_id i) (BookingRow.id row))
                         (booking_items w)))
    /\ (forall booking, In booking (getBookingsForSession w sessionId) ->
          Booking.sessionId booking = sessionId)
    /\ StronglySorted (fun a b => Booking.createdAt b <= Booking.createdAt a)
                      (getBookingsForSession w sessionId)
    /\ List.length (getBookingsForSession w sessionId)
       = List.length (filter (fun b => String.eqb (BookingRow.session_id b) sessionId)
                             (bookings w))
    /\ (NoDup (map BookingRow.id (bookings w)) ->
        forall booking, In booking (getBookingsForSession w sessionId) ->
          getBookingById w (Booking.id booking) = Some booking
          /\ getBooking sessionId (Booking.id booking) w = Response.mk 200 (inr booking))
    /\ (bookings_wf w ->
        forall now random concertId selections booking,
          BookingResult.booking
            (fst (processBooking now random sessionId concertId selections w))
          = Some booking ->
          In booking
             (getBookingsForSession
                (snd (processBooking now random sessionId concertId selections w))
                sessionId)).
Proof.
  intros w sessionId.
  assert (Hin : forall w booking,
             In booking (getBookingsForSession w sessionId) <->
             exists row,
               In row (bookings w) /\ BookingRow.session_id row = sessionId
               /\ booking
                  = rowToBooking row
                      (filter (fun i => Nat.eqb (BookingItemRow.booking_id i)
                                                (BookingRow.id row))
                              (booking_items w))).
  { intros w0 booking. unfold getBookingsForSession. rewrite in_map_iff. split.
    - intros [row [E Hrow]]. apply (proj1 (order_by_created_at_desc_In _ _)) in Hrow.
      apply filter_In in Hrow. destruct Hrow as [Hrow Hs]. apply String.eqb_eq in Hs.
      exists row. auto.
    - intros [row [Hrow [Hs E]]]. exists row. split; [auto|].
      apply (proj2 (order_by_created_at_desc_In _ _)). apply filter_In.
      split; [exact Hrow|].
      apply String.eqb_eq. exact Hs. }
  split; [apply Hin|]. split; [|split; [|split; [|split]]].
  - intros booking Hb. apply Hin in Hb. destruct Hb as [row [_ [Hs ->]]]. exact Hs.
  - unfold getBookingsForSession.
    pose proof (order_by_created_at_desc_sorted
                  (filter (fun b => String.eqb (BookingRow.session_id b) sessionId)
                          (bookings w))) as Hs.
    induction Hs as [|row rows Hs IH Hall]; simpl; constructor; [exact IH|].
    rewrite Forall_forall in *. intros b Hb. apply in_map_iff in Hb.
    destruct Hb as [row' [<- Hrow']]. simpl. apply Hall. exact Hrow'.
  - unfold getBookingsForSession. rewrite length_map.
    apply order_by_created_at_desc_length.
  - intros Hnd booking Hb. apply Hin in Hb. destruct Hb as [row [Hrow [Hs ->]]].
    assert (Hget : getBookingById w (BookingRow.id row)
                   = Some (rowToBooking row
                             (filter (fun i => Nat.eqb (BookingItemRow.booking_id i)
                                                       (BookingRow.id row))
                                     (booking_items w)))).
    { unfold getBookingById. rewrite (find_booking_unique w row Hnd Hrow). reflexivity. }
    cbn [rowToBooking Booking.id]. split; [exact Hget|].
    unfold getBooking. rewrite Hget. cbn [rowToBooking Booking.sessionId].
    rewrite Hs, String.eqb_refl. reflexivity.
  - intros Hwf now random concertId selections booking Hbk.
    destruct (processBooking_state now random sessionId concertId selections w)
      as [[_ [Hn _]]|[Hs [_ [_ [Hb _]]]]]; [congruence|].
    rewrite Hb in Hbk. inversion Hbk as [Hbooking]. clear Hbk.
    destruct (processBooking_recorded now random sessionId concertId selections w Hs)
      as [Hbs [His _]].
    apply Hin.
    exists (BookingRow.mk (uuid_state w) sessionId concertId
              (sum_subtotals (map item_of (nonzero selections))) CONFIRMED now (Some now)).
    split; [rewrite Hbs; apply in_or_app; right; left; reflexivity|].
    split; [reflexivity|].
    rewrite His. cbn [BookingRow.id].
    rewrite (filter_items_app _ _ _ _ _ (proj2 Hwf)), Nat.eqb_refl.
    unfold rowToBooking. cbn. rewrite item_rows_back. reflexivity.
Qed.

Lemma getBookingsForSession_lists_own_witness :
  bookings_wf Scenario.a_holds_vip
  /\ In (Booking.mk 1%nat "A" "good-luck" [BookingItem.mk VIP 2 10000 20000] 20000
                    CONFIRMED 1000 (Some 1000))
        (getBookingsForSession
           (snd (processBooking 1000 (1 # 2) "A" "good-luck" [Scenario.sel VIP 2]
                   Scenario.a_holds_vip)) "A")
  /\ getBookingsForSession
       (snd (processBooking 1000 (1 # 2) "A" "good-luck" [Scenario.sel VIP 2]
               Scenario.a_holds_vip)) "B" = [].
Proof.
  assert (Hwf : bookings_wf Scenario.a_holds_vip) by (split; intros ? []).
  split; [exact Hwf|]. split; [|reflexivity].
  exact (proj2 (proj2 (proj2 (proj2 (proj2
           (getBookingsForSession_lists_own Scenario.a_holds_vip "A")))))
         Hwf 1000 (1 # 2) "good-luck"%string [Scenario.sel VIP 2] _ eq_refl).
Defined.

(* ------------------------------------------------------------------ *)
(** ** The card fields of the checkout page *)

Lemma group_by_four_eq (text : list ascii) :
  group_by_four text
  = match text with
    | [] => []
    | a :: tl =>
        match tl with
        | b :: c :: d :: ((e :: _) as rest) =>
            if is_digit a && is_digit b && is_digit c && is_digit d && is_digit e
            then a :: b :: c :: d :: " "%char :: group_by_four rest
            else a :: group_by_four tl
        | _ => a :: group_by_four tl
        end
    end.
Proof. destruct text; reflexivity. Qed.

Lemma digit_not_space (c : ascii) : is_digit c = true -> is_space c = false.
Proof.
  unfold is_digit, is_space. cbv zeta. intros H.
  apply andb_true_iff in H. destruct H as [H1 H2].
  apply Nat.leb_le in H1, H2.
  destruct (9 <=? nat_of_ascii c)%nat eqn:E1, (nat_of_ascii c <=? 13)%nat eqn:E2,
           (Nat.eqb (nat_of_ascii c) 32) eqn:E3, (Nat.eqb (nat_of_ascii c) 160) eqn:E4;
    try reflexivity;
    try (apply Nat.leb_le in E2; lia);
    try (apply Nat.eqb_eq in E3; lia);
    try (apply Nat.eqb_eq in E4; lia).
Qed.

(** What grouping keeps: every character selected by [keep], when the
    space is not. *)
Lemma group_by_four_filter (keep : ascii -> bool) :
  keep " "%char = false ->
  forall text, filter keep (group_by_four text) = filter keep text.
Proof.
  intros Hsp text.
  assert (H : forall n text, (List.length text <= n)%nat ->
                filter keep (group_by_four text) = filter keep text).
  { clear text. induction n as [|n IH]; intros text Hn.
    - destruct text; [reflexivity|simpl in Hn; lia].
    - rewrite group_by_four_eq.
      destruct text as [|a tl]; [reflexivity|]. simpl in Hn.
      assert (Htl : filter keep (group_by_four tl) = filter keep tl)
        by (apply IH; lia).
      destruct tl as [|b [|c [|d [|e rest]]]];
        try (cbn [filter]; cbn [filter] in Htl; rewrite Htl; reflexivity).
      destruct (is_digit a && is_digit b && is_digit c && is_digit d && is_digit e).
      + cbn [filter]. rewrite Hsp.
        rewrite (IH (e :: rest)) by (simpl in *; lia). reflexivity.
      + cbn [filter]. cbn [filter] in Htl. rewrite Htl. reflexivity. }
  apply (H (List.length text)). lia.
Qed.

Lemma group_by_four_chars (text : list ascii) c :
  In c (group_by_four text) -> In c text \/ c = " "%char.
Proof.
  assert (H : forall n text, (List.length text <= n)%nat ->
                In c (group_by_four text) -> In c text \/ c = " "%char).
  { clear text. induction n as [|n IH]; intros text Hn.
    - destruct text; [intros []|simpl in Hn; lia].
    - rewrite group_by_four_eq.
      destruct text as [|a tl]; [intros []|]. simpl in Hn.
      assert (Htl : In c (group_by_four tl) -> In c tl \/ c = " "%char)
        by (apply IH; lia).
      assert (Hdefault : In c (a :: group_by_four tl) -> In c (a :: tl) \/ c = " "%char).
      { intros [->|Hin]; [left; left; reflexivity|].
        destruct (Htl Hin) as [H|H]; [left; right; exact H|right; exact H]. }
      destruct tl as [|b [|c' [|d [|e rest]]]]; try exact Hdefault.
      destruct (is_digit a && is_digit b && is_digit c' && is_digit d && is_digit e);
        [|exact Hdefault].
      intros [->|[->|[->|[->|[<-|Hin]]]]]; simpl; auto 10.
      destruct (IH (e :: rest) ltac:(simpl in *; lia) Hin) as [H|H]; [|auto].
      left. right. right. right. right. exact H. }
  apply (H (List.length text)). lia.
Qed.

(** Grouping adds one space for four characters that have a successor. *)
Lemma group_by_four_length (text : list ascii) :
  text <> [] ->
  (4 * List.length (group_by_four text) + 1 <= 5 * List.length text)%nat.
Proof.
  assert (H : forall n text, (List.length text <= n)%nat -> text <> [] ->
                (4 * List.length (group_by_four text) + 1 <= 5 * List.length text)%nat).
  { clear text. induction n as [|n IH]; intros text Hn Hne.
    - destruct text; [contradiction|simpl in Hn; lia].
    - rewrite group_by_four_eq.
      destruct text as [|a tl]; [contradiction|]. simpl in Hn.
      assert (Htl : tl <> [] ->
                (4 * List.length (group_by_four tl) + 1 <= 5 * List.length tl)%nat)
        by (apply IH; lia).
      assert (Hdefault : (4 * List.length (a :: group_by_four tl) + 1
                          <= 5 * List.length (a :: tl))%nat).
      { destruct tl as [|b tl']; [simpl; lia|].
        specialize (Htl ltac:(discriminate)). cbn [List.length] in *. lia. }
      destruct tl as [|b [|c [|d [|e rest]]]]; try exact Hdefault.
      destruct (is_digit a && is_digit b && is_digit c && is_digit d && is_digit e);
        [|exact Hdefault].
      pose proof (IH (e :: rest) ltac:(simpl in *; lia) ltac:(discriminate)) as Hr.
      cbn [List.length] in *. lia. }
  apply (H (List.length text)). lia.
Qed.

Lemma filter_digits_all (digits : list ascii) (keep : ascii -> bool) :
  (forall c, In c digits -> keep c = true) -> filter keep digits = digits.
Proof.
  induction digits as [|c rest IH]; intros H; simpl; [reflexivity|].
  rewrite (H c (or_introl eq_refl)), IH; [reflexivity|].
  intros x Hx. apply H. right. exact Hx.
Qed.

Lemma firstn_digits (n : nat) (value : list ascii) c :
  In c (firstn n (filter is_digit value)) -> is_digit c = true.
Proof.
  assert (H : forall (text : list ascii) m, In c (firstn m text) -> In c text).
  { induction text as [|x rest IH]; intros [|m] Hin; simpl in Hin;
      try destruct Hin as [Hin|Hin]; try contradiction.
    - left. exact Hin.
    - right. apply (IH m). exact Hin. }
  intros Hin. apply H in Hin. apply filter_In in Hin. apply Hin.
Qed.

(** X27.  The card number field keeps the digits that are typed and
    nothing else: the digits of the formatted text are the first 16 digits
    of the input, in order; the text consists of digits and single spaces
    and is at most 19 characters long; formatting a formatted text changes
    nothing; and the card number counts as complete exactly when at least 16
    digits have been typed.  Likewise the expiry field keeps the first four
    digits, formatting is idempotent, and the date counts as complete
    exactly when at least four digits have been typed. *)
Theorem card_fields_keep_digits :
  forall (value : list ascii),
    filter is_digit (formatCardNumber value) = firstn 16 (filter is_digit value)
    /\ formatCardNumber (formatCardNumber value) = formatCardNumber value
    /\ (List.length (formatCardNumber value) <= 19)%nat
    /\ (forall c, In c (formatCardNumber value) -> is_digit c = true \/ c = " "%char)
    /\ (card_number_complete (formatCardNumber value) = true <->
        (16 <= List.length (filter is_digit value))%nat)
    /\ filter is_digit (formatExpiryDate value) = firstn 4 (filter is_digit value)
    /\ formatExpiryDate (formatExpiryDate value) = formatExpiryDate value
    /\ (expiry_date_complete (formatExpiryDate value) = true <->
        (4 <= List.length (filter is_digit value))%nat).
Proof.
  intros value.
  assert (Hcard : filter is_digit (formatCardNumber value)
                  = firstn 16 (filter is_digit value)).
  { unfold formatCardNumber. cbv zeta.
    rewrite (group_by_four_filter is_digit eq_refl).
    apply filter_digits_all. intros c. apply firstn_digits. }
  assert (Hexp : filter is_digit (formatExpiryDate value)
                 = firstn 4 (filter is_digit value)).
  { unfold formatExpiryDate. cbv zeta.
    set (digits := firstn 4 (filter is_digit value)).
    assert (Hd : filter is_digit digits = digits)
      by (apply filter_digits_all; intros c; apply firstn_digits).
    destruct (2 <=? List.length digits)%nat; [|exact Hd].
    rewrite filter_app. cbn [filter].
    change (is_digit "/"%char) with false. cbv iota.
    rewrite <- filter_app, firstn_skipn. exact Hd. }
  split; [exact Hcard|]. split; [|split; [|split; [|split; [|split; [|split]]]]].
  - unfold formatCardNumber at 1. cbv zeta. rewrite Hcard.
    rewrite firstn_firstn. reflexivity.
  - unfold formatCardNumber. cbv zeta.
    set (digits := firstn 16 (filter is_digit value)).
    assert (Hlen : (List.length digits <= 16)%nat) by apply firstn_le_length.
    destruct digits as [|d ds] eqn:E; [simpl; lia|].
    pose proof (group_by_four_length (d :: ds) ltac:(discriminate)). lia.
  - intros c Hc. unfold formatCardNumber in Hc. cbv zeta in Hc.
    apply group_by_four_chars in Hc. destruct Hc as [Hc|Hc]; [left|right; exact Hc].
    apply (firstn_digits 16 value). exact Hc.
  - unfold card_number_complete, formatCardNumber. cbv zeta.
    rewrite (group_by_four_filter (fun c => negb (is_space c)) eq_refl).
    rewrite filter_digits_all
      by (intros c Hc; apply negb_true_iff, digit_not_space;
          apply (firstn_digits 16 value); exact Hc).
    rewrite Nat.eqb_eq, length_firstn. lia.
  - exact Hexp.
  - unfold formatExpiryDate at 1. cbv zeta. rewrite Hexp, firstn_firstn.
    reflexivity.
  - unfold expiry_date_complete, formatExpiryDate. cbv zeta.
    set (digits := firstn 4 (filter is_digit value)).
    assert (Hlen : List.length digits = Nat.min 4 (List.length (filter is_digit value)))
      by apply length_firstn.
    rewrite Nat.eqb_eq.
    destruct (2 <=? List.length digits)%nat eqn:E2.
    + apply Nat.leb_le in E2.
      rewrite length_app. cbn [List.length]. rewrite length_firstn, length_skipn. lia.
    + apply Nat.leb_gt in E2. lia.
Qed.

Lemma card_fields_keep_digits_witness :
  formatCardNumber (list_ascii_of_string "4111-1111 2222x33334")
  = list_ascii_of_string "4111 1111 2222 3333"
  /\ card_number_complete (formatCardNumber (list_ascii_of_string "4111-1111 2222x33334"))
     = true.
Proof.
  split; [reflexivity|].
  apply (proj1 (proj2 (proj2 (proj2 (proj2
           (card_fields_keep_digits
              (list_ascii_of_string "4111-1111 2222x33334"))))))).
  vm_compute. lia.
Defined.

(* ------------------------------------------------------------------ *)
(** ** Holds lapse when the session falls silent *)

Lemma processHeartbeat_state_bounded now sessionId concertId lastActivityAt isTabVisible w :
  snd (processHeartbeat now sessionId concertId lastActivityAt isTabVisible w) = w
  \/ exists e,
       e <= now + HOLD_CONFIG.holdDurationMs
       /\ snd (processHeartbeat now sessionId concertId lastActivityAt isTabVisible w)
          = set_holds w (update_expiry sessionId concertId e now (holds w)).
Proof.
  destruct (filter (fun h => of_session_concert sessionId concertId h && not_expired now h)
                   (holds w)) as [|first rest] eqn:Ef.
  - left. unfold processHeartbeat. rewrite Ef. reflexivity.
  - rewrite (processHeartbeat_cases now sessionId concertId lastActivityAt isTabVisible
               w first rest Ef).
    cbv zeta.
    destruct (negb isTabVisible);
      [|destruct (now - lastActivityAt >? HOLD_CONFIG.inactivityTimeoutMs)];
      cbn [snd]; [right|left; reflexivity|right];
      eexists; (split; [|reflexivity]);
      unfold HOLD_CONFIG.gracePeriodMs, HOLD_CONFIG.holdDurationMs; lia.
Qed.

Section Stamps.

Variable now : Z.

(** Every row was last touched no later than [now], no earlier than it
    was created, and expires at most [holdDurationMs] after it was last
    touched. *)
Local Abbreviation stamped w :=
  (forall h, In h (holds w) ->
     HoldRow.expires_at h <= HoldRow.last_activity_at h + HOLD_CONFIG.holdDurationMs
     /\ HoldRow.created_at h <= HoldRow.last_activity_at h
     /\ HoldRow.last_activity_at h <= now).

Lemma holds_iteration_stamped sessionId concertId acc selection :
  stamped (lp_world acc) ->
  stamped (lp_world (holds_iteration now (now + HOLD_CONFIG.holdDurationMs)
                       sessionId concertId acc selection)).
Proof.
  intros Hst h Hh.
  destruct (holds_iteration_holds now (now + HOLD_CONFIG.holdDurationMs)
              sessionId concertId acc selection)
    as [[_ E]|[[_ E]|[[_ [existing [_ [_ E]]]]|[_ [_ [_ E]]]]]];
    rewrite E in Hh.
  - apply filter_In in Hh. apply Hst. apply Hh.
  - apply Hst. exact Hh.
  - apply in_map_iff in Hh. destruct Hh as [h0 [Eh Hh0]].
    specialize (Hst h0 Hh0).
    destruct (Nat.eqb (HoldRow.id h0) (HoldRow.id existing)); subst h;
      [simpl; lia|exact Hst].
  - apply in_app_or in Hh. destruct Hh as [Hh|[<-|[]]]; [apply Hst; exact Hh|].
    simpl. lia.
Qed.

Lemma exec_stamped call w : stamped w -> stamped (exec now call w).
Proof.
  intros Hst.
  destruct call as [s c sels|s c last vis|s c|s| |random s c sels]; cbn [exec].
  - destruct (createOrUpdateHolds_state now s c sels w) as [->|[_ [_ ->]]];
      [exact Hst|].
    assert (Hloop : forall acc, stamped (lp_world acc) ->
               stamped
                 (lp_world
                    (fold_left (holds_iteration now (now + HOLD_CONFIG.holdDurationMs) s c)
                               sels acc))).
    { clear Hst. induction sels as [|x rest IH]; intros acc Hacc; [exact Hacc|].
      cbn [fold_left]. apply IH. apply holds_iteration_stamped. exact Hacc. }
    apply (Hloop (mkHoldsLoop w [] [])). exact Hst.
  - destruct (processHeartbeat_state_bounded now s c last vis w) as [->|[e [He ->]]];
      [exact Hst|].
    intros h Hh. cbn [holds set_holds] in Hh. unfold update_expiry in Hh.
    apply in_map_iff in Hh. destruct Hh as [h0 [Eh Hh0]].
    specialize (Hst h0 Hh0).
    destruct (of_session_concert s c h0); subst h; [simpl; lia|exact Hst].
  - intros h Hh. simpl in Hh. apply filter_In in Hh. apply Hst. apply Hh.
  - intros h Hh. simpl in Hh. apply filter_In in Hh. apply Hst. apply Hh.
  - intros h Hh. simpl in Hh. apply filter_In in Hh. apply Hst. apply Hh.
  - intros h Hh.
    destruct (processBooking_holds now random s c sels w) as [E|E]; rewrite E in Hh.
    + apply Hst. exact Hh.
    + apply filter_In in Hh. apply Hst. apply Hh.
Qed.

End Stamps.

(** X28.  No hold outlives the last request that touched it by more than
    [holdDurationMs]: along any chronological history from a seeded
    database, every row expires at most [holdDurationMs] after its
    [last_activity_at], which is no earlier than its [created_at] and no
    later than the last call.  So once [holdDurationMs] have passed since
    the last call, every hold has expired.  The queries go on counting and
    returning the holds until the UTC date of their expiry has passed: once
    the UTC date of the last call plus [holdDurationMs] has passed, no
    session has a hold left, nothing is counted as held, and what is
    available of a tier is what is unsold. *)
Theorem holds_lapse_after_silence :
  forall (concerts : list SeedConcert.t) (history : list (Z * Call)) (t0 : Z),
    chronological t0 history ->
    (forall h, In h (holds (run history (seed concerts))) ->
       HoldRow.expires_at h <= HoldRow.last_activity_at h + HOLD_CONFIG.holdDurationMs
       /\ HoldRow.created_at h <= HoldRow.last_activity_at h
       /\ HoldRow.last_activity_at h <= last_instant t0 history)
    /\ (forall now,
          last_instant t0 history + HOLD_CONFIG.holdDurationMs <= now ->
          (forall h, In h (holds (run history (seed concerts))) ->
             HoldRow.expires_at h <= now)
          /\ (forall concertId tier,
                unexpired_quantity now (run history (seed concerts)) concertId tier = 0))
    /\ (forall now,
          utc_date (last_instant t0 history + HOLD_CONFIG.holdDurationMs) < utc_date now ->
          (forall sessionId,
              getHoldsForSession now (run history (seed concerts)) sessionId = [])
          /\ (forall concertId tier,
                heldQuantity now (run history (seed concerts)) concertId tier = 0)
          /\ (forall concertId tier inventory,
                select_inventory (run history (seed concerts)) concertId tier
                = Some inventory ->
                getAvailableQuantity now (run history (seed concerts)) concertId tier
                = InventoryRow.total_quantity inventory
                  - InventoryRow.sold_quantity inventory)).
Proof.
  intros concerts history t0 Hchron.
  assert (Hweaken : forall t t' w, t <= t' ->
             (forall h, In h (holds w) ->
                HoldRow.expires_at h
                <= HoldRow.last_activity_at h + HOLD_CONFIG.holdDurationMs
                /\ HoldRow.created_at h <= HoldRow.last_activity_at h
                /\ HoldRow.last_activity_at h <= t) ->
             forall h, In h (holds w) ->
               HoldRow.expires_at h
               <= HoldRow.last_activity_at h + HOLD_CONFIG.holdDurationMs
               /\ HoldRow.created_at h <= HoldRow.last_activity_at h
               /\ HoldRow.last_activity_at h <= t').
  { intros t t' w Hle H h Hh. specialize (H h Hh). lia. }
  assert (Hrun : forall w t0,
             chronological t0 history ->
             (forall h, In h (holds w) ->
                HoldRow.expires_at h
                <= HoldRow.last_activity_at h + HOLD_CONFIG.holdDurationMs
                /\ HoldRow.created_at h <= HoldRow.last_activity_at h
                /\ HoldRow.last_activity_at h <= t0) ->
             forall h, In h (holds (run history w)) ->
               HoldRow.expires_at h
               <= HoldRow.last_activity_at h + HOLD_CONFIG.holdDurationMs
               /\ HoldRow.created_at h <= HoldRow.last_activity_at h
               /\ HoldRow.last_activity_at h <= last_instant t0 history).
  { clear Hchron t0. unfold run, last_instant.
    induction history as [|[t call] rest IH]; intros w t0 Hchron Hw; [exact Hw|].
    simpl in Hchron. destruct Hchron as [Hle Hchron]. cbn [fold_left fst snd].
    apply IH; [exact Hchron|].
    apply exec_stamped. apply (Hweaken t0 t w Hle Hw). }
  pose proof (Hrun (seed concerts) t0 Hchron ltac:(intros h [])) as Hst.
  assert (Hnil : forall (q : HoldRow.t -> bool) (hs : list HoldRow.t),
             (forall h, In h hs -> q h = false) ->
             forall (p : HoldRow.t -> bool), filter (fun h => p h && q h) hs = []).
  { intros q hs Hq p.
    induction hs as [|h hs IH]; [reflexivity|].
    cbn [filter]. rewrite (Hq h (or_introl eq_refl)), andb_false_r. apply IH.
    intros x Hx. apply Hq. right. exact Hx. }
  split; [exact Hst|]. split.
  - intros now Hnow.
    assert (Hpast : forall h, In h (holds (run history (seed concerts))) ->
                      HoldRow.expires_at h <= now)
      by (intros h Hh; specialize (Hst h Hh); lia).
    split; [exact Hpast|].
    intros concertId tier. unfold unexpired_quantity.
    rewrite (Hnil (fun h => now <? HoldRow.expires_at h)); [reflexivity|].
    intros h Hh. apply Z.ltb_ge. apply Hpast. exact Hh.
  - intros now Hnow.
    assert (Hnone : forall (p : HoldRow.t -> bool),
               filter (fun h => p h && not_expired now h)
                      (holds (run history (seed concerts))) = []).
    { apply Hnil. intros h Hh. rewrite not_expired_utc_date. apply Z.leb_gt.
      apply (Z.le_lt_trans _ (utc_date (last_instant t0 history
                                        + HOLD_CONFIG.holdDurationMs)));
        [|exact Hnow].
      apply utc_date_mono. specialize (Hst h Hh). lia. }
    split; [|split].
    + intros sessionId. unfold getHoldsForSession. rewrite Hnone. reflexivity.
    + intros concertId tier. unfold heldQuantity. rewrite Hnone. reflexivity.
    + intros concertId tier inventory Hsel. unfold getAvailableQuantity, heldQuantity.
      rewrite Hsel, Hnone. simpl. lia.
Qed.

Lemma holds_lapse_after_silence_witness :
  chronological 0 Scenario.revival
  /\ unexpired_quantity 87000001 (run Scenario.revival (seed [Scenario.concert]))
       "good-luck" VIP = 0
  /\ heldQuantity 87000001 (run Scenario.revival (seed [Scenario.concert]))
       "good-luck" VIP = 4
  /\ getAvailableQuantity 172800000 (run Scenario.revival (seed [Scenario.concert]))
       "good-luck" VIP = 2.
Proof.
  assert (Hchron : chronological 0 Scenario.revival)
    by (vm_compute; repeat split; discriminate).
  split; [exact Hchron|].
  split.
  { apply (proj2 (proj1 (proj2 (holds_lapse_after_silence [Scenario.concert]
                                  Scenario.revival 0 Hchron)) 87000001
                          ltac:(vm_compute; discriminate))). }
  split; [reflexivity|].
  apply (proj2 (proj2 (proj2 (proj2 (holds_lapse_after_silence [Scenario.concert]
                                       Scenario.revival 0 Hchron)) 172800000
                               ltac:(vm_compute; reflexivity)))
           "good-luck"%string VIP (InventoryRow.mk "good-luck" VIP 2 0)).
  reflexivity.
Defined.
